(* ===== verification/_CoqProject ===== *)
-Q . S2P
Prelude.v
PyDict.v
PyStr.v
PyObj.v
Json.v
PyPath.v
Fs.v
FsWf.v
FsPost.v
Glob.v
Io.v
Config.v
Commands.v
Main.v
Argv.v
Invariant.v
Modes.v
Process.v
Registry.v
PostState.v
Sync.v
RmError.v
Loops.v
Scenarios.v
