(* ===== verification/Prelude.v ===== *)
(** * A verification development for AppImageManager ([src/app.py])

    The program is one Python script, [src/app.py], that installs AppImage
    bundles for a user.  It keeps three file-system artefacts per
    installation (the bundle under [~/.appimages], a launcher script under
    [~/.local/bin], a desktop entry under [~/.local/share/applications]) and
    one JSON registry, [~/.appimage_installer_config.json], mapping launch
    commands to installation records.  Every sub-command ([add], [rm],
    [edit], [sync], [list]) is a straight-line procedure: load the registry,
    touch the file system, mutate the registry in memory, save it.

    ** The files, in dependency order

    - [Prelude] (this file): the state-and-exception monad [stm] in which
      every statement of the script is written (a statement that raises
      keeps the effects made before it), its notation [x <- m ;; k] in
      [py_scope], the error monad [E + A] with [x <-? m ;; k], the loops
      [st_iter] and [st_foldl], the inversion tactic [st_inv], the hint
      databases [appimg] and [io_rw], and shared string lemmas.
    - [PyDict]: Python's insertion-ordered [dict] as an association list
      ([dict_get], [dict_setitem], [dict_remove], [dict_delitem]), its
      invariant (distinct keys), its refinement into stdpp's [gmap]
      ([to_gmap]) and the setoid [dict_equiv] with [Proper] instances.
    - [PyStr]: the [str] methods the script calls on Latin-1 text
      ([lower], [replace], [int()], decimal printing, [rfind]).
    - [PyObj]: the values [json.load] builds ([pyval]), the exceptions
      ([exc]), and Python's dynamic operations on values as the script
      applies them ([in], [x[k]], [x[k] = v], [del], [.items()],
      truthiness, [str]/[repr]), each with the exception CPython raises.
    - [Json]: [json.dump(indent=2)] ([dumps]) and [json.load] ([loads], a
      recursive-descent parser with fuel the length of the text).
    - [PyPath]: [pathlib.PurePosixPath]: [Path(s)], [str(p)], [p / s],
      [.name], [.stem], [.suffix], [.parent], and the paths [Path(s)]
      builds ([path_wf]).
    - [Fs]: the file system as a [gmap] from resolved locations to inodes,
      Linux path resolution ([walk]), and the primitives the script calls
      with CPython 3.12's semantics: [exists], [unlink], [open('w')],
      [write], [read], [chmod], [Path.mkdir], [os.rename], [shutil.move],
      [shutil.which].
    - [FsWf]: the file system's invariant [fs_wf] (the root is a
      directory, every entry lies in one) and its preservation by every
      primitive, [os.rename] and [shutil.move] of whole directories
      included ([move_tree_lookup] describes a moved subtree).
    - [FsPost]: what the primitives leave behind: [grows] (nothing
      disappears, directories stay directories) for the creating
      primitives, [moved] for [os.rename] and [shutil.move] (the source
      subtree is found under the destination and nothing else changes),
      and [plain_path] (absolute, without [".."]), for which
      [Path.exists()] is presence of the path's components as a key.
    - [Glob]: [fnmatch] patterns and [Path.glob]'s selectors.
    - [Io]: the [world] (file system, environment, stdin, stdout), the
      monad [io] on it, [print], [input], [get_user_input] (lines 25-30),
      [Path.home()], the lifted primitives, and [preserves f m] (every run
      of [m] keeps [f] of the world) with its tactic [preserves_solve].
    - [Config]: [CONFIG_FILE], [load_config], [save_config] (lines
      10-22) against the interface [JsonCodec] (a [Class]: an encoder, a
      decoder and the round-trip law), implemented by [Json]; [registry w]
      is what [load_config] returns in [w].
    - [Commands]: one definition per function of the script, statement
      by statement: [sync_appimages], [select_appimage] (its loop
      [choose_loop]), [check_command_exists], [get_unique_command] (its
      loop [unique_loop]), [create_desktop_file], [add_appimage],
      [remove_appimage], [list_appimages], [edit_command].
    - [Main]: the parsed command line ([cli]), [main]'s dispatch and the
      exit status of a run.
    - [Argv]: [argparse] as lines 285-322 use it.  The parser is data
      ([top_actions], [sub_parsers], one [action] per [add_argument]), and
      [parse_args] is CPython 3.12.3's algorithm on it: [classify_args]
      ([_parse_optional]), [match_arguments_partial] (the nargs patterns
      matched with [re.match]'s backtracking), [consume_loop]
      ([_parse_known_args]), [take_action] and [get_values].  [main_ns]
      dispatches on the namespace (lines 324-333), and [script] is the
      process from [sys.argv[1:]].  Usage errors are [SystemExit 2],
      [-h] is [SystemExit 0].
    - [Invariant]: [keeps P m] (every run of [m] keeps [P] of the world),
      its tactic [keeps_solve], the interface [FsInvariant Q] (a [Class]:
      each primitive the script calls keeps the property [Q] of the file
      system), the theorem [keeps_main] that every sub-command keeps every
      such [Q], and its instance [fs_wf]: every run keeps the file system
      well formed.
    - [Modes]: the second instance, [modes_ok]: file modes stay nine
      permission bits; [0o666 & ~umask] has no execute bit.
    - [Process]: the script run again and again: [invoke] is one run of
      [run_argv] on any command line, with the files the previous run
      left and any input and environment; [keeps_main_ns] extends
      [keeps_main] to every namespace, so every [FsInvariant] holds along
      any sequence of runs ([session_holds]).
    - [Registry]: the contract of the sub-commands on the registry seen as
      a map ([reg_remove], [reg_assign], [reg_rename], [reg_sync_extends])
      and the refinement theorems.
    - [PostState]: the state a successful [add], [rm] or [edit] leaves
      (the files [add] creates exist, the bundle [rm] moves back is in
      [~/Downloads] and no longer where the record said, the launcher
      [edit] renames has its new name and the old one is gone), what
      [list] prints, and the error paths of [rm] and [edit] on missing
      files; the tactics [steps_inv], [wf_forward] and [exists_forward]
      follow a run statement by statement.
    - [Sync]: [sync] is idempotent: the frame of writing a file (no path
      resolves differently, no other path appears or disappears, no
      directory it is not in lists differently) shows that the second
      run sees what the first saw, and finds every command registered.
    - [RmError]: an [rm] that raises leaves the registry as it was: a
      frame argument ([agrees_above]) over each step of the run.
    - [Loops]: termination, soundness and progress of the two [while]
      loops.
    - [Scenarios]: a concrete machine, the runs the findings are about,
      the scenarios of the specification, and the witnesses.

    ** What is proved

    The theorems about the program, by group:
    - Refinement: a run of [rm], [edit], [add] that finishes normally
      stores the registry the contract describes ([Registry]); [sync]
      only adds records it rebuilt; [list] and [rm] of an unknown command
      change no file ([Commands]).
    - Command line: the line that asks for a [cli] parses back to it, so
      the process on that line is [main] on the [cli]; every namespace
      [parse_args] returns names one of the five sub-commands (an
      invariant of the parse state kept by every action); an unknown
      sub-command exits with status 2 and changes nothing; [-h] or an
      abbreviation of [--help] first exits with status 0 whatever
      follows; [add NAME -i ICON COMMAND] is rejected for every NAME,
      ICON and COMMAND ([Argv]).
    - Post-states: after a successful [add] the launcher, the desktop
      entry and the bundle exist where the new record says, and the
      launcher has mode [0o755] whatever the umask; after a successful
      [rm] without [-d] the bundle is back in [~/Downloads]; after a
      successful [edit] the launcher is renamed; [list] prints
      [command: app_name] for every registered command ([PostState]);
      a second [sync] stores the registry the first stored ([Sync]).
    - Error paths: [add] exits with status 1 and changes no file when
      nothing is selected, no bundle matching or the only one declined
      ([Main]); an [rm] that raises leaves the registry as it was, the
      command still registered ([RmError]); [rm] skips missing files and
      still succeeds; [edit] with a missing launcher raises
      [FileNotFoundError] and changes nothing ([PostState]); [edit c c]
      loses the record ([Registry]).
    - Round trip: [load_config] after [save_config] ([Config], for any
      lawful codec).
    - Loops: [get_unique_command] returns the first free name and never
      exhausts its fuel; [choose_loop] needs one round per line of input
      plus one, returns the bundle of the first valid answer after
      invalid ones and only then, and raises only [EOFError] ([Loops]).

    The library models carry their own lemmas, which the theorems above
    use: the dict refines [gmap] ([PyDict]); [json.loads] inverts
    [json.dump] ([Json]); [int(str(z)) == z] ([PyStr]); [Path(str(p)) == p]
    and every path [Path(s)], [/] and [.parent] build is well formed
    ([PyPath]); [Path.glob(f"{n}*.AppImage")] lists the entries named
    [n + ... + ".AppImage"] ([Glob]); the argparse loop ends within one
    round per argument, and its nargs matcher is [re.match]'s
    backtracking ([Argv]); every primitive keeps the file system a tree
    and the modes within nine bits, along any sequence of runs
    ([FsWf], [Modes], [Process]).

    The runs the findings are about are computed on a concrete machine
    in [Scenarios]: an empty answer to the new-command prompt, or a
    missing [~/Downloads], leave the installation half done; [force],
    and [edit] onto a registered command, orphan the previous install; a
    command with [".."] puts the launcher outside [~/.local/bin], up to
    the registry file itself.

    ** Fuel and bounds

    - [choose_loop] gets the number of lines on standard input plus one:
      every round reads a line or raises [EOFError]
      ([choose_loop_enough_fuel]).
    - [unique_loop] gets the number of entries of the file system plus
      one: every name it skips is an executable file whose last component
      is that name, so [n] skipped names are [n] distinct entries
      ([taken_bound]).
    - [loads] gets the length of the text plus one: each nesting level
      consumes a character.
    - [Path.mkdir(parents=True)] recurses on the number of components.
    - [consume_loop] gets the number of arguments plus one: every round
      consumes at least one argument ([consume_loop_enough]).

    ** What is not modelled

    - [argparse]'s help and usage texts, and the text of tracebacks:
      [-h] and usage errors are modelled by the exit status only, the
      world left as it was.  [HelpFormatter] wraps its text to the width
      [shutil.get_terminal_size()] reports ([COLUMNS], else the terminal
      of standard output), and names the program by [sys.argv[0]];
      neither is part of the world, so the text is not determined by
      what is modelled, and standard error is not modelled at all.  The release modelled is CPython
      3.12 before 3.12.7, whose fix of bpo-15112 lets a ['?'] positional
      wait for arguments after an option.
    - JSON numbers with a fraction or an exponent, and [\u] escapes above
      [0xFF]: [loads] rejects them (CPython would accept them).
    - Text outside Latin-1; symbolic links, ownership, and the meaning of
      permission bits other than the execute bits (modes are kept as
      integers); other processes, between runs or during one.
    - The order in which the operating system lists a directory: the
      model lists it in key order, and no theorem depends on the order.
    - [shutil.move]'s test that a directory is not moved into itself
      compares path strings; the model compares normalised components,
      identifying the root spellings ["/"] and ["//"]. *)

From stdpp Require Export base list option strings gmap pretty.
From Stdlib Require Export ZArith Ascii String.

Declare Scope py_scope.
Delimit Scope py_scope with py.
Open Scope py_scope.

Create HintDb appimg discriminated.
Create Rewrite HintDb io_rw.

(** ** The state-and-exception monad

    A Python statement runs on a state and either finishes with a value or
    raises an exception; in both cases the effects it made before are kept.
    [stm S E A] is such a computation on state [S] with exceptions [E]. *)

Inductive outcome (E A : Type) : Type :=
  | Ok (a : A)
  | Raise (e : E).
Arguments Ok {E A} a.
Arguments Raise {E A} e.

Definition stm (S E A : Type) : Type := S -> outcome E A * S.

Section Stm.
Context {S E : Type}.

Definition st_ret {A} (a : A) : stm S E A := fun s => (Ok a, s).

Definition st_bind {A B} (m : stm S E A) (f : A -> stm S E B) : stm S E B :=
  fun s =>
    match m s with
    | (Ok a, s') => f a s'
    | (Raise e, s') => (Raise e, s')
    end.

Definition st_raise {A} (e : E) : stm S E A := fun s => (Raise e, s).

Definition st_get : stm S E S := fun s => (Ok s, s).

Definition st_put (s : S) : stm S E unit := fun _ => (Ok tt, s).

Definition st_modify (f : S -> S) : stm S E unit := fun s => (Ok tt, f s).

(** Lift a fallible pure computation: [None] becomes the exception [e]. *)
Definition st_of_option {A} (e : E) (o : option A) : stm S E A :=
  match o with Some a => st_ret a | None => st_raise e end.

Definition st_of_sum {A} (r : E + A) : stm S E A :=
  match r with inl e => st_raise e | inr a => st_ret a end.

Fixpoint st_iter {A} (f : A -> stm S E unit) (l : list A) : stm S E unit :=
  match l with
  | [] => st_ret tt
  | x :: l' => st_bind (f x) (fun _ => st_iter f l')
  end.

Lemma st_bind_ret_l {A B} (a : A) (f : A -> stm S E B) s :
  st_bind (st_ret a) f s = f a s.
Proof. reflexivity. Qed.

Lemma st_bind_ret_r {A} (m : stm S E A) s :
  st_bind m st_ret s = m s.
Proof. unfold st_bind, st_ret. by destruct (m s) as [[] ?]. Qed.

Lemma st_bind_assoc {A B C} (m : stm S E A) (f : A -> stm S E B)
      (g : B -> stm S E C) s :
  st_bind (st_bind m f) g s = st_bind m (fun x => st_bind (f x) g) s.
Proof. unfold st_bind. by destruct (m s) as [[] ?]. Qed.

Lemma st_bind_raise {A B} (e : E) (f : A -> stm S E B) s :
  st_bind (st_raise e) f s = (Raise e, s).
Proof. reflexivity. Qed.

Lemma st_bind_ok {A B} (m : stm S E A) (f : A -> stm S E B) s a s' :
  m s = (Ok a, s') -> st_bind m f s = f a s'.
Proof. unfold st_bind. by intros ->. Qed.

Lemma st_bind_exc {A B} (m : stm S E A) (f : A -> stm S E B) s e s' :
  m s = (Raise e, s') -> st_bind m f s = (Raise e, s').
Proof. unfold st_bind. by intros ->. Qed.

(** A bind that finished normally: both halves did. *)
Lemma st_bind_ok_inv {A B} (m : stm S E A) (f : A -> stm S E B) s b s' :
  st_bind m f s = (Ok b, s') -> exists a s1, m s = (Ok a, s1) /\ f a s1 = (Ok b, s').
Proof. unfold st_bind. destruct (m s) as [[a|e] s1]; [eauto | done]. Qed.

(** A bind that raised: the first half raised, or it finished and the
    second half raised. *)
Lemma st_bind_raise_inv {A B} (m : stm S E A) (f : A -> stm S E B) s e s' :
  st_bind m f s = (Raise e, s') ->
  m s = (Raise e, s') \/ exists a s1, m s = (Ok a, s1) /\ f a s1 = (Raise e, s').
Proof. unfold st_bind. destruct (m s) as [[a|e'] s1]; [eauto | intros [= -> ->]; auto]. Qed.

(** A [for] loop that updates an accumulator. *)
Fixpoint st_foldl {A B} (f : A -> B -> stm S E A) (a : A) (l : list B) : stm S E A :=
  match l with
  | [] => st_ret a
  | x :: l' => st_bind (f a x) (fun a' => st_foldl f a' l')
  end.

(** A property of the accumulator that every round keeps holds at the end. *)
Lemma st_foldl_inv {A B} (P : A -> Prop) (f : A -> B -> stm S E A) a l s b s' :
  (forall a x s a' s', x ∈ l -> P a -> f a x s = (Ok a', s') -> P a') ->
  P a -> st_foldl f a l s = (Ok b, s') -> P b.
Proof.
  revert a s. induction l as [|x l IH]; intros a s Hf Ha Hrun; simpl in Hrun.
  - by injection Hrun as <- _.
  - apply st_bind_ok_inv in Hrun as (a1 & s1 & H1 & H2).
    eapply IH; [| eapply Hf; [left | exact Ha | exact H1] | exact H2].
    intros ??????. apply Hf. by right.
Qed.

Lemma st_iter_app {A} (f : A -> stm S E unit) l1 l2 s :
  st_iter f (l1 ++ l2) s = st_bind (st_iter f l1) (fun _ => st_iter f l2) s.
Proof.
  revert s. induction l1 as [|x l1 IH]; intros s; [done|]. simpl.
  rewrite st_bind_assoc. unfold st_bind at 1 2.
  destruct (f x s) as [[[]|e] s1]; [apply IH | done].
Qed.
End Stm.

Notation "x <- m ;; k" := (st_bind m (fun x => k))
  (at level 100, m at next level, right associativity) : py_scope.
Notation "m ;; k" := (st_bind m (fun _ => k))
  (at level 100, right associativity) : py_scope.
Notation "'ret' a" := (st_ret a) (at level 10) : py_scope.

#[export] Hint Rewrite @st_bind_ret_l @st_bind_raise : io_rw.

(** [run_ok] / [run_exc]: rewrite a bind whose first computation is known. *)
Ltac st_step H :=
  first [ rewrite (st_bind_ok _ _ _ _ _ H) | rewrite (st_bind_exc _ _ _ _ _ H) ].

(** Split every hypothesis [st_bind m f s = (Ok b, s')] into its two
    halves. *)
Ltac st_inv_step :=
  match goal with
  | H : st_bind _ _ _ = (Ok _, _) |- _ =>
      let a := fresh "a" in let s1 := fresh "s" in let H1 := fresh "Hrun" in
      apply st_bind_ok_inv in H; destruct H as (a & s1 & H1 & H); cbv beta in H
  | H : st_ret _ _ = (Ok _, _) |- _ => injection H as <- <-
  end.

Ltac st_inv := repeat st_inv_step.

(** ** Shared lemmas on lists and strings *)

Lemma NoDup_map_fst_app {A B} (l1 l2 : list (A * B)) :
  NoDup (map fst (l1 ++ l2)) <->
  NoDup (map fst l1) /\ NoDup (map fst l2) /\
  (forall x, x ∈ map fst l1 -> x ∉ map fst l2).
Proof.
  rewrite map_app, NoDup_app. naive_solver.
Qed.

(** stdpp makes [String.append] [simpl never]; these two equations are
    its computation rules. *)
Lemma string_app_nil_l (s : string) : "" +:+ s = s.
Proof. reflexivity. Qed.

Lemma string_app_cons c (s1 s2 : string) :
  String c s1 +:+ s2 = String c (s1 +:+ s2).
Proof. reflexivity. Qed.

#[export] Hint Rewrite string_app_nil_l string_app_cons : io_rw.

Lemma string_app_assoc (s1 s2 s3 : string) :
  s1 +:+ s2 +:+ s3 = (s1 +:+ s2) +:+ s3.
Proof. induction s1 as [|c s IH]; [done|]. rewrite !string_app_cons. by f_equal. Qed.

Lemma string_app_nil_r (s : string) : s +:+ "" = s.
Proof. induction s as [|c s IH]; [done|]. rewrite string_app_cons. by f_equal. Qed.

#[export] Hint Rewrite string_app_nil_r : io_rw.

Lemma string_length_app (s1 s2 : string) :
  String.length (s1 +:+ s2) = String.length s1 + String.length s2.
Proof. induction s1 as [|c s IH]; [done|]. rewrite string_app_cons. simpl. by rewrite IH. Qed.

#[export] Hint Rewrite string_length_app : io_rw.

(** ** The error monad [E + A] of the pure primitives *)

Definition sum_bind {E A B} (m : E + A) (f : A -> E + B) : E + B :=
  match m with inl e => inl e | inr a => f a end.

Notation "x <-? m ;; k" := (sum_bind m (fun x => k))
  (at level 100, m at next level, right associativity) : py_scope.

Lemma sum_bind_inr {E A B} (a : A) (f : A -> E + B) : sum_bind (inr a) f = f a.
Proof. reflexivity. Qed.

Lemma sum_bind_inl {E A B} (e : E) (f : A -> E + B) : sum_bind (inl e) f = inl e.
Proof. reflexivity. Qed.

#[export] Hint Rewrite @sum_bind_inr @sum_bind_inl : io_rw.

(** Apply a fallible function to each element and concatenate the
    results, stopping at the first error: a generator consumed by
    [list(...)] or a [for] loop. *)
Fixpoint sum_concat_map {E A B} (f : A -> E + list B) (l : list A) : E + list B :=
  match l with
  | [] => inr []
  | x :: l' => ys <-? f x ;; zs <-? sum_concat_map f l' ;; inr (ys ++ zs)
  end.

Lemma sum_concat_map_inr {E A B} (f : A -> E + list B) (l : list A) :
  (forall x, x ∈ l -> exists ys, f x = inr ys) ->
  sum_concat_map f l = inr (mjoin (map (fun x => match f x with inr ys => ys | inl _ => [] end) l)).
Proof.
  induction l as [|x l IH]; intros Hf; [done|]. simpl.
  destruct (Hf x) as [ys ->]; [set_solver|]. simpl.
  rewrite IH; [done|]. intros y Hy. apply Hf. set_solver.
Qed.

Lemma sum_concat_map_single {E A B} (g : A -> B) (l : list A) :
  sum_concat_map (E:=E) (fun x => inr [g x]) l = inr (map g l).
Proof. induction l as [|x l IH]; [done|]. simpl. by rewrite IH. Qed.

Lemma filter_Forall_id {A} (P : A -> Prop) `{!forall x, Decision (P x)} l :
  Forall P l -> filter P l = l.
Proof. induction 1; [done|]. rewrite filter_cons_True by done. by f_equal. Qed.

Lemma forallb_removelast {A} (f : A -> bool) l : forallb f l = true -> forallb f (removelast l) = true.
Proof.
  induction l as [|x [|y l] IH]; [done..|]. simpl in *.
  intros [Hx Hl]%andb_true_iff. simpl. rewrite Hx. by apply IH.
Qed.
