(* ===== verification/PyDict.v ===== *)
(** * Python's [dict] as an insertion-ordered association list

    The registry of [src/app.py] is a Python [dict] (the value [json.load]
    returns, mutated by [config[k] = v] and [del config[k]] and enumerated
    by [config.items()]).  Since Python 3.7 a dict remembers insertion
    order: assigning to an existing key keeps its position, a new key goes
    to the end, and [del] removes the entry.  [list_appimages] prints the
    entries in that order and [json.dump] writes them in that order, so the
    model keeps the order: a dict is a list of pairs.

    The abstract view is stdpp's [gmap]: [to_gmap] forgets the order, and
    each operation refines the corresponding map operation.  [dict_equiv]
    (same lookups) is the equivalence under which two dicts are the same
    mapping, i.e. Python's [==] on dicts. *)

From S2P Require Import Prelude.

Definition dict (K V : Type) : Type := list (K * V).

Section PyDict.
Context {K V : Type} `{EqDecision K}.
Implicit Types (d : dict K V) (k : K) (v : V).

(** [d.get(k)]; [d[k]] is this with [KeyError] on [None]. *)
Fixpoint dict_get d k : option V :=
  match d with
  | [] => None
  | (k', v') :: d' => if decide (k = k') then Some v' else dict_get d' k
  end.

(** [k in d] *)
Definition dict_contains d k : bool :=
  match dict_get d k with Some _ => true | None => false end.

(** [d[k] = v]: an existing key keeps its place, a new one is appended. *)
Fixpoint dict_setitem d k v : dict K V :=
  match d with
  | [] => [(k, v)]
  | (k', v') :: d' =>
      if decide (k = k') then (k', v) :: d' else (k', v') :: dict_setitem d' k v
  end.

Fixpoint dict_remove d k : dict K V :=
  match d with
  | [] => []
  | (k', v') :: d' => if decide (k = k') then d' else (k', v') :: dict_remove d' k
  end.

(** [del d[k]]: [None] is the [KeyError] raised for a missing key. *)
Definition dict_delitem d k : option (dict K V) :=
  if dict_contains d k then Some (dict_remove d k) else None.

Definition dict_keys d : list K := map fst d.

(** [dict(pairs)]: later duplicates overwrite earlier ones in place. *)
Definition dict_of_pairs (l : list (K * V)) : dict K V :=
  foldl (fun d kv => dict_setitem d kv.1 kv.2) [] l.

(** The representation invariant: no key occurs twice. *)
Definition dict_wf d : Prop := NoDup (dict_keys d).

(** ** Lookups after each operation *)

Lemma dict_get_setitem d k k' v :
  dict_get (dict_setitem d k v) k' = if decide (k' = k) then Some v else dict_get d k'.
Proof.
  induction d as [|[k1 v1] d IH]; simpl.
  - by repeat case_decide.
  - repeat (case_decide; simplify_eq; simpl); try done.
    all: repeat case_decide; congruence.
Qed.

Lemma dict_get_setitem_eq d k v : dict_get (dict_setitem d k v) k = Some v.
Proof. rewrite dict_get_setitem. by case_decide. Qed.

Lemma dict_get_setitem_ne d k k' v :
  k' ≠ k -> dict_get (dict_setitem d k v) k' = dict_get d k'.
Proof. intros. rewrite dict_get_setitem. by case_decide. Qed.

Lemma dict_contains_setitem d k j v :
  dict_contains (dict_setitem d k v) j = true <-> j = k \/ dict_contains d j = true.
Proof.
  unfold dict_contains. rewrite dict_get_setitem. case_decide; [by split; [left|]|].
  split; [by right|]. by intros [|].
Qed.

Lemma dict_get_in_keys d k : dict_contains d k = true <-> k ∈ dict_keys d.
Proof.
  unfold dict_contains. induction d as [|[k1 v1] d IH]; simpl.
  - split; [done|]. by intros ?%elem_of_nil.
  - rewrite elem_of_cons. case_decide; [naive_solver|]. rewrite IH. naive_solver.
Qed.

Lemma dict_get_None_keys d k : dict_get d k = None <-> k ∉ dict_keys d.
Proof.
  rewrite <- dict_get_in_keys. unfold dict_contains.
  destruct (dict_get d k); naive_solver.
Qed.

Lemma dict_keys_remove_notin d k : k ∉ dict_keys d -> dict_remove d k = d.
Proof.
  induction d as [|[k1 v1] d IH]; simpl; [done|].
  rewrite not_elem_of_cons. intros [Hne Hin]. case_decide; [congruence|].
  by rewrite IH.
Qed.

Lemma dict_get_remove d k k' :
  dict_wf d ->
  dict_get (dict_remove d k) k' = if decide (k' = k) then None else dict_get d k'.
Proof.
  unfold dict_wf, dict_keys.
  induction d as [|[k1 v1] d IH]; simpl; intros Hnd.
  - by case_decide.
  - apply NoDup_cons in Hnd as [Hn Hnd].
    destruct (decide (k = k1)) as [->|Hk].
    + destruct (decide (k' = k1)) as [->|]; [|done].
      by apply dict_get_None_keys.
    + simpl. rewrite IH by done. by repeat case_decide; simplify_eq.
Qed.

(** ** The invariant: every operation keeps the keys unique *)

Lemma dict_keys_setitem d k v :
  dict_keys (dict_setitem d k v) =
  if decide (k ∈ dict_keys d) then dict_keys d else dict_keys d ++ [k].
Proof.
  unfold dict_keys. induction d as [|[k1 v1] d IH]; simpl.
  - destruct (decide (k ∈ [])) as [Hin|]; [by apply elem_of_nil in Hin | done].
  - destruct (decide (k = k1)) as [->|Hk]; simpl.
    + by rewrite decide_True by by left.
    + rewrite IH. do 2 case_decide; try done; exfalso; set_solver.
Qed.

Lemma dict_setitem_wf d k v : dict_wf d -> dict_wf (dict_setitem d k v).
Proof.
  unfold dict_wf. rewrite dict_keys_setitem.
  destruct (decide (k ∈ dict_keys d)) as [Hin|Hin]; [done|].
  intros Hnd. apply NoDup_app. split_and!; [done| |by apply NoDup_singleton].
  intros x Hx ->%list_elem_of_singleton. done.
Qed.

Lemma dict_keys_remove_sub d k x : x ∈ dict_keys (dict_remove d k) -> x ∈ dict_keys d.
Proof.
  unfold dict_keys. induction d as [|[k1 v1] d IH]; simpl; [done|].
  case_decide; simpl; rewrite !elem_of_cons; naive_solver.
Qed.

Lemma dict_remove_wf d k : dict_wf d -> dict_wf (dict_remove d k).
Proof.
  unfold dict_wf. induction d as [|[k1 v1] d IH]; simpl; [done|].
  intros [Hn Hnd]%NoDup_cons. case_decide; [done|].
  simpl. apply NoDup_cons. split; [|by apply IH].
  intros Hin. apply Hn. by eapply dict_keys_remove_sub.
Qed.

Lemma dict_delitem_wf d k d' : dict_wf d -> dict_delitem d k = Some d' -> dict_wf d'.
Proof.
  unfold dict_delitem. destruct (dict_contains d k); intros ? [= <-].
  by apply dict_remove_wf.
Qed.

Lemma dict_of_pairs_wf l : dict_wf (dict_of_pairs l).
Proof.
  unfold dict_of_pairs. cut (forall d, dict_wf d -> dict_wf (foldl (fun d kv => dict_setitem d kv.1 kv.2) d l)).
  { intros Hg. apply Hg. constructor. }
  induction l as [|[k v] l IH]; simpl; [done|]. intros d Hd. apply IH.
  by apply dict_setitem_wf.
Qed.

Lemma dict_setitem_new d k v : k ∉ dict_keys d -> dict_setitem d k v = d ++ [(k, v)].
Proof.
  unfold dict_keys. induction d as [|[k1 v1] d IH]; simpl; [done|].
  rewrite not_elem_of_cons. intros [Hne Hin]. rewrite decide_False by done.
  by rewrite IH.
Qed.

Lemma dict_of_pairs_go acc l :
  dict_wf (acc ++ l) -> foldl (fun d kv => dict_setitem d kv.1 kv.2) acc l = acc ++ l.
Proof.
  revert acc. induction l as [|[k v] l IH]; intros acc Hwf; simpl; [by rewrite app_nil_r|].
  pose proof Hwf as Hwf'.
  unfold dict_wf, dict_keys in Hwf. rewrite map_app, NoDup_app in Hwf.
  destruct Hwf as (_ & Hdisj & _).
  rewrite dict_setitem_new by (intros Hk; apply (Hdisj k Hk); by left).
  rewrite IH; [by rewrite <- app_assoc|]. by rewrite <- app_assoc.
Qed.

(** [dict(pairs)] of pairs with distinct keys is those pairs, in order. *)
Lemma dict_of_pairs_id l : dict_wf l -> dict_of_pairs l = l.
Proof. intros Hwf. apply (dict_of_pairs_go []). done. Qed.

(** Assigning a key twice keeps the second value, in the first place. *)
Lemma dict_setitem_twice d k v1 v2 :
  dict_setitem (dict_setitem d k v1) k v2 = dict_setitem d k v2.
Proof.
  induction d as [|[k' v'] d IH]; simpl; [by rewrite decide_True|].
  case_decide; simpl; [by rewrite decide_True|]. rewrite decide_False by done. by f_equal.
Qed.

(** [d[k] = v; del d[k]] is [del d[k]] (when [k] was present) or
    nothing (when it was not). *)
Lemma dict_remove_setitem d k v : dict_remove (dict_setitem d k v) k = dict_remove d k.
Proof.
  induction d as [|[k' v'] d IH]; simpl; [by rewrite decide_True|].
  case_decide; simpl; [by rewrite decide_True|]. rewrite decide_False by done. by f_equal.
Qed.

Lemma dict_get_values (P : V -> Prop) d k v :
  Forall (fun kv => P kv.2) d -> dict_get d k = Some v -> P v.
Proof.
  intros Hd. induction Hd as [|[k' v'] d' Hx Hd IH]; simpl; [done|].
  case_decide; [by intros [= <-] | done].
Qed.

(** Every value of the dict satisfies [P]: kept by assignment of such a
    value, by removal, and by [dict(pairs)]. *)
Lemma dict_setitem_values (P : V -> Prop) d k v :
  Forall (fun kv => P kv.2) d -> P v -> Forall (fun kv => P kv.2) (dict_setitem d k v).
Proof.
  intros Hd Hv. induction Hd as [|[k' v'] d' Hx Hd IH]; simpl; [by constructor|].
  case_decide; repeat constructor; auto.
Qed.

Lemma dict_remove_values (P : V -> Prop) d k :
  Forall (fun kv => P kv.2) d -> Forall (fun kv => P kv.2) (dict_remove d k).
Proof. intros Hd. induction Hd as [|[k' v'] d' Hx Hd IH]; simpl; [done|]. case_decide; auto. Qed.

Lemma dict_of_pairs_values (P : V -> Prop) l :
  Forall (fun kv => P kv.2) l -> Forall (fun kv => P kv.2) (dict_of_pairs l).
Proof.
  unfold dict_of_pairs. generalize (@List.Forall_nil _ (fun kv : K * V => P kv.2)).
  generalize (@nil (K * V)) as acc.
  intros acc Hacc Hl. revert acc Hacc. induction Hl as [|[k v] l Hx _ IH]; intros acc Hacc; simpl; [done|].
  apply IH. by apply dict_setitem_values.
Qed.
End PyDict.

#[export] Hint Resolve dict_setitem_wf dict_remove_wf dict_of_pairs_wf : appimg.

(** ** Refinement into [gmap] and the dict equivalence *)

Section Refinement.
Context {K V : Type} `{Countable K}.
Implicit Types (d : dict K V) (k : K) (v : V).

(** The mapping a dict denotes, order forgotten.  The first occurrence of
    a key wins, as for [dict_get]. *)
Fixpoint to_gmap d : gmap K V :=
  match d with
  | [] => ∅
  | (k, v) :: d' => <[k:=v]> (to_gmap d')
  end.

Lemma lookup_to_gmap d k : to_gmap d !! k = dict_get d k.
Proof.
  induction d as [|[k1 v1] d IH]; simpl; [done|].
  rewrite lookup_insert. by repeat case_decide; subst.
Qed.

Lemma dict_contains_to_gmap d k : dict_contains d k = true <-> k ∈ dom (to_gmap d).
Proof.
  rewrite elem_of_dom, lookup_to_gmap. unfold dict_contains.
  destruct (dict_get d k); split; intros Hx; try done; by destruct Hx.
Qed.

(** Each operation of the dict implements the map operation of the same
    name: [d[k] = v] is [insert], [del d[k]] is [delete] (and raises
    exactly when the key is absent from the mapping). *)
Lemma dict_setitem_refines d k v : to_gmap (dict_setitem d k v) = <[k:=v]> (to_gmap d).
Proof.
  apply map_eq. intros k'.
  rewrite lookup_to_gmap, dict_get_setitem, lookup_insert, lookup_to_gmap.
  by repeat case_decide; subst.
Qed.

Lemma dict_remove_refines d k : dict_wf d -> to_gmap (dict_remove d k) = delete k (to_gmap d).
Proof.
  intros Hwf. apply map_eq. intros k'.
  rewrite lookup_to_gmap, dict_get_remove, lookup_delete, lookup_to_gmap by done.
  by repeat case_decide; subst.
Qed.

Lemma dict_delitem_refines d k :
  dict_wf d ->
  dict_delitem d k =
    if decide (k ∈ dom (to_gmap d)) then Some (dict_remove d k) else None.
Proof.
  intros _. unfold dict_delitem.
  destruct (dict_contains d k) eqn:Hc; case_decide as Hd; try done;
    exfalso; [apply Hd | rewrite <- dict_contains_to_gmap in Hd; congruence];
    by apply dict_contains_to_gmap.
Qed.

(** Two dicts are equivalent when they have the same lookups: Python's
    [==] on dicts, which ignores order. *)
Definition dict_equiv d1 d2 : Prop := forall k, dict_get d1 k = dict_get d2 k.

Lemma dict_equiv_to_gmap d1 d2 : dict_equiv d1 d2 <-> to_gmap d1 = to_gmap d2.
Proof.
  unfold dict_equiv. split.
  - intros Heq. apply map_eq. intros k. by rewrite !lookup_to_gmap.
  - intros Heq k. by rewrite <- !lookup_to_gmap, Heq.
Qed.

#[export] Instance dict_equiv_equivalence : Equivalence dict_equiv.
Proof.
  split; repeat intro; unfold dict_equiv in *; [done | by symmetry | etrans; eauto].
Qed.

#[export] Instance dict_get_proper : Proper (dict_equiv ==> eq ==> eq) dict_get.
Proof. intros d1 d2 Hd k ? <-. apply Hd. Qed.

#[export] Instance dict_contains_proper : Proper (dict_equiv ==> eq ==> eq) dict_contains.
Proof. intros d1 d2 Hd k ? <-. unfold dict_contains. by rewrite (Hd k). Qed.

#[export] Instance dict_setitem_proper :
  Proper (dict_equiv ==> eq ==> eq ==> dict_equiv) dict_setitem.
Proof.
  intros d1 d2 Hd k ? <- v ? <- k'. rewrite !dict_get_setitem. by rewrite (Hd k').
Qed.

Lemma dict_remove_equiv d1 d2 k :
  dict_wf d1 -> dict_wf d2 -> dict_equiv d1 d2 ->
  dict_equiv (dict_remove d1 k) (dict_remove d2 k).
Proof. intros ?? Hd k'. rewrite !dict_get_remove by done. by rewrite (Hd k'). Qed.

(** Assignments to distinct keys commute up to [==] (not up to order). *)
Lemma dict_setitem_comm d k1 k2 v1 v2 :
  k1 ≠ k2 ->
  dict_equiv (dict_setitem (dict_setitem d k1 v1) k2 v2)
             (dict_setitem (dict_setitem d k2 v2) k1 v1).
Proof. intros Hne k. rewrite !dict_get_setitem. by repeat case_decide; subst. Qed.
End Refinement.

(** the insertion-ordered dict implements a finite map: on a dict
    without duplicate keys, assignment and deletion keep the keys
    distinct and are [insert] and [delete] on the map it denotes. *)
Theorem dict_refines_gmap `{Countable K} {V} (d : dict K V) k v :
  dict_wf d ->
  dict_wf (dict_setitem d k v) /\ to_gmap (dict_setitem d k v) = <[k := v]> (to_gmap d) /\
  dict_wf (dict_remove d k) /\ to_gmap (dict_remove d k) = delete k (to_gmap d).
Proof.
  intros Hwf. split_and!; auto using dict_setitem_wf, dict_remove_wf, dict_setitem_refines, dict_remove_refines.
Qed.
