(* ===== verification/PyStr.v ===== *)
(** * The [str] operations [src/app.py] calls

    A Python [str] is modelled as a Coq [string] whose characters are the
    code points U+0000..U+00FF (the Latin-1 block); code points above that
    are outside the model.  The operations are those of CPython 3.12:
    - [py_lower]: [str.lower] (line 42 of [sync_appimages], and the answers
      [confirm.lower()] and [choice.lower()] in [select_appimage] and
      [add_appimage]);
    - [py_replace]: [str.replace(old, new)] (line 42);
    - [py_int]: [int(s)] on the text typed at the selection prompt
      (line 91);
    - [py_str_int]: [str(n)] / [f"{n}"] for integers (the counter of
      [get_unique_command], the menu numbers of [select_appimage]). *)

From S2P Require Import Prelude.

(** ** Character classes *)

Definition py_isdigit (c : ascii) : bool :=
  let n := nat_of_ascii c in (48 <=? n) && (n <=? 57).

Definition digit_value (c : ascii) : Z := Z.of_nat (nat_of_ascii c - 48).

(** [str.isspace] on Latin-1: [\t\n\v\f\r], the separators [\x1c..\x1f],
    space, NEL [\x85] and NBSP [\xa0].  [int()] strips exactly these. *)
Definition py_isspace (c : ascii) : bool :=
  let n := nat_of_ascii c in
  ((9 <=? n) && (n <=? 13)) || ((28 <=? n) && (n <=? 32)) || (n =? 133) || (n =? 160).

(** [str.lower] on one character: ASCII [A-Z] and Latin-1 [À-Þ] except
    the multiplication sign [×] (U+00D7) map to the code point 32 above. *)
Definition py_lower_char (c : ascii) : ascii :=
  let n := nat_of_ascii c in
  if ((65 <=? n) && (n <=? 90)) || ((192 <=? n) && (n <=? 222) && negb (n =? 215))
  then ascii_of_nat (n + 32) else c.

Fixpoint string_map (f : ascii -> ascii) (s : string) : string :=
  match s with
  | EmptyString => EmptyString
  | String c s' => String (f c) (string_map f s')
  end.

Definition py_lower (s : string) : string := string_map py_lower_char s.

(** ** [str.replace] *)

Fixpoint str_drop (n : nat) (s : string) : string :=
  match n, s with
  | 0, _ => s
  | S n', EmptyString => EmptyString
  | S n', String _ s' => str_drop n' s'
  end.

(** Left-to-right, non-overlapping replacement of a non-empty [old]; the
    fuel is the length of the subject, since each step consumes at least
    one character. *)
Fixpoint replace_go (fuel : nat) (old new s : string) : string :=
  match fuel with
  | 0 => s
  | S f =>
      match s with
      | EmptyString => EmptyString
      | String c s' =>
          if String.prefix old s
          then new +:+ replace_go f old new (str_drop (String.length old) s)
          else String c (replace_go f old new s')
      end
  end.

(** With an empty [old], Python inserts [new] before every character and
    at the end: ["ab".replace("", "-") == "-a-b-"]. *)
Fixpoint insert_everywhere (new s : string) : string :=
  match s with
  | EmptyString => new
  | String c s' => new +:+ String c (insert_everywhere new s')
  end.

Definition py_replace (s old new : string) : string :=
  match old with
  | EmptyString => insert_everywhere new s
  | _ => replace_go (String.length s) old new s
  end.

(** [sep.join(l)] *)
Fixpoint str_join (sep : string) (l : list string) : string :=
  match l with
  | [] => EmptyString
  | [x] => x
  | x :: l' => x +:+ sep +:+ str_join sep l'
  end.

(** ** [int(s)] in base 10 *)

(** The digits after the first one: a single underscore may separate two
    digits. *)
Fixpoint dec_body (acc : Z) (s : string) : option Z :=
  match s with
  | EmptyString => Some acc
  | String c s' =>
      if py_isdigit c then dec_body (acc * 10 + digit_value c) s'
      else if ascii_dec c "_" then
        match s' with
        | String d s'' =>
            if py_isdigit d then dec_body (acc * 10 + digit_value d) s'' else None
        | EmptyString => None
        end
      else None
  end.

Fixpoint lstrip_ws (s : string) : string :=
  match s with
  | String c s' => if py_isspace c then lstrip_ws s' else s
  | EmptyString => EmptyString
  end.

Fixpoint str_rev (s : string) : string :=
  match s with
  | EmptyString => EmptyString
  | String c s' => str_rev s' +:+ String c EmptyString
  end.

Definition strip_ws (s : string) : string := str_rev (lstrip_ws (str_rev (lstrip_ws s))).

(** [s.rstrip(chars)] for the set of characters [P]. *)
Fixpoint lstrip_by (P : ascii -> bool) (s : string) : string :=
  match s with
  | String c s' => if P c then lstrip_by P s' else s
  | EmptyString => EmptyString
  end.

Definition rstrip_by (P : ascii -> bool) (s : string) : string := str_rev (lstrip_by P (str_rev s)).

(** [s.rfind(c)] *)
Fixpoint rfind_go (c : ascii) (i : nat) (s : string) (acc : option nat) : option nat :=
  match s with
  | EmptyString => acc
  | String x s' => rfind_go c (S i) s' (if ascii_dec x c then Some i else acc)
  end.

Definition rfind (c : ascii) (s : string) : option nat := rfind_go c 0 s None.

Definition unsigned_int (s : string) : option Z :=
  match s with
  | String d s' => if py_isdigit d then dec_body (digit_value d) s' else None
  | EmptyString => None
  end.

(** [int(s)]: surrounding whitespace, one optional sign, then digits
    (leading zeros allowed in base 10).  [None] is the [ValueError]. *)
Definition py_int (s : string) : option Z :=
  match strip_ws s with
  | String c s' =>
      if ascii_dec c "-" then option_map Z.opp (unsigned_int s')
      else if ascii_dec c "+" then unsigned_int s'
      else unsigned_int (String c s')
  | EmptyString => None
  end.

(** [str(n)] for an integer: stdpp's decimal printer is the same text. *)
Definition py_str_int (z : Z) : string := pretty z.

Example py_int_examples :
  py_int " 12 " = Some 12%Z /\ py_int "-0_7" = Some (-7)%Z /\ py_int "1__2" = None /\
  py_int "" = None /\ py_int "x" = None /\ py_str_int 42 = "42".
Proof. vm_compute. repeat split. Qed.

Example py_replace_examples :
  py_replace "aaa" "aa" "b" = "ba" /\ py_replace "ab" "" "-" = "-a-b-" /\
  py_lower "My App" = "my app".
Proof. vm_compute. repeat split. Qed.

(** ** [replace] of one character by another is a character map *)


(** ** [replace] of one character by another is a character map *)

Lemma str_prefix_char a c s : String.prefix (String a EmptyString) (String c s) = bool_decide (a = c).
Proof. destruct s; simpl; destruct (ascii_dec a c); case_bool_decide; congruence. Qed.

Lemma replace_go_char s a b :
  replace_go (String.length s) (String a EmptyString) (String b EmptyString) s =
  string_map (fun c => if ascii_dec c a then b else c) s.
Proof.
  induction s as [|c s IH]; [done|]. simpl String.length. cbn [replace_go].
  rewrite str_prefix_char. cbn [str_drop String.length string_map].
  case_bool_decide; destruct (ascii_dec c a); subst; try congruence;
    by rewrite ?string_app_cons, ?string_app_nil_l, IH.
Qed.

(** [s.replace("a", "b")] maps every [a] to [b] (the derivation of a
    command from an application name in [sync_appimages], line 42). *)
Theorem py_replace_char s a b :
  py_replace s (String a EmptyString) (String b EmptyString) =
  string_map (fun c => if ascii_dec c a then b else c) s.
Proof. apply replace_go_char. Qed.


(** ** Strings of digits, and [int(str(z)) = z] *)

Fixpoint str_forall (P : ascii -> bool) (s : string) : bool :=
  match s with
  | EmptyString => true
  | String c s' => P c && str_forall P s'
  end.

Lemma str_forall_app P s1 s2 :
  str_forall P (s1 +:+ s2) = str_forall P s1 && str_forall P s2.
Proof. induction s1 as [|c s IH]; [done|]. rewrite string_app_cons. simpl. by rewrite IH, andb_assoc. Qed.

Lemma str_rev_app s1 s2 : str_rev (s1 +:+ s2) = str_rev s2 +:+ str_rev s1.
Proof.
  induction s1 as [|c s IH].
  - simpl. by rewrite string_app_nil_l, string_app_nil_r.
  - rewrite string_app_cons. simpl. by rewrite IH, string_app_assoc.
Qed.

Lemma str_rev_involutive s : str_rev (str_rev s) = s.
Proof. induction s as [|c s IH]; [done|]. simpl. by rewrite str_rev_app, IH. Qed.

Lemma str_forall_rev P s : str_forall P (str_rev s) = str_forall P s.
Proof.
  induction s as [|c s IH]; [done|]. simpl.
  rewrite str_forall_app, IH. simpl. by rewrite andb_true_r, andb_comm.
Qed.

Lemma lstrip_ws_id s : str_forall (fun c => negb (py_isspace c)) s = true -> lstrip_ws s = s.
Proof. destruct s as [|c s]; [done|]. simpl. by destruct (py_isspace c). Qed.

Lemma strip_ws_id s : str_forall (fun c => negb (py_isspace c)) s = true -> strip_ws s = s.
Proof.
  intros Hs. unfold strip_ws.
  rewrite (lstrip_ws_id s), (lstrip_ws_id (str_rev s)) by (rewrite ?str_forall_rev; done).
  apply str_rev_involutive.
Qed.

Lemma pretty_N_char_digit x : py_isdigit (pretty_N_char x) = true.
Proof. unfold pretty_N_char. by repeat case_match. Qed.

Lemma pretty_N_char_value x : (x < 10)%N -> digit_value (pretty_N_char x) = Z.of_N x.
Proof.
  intros Hx. assert (x = 0 \/ x = 1 \/ x = 2 \/ x = 3 \/ x = 4 \/ x = 5 \/ x = 6
                     \/ x = 7 \/ x = 8 \/ x = 9)%N as Hc by lia.
  by repeat destruct Hc as [->|Hc]; [..|subst].
Qed.

Ltac nat_bool_cases :=
  repeat match goal with
  | |- context [?a <=? ?b] => destruct (Nat.leb_spec a b)
  | |- context [?a =? ?b] => destruct (Nat.eqb_spec a b)
  | H : context [?a <=? ?b] |- _ => destruct (Nat.leb_spec a b)
  end; simpl in *; try done; lia.

Lemma digit_not_space c : py_isdigit c = true -> py_isspace c = false.
Proof. unfold py_isdigit, py_isspace. generalize (nat_of_ascii c). intros n. nat_bool_cases. Qed.

Lemma digits_not_space s :
  str_forall py_isdigit s = true -> str_forall (fun c => negb (py_isspace c)) s = true.
Proof.
  induction s as [|c s IH]; [done|]. simpl. intros [Hc Hs]%andb_true_iff.
  by rewrite digit_not_space, IH.
Qed.

(** [int(str(z)) == z] for every integer: the number printed in
    [select_appimage]'s menu reads back as itself. *)
(** The value of a string of decimal digits, read after [acc]. *)
Fixpoint digits_value (acc : Z) (t : string) : Z :=
  match t with
  | EmptyString => acc
  | String c t' => digits_value (acc * 10 + digit_value c) t'
  end.

Lemma digits_value_app acc t1 t2 :
  digits_value acc (t1 +:+ t2) = digits_value (digits_value acc t1) t2.
Proof. revert acc. induction t1 as [|c t IH]; intros acc; [done|]. apply IH. Qed.

(** [pretty_N_go x s] prepends to [s] a non-empty string of digits whose
    value is [x]. *)
Lemma pretty_N_go_split x s :
  (0 < x)%N ->
  exists t, pretty_N_go x s = t +:+ s /\
    (exists c t', t = String c t' /\ c <> "0"%char) /\
    str_forall py_isdigit t = true /\ digits_value 0 t = Z.of_N x.
Proof.
  revert s. induction (N.lt_wf_0 x) as [x _ IH]; intros s Hx.
  rewrite pretty_N_go_step by done.
  destruct (decide (x < 10)%N) as [Hlt|Hge].
  - rewrite N.div_small, N.mod_small, pretty_N_go_0 by done.
    exists (String (pretty_N_char x) EmptyString). simpl.
    rewrite pretty_N_char_digit, pretty_N_char_value by done. split_and!; [done| |done..].
    eexists _, _. split; [done|]. intros Hc.
    apply (f_equal digit_value) in Hc. rewrite pretty_N_char_value in Hc by done.
    change (digit_value "0") with 0%Z in Hc. lia.
  - destruct (IH (x `div` 10)%N) with (s := String (pretty_N_char (x `mod` 10)) s)
      as (t & Heq & (c0 & t0 & -> & Hc0) & Hd & Hv); [apply N.div_lt; lia | apply N.div_str_pos; lia |].
    exists (String c0 t0 +:+ String (pretty_N_char (x `mod` 10)) EmptyString). rewrite Heq.
    rewrite <- string_app_assoc. split_and!; [done | by exists c0, (t0 +:+ String (pretty_N_char (x `mod` 10)) EmptyString) | |].
    + rewrite str_forall_app, Hd. simpl. by rewrite pretty_N_char_digit.
    + rewrite digits_value_app, Hv. simpl. rewrite pretty_N_char_value by (apply N.mod_lt; lia).
      rewrite (N.div_mod x 10) at 3 by lia. rewrite N2Z.inj_add, N2Z.inj_mul. lia.
Qed.

(** The decimal text of a positive number. *)
Lemma pretty_pos_split (p : positive) :
  (exists c t, pretty (Npos p) = String c t /\ c <> "0"%char) /\ str_forall py_isdigit (pretty (Npos p)) = true /\
  digits_value 0 (pretty (Npos p)) = Zpos p.
Proof.
  unfold pretty, pretty_N. rewrite decide_False by done.
  destruct (pretty_N_go_split (Npos p) EmptyString) as (t & -> & ? & ? & ?); [lia|].
  by rewrite string_app_nil_r.
Qed.

Lemma dec_body_digits acc t s :
  str_forall py_isdigit t = true -> dec_body acc (t +:+ s) = dec_body (digits_value acc t) s.
Proof.
  revert acc. induction t as [|c t IH]; intros acc; [done|].
  simpl. intros [-> Ht]%andb_true_iff. by apply IH.
Qed.

Lemma unsigned_int_digits t :
  t <> EmptyString -> str_forall py_isdigit t = true -> unsigned_int t = Some (digits_value 0 t).
Proof.
  destruct t as [|c t]; [done|]. simpl. intros _ [-> Ht]%andb_true_iff.
  rewrite <- (string_app_nil_r t), dec_body_digits by done.
  by rewrite string_app_nil_r.
Qed.

Lemma digit_not_sign c : py_isdigit c = true -> c <> "-"%char /\ c <> "+"%char.
Proof. intros Hc. split; intros ->; discriminate. Qed.

(** [int(str(z)) == z] for every integer: the number printed in
    [select_appimage]'s menu reads back as itself. *)
Theorem py_int_str z : py_int (py_str_int z) = Some z.
Proof.
  unfold py_int, py_str_int, pretty at 1, pretty_Z.
  destruct z as [|p|p]; [done| |].
  all: destruct (pretty_pos_split p) as (Hne & Hd & Hv).
  all: unfold pretty at 1, pretty_positive.
  - rewrite strip_ws_id by by apply digits_not_space.
    destruct Hne as (c & t & Heq & _). rewrite Heq in Hd, Hv |- *.
    assert (py_isdigit c = true) as Hc by (simpl in Hd; by destruct (py_isdigit c)).
    destruct (digit_not_sign c Hc).
    do 2 (destruct ascii_dec; [congruence|]).
    by rewrite unsigned_int_digits, Hv.
  - rewrite strip_ws_id by (rewrite string_app_cons; simpl; by apply digits_not_space).
    rewrite string_app_cons, string_app_nil_l. simpl.
    destruct Hne as (c & t & Heq & _). rewrite unsigned_int_digits, Hv; [done| |done].
    by rewrite Heq.
Qed.

(** ** [rfind], [str_drop] and [substring] on concatenations *)

Section Rfind.
Context (c : ascii).

(** No character of [s] is [c]. *)
Definition no_char (s : string) : bool := str_forall (fun x => negb (bool_decide (x = c))) s.

Lemma no_char_app s t : no_char (s +:+ t) = no_char s && no_char t.
Proof. apply str_forall_app. Qed.

Lemma no_char_cons x s : no_char (String x s) = negb (bool_decide (x = c)) && no_char s.
Proof. reflexivity. Qed.

Lemma rfind_go_app i s t acc :
  rfind_go c i (s +:+ t) acc = rfind_go c (i + String.length s) t (rfind_go c i s acc).
Proof.
  revert i acc. induction s as [|x s IH]; intros i acc; [rewrite string_app_nil_l; simpl; by rewrite Nat.add_0_r|].
  rewrite string_app_cons. simpl. rewrite IH. by replace (i + S (String.length s)) with (S i + String.length s) by lia.
Qed.

Lemma rfind_go_no_char i t acc : no_char t = true -> rfind_go c i t acc = acc.
Proof.
  revert i acc. induction t as [|x t IH]; intros i acc; [done|]. simpl.
  rewrite no_char_cons. intros [Hx Ht]%andb_true_iff. rewrite IH by done. destruct (ascii_dec x c); [|done]. subst. by rewrite bool_decide_true in Hx.
Qed.

Lemma rfind_app s t : no_char t = true -> rfind c (s +:+ t) = rfind c s.
Proof. intros Ht. unfold rfind. rewrite rfind_go_app. by apply rfind_go_no_char. Qed.

Lemma rfind_go_some i s acc j :
  rfind_go c i s acc = Some j ->
  (acc = Some j /\ no_char s = true) \/
  (i <= j < i + String.length s /\ no_char (str_drop (S (j - i)) s) = true).
Proof.
  revert i acc. induction s as [|x s IH]; intros i acc; simpl; [by left|].
  intros [[Hacc Hs]|[Hj Hs]]%IH.
  - destruct (ascii_dec x c) as [Hx|Hx].
    + subst. injection Hacc as <-. right. rewrite Nat.sub_diag. simpl. split; [lia|done].
    + left. split; [done|]. rewrite no_char_cons, Hs, andb_true_r. by rewrite bool_decide_false.
  - right. split; [lia|]. by replace (j - i) with (S (j - S i)) by lia.
Qed.

Lemma rfind_go_none i s acc : rfind_go c i s acc = None -> acc = None /\ no_char s = true.
Proof.
  revert i acc. induction s as [|x s IH]; intros i acc; simpl; [done|].
  intros [Hacc Hs]%IH. destruct (ascii_dec x c); [done|]. split; [done|].
  rewrite no_char_cons, Hs, andb_true_r. by rewrite bool_decide_false.
Qed.
End Rfind.

Lemma str_drop_app i s t : i <= String.length s -> str_drop i (s +:+ t) = str_drop i s +:+ t.
Proof.
  revert i. induction s as [|x s IH]; intros [|i] Hi; simpl in *; try done; try lia.
  apply IH. lia.
Qed.

Lemma substring_app i s t : i <= String.length s -> String.substring 0 i (s +:+ t) = String.substring 0 i s.
Proof.
  revert i. induction s as [|x s IH]; intros [|i] Hi; rewrite ?string_app_nil_l; simpl in *; try (by destruct t); try lia.
  f_equal. apply IH. lia.
Qed.

Lemma str_forall_impl (P Q : ascii -> bool) s :
  (forall c, P c = true -> Q c = true) -> str_forall P s = true -> str_forall Q s = true.
Proof.
  intros HPQ. induction s as [|c s IH]; [done|]. simpl.
  intros [Hc Hs]%andb_true_iff. rewrite HPQ, IH by done. done.
Qed.

(** The decimal text of a natural number: a non-empty string of digits. *)
Lemma py_str_int_nat_digits i :
  exists c t, py_str_int (Z.of_nat i) = String c t /\ str_forall py_isdigit (String c t) = true.
Proof.
  destruct i as [|i]; [by exists "0"%char, EmptyString|].
  unfold py_str_int. change (Z.of_nat (S i)) with (Zpos (Pos.of_succ_nat i)).
  destruct (pretty_N_go_split (Npos (Pos.of_succ_nat i)) EmptyString) as (t & Ht & (c & t' & -> & _) & Hd & _);
    [lia|].
  exists c, t'. split; [|done]. unfold pretty, pretty_Z, pretty, pretty_positive, pretty, pretty_N.
  by rewrite Ht, string_app_nil_r.
Qed.

Lemma str_drop_str_forall P k s : str_forall P s = true -> str_forall P (str_drop k s) = true.
Proof.
  revert k. induction s as [|x s IH]; intros [|k]; simpl; try done.
  intros [_ Hs]%andb_true_iff. by apply IH.
Qed.

(** ** What [lower], [replace] and slicing keep *)

Section StrForall.
Context (P : ascii -> bool).

Lemma str_forall_map f s :
  (forall c, P c = true -> P (f c) = true) -> str_forall P s = true -> str_forall P (string_map f s) = true.
Proof.
  intros Hf. induction s as [|c s IH]; [done|]. simpl. intros [Hc Hs]%andb_true_iff. by rewrite Hf, IH.
Qed.

Lemma str_forall_replace_go fuel old new s :
  str_forall P s = true -> str_forall P new = true -> str_forall P (replace_go fuel old new s) = true.
Proof.
  intros Hs Hn. revert s Hs. induction fuel as [|f IH]; intros s Hs; [done|]. destruct s as [|c s]; [done|].
  cbn [replace_go]. destruct (String.prefix old (String c s)).
  - rewrite str_forall_app, Hn. apply IH, str_drop_str_forall, Hs.
  - simpl in *. apply andb_true_iff in Hs as [-> Hs]. by apply IH.
Qed.

Lemma str_forall_py_replace s old new :
  str_forall P s = true -> str_forall P new = true -> str_forall P (py_replace s old new) = true.
Proof.
  intros Hs Hn. unfold py_replace. destruct old; [|by apply str_forall_replace_go].
  induction s as [|c s IH]; [done|]. cbn [insert_everywhere]. simpl in Hs. apply andb_true_iff in Hs as [Hc Hs].
  rewrite str_forall_app, Hn. simpl. rewrite Hc. by apply IH.
Qed.

Lemma str_forall_substring i s : str_forall P s = true -> str_forall P (String.substring 0 i s) = true.
Proof.
  revert i. induction s as [|c s IH]; intros [|i]; simpl; try done.
  intros [Hc Hs]%andb_true_iff. rewrite Hc. by apply IH.
Qed.
End StrForall.

(** [str.lower] makes no ["/"]. *)
Lemma py_lower_no_char s : no_char "/" s = true -> no_char "/" (py_lower s) = true.
Proof.
  apply str_forall_map. intros c.
  destruct c as [[] [] [] [] [] [] [] []]; vm_compute; intros; (done || discriminate).
Qed.
