(* ===== verification/PyObj.v ===== *)
(** * The Python objects the registry is made of

    [load_config] returns whatever [json.load] builds from the registry
    file: [None], booleans, integers, strings, lists and dicts.  The script
    never checks the shape: it applies [in], [x[k]], [x[k] = v],
    [del x[k]], [.items()], truthiness and f-string formatting to the value
    and lets Python raise when the value does not support the operation.
    This file models those values ([pyval]) and those operations, each with
    the exception CPython raises, and the exceptions the rest of the
    development uses ([exc]).

    Floating-point numbers (a JSON number with a fraction or exponent) are
    outside the model. *)

From S2P Require Import Prelude PyDict PyStr.

(** ** The exceptions the script can raise

    The argument is the path or key the CPython message names; the message
    text itself is not modelled. *)
Inductive exc : Type :=
  | TypeError
  | KeyError (k : string)
  | AttributeError
  | ValueError
  | IndexError
  | EOFError
  | JSONDecodeError
  | NotImplementedError
  | FileNotFoundError (p : string)
  | FileExistsError (p : string)
  | IsADirectoryError (p : string)
  | NotADirectoryError (p : string)
  | DirectoryNotEmptyError (p : string)
  | InvalidArgumentError (p : string)
  | ShutilError (p : string)
  | SystemExit (code : Z).

(** ** Values *)

#[warnings="-register-all"]
Inductive pyval : Type :=
  | PNone
  | PBool (b : bool)
  | PInt (z : Z)
  | PStr (s : string)
  | PList (l : list pyval)
  | PDict (d : list (string * pyval)).

(** The induction principle that also covers the elements of lists and
    the values of dicts. *)
Section pyval_ind.
Variable P : pyval -> Prop.
Hypothesis HNone : P PNone.
Hypothesis HBool : forall b, P (PBool b).
Hypothesis HInt : forall z, P (PInt z).
Hypothesis HStr : forall s, P (PStr s).
Hypothesis HList : forall l, Forall P l -> P (PList l).
Hypothesis HDict : forall d, Forall (fun kv => P kv.2) d -> P (PDict d).

Fixpoint pyval_ind' (v : pyval) : P v :=
  match v with
  | PNone => HNone
  | PBool b => HBool b
  | PInt z => HInt z
  | PStr s => HStr s
  | PList l =>
      HList l ((fix go l : Forall P l :=
                  match l with
                  | [] => @List.Forall_nil _ _
                  | x :: l' => @List.Forall_cons _ _ x l' (pyval_ind' x) (go l')
                  end) l)
  | PDict d =>
      HDict d ((fix go d : Forall (fun kv => P kv.2) d :=
                  match d with
                  | [] => @List.Forall_nil _ _
                  | kv :: d' => @List.Forall_cons _ _ kv d' (pyval_ind' kv.2) (go d')
                  end) d)
  end.
End pyval_ind.

(** Structural equality, as Python's [==] on these values. *)
Fixpoint pyval_eqb (v1 v2 : pyval) : bool :=
  match v1, v2 with
  | PNone, PNone => true
  | PBool b1, PBool b2 => Bool.eqb b1 b2
  | PInt z1, PInt z2 => Z.eqb z1 z2
  | PStr s1, PStr s2 => String.eqb s1 s2
  | PList l1, PList l2 =>
      (fix go l1 l2 :=
         match l1, l2 with
         | [], [] => true
         | x :: l1', y :: l2' => pyval_eqb x y && go l1' l2'
         | _, _ => false
         end) l1 l2
  | PDict d1, PDict d2 =>
      (fix go d1 d2 :=
         match d1, d2 with
         | [], [] => true
         | (k1, x) :: d1', (k2, y) :: d2' => String.eqb k1 k2 && pyval_eqb x y && go d1' d2'
         | _, _ => false
         end) d1 d2
  | _, _ => false
  end.

Lemma pyval_eqb_eq v1 v2 : pyval_eqb v1 v2 = true <-> v1 = v2.
Proof.
  revert v2. induction v1 as [| | | |l IH|d IH] using pyval_ind'; intros [| | | |l2|d2]; simpl;
    rewrite ?Bool.eqb_true_iff, ?Z.eqb_eq, ?String.eqb_eq;
    try (split; [discriminate | congruence]); try (split; [intros ->|intros [= ->]]; done).
  - done.
  - revert l2. induction IH as [|x l Hx _ IHl]; intros [|y l2];
      try (split; [discriminate | congruence]); [done|].
    rewrite andb_true_iff, Hx, IHl. split; [intros [-> [= ->]] | intros [= -> ->]]; done.
  - revert d2. induction IH as [|[k x] d Hx _ IHd]; intros [|[k2 y] d2];
      try (split; [discriminate | congruence]); [done|].
    simpl in Hx. rewrite !andb_true_iff, String.eqb_eq, Hx, IHd.
    split; [intros [[-> ->] [= ->]] | intros [= -> -> ->]]; done.
Qed.

#[export] Instance pyval_eq_dec : EqDecision pyval.
Proof.
  intros v1 v2. destruct (pyval_eqb v1 v2) eqn:Heq.
  - left. by apply pyval_eqb_eq.
  - right. intros Hv%pyval_eqb_eq. congruence.
Defined.

(** Every dict in the value has unique keys: what [json.load] builds. *)
Fixpoint pyval_wf (v : pyval) : Prop :=
  match v with
  | PList l => Forall id (map pyval_wf l)
  | PDict d => dict_wf d /\ Forall id (map (fun kv => pyval_wf kv.2) d)
  | _ => True
  end.

(** ** The operations the script applies to the registry *)

Definition py_result (A : Type) : Type := exc + A.

(** [k in v] for a string [k]: key test on a dict, element test on a list,
    substring test on a string; other types are not iterable. *)
Fixpoint str_contains (needle hay : string) : bool :=
  String.prefix needle hay ||
  match hay with
  | EmptyString => false
  | String _ hay' => str_contains needle hay'
  end.

Definition py_in (k : string) (v : pyval) : py_result bool :=
  match v with
  | PDict d => inr (dict_contains d k)
  | PList l => inr (existsb (fun x => match x with PStr s => String.eqb s k | _ => false end) l)
  | PStr s => inr (str_contains k s)
  | _ => inl TypeError
  end.

(** [v[k]] for a string [k]. *)
Definition py_getitem (v : pyval) (k : string) : py_result pyval :=
  match v with
  | PDict d => match dict_get d k with Some x => inr x | None => inl (KeyError k) end
  | _ => inl TypeError
  end.

(** [v[k] = x] for a string [k]. *)
Definition py_setitem (v : pyval) (k : string) (x : pyval) : py_result pyval :=
  match v with
  | PDict d => inr (PDict (dict_setitem d k x))
  | _ => inl TypeError
  end.

(** [del v[k]] for a string [k]. *)
Definition py_delitem (v : pyval) (k : string) : py_result pyval :=
  match v with
  | PDict d => match dict_delitem d k with Some d' => inr (PDict d') | None => inl (KeyError k) end
  | _ => inl TypeError
  end.

(** [v.items()]: only dicts have it. *)
Definition py_items (v : pyval) : py_result (list (string * pyval)) :=
  match v with PDict d => inr d | _ => inl AttributeError end.

(** [bool(v)] / [if not v]. *)
Definition py_truthy (v : pyval) : bool :=
  match v with
  | PNone => false
  | PBool b => b
  | PInt z => negb (Z.eqb z 0)
  | PStr s => negb (String.eqb s "")
  | PList l => negb (bool_decide (l = []))
  | PDict d => negb (bool_decide (d = []))
  end.

(** [Path(v)] accepts a [str] only. *)
Definition py_as_str (v : pyval) : py_result string :=
  match v with PStr s => inr s | _ => inl TypeError end.

(** ** [repr] and [str] *)

Definition hex_digit (n : nat) : ascii :=
  if n <? 10 then ascii_of_nat (48 + n) else ascii_of_nat (87 + n).

(** ["\xNN"] with two lower-case hex digits. *)
Definition hex_escape (c : ascii) : string :=
  let n := nat_of_ascii c in
  String "\" (String "x" (String (hex_digit (n / 16)) (String (hex_digit (n mod 16)) EmptyString))).

(** [str.isprintable] on one Latin-1 character: not the C0 and C1
    controls, DEL, NBSP or the soft hyphen. *)
Definition py_isprintable (c : ascii) : bool :=
  let n := nat_of_ascii c in
  negb ((n <? 32) || ((127 <=? n) && (n <=? 160)) || (n =? 173)).

Definition repr_char (quote c : ascii) : string :=
  if ascii_dec c quote then String "\" (String c EmptyString)
  else if ascii_dec c "\" then "\\"
  else if ascii_dec c "009"%char then "\t"
  else if ascii_dec c "010"%char then "\n"
  else if ascii_dec c "013"%char then "\r"
  else if py_isprintable c then String c EmptyString
  else hex_escape c.

Fixpoint str_concat_map (f : ascii -> string) (s : string) : string :=
  match s with
  | EmptyString => EmptyString
  | String c s' => f c +:+ str_concat_map f s'
  end.

Definition str_has (c : ascii) (s : string) : bool := negb (str_forall (fun x => negb (bool_decide (x = c))) s).

(** The double-quote character. *)
Definition dquote : ascii := "034"%char.

(** [repr(s)]: single quotes unless [s] contains a single quote and no
    double quote. *)
Definition repr_str (s : string) : string :=
  let q := if str_has "'" s && negb (str_has dquote s) then dquote else "'"%char in
  String q (str_concat_map (repr_char q) s +:+ String q EmptyString).

Fixpoint py_repr (v : pyval) : string :=
  match v with
  | PNone => "None"
  | PBool true => "True"
  | PBool false => "False"
  | PInt z => py_str_int z
  | PStr s => repr_str s
  | PList l => "[" +:+ str_join ", " (map py_repr l) +:+ "]"
  | PDict d => "{" +:+ str_join ", " (map (fun kv => repr_str kv.1 +:+ ": " +:+ py_repr kv.2) d) +:+ "}"
  end.

(** [str(v)], which is what an f-string substitutes for [{v}]. *)
Definition py_str (v : pyval) : string :=
  match v with PStr s => s | _ => py_repr v end.

Example py_repr_example :
  py_str (PDict [("app_name", PStr "Foo"); ("n", PList [PInt 1; PNone; PStr "it's"])]) =
  "{'app_name': 'Foo', 'n': [1, None, " +:+ String dquote ("it's" +:+ String dquote "]}").
Proof. vm_compute. reflexivity. Qed.
