(* ===== verification/Json.v ===== *)
(** * [json.dump(config, f, indent=2)] and [json.load(f)]

    [save_config] (lines 20-22) writes the registry with [json.dump] and
    [load_config] (lines 13-17) reads it back with [json.load].  This file
    models CPython 3.12's [json] module on the values of [PyObj]:
    - [dumps]: the encoder with [indent=2], whose item separator is [","]
      and key separator [": "], with [ensure_ascii=True] (every character
      outside [' '..'~'] is written as [\uXXXX] unless it has a short
      escape);
    - [loads]: the decoder (strict mode), a recursive-descent parser with
      fuel; JSON whitespace is [' '], [\t], [\n], [\r]; an object becomes
      [dict(pairs)], so a repeated key keeps its first position and its
      last value.
    Numbers with a fraction or an exponent, [NaN] and [Infinity] decode to
    floats in CPython and are outside the model ([loads] returns [None]),
    as are [\u] escapes above U+00FF. *)

From S2P Require Import Prelude PyDict PyStr PyObj.

(** ** Encoder *)

Definition json_escape_char (c : ascii) : string :=
  let n := nat_of_ascii c in
  if ascii_dec c dquote then String "\" (String dquote EmptyString)
  else if ascii_dec c "\" then String "\" (String "\" EmptyString)
  else if n =? 8 then "\b"
  else if n =? 12 then "\f"
  else if n =? 10 then "\n"
  else if n =? 13 then "\r"
  else if n =? 9 then "\t"
  else if (32 <=? n) && (n <=? 126) then String c EmptyString
  else "\u00" +:+ String (hex_digit (n / 16)) (String (hex_digit (n mod 16)) EmptyString).

(** A string literal: quotes around the escaped characters. *)
Definition encode_str (s : string) : string :=
  String dquote (str_concat_map json_escape_char s +:+ String dquote EmptyString).

Fixpoint spaces (n : nat) : string :=
  match n with 0 => EmptyString | S n' => String " " (spaces n') end.

(** The newline and indentation before an item at depth [lvl]. *)
Definition newline_indent (lvl : nat) : string := String "010" (spaces (2 * lvl)).

Fixpoint encode (lvl : nat) (v : pyval) : string :=
  match v with
  | PNone => "null"
  | PBool true => "true"
  | PBool false => "false"
  | PInt z => py_str_int z
  | PStr s => encode_str s
  | PList [] => "[]"
  | PList l =>
      "[" +:+ newline_indent (S lvl)
          +:+ str_join ("," +:+ newline_indent (S lvl)) (map (encode (S lvl)) l)
          +:+ newline_indent lvl +:+ "]"
  | PDict [] => "{}"
  | PDict d =>
      "{" +:+ newline_indent (S lvl)
          +:+ str_join ("," +:+ newline_indent (S lvl))
                (map (fun kv => encode_str kv.1 +:+ ": " +:+ encode (S lvl) kv.2) d)
          +:+ newline_indent lvl +:+ "}"
  end.

(** [json.dumps(v, indent=2)]; [json.dump] writes the same text. *)
Definition dumps (v : pyval) : string := encode 0 v.

(** ** Decoder *)

Definition json_ws (c : ascii) : bool :=
  let n := nat_of_ascii c in (n =? 32) || (n =? 9) || (n =? 10) || (n =? 13).

Fixpoint skip_ws (s : string) : string :=
  match s with
  | String c s' => if json_ws c then skip_ws s' else s
  | EmptyString => EmptyString
  end.

Definition hex_value (c : ascii) : option nat :=
  let n := nat_of_ascii c in
  if (48 <=? n) && (n <=? 57) then Some (n - 48)
  else if (97 <=? n) && (n <=? 102) then Some (n - 87)
  else if (65 <=? n) && (n <=? 70) then Some (n - 55)
  else None.

(** The character after a backslash. *)
Definition parse_escape (s : string) : option (ascii * string) :=
  match s with
  | String e r =>
      if ascii_dec e dquote then Some (dquote, r)
      else if ascii_dec e "\" then Some ("\"%char, r)
      else if ascii_dec e "/" then Some ("/"%char, r)
      else if ascii_dec e "b" then Some (ascii_of_nat 8, r)
      else if ascii_dec e "f" then Some (ascii_of_nat 12, r)
      else if ascii_dec e "n" then Some (ascii_of_nat 10, r)
      else if ascii_dec e "r" then Some (ascii_of_nat 13, r)
      else if ascii_dec e "t" then Some (ascii_of_nat 9, r)
      else if ascii_dec e "u" then
        match r with
        | String h1 (String h2 (String h3 (String h4 r'))) =>
            match hex_value h1, hex_value h2, hex_value h3, hex_value h4 with
            | Some a, Some b, Some c, Some d =>
                let code := ((a * 16 + b) * 16 + c) * 16 + d in
                if code <? 256 then Some (ascii_of_nat code, r') else None
            | _, _, _, _ => None
            end
        | _ => None
        end
      else None
  | EmptyString => None
  end.

(** One character of a string literal; control characters are refused
    (strict mode). *)
Definition parse_char (s : string) : option (ascii * string) :=
  match s with
  | String c r =>
      if ascii_dec c "\" then parse_escape r
      else if nat_of_ascii c <? 32 then None
      else Some (c, r)
  | EmptyString => None
  end.

(** The body of a string literal up to its closing quote. *)
Fixpoint parse_str_body (fuel : nat) (s : string) : option (string * string) :=
  match fuel with
  | 0 => None
  | S f =>
      match s with
      | String c _ =>
          if ascii_dec c dquote then Some (EmptyString, str_drop 1 s)
          else match parse_char s with
               | Some (c', r) =>
                   match parse_str_body f r with
                   | Some (b, r') => Some (String c' b, r')
                   | None => None
                   end
               | None => None
               end
      | EmptyString => None
      end
  end.

Fixpoint read_digits (acc : Z) (s : string) : Z * string :=
  match s with
  | String c r => if py_isdigit c then read_digits (acc * 10 + digit_value c) r else (acc, s)
  | EmptyString => (acc, EmptyString)
  end.

(** A number goes on with a fraction or an exponent: a float. *)
Definition float_follows (s : string) : bool :=
  match s with
  | String c _ => bool_decide (c = "."%char \/ c = "e"%char \/ c = "E"%char)
  | EmptyString => false
  end.

(** An optional minus, then [0] or a non-zero digit followed by digits. *)
Definition parse_uint (s : string) : option (Z * string) :=
  match s with
  | String c r =>
      if ascii_dec c "0" then Some (0%Z, r)
      else if py_isdigit c then Some (read_digits (digit_value c) r)
      else None
  | EmptyString => None
  end.

Definition number_after_sign (neg : bool) (s : string) : option (Z * string) :=
  match parse_uint s with
  | Some (n, r) => if float_follows r then None else Some (if neg then (- n)%Z else n, r)
  | None => None
  end.

Definition parse_number (s : string) : option (Z * string) :=
  match s with
  | String c r => if ascii_dec c "-" then number_after_sign true r else number_after_sign false s
  | EmptyString => None
  end.

Fixpoint parse_value (fuel : nat) (s : string) {struct fuel} : option (pyval * string) :=
  match fuel with
  | 0 => None
  | S f =>
      match s with
      | String c r =>
          if ascii_dec c dquote then
            match parse_str_body (S (String.length r)) r with
            | Some (b, r') => Some (PStr b, r')
            | None => None
            end
          else if ascii_dec c "[" then
            match skip_ws r with
            | String c1 r1 =>
                if ascii_dec c1 "]" then Some (PList [], r1)
                else match parse_elems f (skip_ws r) with
                     | Some (l, r2) => Some (PList l, r2)
                     | None => None
                     end
            | EmptyString => None
            end
          else if ascii_dec c "{" then
            match skip_ws r with
            | String c1 r1 =>
                if ascii_dec c1 "}" then Some (PDict [], r1)
                else match parse_members f (skip_ws r) with
                     | Some (kvs, r2) => Some (PDict (dict_of_pairs kvs), r2)
                     | None => None
                     end
            | EmptyString => None
            end
          else if String.prefix "null" s then Some (PNone, str_drop 4 s)
          else if String.prefix "true" s then Some (PBool true, str_drop 4 s)
          else if String.prefix "false" s then Some (PBool false, str_drop 5 s)
          else match parse_number s with
               | Some (z, r') => Some (PInt z, r')
               | None => None
               end
      | EmptyString => None
      end
  end
with parse_elems (fuel : nat) (s : string) {struct fuel} : option (list pyval * string) :=
  match fuel with
  | 0 => None
  | S f =>
      match parse_value f s with
      | Some (v, r) =>
          match skip_ws r with
          | String c r1 =>
              if ascii_dec c "," then
                match parse_elems f (skip_ws r1) with
                | Some (l, r2) => Some (v :: l, r2)
                | None => None
                end
              else if ascii_dec c "]" then Some ([v], r1)
              else None
          | EmptyString => None
          end
      | None => None
      end
  end
with parse_members (fuel : nat) (s : string) {struct fuel}
    : option (list (string * pyval) * string) :=
  match fuel with
  | 0 => None
  | S f =>
      match s with
      | String c r =>
          if ascii_dec c dquote then
            match parse_str_body (S (String.length r)) r with
            | Some (k, r1) =>
                match skip_ws r1 with
                | String c2 r2 =>
                    if ascii_dec c2 ":" then
                      match parse_value f (skip_ws r2) with
                      | Some (v, r3) =>
                          match skip_ws r3 with
                          | String c3 r4 =>
                              if ascii_dec c3 "," then
                                match parse_members f (skip_ws r4) with
                                | Some (kvs, r5) => Some ((k, v) :: kvs, r5)
                                | None => None
                                end
                              else if ascii_dec c3 "}" then Some ([(k, v)], r4)
                              else None
                          | EmptyString => None
                          end
                      | None => None
                      end
                    else None
                | EmptyString => None
                end
            | None => None
            end
          else None
      | EmptyString => None
      end
  end.

(** [json.loads(s)]: one value between optional whitespace.  [None] is
    the [JSONDecodeError] (or a value outside the model). *)
Definition loads (s : string) : option pyval :=
  match parse_value (S (String.length s)) (skip_ws s) with
  | Some (v, r) => if String.eqb (skip_ws r) EmptyString then Some v else None
  | None => None
  end.

Example dumps_example :
  dumps (PDict [("foo", PDict [("app_name", PStr "Foo"); ("n", PList [PInt (-12); PNone])])]) =
  "{" +:+ String "010" "  " +:+ encode_str "foo" +:+ ": {" +:+ String "010" "    "
      +:+ encode_str "app_name" +:+ ": " +:+ encode_str "Foo" +:+ "," +:+ String "010" "    "
      +:+ encode_str "n" +:+ ": [" +:+ String "010" "      " +:+ "-12," +:+ String "010" "      "
      +:+ "null" +:+ String "010" "    " +:+ "]" +:+ String "010" "  " +:+ "}"
      +:+ String "010" "}".
Proof. vm_compute. reflexivity. Qed.

Example loads_example :
  loads (" {" +:+ encode_str "a" +:+ ": [1 , true,{}], " +:+ encode_str "a" +:+ ":"
           +:+ encode_str (String "x" (String (ascii_of_nat 233) EmptyString)) +:+ "}  ") =
  Some (PDict [("a", PStr (String "x" (String (ascii_of_nat 233) EmptyString)))]) /\
  loads "[1.5]" = None /\ loads "[1,]" = None /\ loads "01" = None.
Proof. vm_compute. repeat split. Qed.

(** ** The round trip [loads (dumps v) = Some v] *)

Lemma parse_char_escape c r : parse_char (json_escape_char c +:+ r) = Some (c, r).
Proof. destruct c as [[][][][][][][][]]; reflexivity. Qed.

Lemma escape_head c : exists c0 t, json_escape_char c = String c0 t /\ c0 <> dquote.
Proof. destruct c as [[][][][][][][][]]; (eexists _, _; split; [reflexivity|discriminate]). Qed.

Lemma parse_str_body_char f c r :
  parse_str_body (S f) (json_escape_char c +:+ r) =
  match parse_str_body f r with Some (b, r') => Some (String c b, r') | None => None end.
Proof.
  destruct (escape_head c) as (c0 & t & Heq & Hne).
  pose proof (parse_char_escape c r) as Hp. rewrite Heq, string_app_cons in Hp |- *.
  cbn [parse_str_body]. destruct (ascii_dec c0 dquote); [done|]. by rewrite Hp.
Qed.

Lemma parse_str_body_encode s f rest :
  String.length (str_concat_map json_escape_char s) < f ->
  parse_str_body f (str_concat_map json_escape_char s +:+ String dquote rest) = Some (s, rest).
Proof.
  revert f. induction s as [|c s IH]; intros [|f] Hf; cbn [str_concat_map] in Hf |- *; try lia; [done|].
  rewrite <- string_app_assoc, parse_str_body_char, IH; [done|].
  rewrite string_length_app in Hf.
  destruct (escape_head c) as (c0 & t & Heq & _). rewrite Heq in Hf. simpl in Hf. lia.
Qed.

(** What may follow a value in the text: anything but a digit or the
    start of a fraction or exponent. *)
Definition json_delim (s : string) : Prop :=
  match s with
  | String c _ => py_isdigit c = false /\ float_follows s = false
  | EmptyString => True
  end.

Lemma read_digits_app acc t s :
  str_forall py_isdigit t = true -> read_digits acc (t +:+ s) = read_digits (digits_value acc t) s.
Proof.
  revert acc. induction t as [|c t IH]; intros acc; [done|].
  cbn [str_forall]. intros [Hc Ht]%andb_true_iff. rewrite string_app_cons. cbn [read_digits].
  rewrite Hc. by apply IH.
Qed.

Lemma read_digits_stop acc s : json_delim s -> read_digits acc s = (acc, s).
Proof. destruct s as [|c s]; [done|]. simpl. by intros [-> _]. Qed.

Lemma number_after_sign_pos neg p rest :
  json_delim rest ->
  number_after_sign neg (pretty (Npos p) +:+ rest) = Some (if neg then Zneg p else Zpos p, rest).
Proof.
  intros Hd. destruct (pretty_pos_split p) as ((c & t & Heq & Hc0) & Hdig & Hv).
  rewrite Heq in Hdig, Hv |- *. simpl in Hdig. apply andb_true_iff in Hdig as [Hc Ht].
  unfold number_after_sign, parse_uint. rewrite string_app_cons.
  destruct (ascii_dec c "0"); [done|]. rewrite Hc, read_digits_app, read_digits_stop by done.
  assert (digits_value (digit_value c) t = Zpos p) as Hv' by exact Hv. rewrite Hv'.
  destruct rest as [|c' rest]; [|destruct Hd as [_ ->]]; by destruct neg.
Qed.

Lemma parse_number_encode z rest :
  json_delim rest -> parse_number (py_str_int z +:+ rest) = Some (z, rest).
Proof.
  intros Hd. unfold py_str_int, pretty at 1, pretty_Z. destruct z as [|p|p].
  - rewrite string_app_cons, string_app_nil_l. unfold parse_number, number_after_sign. simpl.
    destruct rest as [|c rest]; [done|]. by destruct Hd as [_ ->].
  - unfold pretty at 1, pretty_positive.
    destruct (pretty_pos_split p) as ((c & t & Heq & _) & Hdig & _).
    rewrite Heq in Hdig. simpl in Hdig. apply andb_true_iff in Hdig as [Hc _].
    unfold parse_number. rewrite Heq, string_app_cons.
    destruct (ascii_dec c "-") as [->|]; [done|].
    rewrite <- string_app_cons, <- Heq. by apply number_after_sign_pos.
  - unfold pretty at 1, pretty_positive. rewrite <- string_app_assoc, string_app_cons, string_app_nil_l.
    unfold parse_number. simpl. by apply number_after_sign_pos.
Qed.

Lemma skip_ws_spaces n s : skip_ws (spaces n +:+ s) = skip_ws s.
Proof. induction n as [|n IH]; [done|]. cbn [spaces]. rewrite string_app_cons. apply IH. Qed.

Lemma skip_ws_newline_indent lvl s : skip_ws (newline_indent lvl +:+ s) = skip_ws s.
Proof. unfold newline_indent. rewrite string_app_cons. apply skip_ws_spaces. Qed.

Lemma skip_ws_nonws c s : json_ws c = false -> skip_ws (String c s) = String c s.
Proof. simpl. by intros ->. Qed.

Lemma digit_not_json_ws c : py_isdigit c = true -> json_ws c = false.
Proof. unfold py_isdigit, json_ws. generalize (nat_of_ascii c). intros n. nat_bool_cases. Qed.



Lemma json_delim_newline lvl s : json_delim (newline_indent lvl +:+ s).
Proof. unfold newline_indent. rewrite string_app_cons. done. Qed.

Lemma json_delim_comma s : json_delim ("," +:+ s).
Proof. rewrite string_app_cons. done. Qed.

#[local] Hint Resolve json_delim_newline json_delim_comma : core.

(** The fuel the parser needs for a value: one per node, plus one per
    element of each list or dict. *)
Fixpoint pv_size (v : pyval) : nat :=
  match v with
  | PList l => S (list_sum (map (fun x => S (pv_size x)) l))
  | PDict d => S (list_sum (map (fun kv => S (pv_size kv.2)) d))
  | _ => 1
  end.

Lemma Forall_id_map {A} (P : A -> Prop) l : Forall id (map P l) <-> Forall P l.
Proof. induction l; simpl; rewrite ?Forall_cons; naive_solver. Qed.

(** A character that starts an encoding. *)
Definition value_start (c : ascii) : Prop :=
  json_ws c = false /\ c <> "]"%char /\ c <> "}"%char /\ c <> ","%char.

Lemma encode_head lvl v : exists c t, encode lvl v = String c t /\ value_start c.
Proof.
  destruct v as [|[]|[|p|p]|s|[|x l]|[|[k x] d]];
    try (eexists _, _; split; [reflexivity|split_and!; done]).
  unfold encode, py_str_int, pretty at 1, pretty_Z, pretty at 1, pretty_positive.
  destruct (pretty_pos_split p) as ((c & t & Heq & _) & Hdig & _).
  rewrite Heq in Hdig |- *. simpl in Hdig. apply andb_true_iff in Hdig as [Hc _].
  exists c, t. split; [done|]. split_and!; [by apply digit_not_json_ws|..]; intros ->; discriminate.
Qed.

Lemma join_head sep (l : list string) x z :
  (exists c t, x = String c t /\ value_start c) ->
  exists c t, str_join sep (x :: l) +:+ z = String c t /\ value_start c.
Proof.
  intros (c & t & -> & Hc). exists c. destruct l; [eexists; split; [done|done]|].
  eexists. split; [|done]. simpl. by rewrite <- !string_app_assoc, string_app_cons.
Qed.

Lemma skip_ws_value_start c t : value_start c -> skip_ws (String c t) = String c t.
Proof. intros [Hws _]. by apply skip_ws_nonws. Qed.

(** A text that starts like a number is read by [parse_number]. *)
Lemma parse_value_number f c r :
  c <> dquote -> c <> "["%char -> c <> "{"%char -> c <> "n"%char -> c <> "t"%char -> c <> "f"%char ->
  parse_value (S f) (String c r) =
  match parse_number (String c r) with Some (z, r') => Some (PInt z, r') | None => None end.
Proof.
  intros. cbn [parse_value].
  repeat (destruct ascii_dec; [congruence|]).
  assert (forall s1 c1, c1 <> c -> String.prefix (String c1 s1) (String c r) = false) as Hpre.
  { intros s1 c1 Hne. simpl. destruct ascii_dec; congruence. }
  rewrite !Hpre by done. done.
Qed.

Lemma parse_encode_int z f rest :
  json_delim rest -> parse_value (S f) (py_str_int z +:+ rest) = Some (PInt z, rest).
Proof.
  intros Hd. pose proof (parse_number_encode z rest Hd) as Hn.
  assert (exists c t, py_str_int z = String c t /\ (c = "-"%char \/ py_isdigit c = true)) as (c & t & Heq & Hc).
  { unfold py_str_int, pretty at 1, pretty_Z, pretty at 1, pretty_positive.
    destruct z as [|p|p]; [by eexists _, _; split; [|right]| |by eexists _, _; split; [|left]].
    destruct (pretty_pos_split p) as ((c & t & Heq & _) & Hdig & _).
    rewrite Heq in Hdig |- *. simpl in Hdig. apply andb_true_iff in Hdig as [Hc _].
    exists c, t. by split; [|right]. }
  rewrite Heq, string_app_cons in Hn |- *.
  rewrite parse_value_number, Hn; [done|..]; destruct Hc as [->|Hc]; try discriminate;
    intros ->; discriminate.
Qed.

Lemma encode_str_app k s :
  encode_str k +:+ s = String dquote (str_concat_map json_escape_char k +:+ String dquote s).
Proof. unfold encode_str. by rewrite string_app_cons, <- string_app_assoc. Qed.

Lemma parse_encode_str k f rest :
  parse_value (S f) (encode_str k +:+ rest) = Some (PStr k, rest).
Proof.
  rewrite encode_str_app. cbn [parse_value]. destruct ascii_dec; [|done].
  rewrite parse_str_body_encode; [done|]. rewrite string_length_app. simpl. lia.
Qed.

(** The property the induction carries: the encoding of [v] at any depth,
    followed by a delimiter, parses back to [v] with enough fuel. *)
Definition parses_back (v : pyval) : Prop :=
  forall lvl f rest, pv_size v < f -> json_delim rest ->
  parse_value f (encode lvl v +:+ rest) = Some (v, rest).

Lemma str_join_cons2 sep (a b : string) l :
  str_join sep (a :: b :: l) = a +:+ sep +:+ str_join sep (b :: l).
Proof. reflexivity. Qed.

Lemma parse_elems_more f s v r r1 :
  parse_value f s = Some (v, r) -> skip_ws r = String "," r1 ->
  parse_elems (S f) s =
  match parse_elems f (skip_ws r1) with Some (l, r2) => Some (v :: l, r2) | None => None end.
Proof. intros H1 H2. cbn [parse_elems]. by rewrite H1, H2. Qed.

Lemma parse_elems_last f s v r r1 :
  parse_value f s = Some (v, r) -> skip_ws r = String "]" r1 -> parse_elems (S f) s = Some ([v], r1).
Proof. intros H1 H2. cbn [parse_elems]. by rewrite H1, H2. Qed.

Lemma skip_ws_punct c s : c ∈ [","; "]"; "}"; ":"]%char -> skip_ws (String c s) = String c s.
Proof. intros Hc. apply skip_ws_nonws. repeat (apply elem_of_cons in Hc as [->|Hc]; [done|]). set_solver. Qed.

Lemma skip_ws_sep lvl s : skip_ws (newline_indent lvl +:+ "]" +:+ s) = String "]" s.
Proof. rewrite skip_ws_newline_indent, string_app_cons. apply skip_ws_punct. set_solver. Qed.

Lemma parse_elems_encode lvl l f rest :
  Forall parses_back l -> l <> [] ->
  list_sum (map (fun x => S (pv_size x)) l) < f ->
  parse_elems f (str_join ("," +:+ newline_indent (S lvl)) (map (encode (S lvl)) l)
                 +:+ newline_indent lvl +:+ "]" +:+ rest) = Some (l, rest).
Proof.
  intros HIH. revert f. induction HIH as [|x l Hx _ IHl]; [done|]. intros [|f] _ Hf; [simpl in Hf; lia|].
  simpl in Hf. destruct l as [|y l'].
  - eapply parse_elems_last; [apply Hx; [lia|done] | apply skip_ws_sep].
  - cbn [map] in IHl |- *. rewrite str_join_cons2, <- !string_app_assoc.
    erewrite parse_elems_more; [|apply Hx; [lia|done] | rewrite string_app_cons; apply skip_ws_punct; set_solver].
    rewrite string_app_nil_l, skip_ws_newline_indent.
    destruct (join_head ("," +:+ newline_indent (S lvl)) (map (encode (S lvl)) l') (encode (S lvl) y)
                (newline_indent lvl +:+ "]" +:+ rest) (encode_head _ _)) as (c & t & Heq & Hc).
    rewrite Heq, skip_ws_value_start, <- Heq by done.
    rewrite IHl; [done|done|simpl in Hf |- *; lia].
Qed.

Lemma parse_members_step f r k r1 r2 v r3 :
  parse_str_body (S (String.length r)) r = Some (k, r1) ->
  skip_ws r1 = String ":" r2 ->
  parse_value f (skip_ws r2) = Some (v, r3) ->
  parse_members (S f) (String dquote r) =
    match skip_ws r3 with
    | String c3 r4 =>
        if ascii_dec c3 "," then
          match parse_members f (skip_ws r4) with
          | Some (kvs, r5) => Some ((k, v) :: kvs, r5)
          | None => None
          end
        else if ascii_dec c3 "}" then Some ([(k, v)], r4) else None
    | EmptyString => None
    end.
Proof. intros H1 H2 H3. cbn [parse_members]. destruct ascii_dec; [|done]. by rewrite H1, H2, H3. Qed.

(** One member [ "k": v ] followed by [rest] reads back as [(k, v)]. *)
Lemma parse_member_encode f lvl k v rest :
  parses_back v -> pv_size v < f -> json_delim rest ->
  exists r, encode_str k +:+ ": " +:+ encode (S lvl) v +:+ rest = String dquote r /\
    parse_str_body (S (String.length r)) r = Some (k, ": " +:+ encode (S lvl) v +:+ rest) /\
    skip_ws (": " +:+ encode (S lvl) v +:+ rest) = String ":" (" " +:+ encode (S lvl) v +:+ rest) /\
    parse_value f (skip_ws (" " +:+ encode (S lvl) v +:+ rest)) = Some (v, rest).
Proof.
  intros Hv Hf Hd. rewrite encode_str_app. eexists. split; [done|]. split_and!.
  - apply parse_str_body_encode. rewrite string_length_app. simpl. lia.
  - rewrite string_app_cons. apply skip_ws_punct. set_solver.
  - rewrite string_app_cons, string_app_nil_l. cbn [skip_ws]. simpl (json_ws " ").
    destruct (encode_head (S lvl) v) as (c & t & Heq & Hc).
    rewrite Heq, string_app_cons, skip_ws_value_start, <- string_app_cons, <- Heq by done.
    by apply Hv.
Qed.

Lemma parse_members_encode lvl d f rest :
  Forall (fun kv => parses_back kv.2) d -> d <> [] ->
  list_sum (map (fun kv => S (pv_size kv.2)) d) < f ->
  parse_members f (str_join ("," +:+ newline_indent (S lvl))
                     (map (fun kv => encode_str kv.1 +:+ ": " +:+ encode (S lvl) kv.2) d)
                   +:+ newline_indent lvl +:+ "}" +:+ rest) = Some (d, rest).
Proof.
  intros HIH. revert f. induction HIH as [|[k x] d Hx _ IHd]; [done|]. intros [|f] _ Hf; [simpl in Hf; lia|].
  simpl in Hf, Hx. destruct d as [|[k' y] d'].
  - cbn [map str_join fst snd]. rewrite <- !string_app_assoc.
    destruct (parse_member_encode f lvl k x (newline_indent lvl +:+ "}" +:+ rest)) as (r & Heq & H1 & H2 & H3);
      [done|lia|done|].
    rewrite Heq. erewrite parse_members_step by done.
    rewrite skip_ws_newline_indent, string_app_cons, skip_ws_punct by set_solver. done.
  - cbn [map fst snd] in IHd |- *. rewrite str_join_cons2, <- !string_app_assoc.
    destruct (parse_member_encode f lvl k x ("," +:+ newline_indent (S lvl) +:+
                str_join ("," +:+ newline_indent (S lvl))
                  ((encode_str k' +:+ ": " +:+ encode (S lvl) y) ::
                   map (fun kv => encode_str kv.1 +:+ ": " +:+ encode (S lvl) kv.2) d')
                +:+ newline_indent lvl +:+ "}" +:+ rest)) as (r & Heq & H1 & H2 & H3);
      [done|lia|done|].
    rewrite Heq. erewrite parse_members_step by done.
    rewrite string_app_cons, skip_ws_punct by set_solver. simpl (ascii_dec _ _).
    rewrite string_app_nil_l, skip_ws_newline_indent.
    destruct (join_head ("," +:+ newline_indent (S lvl))
                (map (fun kv => encode_str kv.1 +:+ ": " +:+ encode (S lvl) kv.2) d')
                (encode_str k' +:+ ": " +:+ encode (S lvl) y) (newline_indent lvl +:+ "}" +:+ rest))
      as (c & t & Heq' & Hc).
    { rewrite encode_str_app. eexists _, _. split; [done|]. split_and!; [reflexivity|discriminate..]. }
    rewrite Heq', skip_ws_value_start, <- Heq' by done.
    rewrite IHd; [done|done|simpl in Hf |- *; lia].
Qed.

Lemma parse_value_list f r c1 r1 :
  skip_ws r = String c1 r1 -> c1 <> "]"%char ->
  parse_value (S f) (String "[" r) =
  match parse_elems f (String c1 r1) with Some (l, r2) => Some (PList l, r2) | None => None end.
Proof.
  intros H1 H2. cbn [parse_value]. rewrite H1.
  destruct (ascii_dec "[" dquote); [discriminate|]. destruct (ascii_dec "[" "["); [|congruence].
  by destruct (ascii_dec c1 "]").
Qed.

Lemma parse_value_dict f r c1 r1 :
  skip_ws r = String c1 r1 -> c1 <> "}"%char ->
  parse_value (S f) (String "{" r) =
  match parse_members f (String c1 r1) with
  | Some (kvs, r2) => Some (PDict (dict_of_pairs kvs), r2)
  | None => None
  end.
Proof.
  intros H1 H2. cbn [parse_value]. rewrite H1.
  destruct (ascii_dec "{" dquote); [discriminate|]. destruct (ascii_dec "{" "["); [discriminate|].
  destruct (ascii_dec "{" "{"); [|congruence]. by destruct (ascii_dec c1 "}").
Qed.

Lemma Forall_impl_wf {A} (P Q : A -> Prop) l :
  Forall (fun x => P x -> Q x) l -> Forall P l -> Forall Q l.
Proof. induction 1; inversion 1; constructor; auto. Qed.

Lemma str_prefix_nil s : String.prefix EmptyString s = true.
Proof. by destruct s. Qed.

(** The literals [null], [true], [false]. *)
Lemma parse_literal f lit v rest :
  (lit, v) ∈ [("null", PNone); ("true", PBool true); ("false", PBool false)] ->
  parse_value (S f) (lit +:+ rest) = Some (v, rest).
Proof.
  intros Hl. repeat (apply elem_of_cons in Hl as [[= -> ->]|Hl];
    [rewrite !string_app_cons, string_app_nil_l; cbn; by rewrite str_prefix_nil|]).
  set_solver.
Qed.

Lemma pyval_wf_list l : pyval_wf (PList l) <-> Forall pyval_wf l.
Proof. apply Forall_id_map. Qed.

Lemma pyval_wf_dict d :
  pyval_wf (PDict d) <-> dict_wf d /\ Forall (fun kv => pyval_wf kv.2) d.
Proof. simpl. by rewrite (Forall_id_map (fun kv => pyval_wf kv.2)). Qed.

Lemma parse_encode v : pyval_wf v -> parses_back v.
Proof.
  induction v as [| b | z | s | l IH | d IH] using pyval_ind';
    intros Hwf lvl [|f] rest Hf Hd; try (simpl in Hf; lia).
  - apply parse_literal. set_solver.
  - destruct b; apply parse_literal; set_solver.
  - by apply parse_encode_int.
  - apply parse_encode_str.
  - apply pyval_wf_list in Hwf. destruct l as [|x l']; [reflexivity|].
    cbn [encode]. rewrite <- !string_app_assoc, string_app_cons, string_app_nil_l.
    destruct (join_head ("," +:+ newline_indent (S lvl)) (map (encode (S lvl)) l') (encode (S lvl) x)
                (newline_indent lvl +:+ "]" +:+ rest) (encode_head _ _)) as (c & t & Heq & Hc).
    erewrite parse_value_list;
      [|by rewrite skip_ws_newline_indent; cbn [map]; rewrite Heq, skip_ws_value_start|apply Hc].
    rewrite <- Heq. change (encode (S lvl) x :: map (encode (S lvl)) l') with (map (encode (S lvl)) (x :: l')).
    rewrite parse_elems_encode; [done|by apply (Forall_impl_wf pyval_wf)|done|simpl in Hf |- *; lia].
  - apply pyval_wf_dict in Hwf as [Hdwf Hwf]. destruct d as [|[k x] d']; [reflexivity|].
    cbn [encode]. rewrite <- !string_app_assoc, string_app_cons, string_app_nil_l.
    destruct (join_head ("," +:+ newline_indent (S lvl))
                (map (fun kv => encode_str kv.1 +:+ ": " +:+ encode (S lvl) kv.2) d')
                (encode_str (k, x).1 +:+ ": " +:+ encode (S lvl) (k, x).2)
                (newline_indent lvl +:+ "}" +:+ rest)) as (c & t & Heq & Hc).
    { rewrite encode_str_app. eexists _, _. split; [done|]. split_and!; [reflexivity|discriminate..]. }
    erewrite parse_value_dict;
      [|by rewrite skip_ws_newline_indent; cbn [map]; rewrite Heq, skip_ws_value_start|apply Hc].
    rewrite <- Heq.
    change (?a :: map ?g d') with (map g ((k, x) :: d')).
    rewrite parse_members_encode; [by rewrite dict_of_pairs_id|by apply (Forall_impl_wf (fun kv => pyval_wf kv.2))|done|].
    simpl in Hf |- *; lia.
Qed.

Lemma str_join_length sep l :
  l <> [] ->
  String.length (str_join sep l) + String.length sep =
  list_sum (map (fun x => String.length x + String.length sep) l).
Proof.
  induction l as [|x [|y l] IH]; intros Hne; [done|simpl; lia|].
  rewrite str_join_cons2, !string_length_app. specialize (IH ltac:(done)). simpl in *. lia.
Qed.

Lemma list_sum_map_le {A} (f g : A -> nat) l :
  Forall (fun x => f x <= g x) l -> list_sum (map f l) <= list_sum (map g l).
Proof. induction 1; simpl; lia. Qed.

Lemma length_spaces n : String.length (spaces n) = n.
Proof. induction n; simpl; auto. Qed.

Lemma length_newline_indent lvl : String.length (newline_indent lvl) = S (2 * lvl).
Proof. unfold newline_indent. cbn [String.length]. by rewrite length_spaces. Qed.

Lemma length_py_str_int z : 1 <= String.length (py_str_int z).
Proof.
  unfold py_str_int, pretty at 1, pretty_Z, pretty at 1, pretty_positive.
  destruct z as [|p|p]; [simpl; lia| |rewrite string_length_app; simpl; lia].
  destruct (pretty_pos_split p) as ((c & t & -> & _) & _). simpl. lia.
Qed.

(** A bracketed, indented, comma-separated block is at least one
    character longer than its items together, each counted once more. *)
Lemma container_length {A} (elt : A -> string) (sz : A -> nat) l lvl (op cl : ascii) :
  l <> [] -> Forall (fun x => sz x <= String.length (elt x)) l ->
  S (list_sum (map (fun x => S (sz x)) l)) <=
  String.length (String op EmptyString +:+ newline_indent (S lvl)
     +:+ str_join ("," +:+ newline_indent (S lvl)) (map elt l)
     +:+ newline_indent lvl +:+ String cl EmptyString).
Proof.
  intros Hne Hl.
  pose proof (str_join_length ("," +:+ newline_indent (S lvl)) (map elt l)) as Hj.
  rewrite map_map in Hj.
  pose proof (list_sum_map_le (fun x => S (sz x))
                (fun y => String.length (elt y) + String.length ("," +:+ newline_indent (S lvl))) l) as Hs.
  set (k := String.length ("," +:+ newline_indent (S lvl))) in *.
  assert (k = S (S (2 * S lvl))) as Hk by (subst k; by rewrite string_length_app, length_newline_indent).
  specialize (Hj ltac:(by destruct l)).
  lapply Hs; [clear Hs; intros Hs|].
  2:{ eapply Forall_impl; [apply Hl|]. intros y Hy. cbv beta in Hy. lia. }
  rewrite !string_length_app, !length_newline_indent. simpl. lia.
Qed.

(** The parser's fuel measure is at most the length of the text. *)
Lemma pv_size_encode v lvl : pv_size v <= String.length (encode lvl v).
Proof.
  revert lvl. induction v as [| b | z | s | l IH | d IH] using pyval_ind'; intros lvl.
  - simpl. lia.
  - destruct b; simpl; lia.
  - apply length_py_str_int.
  - unfold encode, encode_str. simpl. lia.
  - destruct l as [|x l']; [simpl; lia|].
    apply (container_length (encode (S lvl)) pv_size (x :: l') lvl "[" "]"); [done|].
    eapply Forall_impl; [apply IH|]. intros y Hy. apply Hy.
  - destruct d as [|kv d']; [simpl; lia|].
    apply (container_length (fun kv => encode_str kv.1 +:+ ": " +:+ encode (S lvl) kv.2)
             (fun kv => pv_size kv.2) (kv :: d') lvl "{" "}"); [done|].
    eapply Forall_impl; [apply IH|]. intros [k y] Hy. simpl in Hy |- *.
    rewrite !string_length_app. specialize (Hy (S lvl)). simpl. lia.
Qed.

(** The round trip of the registry file: [json.loads(json.dumps(v,
    indent=2)) == v] for every value whose dicts have distinct keys. *)
Lemma loads_dumps v : pyval_wf v -> loads (dumps v) = Some v.
Proof.
  intros Hwf. unfold loads, dumps.
  destruct (encode_head 0 v) as (c & t & Heq & Hc).
  rewrite Heq, skip_ws_value_start, <- Heq by done.
  rewrite <- (string_app_nil_r (encode 0 v)) at 2.
  rewrite parse_encode; [done|done|pose proof (pv_size_encode v 0); lia|done].
Qed.

(** ** What [json.load] returns

    The decoder builds every object with [dict_of_pairs], so its dicts
    have distinct keys. *)
Lemma parse_wf f :
  (forall s v r, parse_value f s = Some (v, r) -> pyval_wf v) /\
  (forall s l r, parse_elems f s = Some (l, r) -> Forall pyval_wf l) /\
  (forall s kvs r, parse_members f s = Some (kvs, r) -> Forall (fun kv => pyval_wf kv.2) kvs).
Proof.
  induction f as [|f (IHv & IHe & IHm)]; [done|]. split_and!.
  - intros s v r. simpl. repeat case_match; intros; simplify_eq; try done;
      first [ apply pyval_wf_list; by eauto
            | apply pyval_wf_dict; split; [apply dict_of_pairs_wf | apply dict_of_pairs_values; by eauto]
            | split; constructor ].
  - intros s l r. simpl. repeat case_match; intros; simplify_eq; eauto.
  - intros s kvs r. simpl. repeat case_match; intros; simplify_eq; eauto.
Qed.

Lemma loads_wf s v : loads s = Some v -> pyval_wf v.
Proof. unfold loads. repeat case_match; intros; simplify_eq. by eapply parse_wf. Qed.

(** [json.loads] inverts [json.dump(indent=2)] exactly on the values
    it can return: every value whose dicts have distinct keys is read back
    from its encoding, and every value [json.loads] returns has distinct
    keys in its dicts. *)
Theorem loads_dumps_exact :
  (forall v, pyval_wf v -> loads (dumps v) = Some v) /\
  (forall s v, loads s = Some v -> pyval_wf v).
Proof. split; [exact loads_dumps | exact loads_wf]. Qed.
