(* ===== verification/PyPath.v ===== *)
(** * [pathlib.PurePosixPath] as [src/app.py] uses it

    The script builds every location with [Path.home() / ".local" / "bin"],
    [bin_dir / command], [Path(app_info["launcher_path"])],
    [old_launcher_path.parent / args.new_command], [appimage.stem],
    [Path(appimage_path).name] and [str(p)].  This file models CPython
    3.12's pure POSIX paths:
    - [path_of_string] is [Path(s)]: [posixpath.splitroot] (no slash:
      relative; exactly two leading slashes: root ["//"]; one or three or
      more: root ["/"]), then the rest split on ["/"] with empty and ["."]
      segments dropped ([".."] is kept);
    - [path_str] is [str(p)]: the root, the segments joined by ["/"], and
      ["."] for the empty relative path;
    - [path_join] is [p / s]: [s] parsed; an absolute [s] replaces [p],
      otherwise its segments are appended;
    - [path_name], [path_parent], [path_stem], [path_suffix]. *)

From S2P Require Import Prelude PyStr.

Record path : Type := mkpath { p_root : string; p_parts : list string }.

#[export] Instance path_eq_dec : EqDecision path.
Proof. intros [r1 p1] [r2 p2]. destruct (decide (r1 = r2)), (decide (p1 = p2)); [left|right..]; congruence. Defined.

(** [s.split("/")]: always at least one piece; [""] gives [[""]]. *)
Fixpoint str_split (sep : ascii) (s : string) : list string :=
  match s with
  | EmptyString => [EmptyString]
  | String c s' =>
      if ascii_dec c sep then EmptyString :: str_split sep s'
      else match str_split sep s' with
           | [] => [String c EmptyString]
           | x :: rest => String c x :: rest
           end
  end.

Definition slash : ascii := "/"%char.

(** The segments of a relative part: empty and ["."] pieces dropped. *)
Definition path_segments (rel : string) : list string :=
  filter (fun x => x <> EmptyString /\ x <> ".") (str_split slash rel).

(** [posixpath.splitroot] without the drive: (root, rest). *)
Definition split_root (s : string) : string * string :=
  match s with
  | String c1 s1 =>
      if ascii_dec c1 slash then
        match s1 with
        | String c2 s2 =>
            if ascii_dec c2 slash then
              match s2 with
              | String c3 _ => if ascii_dec c3 slash then ("/", s1) else ("//", s2)
              | EmptyString => ("//", s2)
              end
            else ("/", s1)
        | EmptyString => ("/", s1)
        end
      else (EmptyString, s)
  | EmptyString => (EmptyString, EmptyString)
  end.

(** [Path(s)] *)
Definition path_of_string (s : string) : path :=
  let (root, rel) := split_root s in mkpath root (path_segments rel).

(** [str(p)] *)
Definition path_str (p : path) : string :=
  match p_root p, p_parts p with
  | EmptyString, [] => "."
  | r, parts => r +:+ str_join "/" parts
  end.

(** [p / s] *)
Definition path_join (p : path) (s : string) : path :=
  let q := path_of_string s in
  match p_root q with
  | EmptyString => mkpath (p_root p) (p_parts p ++ p_parts q)
  | _ => q
  end.

Notation "p // s" := (path_join p s) (at level 40, left associativity) : py_scope.

(** [p.name] *)
Definition path_name (p : path) : string := default EmptyString (last (p_parts p)).

(** [p.parent]: the path itself when it has no segment. *)
Definition path_parent (p : path) : path :=
  match p_parts p with
  | [] => p
  | parts => mkpath (p_root p) (removelast parts)
  end.

(** The position of the last ["."] of a name, if any. *)
Fixpoint last_dot_go (i : nat) (s : string) (acc : option nat) : option nat :=
  match s with
  | EmptyString => acc
  | String c s' => last_dot_go (S i) s' (if ascii_dec c "." then Some i else acc)
  end.

Definition last_dot (s : string) : option nat := last_dot_go 0 s None.

(** [p.suffix] and [p.stem]: the suffix starts at the last dot of the name
    when that dot is neither the first nor the last character. *)
Definition suffix_start (name : string) : option nat :=
  match last_dot name with
  | Some i => if (0 <? i) && (i <? String.length name - 1) then Some i else None
  | None => None
  end.

Definition path_stem (p : path) : string :=
  let n := path_name p in
  match suffix_start n with Some i => String.substring 0 i n | None => n end.

Definition path_suffix (p : path) : string :=
  let n := path_name p in
  match suffix_start n with Some i => str_drop i n | None => EmptyString end.

(** ** Well-formed paths *)

(** A segment as [Path] keeps it: not empty, not ["."], without ["/"]. *)
Definition segment_ok (x : string) : bool := bool_decide (x <> EmptyString /\ x <> ".") && no_char slash x.

(** The paths [Path(s)] builds: a root of [posixpath.splitroot] and
    proper segments. *)
Definition path_wf (p : path) : bool :=
  bool_decide (p_root p ∈ [EmptyString; "/"; "//"]) && forallb segment_ok (p_parts p).

Lemma str_split_no_sep sep t : no_char sep t = true -> str_split sep t = [t].
Proof.
  induction t as [|x t IH]; [done|]. rewrite no_char_cons. intros [Hx Ht]%andb_true_iff.
  simpl. rewrite IH by done. destruct (ascii_dec x sep); [|done]. subst. by rewrite bool_decide_true in Hx.
Qed.

Lemma str_split_sep_cons sep s t :
  no_char sep s = true -> str_split sep (s +:+ String sep t) = s :: str_split sep t.
Proof.
  induction s as [|x s IH].
  - intros _. rewrite string_app_nil_l. simpl. by destruct (ascii_dec sep sep).
  - rewrite no_char_cons, string_app_cons. intros [Hx Hs]%andb_true_iff. simpl. rewrite IH by done.
    destruct (ascii_dec x sep); [subst; by rewrite bool_decide_true in Hx|done].
Qed.

Lemma str_split_no_char sep s : Forall (fun x => no_char sep x = true) (str_split sep s).
Proof.
  induction s as [|x s IH]; simpl; [by repeat constructor|].
  destruct (ascii_dec x sep) as [->|Hx]; [by constructor|].
  destruct (str_split sep s) as [|y l]; inversion IH; subst; repeat constructor; try done;
    rewrite no_char_cons; apply andb_true_iff; (split; [by apply negb_true_iff, bool_decide_eq_false|done]).
Qed.

Lemma split_root_relative s :
  no_char slash s = true -> split_root s = (EmptyString, s).
Proof.
  destruct s as [|c s]; [done|]. rewrite no_char_cons. intros [Hc _]%andb_true_iff.
  simpl. destruct (ascii_dec c slash) as [->|]; [done|done].
Qed.

Lemma split_root_roots s : (split_root s).1 ∈ [EmptyString; "/"; "//"].
Proof. unfold split_root. repeat case_match; set_solver. Qed.

(** [Path(s)] always builds a well-formed path. *)
Lemma path_of_string_wf s : path_wf (path_of_string s) = true.
Proof.
  unfold path_of_string, path_wf. pose proof (split_root_roots s) as Hr.
  destruct (split_root s) as [r rel]. simpl. rewrite bool_decide_true by done. simpl.
  apply forallb_forall. intros x. unfold path_segments. rewrite <- list_elem_of_In, list_elem_of_filter.
  intros [[H1 H2] Hx]. unfold segment_ok. rewrite bool_decide_true by done. simpl.
  exact (proj1 (Forall_forall _ _) (str_split_no_char slash rel) x Hx).
Qed.

Lemma str_split_join l :
  l <> [] -> Forall (fun x => no_char slash x = true) l -> str_split slash (str_join "/" l) = l.
Proof.
  induction l as [|x [|y l] IH]; intros Hne Hl; [done| |]; inversion Hl; subst.
  - by apply str_split_no_sep.
  - change (str_join "/" (x :: y :: l)) with (x +:+ "/" +:+ str_join "/" (y :: l)).
    rewrite string_app_cons, string_app_nil_l, str_split_sep_cons by done.
    f_equal. exact (IH ltac:(done) H2).
Qed.

(** The joined segments start with a character other than ["/"]. *)
Lemma str_join_head x l :
  segment_ok x = true -> exists c t, str_join "/" (x :: l) = String c t /\ c <> slash.
Proof.
  unfold segment_ok. intros [Hx Hs]%andb_true_iff. apply bool_decide_eq_true in Hx as [Hx _].
  destruct x as [|c x]; [done|]. rewrite no_char_cons in Hs. apply andb_true_iff in Hs as [Hc _].
  apply negb_true_iff, bool_decide_eq_false in Hc. exists c.
  destruct l; [by eexists|]. cbn [str_join]. rewrite string_app_cons. by eexists.
Qed.

Lemma split_root_app r t :
  r ∈ [EmptyString; "/"; "//"] -> t <> "." ->
  (t = EmptyString \/ exists c t', t = String c t' /\ c <> slash) ->
  split_root (r +:+ t) = (r, t).
Proof.
  intros Hr Ht [->|(c & t' & -> & Hc)]; repeat (apply elem_of_cons in Hr as [->|Hr]); try set_solver;
    simpl; try done; by repeat (destruct (ascii_dec _ _); try congruence).
Qed.
Lemma segments_ok l :
  forallb segment_ok l = true ->
  Forall (fun x => x <> EmptyString /\ x <> ".") l /\ Forall (fun x => no_char slash x = true) l.
Proof.
  rewrite forallb_forall, !Forall_forall. unfold segment_ok.
  setoid_rewrite <- list_elem_of_In. setoid_rewrite andb_true_iff. setoid_rewrite bool_decide_eq_true.
  intros H. split; intros x Hx; destruct (H x Hx) as [? ?]; done.
Qed.

Lemma path_str_cons r x l : path_str (mkpath r (x :: l)) = r +:+ str_join "/" (x :: l).
Proof. by destruct r. Qed.

Lemma str_join_not_dot x l : x <> EmptyString -> x <> "." -> str_join "/" (x :: l) <> ".".
Proof.
  intros Hx Hd. destruct l as [|y l]; [done|]. cbn [str_join]. intros H.
  apply (f_equal String.length) in H. rewrite !string_length_app in H. simpl in H.
  destruct x; [done|]. simpl in H. lia.
Qed.

(** [Path(str(p)) == p] for a well-formed [p]. *)
Lemma path_of_string_str p : path_wf p = true -> path_of_string (path_str p) = p.
Proof.
  destruct p as [r [|x l]]; unfold path_wf; simpl; intros [Hr%bool_decide_eq_true Hp]%andb_true_iff.
  - repeat (apply elem_of_cons in Hr as [->|Hr]); [done..|set_solver].
  - apply (segments_ok (x :: l)) in Hp as [Hd Hs]. inversion Hd as [|? ? [Hx1 Hx2] _]; subst.
    rewrite path_str_cons. unfold path_of_string.
    rewrite split_root_app; [|done|by apply str_join_not_dot|].
    + unfold path_segments. rewrite str_split_join by done. f_equal. by apply filter_Forall_id.
    + right. apply (str_join_head x l). unfold segment_ok. apply andb_true_iff.
      rewrite bool_decide_eq_true. split; [done|]. by inversion Hs.
Qed.

(** [p / s] of a proper segment [s] appends it. *)
Lemma join_segment p s : segment_ok s = true -> p // s = mkpath (p_root p) (p_parts p ++ [s]).
Proof.
  unfold segment_ok. intros [[Hne Hdot]%bool_decide_eq_true Hs]%andb_true_iff.
  unfold path_join, path_of_string. rewrite split_root_relative by done. simpl.
  unfold path_segments. rewrite str_split_no_sep by done. rewrite filter_cons_True; [done|]. by split.
Qed.

Lemma path_join_wf p s : path_wf p = true -> path_wf (p // s) = true.
Proof.
  unfold path_join. pose proof (path_of_string_wf s) as Hq.
  destruct (p_root (path_of_string s)) eqn:Hr; [|done].
  unfold path_wf in *. simpl. apply andb_true_iff in Hq as [_ Hq].
  intros [Hroot Hp]%andb_true_iff. by rewrite Hroot, forallb_app, Hp, Hq.
Qed.

Lemma path_parent_wf p : path_wf p = true -> path_wf (path_parent p) = true.
Proof.
  unfold path_wf, path_parent. destruct p as [r [|x l]]; cbn [p_root p_parts]; [done|].
  intros [Hr Hl]%andb_true_iff. rewrite Hr. exact (forallb_removelast _ _ Hl).
Qed.

(** [str(p)] prints a path so that [Path] parses it back: for every
    path [Path(s)] can build, [Path(str(p)) == p], hence
    [Path(str(Path(s))) == Path(s)].  The registry stores paths as
    [str(...)] and [remove] and [edit] rebuild them with [Path(...)], so
    they act on the locations [add] and [sync] recorded. *)
Theorem path_str_roundtrip :
  (forall p, path_wf p = true -> path_of_string (path_str p) = p) /\
  (forall s, path_of_string (path_str (path_of_string s)) = path_of_string s).
Proof.
  split; [apply path_of_string_str|]. intros s. apply path_of_string_str, path_of_string_wf.
Qed.

(** the type of paths: every path the script builds is well formed
    (a root [splitroot] gives, segments neither empty nor ["."] and
    without ["/"]): [Path(s)] builds one, and [p / s] and [p.parent] keep
    it. *)
Theorem path_values_wf :
  (forall s, path_wf (path_of_string s) = true) /\
  (forall p s, path_wf p = true -> path_wf (p // s) = true) /\
  (forall p, path_wf p = true -> path_wf (path_parent p) = true).
Proof. split_and!; [apply path_of_string_wf | apply path_join_wf | apply path_parent_wf]. Qed.

Example path_examples :
  path_str (path_of_string "/home/u" // ".local" // "bin" // "foo") = "/home/u/.local/bin/foo" /\
  path_str (path_of_string "//srv/./x//y/") = "//srv/x/y" /\
  path_str (path_of_string "///a") = "/a" /\
  path_str (path_of_string "") = "." /\
  path_str (path_of_string "/home/u" // "/tmp/x") = "/tmp/x" /\
  path_str (path_of_string "/home/u/.local/bin" // "") = "/home/u/.local/bin" /\
  path_stem (path_of_string "/d/Foo-1.2.AppImage") = "Foo-1.2" /\
  path_stem (path_of_string "/d/.AppImage") = ".AppImage" /\
  path_suffix (path_of_string "/d/a.tar.AppImage") = ".AppImage" /\
  path_str (path_parent (path_of_string "/")) = "/".
Proof. vm_compute. repeat split. Qed.
