(* ===== verification/Fs.v ===== *)
(** * The file system and the primitives the script calls

    The file system is a finite map from resolved absolute locations (lists
    of path components) to inodes: a regular file with its text and mode
    bits, or a directory.  Symbolic links, ownership, permissions other
    than the execute bits, and other processes are outside the model; the
    user is assumed to have write access wherever the script writes.

    Path resolution ([walk]) follows Linux [namei] on the components:
    every component but the last must name an existing directory
    ([ENOENT] gives [FileNotFoundError], a file gives [NotADirectoryError]);
    ["."] stays, [".."] goes to the parent (the root is its own parent); a
    relative path starts at the working directory.

    The primitives, each with the exception CPython 3.12 raises on Linux:
    [Path.exists], [os.path.isdir], [Path.unlink], [open(p, "w")] and
    [open(p).read()], [Path.chmod], [os.mkdir] and [Path.mkdir],
    [os.rename] ([Path.rename]), [shutil.move] and [shutil.which]. *)

From S2P Require Import Prelude PyStr PyObj PyPath.

Inductive inode : Type :=
  | IFile (data : string) (mode : Z)
  | IDir.

#[export] Instance inode_eq_dec : EqDecision inode.
Proof. solve_decision. Defined.

Abbreviation fs := (gmap (list string) inode).

(** Well-formedness: the root is a directory and the parent of every
    entry is a directory. *)
Definition fs_wf (m : fs) : Prop :=
  m !! [] = Some IDir /\
  forall k i, m !! k = Some i -> k <> [] -> m !! removelast k = Some IDir.

(** ** Resolution *)

Definition step (cur : list string) (c : string) : list string :=
  if String.eqb c "." then cur
  else if String.eqb c ".." then removelast cur
  else cur ++ [c].

(** The components after [cur]; [cur] is a directory. *)
Fixpoint walk (m : fs) (cur : list string) (comps : list string) (err : string)
  : exc + list string :=
  match comps with
  | [] => inr cur
  | [c] => inr (step cur c)
  | c :: rest =>
      let nxt := step cur c in
      match m !! nxt with
      | Some IDir => walk m nxt rest err
      | Some (IFile _ _) => inl (NotADirectoryError err)
      | None => inl (FileNotFoundError err)
      end
  end.

(** The location a path names; relative paths start at [cwd], which must
    be an existing directory. *)
Definition fs_resolve (m : fs) (cwd : list string) (p : path) : exc + list string :=
  let start := match p_root p with EmptyString => cwd | _ => [] end in
  match m !! start with
  | Some IDir => walk m start (p_parts p) (path_str p)
  | _ => inl (FileNotFoundError (path_str p))
  end.

(** [os.path.abspath(p)] as components: [posixpath.normpath] drops ["."]
    and takes [".."] back one component (never above the root) without
    looking at the file system, which is what [step] does. *)
Definition lex_key (cwd : list string) (p : path) : list string :=
  fold_left step (p_parts p) (match p_root p with EmptyString => cwd | _ => [] end).

Definition fs_lookup (m : fs) (cwd : list string) (p : path) : option inode :=
  match fs_resolve m cwd p with inr k => m !! k | inl _ => None end.

(** [Path.exists()] *)
Definition fs_exists (m : fs) (cwd : list string) (p : path) : bool :=
  match fs_lookup m cwd p with Some _ => true | None => false end.

(** [os.path.isdir(p)] / [Path.is_dir()] *)
Definition fs_is_dir (m : fs) (cwd : list string) (p : path) : bool :=
  match fs_lookup m cwd p with Some IDir => true | _ => false end.

(** ** Files *)

(** [Path.unlink()] *)
Definition fs_unlink (m : fs) (cwd : list string) (p : path) : exc + fs :=
  k <-? fs_resolve m cwd p ;;
  match m !! k with
  | Some (IFile _ _) => inr (delete k m)
  | Some IDir => inl (IsADirectoryError (path_str p))
  | None => inl (FileNotFoundError (path_str p))
  end.

(** [open(p, "w")]: truncate an existing file (its mode is kept), or
    create an empty one with mode [0o666 & ~umask]. *)
Definition fs_open_w (m : fs) (cwd : list string) (umask : Z) (p : path) : exc + fs :=
  k <-? fs_resolve m cwd p ;;
  match m !! k with
  | Some IDir => inl (IsADirectoryError (path_str p))
  | Some (IFile _ mode) => inr (<[k := IFile EmptyString mode]> m)
  | None => inr (<[k := IFile EmptyString (Z.land 438 (Z.lnot umask))]> m)
  end.

(** [f.write(data)] on the file just opened for writing. *)
Definition fs_set_data (m : fs) (cwd : list string) (p : path) (data : string) : exc + fs :=
  k <-? fs_resolve m cwd p ;;
  match m !! k with
  | Some (IFile _ mode) => inr (<[k := IFile data mode]> m)
  | Some IDir => inl (IsADirectoryError (path_str p))
  | None => inl (FileNotFoundError (path_str p))
  end.

(** [with open(p, "w") as f: f.write(data)] *)
Definition fs_write_text (m : fs) (cwd : list string) (umask : Z) (p : path) (data : string)
  : exc + fs :=
  m' <-? fs_open_w m cwd umask p ;; fs_set_data m' cwd p data.

(** [open(p).read()] *)
Definition fs_read_text (m : fs) (cwd : list string) (p : path) : exc + string :=
  k <-? fs_resolve m cwd p ;;
  match m !! k with
  | Some (IFile d _) => inr d
  | Some IDir => inl (IsADirectoryError (path_str p))
  | None => inl (FileNotFoundError (path_str p))
  end.

(** [Path.chmod(mode)]; directory modes are not tracked. *)
Definition fs_chmod (m : fs) (cwd : list string) (p : path) (mode : Z) : exc + fs :=
  k <-? fs_resolve m cwd p ;;
  match m !! k with
  | Some (IFile d _) => inr (<[k := IFile d mode]> m)
  | Some IDir => inr m
  | None => inl (FileNotFoundError (path_str p))
  end.

(** ** Directories *)

(** [os.mkdir(p)] *)
Definition os_mkdir (m : fs) (cwd : list string) (p : path) : exc + fs :=
  k <-? fs_resolve m cwd p ;;
  match m !! k with
  | Some _ => inl (FileExistsError (path_str p))
  | None => inr (<[k := IDir]> m)
  end.

(** [Path.mkdir(parents=..., exist_ok=...)] of CPython 3.12:
    {v
    try: os.mkdir(self)
    except FileNotFoundError:
        if not parents or self.parent == self: raise
        self.parent.mkdir(parents=True, exist_ok=True)
        self.mkdir(parents=False, exist_ok=exist_ok)
    except OSError:
        if not exist_ok or not self.is_dir(): raise
    v}
    The recursion is on the number of components of the path. *)
Fixpoint path_mkdir_go (n : nat) (m : fs) (cwd : list string) (p : path)
    (parents exist_ok : bool) : exc + fs :=
  match os_mkdir m cwd p with
  | inr m' => inr m'
  | inl (FileNotFoundError e) =>
      if negb parents || bool_decide (path_parent p = p) then inl (FileNotFoundError e)
      else match n with
           | 0 => inl (FileNotFoundError e)
           | S n' =>
               m1 <-? path_mkdir_go n' m cwd (path_parent p) true true ;;
               path_mkdir_go n' m1 cwd p false exist_ok
           end
  | inl e => if exist_ok && fs_is_dir m cwd p then inr m else inl e
  end.

Definition path_mkdir (m : fs) (cwd : list string) (p : path) (parents exist_ok : bool)
  : exc + fs :=
  path_mkdir_go (List.length (p_parts p)) m cwd p parents exist_ok.

(** ** [os.rename] *)

(** The key [k] moved from under [ks] to under [kd]. *)
Definition rebase (ks kd k : list string) : list string :=
  if decide (ks `prefix_of` k) then kd ++ drop (List.length ks) k else k.

(** The directory [ks] and everything under it moved to [kd]. *)
Definition move_tree (m : fs) (ks kd : list string) : fs :=
  list_to_map (map (fun kv => (rebase ks kd kv.1, kv.2)) (map_to_list (delete kd m))).

Definition has_children (m : fs) (k : list string) : bool :=
  bool_decide (exists k', k' ∈ dom m /\ k `prefix_of` k' /\ k' <> k).

(** [os.rename(src, dst)] on Linux: a file replaces a file; a directory
    replaces a missing or empty directory; renaming onto itself does
    nothing. *)
Definition os_rename (m : fs) (cwd : list string) (src dst : path) : exc + fs :=
  ks <-? fs_resolve m cwd src ;;
  kd <-? fs_resolve m cwd dst ;;
  match m !! ks with
  | None => inl (FileNotFoundError (path_str src))
  | Some (IFile d mode) =>
      if decide (ks = kd) then inr m
      else match m !! kd with
           | Some IDir => inl (IsADirectoryError (path_str dst))
           | _ => inr (<[kd := IFile d mode]> (delete ks m))
           end
  | Some IDir =>
      if decide (ks = kd) then inr m
      else if decide (ks `prefix_of` kd) then inl (InvalidArgumentError (path_str dst))
      else match m !! kd with
           | Some (IFile _ _) => inl (NotADirectoryError (path_str dst))
           | Some IDir =>
               if has_children m kd then inl (DirectoryNotEmptyError (path_str dst))
               else inr (move_tree m ks kd)
           | None => inr (move_tree m ks kd)
           end
  end.

(** ** [shutil.move] *)

(** [os.makedirs(p)] as [copytree] calls it: [Path.mkdir(parents=True)]
    has the same outcome. *)
Definition os_makedirs (m : fs) (cwd : list string) (p : path) : exc + fs :=
  path_mkdir m cwd p true false.

(** [shutil.move(src, dst)] of CPython 3.12:
    {v
    real_dst = dst
    if os.path.isdir(dst):
        if _samefile(src, dst): os.rename(src, dst); return
        real_dst = os.path.join(dst, _basename(src))
        if os.path.exists(real_dst): raise Error(...)
    try: os.rename(src, real_dst)
    except OSError:
        if os.path.isdir(src):
            if _destinsrc(src, dst): raise Error(...)
            copytree(src, real_dst, symlinks=True); rmtree(src)
        else:
            copy2(src, real_dst); os.unlink(src)
    v}
    On one file system [os.rename] of a file fails only when [src] is
    missing or the parent of [real_dst] is not a directory; [copy2] then
    fails with the same exception, so the error is propagated.  For a
    directory, [_destinsrc] compares the absolute normalised paths as
    text; the model compares their components ([lex_key]), so it
    identifies the spellings ["/"] and ["//"] of the root, which name the
    same directory on Linux.  [copytree] then creates [real_dst] with its
    missing parents ([real_dst] must not exist) and copies the tree into
    it, and [rmtree] removes the source: the tree is moved. *)
Definition shutil_move (m : fs) (cwd : list string) (src dst : path) : exc + fs :=
  let dst_is_dir := fs_is_dir m cwd dst in
  let same := match fs_resolve m cwd src, fs_resolve m cwd dst with
              | inr ks, inr kd => bool_decide (ks = kd /\ is_Some (m !! ks))
              | _, _ => false
              end in
  if dst_is_dir && same then os_rename m cwd src dst
  else
    let real_dst := if dst_is_dir then dst // path_name src else dst in
    if dst_is_dir && fs_exists m cwd real_dst then inl (ShutilError (path_str real_dst))
    else match os_rename m cwd src real_dst with
         | inr m' => inr m'
         | inl e =>
             if fs_is_dir m cwd src then
               ks <-? fs_resolve m cwd src ;;
               let inside := bool_decide (lex_key cwd src `prefix_of` lex_key cwd dst) in
               if inside then inl (ShutilError (path_str dst))
               else m1 <-? os_makedirs m cwd real_dst ;;
                    kd <-? fs_resolve m1 cwd real_dst ;;
                    inr (move_tree m1 ks kd)
             else inl e
         end.

(** ** [shutil.which] *)

(** A path string as the operating system reads it: empty pieces are
    dropped, and a trailing slash requires a directory (it becomes a
    final ["."]). *)
Fixpoint os_components (pieces : list string) : list string :=
  match pieces with
  | [] => []
  | [x] => if String.eqb x EmptyString then ["."] else [x]
  | x :: rest => if String.eqb x EmptyString then os_components rest else x :: os_components rest
  end.

Definition os_path (s : string) : path :=
  match s with
  | EmptyString => mkpath EmptyString []
  | String c _ =>
      if ascii_dec c slash then mkpath "/" (os_components (str_split slash s))
      else mkpath EmptyString (os_components (str_split slash s))
  end.

(** [os.path.exists(fn) and os.access(fn, X_OK) and not os.path.isdir(fn)]:
    a regular file with an execute bit.  The empty string names nothing. *)
Definition access_x_file (m : fs) (cwd : list string) (fn : string) : bool :=
  match fn with
  | EmptyString => false
  | _ => match fs_lookup m cwd (os_path fn) with
         | Some (IFile _ mode) => negb (Z.eqb (Z.land mode 73) 0)
         | _ => false
         end
  end.

(** [os.path.join(a, b)] for a [b] without a slash. *)
Definition os_path_join (a b : string) : string :=
  match a with
  | EmptyString => b
  | _ => if String.eqb (String.substring (String.length a - 1) 1 a) "/" then a +:+ b else a +:+ "/" +:+ b
  end.

Fixpoint find_first {A B} (f : A -> option B) (l : list A) : option B :=
  match l with
  | [] => None
  | x :: l' => match f x with Some y => Some y | None => find_first f l' end
  end.

(** [os.path.split(s)]: the text after the last slash, and the text
    before it with its trailing slashes removed unless it is all slashes. *)
Definition os_path_split (s : string) : string * string :=
  let i := match rfind slash s with Some j => S j | None => 0 end in
  let head := String.substring 0 i s in
  let tail := str_drop i s in
  let is_slash := fun c => bool_decide (c = slash) in
  if String.eqb head EmptyString || str_forall is_slash head then (head, tail)
  else (rstrip_by is_slash head, tail).

(** [shutil.which(cmd)] of CPython 3.12: a command with a directory part
    is looked up in that directory only; otherwise the directories of
    [PATH] (["/bin:/usr/bin"], the [CS_PATH] of glibc, when it is unset;
    nothing when it is empty) are searched in order.  The result is
    [os.path.join(dir, name)] of the first executable regular file. *)
Definition which (m : fs) (cwd : list string) (env_path : option string) (cmd : string)
  : option string :=
  let (dirname, name) := os_path_split cmd in
  let try_dir := fun d => let fn := os_path_join d name in
                          if access_x_file m cwd fn then Some fn else None in
  if negb (String.eqb dirname EmptyString) then try_dir dirname
  else
    let p := default "/bin:/usr/bin" env_path in
    if String.eqb p EmptyString then None
    else find_first try_dir (str_split ":" p).

(** ** Resolution is stable under changes that keep every directory *)

Definition keeps_dirs (m m' : fs) : Prop :=
  forall j, m !! j = Some IDir -> m' !! j = Some IDir.

Lemma walk_keeps_dirs m m' cur comps err k :
  keeps_dirs m m' -> walk m cur comps err = inr k -> walk m' cur comps err = inr k.
Proof.
  intros Hk. revert cur. induction comps as [|c [|c' rest] IH]; intros cur; [done..|].
  cbn -[step]. destruct (m !! step cur c) as [[]|] eqn:Hm; try discriminate.
  rewrite (Hk _ Hm). apply IH.
Qed.

Lemma fs_resolve_keeps_dirs m m' cwd p k :
  keeps_dirs m m' -> fs_resolve m cwd p = inr k -> fs_resolve m' cwd p = inr k.
Proof.
  intros Hk. unfold fs_resolve.
  destruct (m !! _) as [[]|] eqn:Hm; try discriminate.
  rewrite (Hk _ Hm). by apply walk_keeps_dirs.
Qed.

Lemma keeps_dirs_insert_file m k i :
  m !! k <> Some IDir -> i <> IDir -> keeps_dirs m (<[k := i]> m).
Proof.
  intros Hk Hi j Hj. rewrite lookup_insert_ne; [done|]. intros ->. congruence.
Qed.

Lemma keeps_dirs_insert_dir m k : keeps_dirs m (<[k := IDir]> m).
Proof.
  intros j Hj. destruct (decide (k = j)) as [->|]; by simplify_map_eq.
Qed.

Lemma keeps_dirs_delete_file m k d mode :
  m !! k = Some (IFile d mode) -> keeps_dirs m (delete k m).
Proof.
  intros Hk j Hj. rewrite lookup_delete_ne; [done|]. intros ->. congruence.
Qed.

Lemma keeps_dirs_refl m : keeps_dirs m m.
Proof. by intros j. Qed.

Lemma keeps_dirs_trans m1 m2 m3 : keeps_dirs m1 m2 -> keeps_dirs m2 m3 -> keeps_dirs m1 m3.
Proof. intros H1 H2 j Hj. auto. Qed.

#[export] Hint Resolve keeps_dirs_insert_file keeps_dirs_insert_dir keeps_dirs_delete_file
  keeps_dirs_refl fs_resolve_keeps_dirs : appimg.

(** ** Writing and reading a file *)

(** [open(p, "w").write(data)] succeeds exactly when [p] resolves to
    something other than a directory, and stores [data] there. *)
Lemma fs_write_text_spec m cwd umask p data :
  fs_write_text m cwd umask p data =
  match fs_resolve m cwd p with
  | inl e => inl e
  | inr k =>
      match m !! k with
      | Some IDir => inl (IsADirectoryError (path_str p))
      | Some (IFile _ mode) => inr (<[k := IFile data mode]> m)
      | None => inr (<[k := IFile data (Z.land 438 (Z.lnot umask))]> m)
      end
  end.
Proof.
  unfold fs_write_text, fs_open_w, fs_set_data.
  destruct (fs_resolve m cwd p) as [e|k] eqn:Hr; [done|]. simpl.
  destruct (m !! k) as [[d mode|]|] eqn:Hk; simpl; [| done |];
    (rewrite (fs_resolve_keeps_dirs m _ cwd p k); [| apply keeps_dirs_insert_file; congruence | done]);
    simpl; rewrite lookup_insert_eq; simpl; by rewrite insert_insert_eq.
Qed.

Lemma fs_read_after_write m cwd umask p data m' :
  fs_write_text m cwd umask p data = inr m' ->
  fs_read_text m' cwd p = inr data /\ fs_exists m' cwd p = true.
Proof.
  rewrite fs_write_text_spec. unfold fs_read_text, fs_exists, fs_lookup.
  destruct (fs_resolve m cwd p) as [e|k] eqn:Hr; [done|].
  destruct (m !! k) as [[d mode|]|] eqn:Hk; intros; simplify_eq;
    (rewrite (fs_resolve_keeps_dirs m _ cwd p k); [| apply keeps_dirs_insert_file; congruence | done]);
    simpl; by rewrite lookup_insert_eq.
Qed.

(** ** What [shutil.which] finds *)

Lemma os_path_split_app s t :
  no_char slash t = true ->
  os_path_split (s +:+ t) = ((os_path_split s).1, (os_path_split s).2 +:+ t).
Proof.
  intros Ht. unfold os_path_split. rewrite rfind_app by done.
  destruct (rfind slash s) as [j|] eqn:Hr.
  - apply rfind_go_some in Hr as [[? _]|[Hj _]]; [done|]. simpl in Hj.
    rewrite substring_app, str_drop_app by lia. by destruct (_ || _).
  - simpl. rewrite !(substring_app 0) by lia. by destruct (_ || _).
Qed.

Lemma os_path_split_tail s : no_char slash (os_path_split s).2 = true.
Proof.
  unfold os_path_split. destruct (rfind slash s) as [j|] eqn:Hr.
  - apply rfind_go_some in Hr as [[? _]|[_ Hs]]; [done|]. rewrite Nat.sub_0_r in Hs. by destruct (_ || _).
  - apply rfind_go_none in Hr as [_ Hs]. by destruct (_ || _).
Qed.

Lemma str_split_sep_app sep s t :
  exists l, l <> [] /\ str_split sep (s +:+ String sep t) = l ++ str_split sep t.
Proof.
  induction s as [|x s (l & Hl & IH)].
  - exists [EmptyString]. rewrite string_app_nil_l. simpl. by destruct (ascii_dec sep sep).
  - rewrite string_app_cons. simpl. rewrite IH. destruct (ascii_dec x sep).
    + by exists (EmptyString :: l).
    + destruct l as [|y l]; [done|]. by exists (String x y :: l).
Qed.

Lemma os_components_last l x :
  last l = Some x -> x <> EmptyString -> last (os_components l) = Some x.
Proof.
  induction l as [|y [|z l] IH]; [done| |].
  - simpl. intros [= ->] Hx. by rewrite (proj2 (String.eqb_neq _ _) Hx).
  - intros Hl Hx. specialize (IH Hl Hx).
    change (os_components (y :: z :: l)) with
      (if String.eqb y EmptyString then os_components (z :: l) else y :: os_components (z :: l)).
    destruct (String.eqb y EmptyString); [done|].
    destruct (os_components (z :: l)); done.
Qed.

Lemma str_last_char d :
  d <> EmptyString ->
  d = String.substring 0 (String.length d - 1) d +:+ String.substring (String.length d - 1) 1 d.
Proof.
  induction d as [|x d IH]; [done|]. intros _. destruct d as [|y d]; [done|].
  rewrite IH at 1 by done. simpl. rewrite Nat.sub_0_r. rewrite string_app_cons. done.
Qed.

(** [os.path.join(d, name)] ends with [name] after a slash, or is [name]. *)
Lemma os_path_join_shape d name :
  os_path_join d name = name \/ exists s, os_path_join d name = s +:+ String slash name.
Proof.
  unfold os_path_join. destruct d as [|x d]; [by left|]. right.
  destruct (String.eqb _ "/") eqn:He.
  - apply String.eqb_eq in He. exists (String.substring 0 (String.length (String x d) - 1) (String x d)).
    rewrite (str_last_char (String x d)) at 1 by done. rewrite He. by rewrite <- string_app_assoc.
  - by exists (String x d).
Qed.

Lemma os_path_parts fn : fn <> EmptyString -> p_parts (os_path fn) = os_components (str_split slash fn).
Proof. destruct fn as [|x fn]; [done|]. intros _. unfold os_path. by destruct (ascii_dec x slash). Qed.

Lemma os_path_join_last d name :
  no_char slash name = true -> name <> EmptyString ->
  last (p_parts (os_path (os_path_join d name))) = Some name.
Proof.
  intros Hn Hne. assert (Hj : os_path_join d name <> EmptyString).
  { destruct (os_path_join_shape d name) as [->|[s ->]]; [done|]. by destruct s. }
  rewrite os_path_parts by done. apply os_components_last; [|done].
  destruct (os_path_join_shape d name) as [->|[s ->]].
  - by rewrite str_split_no_sep.
  - destruct (str_split_sep_app slash s name) as (l & _ & ->).
    rewrite str_split_no_sep by done. by rewrite last_app.
Qed.

(** The last component of a path names the entry the walk ends at. *)
Lemma walk_last m cur comps err k c :
  walk m cur comps err = inr k -> last comps = Some c ->
  c <> "." -> c <> ".." -> last k = Some c.
Proof.
  revert cur. induction comps as [|c0 [|c1 rest] IH]; intros cur; simpl; [done| |].
  - intros [= <-] [= ->] H1 H2. unfold step.
    rewrite (proj2 (String.eqb_neq _ _) H1), (proj2 (String.eqb_neq _ _) H2). apply last_snoc.
  - destruct (m !! step cur c0) as [[]|]; try done. apply IH.
Qed.

Lemma find_first_some {A B} (f : A -> option B) l y :
  find_first f l = Some y -> exists x, x ∈ l /\ f x = Some y.
Proof.
  induction l as [|x l IH]; simpl; [done|]. destruct (f x) eqn:Hx.
  - intros [= <-]. exists x. split; [left|done].
  - intros (x' & ? & ?)%IH. exists x'. split; [by right|done].
Qed.

(** A command [shutil.which] finds is an existing regular file whose
    last component is the command's name. *)
Lemma which_found m cwd ep cmd fn :
  which m cwd ep cmd = Some fn ->
  let name := (os_path_split cmd).2 in
  name <> EmptyString -> name <> "." -> name <> ".." ->
  exists k d mode, m !! k = Some (IFile d mode) /\ last k = Some name.
Proof.
  unfold which. pose proof (os_path_split_tail cmd) as Hns.
  destruct (os_path_split cmd) as [dirname name]. simpl in *. intros Hw Hne H1 H2.
  assert (Hdir : exists dir, os_path_join dir name = fn /\ access_x_file m cwd fn = true).
  { destruct (negb _); [|destruct (String.eqb _ _); [done|apply find_first_some in Hw as (? & _ & Hw)]];
      destruct (access_x_file _ _ _) eqn:?; by simplify_eq; eauto. }
  destruct Hdir as (dir & <- & Hx). unfold access_x_file in Hx.
  destruct (os_path_join dir name) eqn:Hj; [done|]. rewrite <- Hj in Hx.
  unfold fs_lookup in Hx. destruct (fs_resolve _ _ _) as [|k] eqn:Hr; [done|].
  destruct (m !! k) as [[d mode|]|] eqn:Hk; try done. exists k, d, mode. split; [done|].
  unfold fs_resolve in Hr. destruct (m !! _) as [[]|]; try done.
  eapply walk_last; [exact Hr | | done | done]. by apply os_path_join_last.
Qed.

(** Resolving a path fails only with [FileNotFoundError] or
    [NotADirectoryError]. *)
Lemma walk_err m cur cs err e :
  walk m cur cs err = inl e -> e = FileNotFoundError err \/ e = NotADirectoryError err.
Proof.
  revert cur. induction cs as [|c [|c' l] IH]; intros cur; simpl; [done..|].
  destruct (_ !! _) as [[]|]; first [apply IH | intros [= <-]; auto].
Qed.

Lemma fs_resolve_err m cwd p e :
  fs_resolve m cwd p = inl e -> exists s, e = FileNotFoundError s \/ e = NotADirectoryError s.
Proof.
  unfold fs_resolve. destruct (_ !! _) as [[]|]; first [intros [= <-]; eauto | intros ?%walk_err; eauto].
Qed.
