(* ===== verification/FsWf.v ===== *)
(** * The file system stays well formed

    [fs_wf] says the root is a directory and every entry lies in a
    directory.  This file shows that every primitive of [Fs] keeps it:
    what [Path.unlink], [open(p, "w")], [f.write], [Path.chmod],
    [os.mkdir], [Path.mkdir], [os.rename] and [shutil.move] leave behind
    is again a tree.  The proofs rest on two facts about resolution: a
    resolved location lies in a directory ([resolve_parent_dir]), and
    [move_tree] moves a subtree without touching anything else
    ([move_tree_lookup]). *)

From S2P Require Import Prelude PyStr PyObj PyPath Fs.

(** Well-formedness is decidable: a finite map is checked entry by entry. *)
#[export] Instance fs_wf_dec m : Decision (fs_wf m).
Proof.
  change (Decision (m !! [] = Some IDir /\
    map_Forall (fun k _ => k <> [] -> m !! removelast k = Some IDir) m)).
  apply _.
Defined.

(** [k] is the root, or lies in a directory. *)
Definition parent_dir (m : fs) (k : list string) : Prop :=
  k = [] \/ m !! removelast k = Some IDir.

Section Wf.
Context (m : fs) (Hwf : fs_wf m).

Lemma dir_parent_dir j : m !! j = Some IDir -> parent_dir m j.
Proof.
  intros Hj. destruct (decide (j = [])) as [->|Hne]; [by left|right].
  by apply (proj2 Hwf j IDir).
Qed.

Lemma removelast_dir j : m !! j = Some IDir -> m !! removelast j = Some IDir.
Proof.
  intros Hj. destruct (decide (j = [])) as [->|Hne]; [done|]. by apply (proj2 Hwf j IDir).
Qed.

Lemma step_parent_dir cur c : m !! cur = Some IDir -> parent_dir m (step cur c).
Proof.
  intros Hc. unfold step. destruct (String.eqb c "."); [by apply dir_parent_dir|].
  destruct (String.eqb c ".."); [by apply dir_parent_dir, removelast_dir|].
  right. by rewrite removelast_last.
Qed.

Lemma walk_parent_dir cur comps err k :
  m !! cur = Some IDir -> walk m cur comps err = inr k -> parent_dir m k.
Proof.
  revert cur. induction comps as [|c [|c' rest] IH]; intros cur Hc; simpl.
  - intros [= <-]. by apply dir_parent_dir.
  - intros [= <-]. by apply step_parent_dir.
  - destruct (m !! step cur c) as [[]|] eqn:Hs; [done| |done]. by apply IH.
Qed.

(** A resolved location is the root or lies in a directory. *)
Lemma resolve_parent_dir cwd p k : fs_resolve m cwd p = inr k -> parent_dir m k.
Proof.
  unfold fs_resolve. destruct (m !! _) as [[]|] eqn:Hs; [done| |done]. by apply walk_parent_dir.
Qed.
End Wf.

(** ** Inserting and deleting one entry *)

Section Edit.
Context (m : fs) (Hwf : fs_wf m).

Lemma removelast_ne (k : list string) : k <> [] -> removelast k <> k.
Proof.
  intros Hk Heq. apply (f_equal List.length) in Heq.
  destruct (exists_last Hk) as (l & x & ->). rewrite removelast_last, length_app in Heq. simpl in Heq. lia.
Qed.

(** A file may be stored wherever no directory is and the parent is one. *)
Lemma wf_insert_file k d mode :
  m !! k <> Some IDir -> parent_dir m k -> fs_wf (<[k := IFile d mode]> m).
Proof.
  destruct Hwf as [Hroot Hpar]. intros Hk [->|Hp]; [done|]. split.
  - rewrite lookup_insert_ne; [done|]. intros ->. congruence.
  - intros j i Hj Hne. destruct (decide (k = j)) as [<-|Hkj].
    + by rewrite lookup_insert_ne by (by apply not_eq_sym, removelast_ne).
    + rewrite lookup_insert_ne in Hj by done. pose proof (Hpar j i Hj Hne) as Hd.
      rewrite lookup_insert_ne; [done|]. intros ->. congruence.
Qed.

(** A directory may be created wherever the parent is one. *)
Lemma wf_insert_dir k : parent_dir m k -> fs_wf (<[k := IDir]> m).
Proof.
  destruct Hwf as [Hroot Hpar]. intros Hk. split.
  - destruct (decide (k = [])) as [->|]; [by rewrite lookup_insert_eq|by rewrite lookup_insert_ne].
  - intros j i Hj Hne. destruct (decide (k = j)) as [<-|Hkj].
    + destruct Hk as [->|Hk]; [done|]. by rewrite lookup_insert_ne by (by apply not_eq_sym, removelast_ne).
    + rewrite lookup_insert_ne in Hj by done.
      destruct (decide (k = removelast j)) as [<-|]; [by rewrite lookup_insert_eq|].
      rewrite lookup_insert_ne by done. eauto.
Qed.

(** A file may be deleted. *)
Lemma wf_delete_file k d mode : m !! k = Some (IFile d mode) -> fs_wf (delete k m).
Proof.
  destruct Hwf as [Hroot Hpar]. intros Hk. split.
  - rewrite lookup_delete_ne; [done|]. intros ->. congruence.
  - intros j i Hj Hne. apply lookup_delete_Some in Hj as [Hkj Hj].
    rewrite lookup_delete_ne; [eauto|]. intros ->. pose proof (Hpar j i Hj Hne). congruence.
Qed.
End Edit.

(** ** The primitives on files and directories *)

Section Ops.
Context (m : fs) (Hwf : fs_wf m) (cwd : list string).

(** Resolve [p], then go on with the location; the tactic names the
    location [k] and records where it lies. *)
Ltac resolve_as p k :=
  let Hr := fresh "Hr" in let Hp := fresh "Hp" in
  destruct (fs_resolve m cwd p) as [?|k] eqn:Hr; [done|];
  pose proof (resolve_parent_dir m Hwf cwd p k Hr) as Hp; simpl.

Lemma unlink_wf p m' : fs_unlink m cwd p = inr m' -> fs_wf m'.
Proof.
  unfold fs_unlink. resolve_as p k.
  destruct (m !! k) as [[d mode|]|] eqn:Hk; intros; simplify_eq; eauto using wf_delete_file.
Qed.

Lemma open_w_wf umask p m' : fs_open_w m cwd umask p = inr m' -> fs_wf m'.
Proof.
  unfold fs_open_w. resolve_as p k.
  destruct (m !! k) as [[d mode|]|] eqn:Hk; intros; simplify_eq; apply wf_insert_file; congruence.
Qed.

Lemma set_data_wf p data m' : fs_set_data m cwd p data = inr m' -> fs_wf m'.
Proof.
  unfold fs_set_data. resolve_as p k.
  destruct (m !! k) as [[d mode|]|] eqn:Hk; intros; simplify_eq; apply wf_insert_file; congruence.
Qed.

Lemma chmod_wf p mode m' : fs_chmod m cwd p mode = inr m' -> fs_wf m'.
Proof.
  unfold fs_chmod. resolve_as p k.
  destruct (m !! k) as [[d md|]|] eqn:Hk; intros; simplify_eq; [apply wf_insert_file; congruence|done].
Qed.

Lemma write_text_wf umask p data m' : fs_write_text m cwd umask p data = inr m' -> fs_wf m'.
Proof.
  rewrite fs_write_text_spec. resolve_as p k.
  destruct (m !! k) as [[d mode|]|] eqn:Hk; intros; simplify_eq; apply wf_insert_file; congruence.
Qed.

Lemma os_mkdir_wf p m' : os_mkdir m cwd p = inr m' -> fs_wf m'.
Proof.
  unfold os_mkdir. resolve_as p k.
  destruct (m !! k) eqn:Hk; intros; simplify_eq. by apply wf_insert_dir.
Qed.
End Ops.

Lemma path_mkdir_go_wf n m cwd p parents exist_ok m' :
  fs_wf m -> path_mkdir_go n m cwd p parents exist_ok = inr m' -> fs_wf m'.
Proof.
  revert m p parents exist_ok m'. induction n as [|n IH]; intros m p parents exist_ok m' Hwf; simpl;
    (destruct (os_mkdir m cwd p) as [e|m1] eqn:Hm; [|intros [= <-]; by eapply os_mkdir_wf]);
    destruct e; try (destruct (_ && _); [intros [= <-]; done|done]);
    destruct (_ || _); try done.
  destruct (path_mkdir_go n m cwd (path_parent p) true true) as [|m1] eqn:H1; [done|]. simpl.
  apply IH. by apply (IH m (path_parent p) true true).
Qed.

Lemma path_mkdir_wf m cwd p parents exist_ok m' :
  fs_wf m -> path_mkdir m cwd p parents exist_ok = inr m' -> fs_wf m'.
Proof. apply path_mkdir_go_wf. Qed.

(** ** Moving a subtree *)

(** The map [M] with its keys renamed by [f]. *)
Definition rekey (M : fs) (f : list string -> list string) : fs :=
  list_to_map (map (fun kv => (f kv.1, kv.2)) (map_to_list M)).

Lemma move_tree_rekey m ks kd : move_tree m ks kd = rekey (delete kd m) (rebase ks kd).
Proof. reflexivity. Qed.

Section Rekey.
Context (M : fs) (f : list string -> list string).

Lemma rekey_elem j y :
  (j, y) ∈ map (fun kv => (f kv.1, kv.2)) (map_to_list M) <-> exists k, j = f k /\ M !! k = Some y.
Proof.
  rewrite list_elem_of_In, in_map_iff. split.
  - intros ([k y'] & [= <- <-] & Hin). exists k. split; [done|]. by apply elem_of_map_to_list, list_elem_of_In.
  - intros (k & -> & Hk). exists (k, y). split; [done|]. by apply list_elem_of_In, elem_of_map_to_list.
Qed.

Lemma rekey_lookup_some k y :
  (forall k', is_Some (M !! k') -> f k' = f k -> k' = k) -> M !! k = Some y -> rekey M f !! f k = Some y.
Proof.
  intros Hinj Hk. apply elem_of_list_to_map_1'.
  - intros y' (k' & Heq & Hk')%rekey_elem. rewrite (Hinj k') in Hk'; [congruence|by eexists|done].
  - apply rekey_elem. eauto.
Qed.

Lemma rekey_lookup_none j : (forall k y, M !! k = Some y -> f k <> j) -> rekey M f !! j = None.
Proof.
  intros Hj. apply not_elem_of_list_to_map_1. intros ([j' y] & -> & Hin)%list_elem_of_fmap.
  apply rekey_elem in Hin as (k & -> & Hk). by apply (Hj k y).
Qed.
End Rekey.

Lemma removelast_prefix (j : list string) : removelast j `prefix_of` j.
Proof.
  destruct (decide (j = [])) as [->|Hj]; [done|].
  rewrite (app_removelast_last "" Hj) at 2. by eexists.
Qed.

Lemma prefix_removelast (a j : list string) : a `prefix_of` removelast j -> a `prefix_of` j.
Proof. intros H. by trans (removelast j); [|apply removelast_prefix]. Qed.

Lemma rebase_under ks kd r : rebase ks kd (ks ++ r) = kd ++ r.
Proof. unfold rebase. rewrite decide_True by by eexists. by rewrite drop_app_length. Qed.

Lemma rebase_outside ks kd k : ~ ks `prefix_of` k -> rebase ks kd k = k.
Proof. intros H. unfold rebase. by rewrite decide_False. Qed.

Section MoveTree.
Context (m : fs) (ks kd : list string).
(** The source is not above the target, and nothing lies below the
    target: the conditions [os.rename] checks before moving a directory. *)
Hypothesis (Hnp : ~ ks `prefix_of` kd) (Hks : is_Some (m !! ks))
  (Hkd : forall j, is_Some (m !! j) -> kd `prefix_of` j -> j = kd).

Lemma rebase_inj k1 k2 :
  is_Some (delete kd m !! k1) -> is_Some (delete kd m !! k2) ->
  rebase ks kd k1 = rebase ks kd k2 -> k1 = k2.
Proof.
  intros [y1 H1] [y2 H2]. apply lookup_delete_Some in H1 as [Hn1 H1], H2 as [Hn2 H2].
  destruct (decide (ks `prefix_of` k1)) as [[r1 ->]|N1], (decide (ks `prefix_of` k2)) as [[r2 ->]|N2];
    rewrite ?rebase_under, ?rebase_outside by done.
  - intros ->%app_inv_head. done.
  - intros <-. destruct Hn2. symmetry. apply Hkd; [by eexists|by eexists].
  - intros ->. destruct Hn1. symmetry. apply Hkd; [by eexists|by eexists].
  - done.
Qed.

(** [move_tree m ks kd]: below [kd] lies what lay below [ks]; nothing
    lies below [ks] any more; everything else is as it was. *)
Lemma move_tree_lookup j :
  move_tree m ks kd !! j =
  if decide (kd `prefix_of` j) then m !! (ks ++ drop (List.length kd) j)
  else if decide (ks `prefix_of` j) then None else m !! j.
Proof.
  rewrite move_tree_rekey.
  assert (Hout : forall k y, delete kd m !! k = Some y -> ~ ks `prefix_of` k -> ~ kd `prefix_of` k).
  { intros k y [Hn Hk]%lookup_delete_Some ? ?. destruct Hn. symmetry. apply Hkd; [by eexists|done]. }
  case_decide as Hj1; [destruct Hj1 as [r ->]; rewrite drop_app_length|case_decide as Hj2].
  - assert (Hne : ks ++ r <> kd) by (intros <-; apply Hnp; by eexists).
    destruct (delete kd m !! (ks ++ r)) as [y|] eqn:Hy.
    + rewrite <- (rebase_under ks kd r). rewrite (rekey_lookup_some _ _ _ y); [|intros; apply rebase_inj; by eauto|done].
      rewrite lookup_delete_ne in Hy by done. by rewrite Hy.
    + rewrite lookup_delete_ne in Hy by done. rewrite Hy. apply rekey_lookup_none. intros k y Hk.
      destruct (decide (ks `prefix_of` k)) as [[r' ->]|N].
      * rewrite rebase_under. intros ->%app_inv_head. rewrite lookup_delete_ne in Hk by done. congruence.
      * rewrite rebase_outside by done. intros ->. eapply Hout; [done|done|by eexists].
  - apply rekey_lookup_none. intros k y Hk.
    destruct (decide (ks `prefix_of` k)) as [[r' ->]|N].
    + rewrite rebase_under. intros <-. apply Hj1. by eexists.
    + rewrite rebase_outside by done. by intros ->.
  - destruct (delete kd m !! j) as [y|] eqn:Hy.
    + rewrite <- (rebase_outside ks kd j) at 1 by done.
      rewrite (rekey_lookup_some _ _ _ y); [|intros; apply rebase_inj; by eauto|done].
      rewrite lookup_delete_ne in Hy; [done|]. intros ->. by apply Hj1.
    + rewrite lookup_delete_ne in Hy by (intros ->; by apply Hj1). rewrite Hy.
      apply rekey_lookup_none. intros k y Hk.
      destruct (decide (ks `prefix_of` k)) as [[r' ->]|N].
      * rewrite rebase_under. intros <-. apply Hj1. by eexists.
      * rewrite rebase_outside by done. intros ->. apply lookup_delete_Some in Hk as [_ Hk]. congruence.
Qed.
Lemma not_prefix_removelast (k : list string) : k <> [] -> ~ k `prefix_of` removelast k.
Proof.
  intros Hk Hp%prefix_length. rewrite (app_removelast_last "" Hk), length_app in Hp at 1. simpl in Hp. lia.
Qed.

(** Moving a directory to a location that lies in a directory keeps the
    file system well formed. *)
Lemma move_tree_wf : fs_wf m -> parent_dir m kd -> fs_wf (move_tree m ks kd).
Proof.
  intros [Hroot Hpar] Hkp.
  assert (Hkd0 : kd <> []) by (intros ->; apply Hnp; rewrite (Hkd ks Hks) by apply prefix_nil; done).
  assert (Hks0 : ks <> []) by (intros ->; apply Hnp, prefix_nil).
  split.
  - rewrite move_tree_lookup. rewrite !decide_False by (intros ->%prefix_nil_inv; done). done.
  - intros j i Hj Hne. rewrite move_tree_lookup in Hj |- *.
    case_decide as H1.
    + destruct H1 as [r ->]. rewrite drop_app_length in Hj. destruct (decide (r = [])) as [->|Hr].
      * rewrite app_nil_r in *. rewrite decide_False by (by apply not_prefix_removelast).
        rewrite decide_False by (intros ?%prefix_removelast; done).
        by destruct Hkp.
      * rewrite removelast_app, decide_True, drop_app_length by (done || by eexists).
        rewrite <- removelast_app by done. apply (Hpar _ i Hj). by intros [-> ->]%app_eq_nil.
    + case_decide; [done|]. pose proof (Hpar j i Hj Hne) as Hd.
      by rewrite !decide_False by (intros ?%prefix_removelast; done).
Qed.
End MoveTree.

(** Every proper ancestor of an entry is a directory. *)
Lemma ancestor_dir m a r i :
  fs_wf m -> m !! (a ++ r) = Some i -> r <> [] -> m !! a = Some IDir.
Proof.
  intros [_ Hpar]. revert i. induction r as [|x r IH] using rev_ind; intros i Hi Hr; [done|].
  assert (Hd : m !! (a ++ r) = Some IDir).
  { rewrite app_assoc in Hi. rewrite <- (removelast_last (a ++ r) x). apply (Hpar _ i Hi).
    by intros [_ ?]%app_eq_nil. }
  destruct (decide (r = [])) as [->|]; [by rewrite app_nil_r in Hd|]. by apply (IH IDir).
Qed.

Lemma no_entry_below m kd :
  fs_wf m -> m !! kd = None -> forall j, is_Some (m !! j) -> kd `prefix_of` j -> j = kd.
Proof.
  intros Hwf Hn j [i Hj] [r ->]. destruct (decide (r = [])) as [->|Hr]; [by rewrite app_nil_r|].
  rewrite (ancestor_dir m kd r i) in Hn; done.
Qed.

Lemma no_children_below m kd :
  has_children m kd = false -> forall j, is_Some (m !! j) -> kd `prefix_of` j -> j = kd.
Proof.
  unfold has_children. intros Hc%bool_decide_eq_false j Hj Hp.
  destruct (decide (j = kd)) as [|Hne]; [done|]. destruct Hc. exists j. split_and!; [|done|done].
  by apply elem_of_dom.
Qed.

(** [os.rename] keeps the file system well formed. *)
Lemma os_rename_wf m cwd src dst m' : fs_wf m -> os_rename m cwd src dst = inr m' -> fs_wf m'.
Proof.
  intros Hwf. unfold os_rename.
  destruct (fs_resolve m cwd src) as [|ks] eqn:Hs; [done|]. simpl.
  destruct (fs_resolve m cwd dst) as [|kd] eqn:Hd; [done|]. simpl.
  pose proof (resolve_parent_dir m Hwf cwd dst kd Hd) as Hp.
  destruct (m !! ks) as [[d mode|]|] eqn:Hk; [| |done].
  - case_decide; [by intros [= <-]|].
    destruct (m !! kd) as [[]|] eqn:Hkd; [|done|]; intros [= <-];
      (apply wf_insert_file; [by eapply wf_delete_file|rewrite lookup_delete_ne; congruence|]);
      (destruct Hp as [|Hp]; [by left|right]); rewrite lookup_delete_ne; congruence.
  - case_decide; [by intros [= <-]|]. case_decide as Hpre; [done|].
    assert (Hks : is_Some (m !! ks)) by by eexists.
    destruct (m !! kd) as [[]|] eqn:Hkd; [done| |].
    + destruct (has_children m kd) eqn:Hc; [done|]. intros [= <-].
      apply move_tree_wf; [done|done|by apply no_children_below|done|done].
    + intros [= <-]. apply move_tree_wf; [done|done|by apply no_entry_below|done|done].
Qed.

(** ** [shutil.move] *)

(** A successful resolution is the lexical one: [walk] only adds the
    checks that every component on the way is a directory. *)
Lemma walk_lexical m cur comps err k : walk m cur comps err = inr k -> k = fold_left step comps cur.
Proof.
  revert cur. induction comps as [|c [|c' rest] IH]; intros cur; simpl; [by intros [= <-]..|].
  destruct (m !! step cur c) as [[]|]; [done| |done]. apply IH.
Qed.

Lemma resolve_lexical m cwd p k : fs_resolve m cwd p = inr k -> k = lex_key cwd p.
Proof.
  unfold fs_resolve, lex_key. destruct (m !! _) as [[]|]; [done| |done]. apply walk_lexical.
Qed.

Lemma os_mkdir_incl m cwd p m' : os_mkdir m cwd p = inr m' -> m ⊆ m'.
Proof.
  unfold os_mkdir. destruct (fs_resolve m cwd p) as [|k]; [done|]. simpl.
  destruct (m !! k) eqn:Hk; [done|]. intros [= <-]. by apply insert_subseteq.
Qed.

Lemma path_mkdir_go_incl n m cwd p parents exist_ok m' :
  path_mkdir_go n m cwd p parents exist_ok = inr m' -> m ⊆ m'.
Proof.
  revert m p parents exist_ok m'. induction n as [|n IH]; intros m p parents exist_ok m'; simpl;
    (destruct (os_mkdir m cwd p) as [e|m1] eqn:Hm; [|intros [= <-]; by eapply os_mkdir_incl]);
    destruct e; try (destruct (_ && _); [intros [= <-]; done|done]);
    destruct (_ || _); try done.
  destruct (path_mkdir_go n m cwd (path_parent p) true true) as [|m1] eqn:H1; [done|]. simpl.
  intros H2. trans m1; [exact (IH _ _ _ _ _ H1)|exact (IH _ _ _ _ _ H2)].
Qed.

(** [Path.mkdir(exist_ok=False)] that succeeds created the directory [p]
    where nothing was, last. *)
Lemma path_mkdir_go_fresh n m cwd p parents m' :
  fs_wf m -> path_mkdir_go n m cwd p parents false = inr m' ->
  exists m2 k, m ⊆ m2 /\ fs_wf m2 /\ fs_resolve m2 cwd p = inr k /\ m2 !! k = None /\ m' = <[k := IDir]> m2.
Proof.
  revert m parents m'. induction n as [|n IH]; intros m parents m' Hwf; simpl;
    (destruct (os_mkdir m cwd p) as [e|m1] eqn:Hm;
     [|intros [= <-]; unfold os_mkdir in Hm; destruct (fs_resolve m cwd p) as [|k] eqn:Hr; [done|];
       simpl in Hm; destruct (m !! k) eqn:Hk; [done|]; injection Hm as <-; by exists m, k]);
    destruct e; try done; destruct (_ || _); try done.
  destruct (path_mkdir_go n m cwd (path_parent p) true true) as [|m1] eqn:H1; [done|]. simpl.
  intros (m2 & k & ? & ?)%IH; [|by eapply path_mkdir_go_wf]. exists m2, k. split; [|done].
  trans m1; [by eapply path_mkdir_go_incl|done].
Qed.

Lemma prefix_snoc_inv (a l : list string) x : a `prefix_of` l ++ [x] -> a `prefix_of` l \/ a = l ++ [x].
Proof.
  intros [r Hr]. revert Hr. induction r as [|y r _] using rev_ind; intros Hr.
  - rewrite app_nil_r in Hr. by right.
  - rewrite app_assoc in Hr. apply app_inj_tail in Hr as [-> _]. left. by eexists.
Qed.

Lemma not_prefix_step ks l c : ~ ks `prefix_of` l -> ks <> step l c -> ~ ks `prefix_of` step l c.
Proof.
  intros Hl Hne. unfold step in *. destruct (String.eqb c "."); [done|].
  destruct (String.eqb c ".."); [by intros ?%prefix_removelast|].
  intros [?|?]%prefix_snoc_inv; done.
Qed.

(** [dst / name] for a name without ["/"] is [dst], or one [step] from it. *)
Lemma lex_key_join cwd dst name :
  no_char slash name = true ->
  lex_key cwd (dst // name) = lex_key cwd dst \/ lex_key cwd (dst // name) = step (lex_key cwd dst) name.
Proof.
  intros Hn. unfold path_join, path_of_string.
  assert (Hr : split_root name = (EmptyString, name)) by (destruct name; [done|by apply split_root_relative]).
  rewrite Hr. simpl. unfold lex_key. simpl. rewrite fold_left_app.
  unfold path_segments. rewrite str_split_no_sep by done. simpl. destruct (decide (name ≠ "" ∧ name ≠ ".")); [rewrite filter_cons_True, filter_nil by done; by right|rewrite filter_cons_False, filter_nil by done; by left].
Qed.

Lemma fs_is_dir_key m cwd p : fs_is_dir m cwd p = true -> exists k, fs_resolve m cwd p = inr k /\ m !! k = Some IDir.
Proof.
  unfold fs_is_dir, fs_lookup. destruct (fs_resolve m cwd p) as [|k]; [done|].
  destruct (m !! k) as [[]|] eqn:Hk; [done| |done]. eauto.
Qed.

Lemma path_name_no_slash p : path_wf p = true -> no_char slash (path_name p) = true.
Proof.
  unfold path_wf, path_name. intros [_ Hp]%andb_true_iff. apply segments_ok in Hp as [_ Hs].
  destruct (last (p_parts p)) as [x|] eqn:Hl; [|done]. simpl.
  exact (proj1 (Forall_forall _ _) Hs x (last_Some_elem_of _ _ Hl)).
Qed.

(** The directory branch of [shutil.move]'s fallback: after
    [os.makedirs(real_dst)], the target [kd] is a fresh empty directory,
    not below the source [ks], and the tree at [ks] can be moved there. *)
Lemma shutil_fallback m cwd src dst ks m1 kd :
  fs_wf m -> path_wf src = true -> fs_resolve m cwd src = inr ks -> m !! ks = Some IDir ->
  ~ lex_key cwd src `prefix_of` lex_key cwd dst ->
  let real_dst := if fs_is_dir m cwd dst then dst // path_name src else dst in
  os_makedirs m cwd real_dst = inr m1 -> fs_resolve m1 cwd real_dst = inr kd ->
  m ⊆ m1 /\ fs_wf m1 /\ ks <> kd /\ ~ ks `prefix_of` kd /\ parent_dir m1 kd /\ is_Some (m1 !! ks) /\
  (forall j, is_Some (m1 !! j) -> kd `prefix_of` j -> j = kd) /\ kd = lex_key cwd real_dst.
Proof.
  intros Hwf Hsrc Hks Hksd Hin real_dst Hm Hd.
  apply path_mkdir_go_fresh in Hm as (m2 & k & Hsub & Hwf2 & Hr2 & Hk2 & ->); [|done].
  pose proof (fs_resolve_keeps_dirs _ _ _ _ _ (keeps_dirs_insert_dir m2 k) Hr2) as Hr1.
  assert (kd = k) as -> by congruence.
  pose proof (lookup_weaken _ _ _ _ Hksd Hsub) as Hks2.
  assert (Hne : ks <> k) by (intros ->; congruence).
  assert (Hwf1 : fs_wf (<[k:=IDir]> m2)) by (apply (wf_insert_dir m2 Hwf2 k); by eapply resolve_parent_dir).
  split_and!; [by trans m2; [|apply insert_subseteq]|done|done| | |rewrite lookup_insert_ne; [by eexists|congruence]| |].
  - apply resolve_lexical in Hks as ->. pose proof (resolve_lexical _ _ _ _ Hd) as ->.
    unfold real_dst in *. intros Hp. destruct (fs_is_dir m cwd dst); [|done].
    destruct (lex_key_join cwd dst (path_name src)) as [Hj|Hj]; [by apply path_name_no_slash| |];
      rewrite Hj in Hp, Hne; [done|]. revert Hp. by apply not_prefix_step.
  - by eapply resolve_parent_dir.
  - intros j [i Hj] Hp. destruct (decide (k = j)) as [->|Hkj]; [done|].
    rewrite lookup_insert_ne in Hj by done. eapply (no_entry_below m2); [done|done|by eexists|done].
  - by eapply resolve_lexical.
Qed.

(** [shutil.move] of a well-formed source keeps the file system well
    formed. *)
Lemma shutil_move_wf m cwd src dst m' :
  fs_wf m -> path_wf src = true -> shutil_move m cwd src dst = inr m' -> fs_wf m'.
Proof.
  intros Hwf Hsrc. unfold shutil_move.
  destruct (fs_is_dir m cwd dst && _); [by apply os_rename_wf|].
  destruct (_ && fs_exists _ _ _); [done|].
  destruct (os_rename m cwd src _) as [e|m1] eqn:Hren; [|intros [= <-]; by eapply os_rename_wf].
  destruct (fs_is_dir m cwd src) eqn:Hsd; [|done].
  destruct (fs_is_dir_key _ _ _ Hsd) as (ks & Hks & Hksd). rewrite Hks. simpl.
  case_bool_decide as Hin; [done|].
  destruct (os_makedirs m cwd _) as [|m1] eqn:Hm; [done|]. simpl.
  destruct (fs_resolve m1 cwd _) as [|kd] eqn:Hd; [done|]. simpl. intros [= <-].
  destruct (shutil_fallback m cwd src dst ks m1 kd) as (_ & ? & _ & ? & ? & ? & ? & _); try done.
  by apply move_tree_wf.
Qed.
