(* ===== verification/FsPost.v ===== *)
(** * What the primitives leave on disk

    [grows m m']: every directory of [m] is still one in [m'] and every
    entry of [m] is still there; the primitives that only create or
    overwrite ([open(p, "w")], [f.write], [Path.chmod], [os.mkdir],
    [Path.mkdir]) grow the file system, and a path that exists keeps
    existing across them ([exists_grows]).  [moved m m' ks kd]: the object
    at [ks] is now at [kd], nothing is left below [ks], and every other
    entry stays; [os.rename] and [shutil.move] move in this sense
    ([shutil_move_post]).  For a path without [".."] from the root,
    existence is the presence of its components as a key
    ([exists_plain]). *)

From S2P Require Import Prelude PyStr PyObj PyPath Fs FsWf.

Definition grows (m m' : fs) : Prop :=
  keeps_dirs m m' /\ forall k, is_Some (m !! k) -> is_Some (m' !! k).

Lemma grows_refl m : grows m m.
Proof. split; [apply keeps_dirs_refl|done]. Qed.

Lemma grows_trans m1 m2 m3 : grows m1 m2 -> grows m2 m3 -> grows m1 m3.
Proof. intros [D1 E1] [D2 E2]. split; [by eapply keeps_dirs_trans|auto]. Qed.

Lemma grows_insert_file m k i : m !! k <> Some IDir -> i <> IDir -> grows m (<[k := i]> m).
Proof.
  intros Hk Hi. split; [by apply keeps_dirs_insert_file|]. intros j [x Hj].
  destruct (decide (k = j)) as [->|]; [rewrite lookup_insert_eq|rewrite lookup_insert_ne]; by eauto.
Qed.

Lemma grows_insert_dir m k : grows m (<[k := IDir]> m).
Proof.
  split; [apply keeps_dirs_insert_dir|]. intros j [x Hj].
  destruct (decide (k = j)) as [->|]; [rewrite lookup_insert_eq|rewrite lookup_insert_ne]; by eauto.
Qed.

#[export] Hint Resolve grows_refl grows_insert_dir : appimg.

(** A path that exists keeps existing when the file system grows. *)
Lemma exists_grows m m' cwd p : grows m m' -> fs_exists m cwd p = true -> fs_exists m' cwd p = true.
Proof.
  intros [D E]. unfold fs_exists, fs_lookup. destruct (fs_resolve m cwd p) as [|k] eqn:Hr; [done|].
  rewrite (fs_resolve_keeps_dirs m m' cwd p k D Hr).
  destruct (m !! k) eqn:Hk; [|done]. destruct (E k) as [? ->]; by eauto.
Qed.

(** ** The primitives that grow the file system *)

Section Grow.
Context (m : fs) (cwd : list string).

Ltac grow_case :=
  intros; simplify_eq; first [apply grows_refl | apply grows_insert_dir | apply grows_insert_file; congruence].

Lemma open_w_grows umask p m' : fs_open_w m cwd umask p = inr m' -> grows m m'.
Proof.
  unfold fs_open_w. destruct (fs_resolve m cwd p) as [|k]; [done|]. simpl.
  destruct (m !! k) as [[]|] eqn:Hk; grow_case.
Qed.

Lemma set_data_grows p d m' : fs_set_data m cwd p d = inr m' -> grows m m'.
Proof.
  unfold fs_set_data. destruct (fs_resolve m cwd p) as [|k]; [done|]. simpl.
  destruct (m !! k) as [[]|] eqn:Hk; grow_case.
Qed.

Lemma write_text_grows umask p d m' : fs_write_text m cwd umask p d = inr m' -> grows m m'.
Proof.
  rewrite fs_write_text_spec. destruct (fs_resolve m cwd p) as [|k]; [done|].
  destruct (m !! k) as [[]|] eqn:Hk; grow_case.
Qed.

Lemma chmod_grows p mode m' : fs_chmod m cwd p mode = inr m' -> grows m m'.
Proof.
  unfold fs_chmod. destruct (fs_resolve m cwd p) as [|k]; [done|]. simpl.
  destruct (m !! k) as [[]|] eqn:Hk; grow_case.
Qed.

Lemma os_mkdir_grows p m' : os_mkdir m cwd p = inr m' -> grows m m'.
Proof.
  unfold os_mkdir. destruct (fs_resolve m cwd p) as [|k]; [done|]. simpl.
  destruct (m !! k) eqn:Hk; grow_case.
Qed.
End Grow.

Lemma path_mkdir_go_grows n m cwd p parents exist_ok m' :
  path_mkdir_go n m cwd p parents exist_ok = inr m' -> grows m m'.
Proof.
  revert m p parents exist_ok m'. induction n as [|n IH]; intros m p parents exist_ok m'; simpl;
    (destruct (os_mkdir m cwd p) as [e|m1] eqn:Hm; [|intros [= <-]; by eapply os_mkdir_grows]);
    destruct e; try (destruct (_ && _); [intros [= <-]; apply grows_refl|done]);
    destruct (_ || _); try done.
  destruct (path_mkdir_go n m cwd (path_parent p) true true) as [|m1] eqn:H1; [done|]. simpl.
  intros H2. eapply grows_trans; [exact (IH _ _ _ _ _ H1)|exact (IH _ _ _ _ _ H2)].
Qed.

Lemma path_mkdir_grows m cwd p parents exist_ok m' :
  path_mkdir m cwd p parents exist_ok = inr m' -> grows m m'.
Proof. apply path_mkdir_go_grows. Qed.

(** [open(p, "w")] that succeeds leaves a file at [p]. *)
Lemma open_w_exists m cwd umask p m' : fs_open_w m cwd umask p = inr m' -> fs_exists m' cwd p = true.
Proof.
  intros H. pose proof (open_w_grows _ _ _ _ _ H) as [D _]. revert H. unfold fs_open_w.
  destruct (fs_resolve m cwd p) as [|k] eqn:Hr; [done|]. simpl.
  unfold fs_exists, fs_lookup. rewrite (fs_resolve_keeps_dirs m m' cwd p k D Hr).
  destruct (m !! k) as [[]|]; intros; simplify_eq; by rewrite lookup_insert_eq.
Qed.

(** ** Moving an object *)

(** The object at [ks] is now at [kd]; nothing is left below [ks] (outside
    [kd]); every entry outside both is kept. *)
Definition moved (m m' : fs) (ks kd : list string) : Prop :=
  m' !! kd = m !! ks /\
  (forall j, ks `prefix_of` j -> ~ kd `prefix_of` j -> m' !! j = None) /\
  (forall j i, ~ ks `prefix_of` j -> ~ kd `prefix_of` j -> m !! j = Some i -> m' !! j = Some i).

(** Nothing lies strictly below a file. *)
Lemma below_file m ks d mode j :
  fs_wf m -> m !! ks = Some (IFile d mode) -> ks `prefix_of` j -> j <> ks -> m !! j = None.
Proof.
  intros Hwf Hk [r ->] Hne. destruct (m !! (ks ++ r)) as [i|] eqn:Hj; [|done].
  rewrite (ancestor_dir m ks r i) in Hk; [done|done|done|]. intros ->. by rewrite app_nil_r in Hne.
Qed.

Lemma moved_file m ks kd d mode :
  fs_wf m -> m !! ks = Some (IFile d mode) -> ks <> kd ->
  moved m (<[kd := IFile d mode]> (delete ks m)) ks kd.
Proof.
  intros Hwf Hk Hne. split_and!.
  - by rewrite lookup_insert_eq.
  - intros j Hj Hkd. rewrite lookup_insert_ne by (intros ->; apply Hkd; done).
    destruct (decide (j = ks)) as [->|]; [by rewrite lookup_delete_eq|].
    rewrite lookup_delete_ne by done. by eapply below_file.
  - intros j i Hj Hkd Hi. rewrite lookup_insert_ne by (intros ->; apply Hkd; done).
    rewrite lookup_delete_ne; [done|]. intros ->. by apply Hj.
Qed.

Section MovedTree.
Context (m : fs) (ks kd : list string).
Hypothesis (Hnp : ~ ks `prefix_of` kd) (Hks : is_Some (m !! ks))
  (Hkd : forall j, is_Some (m !! j) -> kd `prefix_of` j -> j = kd).

Lemma moved_tree : moved m (move_tree m ks kd) ks kd.
Proof.
  split_and!.
  - rewrite move_tree_lookup by done. rewrite decide_True by done. by rewrite drop_all, app_nil_r.
  - intros j Hj Hkd'. rewrite move_tree_lookup by done. by rewrite decide_False, decide_True.
  - intros j i Hj Hkd' Hi. rewrite move_tree_lookup by done. by rewrite !decide_False.
Qed.
End MovedTree.

(** Nothing that resolves lies strictly below a file. *)
Lemma resolve_not_below_file m cwd p k ks d mode :
  fs_wf m -> fs_resolve m cwd p = inr k -> m !! ks = Some (IFile d mode) -> ks <> k -> ~ ks `prefix_of` k.
Proof.
  intros Hwf Hr Hks Hne [r ->]. destruct (resolve_parent_dir m Hwf cwd p _ Hr) as [Hnil|Hp].
  { apply app_eq_nil in Hnil as [-> ->]. by rewrite app_nil_r in Hne. }
  assert (Hr0 : r <> []) by (intros ->; by rewrite app_nil_r in Hne).
  rewrite removelast_app in Hp by done.
  destruct (decide (removelast r = [])) as [He|He].
  - rewrite He, app_nil_r in Hp. congruence.
  - rewrite (below_file m ks d mode) in Hp; [done|done|done|by eexists|].
    intros Heq. apply He. apply (f_equal List.length) in Heq. rewrite length_app in Heq.
    destruct (removelast r); [done|simpl in Heq; lia].
Qed.

(** [os.rename(src, dst)] that succeeds either does nothing ([src] and
    [dst] are the same location) or moves the object. *)
Lemma os_rename_post m cwd src dst m' ks :
  fs_wf m -> fs_resolve m cwd src = inr ks -> os_rename m cwd src dst = inr m' ->
  is_Some (m !! ks) /\
  ((m' = m /\ ks = lex_key cwd dst) \/ 
   (ks <> lex_key cwd dst /\ ~ ks `prefix_of` lex_key cwd dst /\ moved m m' ks (lex_key cwd dst))).
Proof.
  intros Hwf Hs. unfold os_rename. rewrite Hs. simpl.
  destruct (fs_resolve m cwd dst) as [|kd] eqn:Hd; [done|]. simpl.
  rewrite <- (resolve_lexical _ _ _ _ Hd).
  destruct (m !! ks) as [[d mode|]|] eqn:Hk; [| |done]; intros Hr; (split; [by eexists|]); revert Hr.
  - case_decide as Heq; [intros [= <-]; by left|].
    destruct (m !! kd) as [[]|] eqn:Hkd; [|done|]; intros [= <-]; right;
      (split_and!; [done|by eapply resolve_not_below_file|by apply moved_file]).
  - case_decide as Heq; [intros [= <-]; by left|]. case_decide as Hpre; [done|].
    assert (Hks : is_Some (m !! ks)) by by eexists.
    destruct (m !! kd) as [[]|] eqn:Hkd; [done| |].
    + destruct (has_children m kd) eqn:Hc; [done|]. intros [= <-]. right.
      split_and!; [done|assumption|]. apply moved_tree; [assumption|by apply no_children_below].
    + intros [= <-]. right. split_and!; [done|assumption|]. apply moved_tree; [assumption|by apply no_entry_below].
Qed.

Lemma prefix_step_mono (ks l : list string) c : c <> ".." -> ks `prefix_of` l -> ks `prefix_of` step l c.
Proof.
  intros Hc Hp. unfold step. destruct (String.eqb c "."); [done|].
  rewrite (proj2 (String.eqb_neq _ _) Hc). by apply prefix_app_r.
Qed.

Lemma moved_weaken m m1 m' ks kd :
  m ⊆ m1 -> is_Some (m !! ks) -> moved m1 m' ks kd -> moved m m' ks kd.
Proof.
  intros Hsub [i Hi] (H1 & H2 & H3). split_and!; [|done|].
  - rewrite H1. by rewrite (lookup_weaken m m1 ks i).
  - intros j i' Hj Hkd Hi'. apply H3; [done|done|]. by eapply lookup_weaken.
Qed.

(** [shutil.move(src, dst)] that succeeds: either nothing moves ([src] is
    [dst], or already the place it would go to), or the object at [src]
    is moved to [real_dst] ([dst], or [dst/name] when [dst] is a
    directory), which is not below [src], and neither is [dst]. *)
Lemma shutil_move_post m cwd src dst m' ks :
  fs_wf m -> path_wf src = true -> path_name src <> ".." ->
  fs_resolve m cwd src = inr ks -> shutil_move m cwd src dst = inr m' ->
  let real_dst := if fs_is_dir m cwd dst then dst // path_name src else dst in
  is_Some (m !! ks) /\
  ((m' = m /\ (ks = lex_key cwd dst \/
     (ks = lex_key cwd real_dst /\ (fs_is_dir m cwd dst = true -> fs_exists m cwd real_dst = false)))) \/
   (~ ks `prefix_of` lex_key cwd real_dst /\ ~ ks `prefix_of` lex_key cwd dst /\
    moved m m' ks (lex_key cwd real_dst))).
Proof.
  intros Hwf Hsrc Hname Hks Hmv real_dst. unfold shutil_move in Hmv.
  destruct (fs_is_dir m cwd dst && _) eqn:Hsame.
  { apply andb_true_iff in Hsame as [_ Hsame]. rewrite Hks in Hsame.
    destruct (fs_resolve m cwd dst) as [|kd] eqn:Hd; [done|]. apply bool_decide_eq_true in Hsame as [<- Hs].
    destruct (os_rename_post m cwd src dst m' ks) as [_ [[-> ?]|(? & _)]]; [done..| |].
    - split; [done|]. left. split; [done|by left].
    - exfalso. by rewrite (resolve_lexical _ _ _ _ Hd) in *. }
  destruct (fs_is_dir m cwd dst && fs_exists m cwd _) eqn:Hex; [done|].
  destruct (os_rename m cwd src _) as [e|m1] eqn:Hren.
  - destruct (fs_is_dir m cwd src) eqn:Hsd; [|done].
    destruct (fs_is_dir_key _ _ _ Hsd) as (ks' & Hks' & Hksd). rewrite Hks in Hks'. injection Hks' as <-.
    rewrite Hks in Hmv. simpl in Hmv. case_bool_decide as Hin; [done|].
    destruct (os_makedirs m cwd _) as [|m1] eqn:Hm; [done|]. simpl in Hmv.
    destruct (fs_resolve m1 cwd _) as [|kd] eqn:Hd; [done|]. simpl in Hmv. injection Hmv as <-.
    destruct (shutil_fallback m cwd src dst ks m1 kd) as (Hsub & _ & _ & Hnp & _ & Hks1 & Hkd & ->); try done.
    split; [by eexists|]. right. split_and!; [done| |].
    + by rewrite (resolve_lexical _ _ _ _ Hks).
    + eapply moved_weaken; [done|by eexists|]. by apply moved_tree.
  - injection Hmv as <-.
    destruct (os_rename_post m cwd src real_dst m1 ks) as [Hs [[-> ?]|(Hne & Hnp & Hmvd)]]; [done..| |].
    + split; [done|]. left. split; [done|]. right. split; [done|].
      intros Hdir. unfold real_dst in *. rewrite Hdir in Hex |- *. exact Hex.
    + split; [done|]. right. split_and!; [done| |done].
      unfold real_dst in *. destruct (fs_is_dir m cwd dst); [|done].
      intros Hp. apply Hnp. destruct (lex_key_join cwd dst (path_name src)) as [->| ->];
        [by apply path_name_no_slash|done|by apply prefix_step_mono].
Qed.

(** ** Existence of a plain absolute path *)

(** An absolute path without [".."]: its location is its components. *)
Definition plain_path (p : path) : Prop :=
  p_root p <> EmptyString /\ path_wf p = true /\ Forall (fun c => c <> "..") (p_parts p).

Lemma step_plain cur c : c <> "." -> c <> ".." -> step cur c = cur ++ [c].
Proof. intros H1 H2. unfold step. by rewrite (proj2 (String.eqb_neq _ _) H1), (proj2 (String.eqb_neq _ _) H2). Qed.

Lemma plain_parts p : plain_path p -> Forall (fun c => c <> "." /\ c <> "..") (p_parts p).
Proof.
  intros (_ & Hwf & Hd). unfold path_wf in Hwf. apply andb_true_iff in Hwf as [_ Hs].
  apply segments_ok in Hs as [Hs _]. rewrite Forall_forall in Hs, Hd |- *. intros x Hx.
  split; [by apply Hs|by apply Hd].
Qed.

Lemma walk_cons2 m cur c c' rest err :
  walk m cur (c :: c' :: rest) err =
  match m !! step cur c with
  | Some IDir => walk m (step cur c) (c' :: rest) err
  | Some (IFile _ _) => inl (NotADirectoryError err)
  | None => inl (FileNotFoundError err)
  end.
Proof. reflexivity. Qed.

Lemma walk_plain m cur comps err :
  fs_wf m -> Forall (fun c => c <> "." /\ c <> "..") comps -> m !! cur = Some IDir ->
  is_Some (m !! (cur ++ comps)) -> walk m cur comps err = inr (cur ++ comps).
Proof.
  intros Hwf. revert cur. induction comps as [|c [|c' rest] IH]; intros cur Hc Hcur [i Hi].
  - simpl. by rewrite app_nil_r.
  - inversion Hc as [|? ? [? ?] _]. simpl. by rewrite step_plain.
  - inversion Hc as [|? ? [? ?] Hc']; subst. rewrite walk_cons2, step_plain by done.
    assert (Hd : m !! (cur ++ [c]) = Some IDir).
    { apply (ancestor_dir m (cur ++ [c]) (c' :: rest) i Hwf); [by rewrite <- app_assoc|done]. }
    rewrite Hd, (IH (cur ++ [c])); [by rewrite <- app_assoc|done|done|]. rewrite <- app_assoc. by eexists.
Qed.

Lemma lex_key_plain cwd p : plain_path p -> lex_key cwd p = p_parts p.
Proof.
  intros Hp. pose proof (plain_parts p Hp) as Hc. destruct Hp as (Hr & _ & _).
  unfold lex_key. destruct (p_root p); [done|]. clear Hr.
  change (p_parts p) with ([] ++ p_parts p) at 2. generalize (@nil string).
  induction Hc as [|c l [? ?] _ IH]; intros cur; simpl; [by rewrite app_nil_r|].
  rewrite step_plain by done. rewrite IH. by rewrite <- app_assoc.
Qed.

(** A plain absolute path exists exactly when its components are a key. *)
Lemma exists_plain m cwd p :
  fs_wf m -> plain_path p -> fs_exists m cwd p = true <-> is_Some (m !! p_parts p).
Proof.
  intros Hwf Hp. pose proof (plain_parts p Hp) as Hc. pose proof (lex_key_plain cwd p Hp) as Hl.
  destruct Hp as (Hr & _ & _). unfold fs_exists, fs_lookup. split.
  - destruct (fs_resolve m cwd p) as [|k] eqn:Hres; [done|].
    apply resolve_lexical in Hres. rewrite Hres, Hl. by destruct (m !! p_parts p).
  - intros Hs. unfold fs_resolve. destruct (p_root p); [done|].
    rewrite (proj1 Hwf). simpl. rewrite (walk_plain m [] (p_parts p)); [|done|done|exact (proj1 Hwf)|exact Hs].
    simpl. by destruct Hs as [? ->].
Qed.

(** ** Where [shutil.move] leaves things *)

Lemma step_prefix_same (l : list string) c : c <> ".." -> step l c `prefix_of` l -> step l c = l.
Proof.
  intros Hc Hp. unfold step in *. destruct (String.eqb c "."); [done|].
  rewrite (proj2 (String.eqb_neq _ _) Hc) in Hp |- *. apply prefix_length in Hp.
  rewrite length_app in Hp. simpl in Hp. lia.
Qed.

Lemma fs_is_dir_lex m cwd p : fs_is_dir m cwd p = true -> m !! lex_key cwd p = Some IDir.
Proof. intros (k & Hr & Hk)%fs_is_dir_key. by rewrite <- (resolve_lexical _ _ _ _ Hr). Qed.

Section ShutilMove.
Context (m : fs) (cwd : list string) (src dst : path) (m' : fs) (ks : list string).
Hypothesis (Hwf : fs_wf m) (Hsrc : path_wf src = true) (Hname : path_name src <> "..")
  (Hks : fs_resolve m cwd src = inr ks) (Hmv : shutil_move m cwd src dst = inr m').

(** The destination is still there after the move. *)
Lemma shutil_move_dst_stays : is_Some (m' !! lex_key cwd dst).
Proof.
  destruct (shutil_move_post m cwd src dst m' ks) as [Hs [[-> [->|[-> _]]]|(Hnr & Hnd & Hm1 & _ & Hm3)]];
    try done; destruct (fs_is_dir m cwd dst) eqn:Hd; simpl in *.
  - rewrite fs_is_dir_lex by done. by eexists.
  - done.
  - pose proof (fs_is_dir_lex _ _ _ Hd) as Hdir.
    destruct (decide (lex_key cwd (dst // path_name src) `prefix_of` lex_key cwd dst)) as [Hp|Hp].
    + destruct (lex_key_join cwd dst (path_name src)) as [Hj|Hj]; [by apply path_name_no_slash| |].
      * rewrite <- Hj, Hm1. done.
      * rewrite Hj in Hp. apply step_prefix_same in Hp; [|done]. rewrite <- Hp, <- Hj, Hm1. done.
    + rewrite (Hm3 _ IDir); [by eexists|done|done|done].
  - by rewrite Hm1.
Qed.

(** Moving into a directory: the object is now at [dst/name], and nothing
    is left at its old location. *)
Lemma shutil_move_into_dir :
  plain_path (dst // path_name src) -> fs_is_dir m cwd dst = true -> ks <> lex_key cwd dst ->
  ~ lex_key cwd (dst // path_name src) `prefix_of` ks ->
  is_Some (m' !! lex_key cwd (dst // path_name src)) /\ m' !! ks = None.
Proof.
  intros Hplain Hd Hne Hnp.
  destruct (shutil_move_post m cwd src dst m' ks) as [Hs [[-> [->|[Hreal Hex]]]|(Hnr & Hnd & Hm1 & Hm2 & _)]];
    try done; rewrite Hd in *; simpl in *.
  - exfalso. specialize (Hex eq_refl). apply not_true_iff_false in Hex. apply Hex.
    apply exists_plain; [done|done|]. by rewrite <- (lex_key_plain cwd), <- Hreal.
  - split; [by rewrite Hm1|]. by apply Hm2.
Qed.
End ShutilMove.

(** The name of a plain path is not [".."]. *)
Lemma plain_name p : plain_path p -> path_name p <> "..".
Proof.
  intros (_ & _ & Hd). unfold path_name. destruct (last (p_parts p)) as [x|] eqn:E; simpl; [|done].
  apply last_Some_elem_of in E. rewrite Forall_forall in Hd. by apply Hd.
Qed.

(** The parent of a plain path is plain. *)
Lemma plain_parent p : plain_path p -> plain_path (path_parent p).
Proof.
  intros (Hr & Hwf & Hd). pose proof (path_parent_wf p Hwf) as Hw.
  unfold path_parent in *. destruct (p_parts p) as [|x l] eqn:E; [split_and!; congruence|].
  split_and!; [done|done|]. simpl. destruct (removelast_prefix (x :: l)) as [t Ht].
  rewrite Ht in Hd. by apply Forall_app in Hd as [? _].
Qed.

(** [p / s] of a plain path and a name other than [".."] is plain. *)
Lemma plain_join p s : plain_path p -> no_char slash s = true -> s <> ".." -> plain_path (p // s).
Proof.
  intros (Hr & Hwf & Hd) Hs Hdd. pose proof (path_join_wf p s Hwf) as Hj.
  unfold path_join, path_of_string in *.
  assert (Hsr : split_root s = (EmptyString, s)) by (destruct s; [done|by apply split_root_relative]).
  rewrite Hsr in *. simpl in *. split_and!; [done|done|].
  - apply Forall_app. split; [done|]. unfold path_segments. rewrite str_split_no_sep by done.
    apply Forall_forall. intros x [_ Hx]%list_elem_of_filter. apply list_elem_of_singleton in Hx. congruence.
Qed.

(** [shutil.move] succeeds only from a source that resolves. *)
Lemma shutil_move_src m cwd src dst m' :
  shutil_move m cwd src dst = inr m' -> exists ks, fs_resolve m cwd src = inr ks.
Proof.
  destruct (fs_resolve m cwd src) as [e|ks] eqn:Hr; [|by eauto].
  unfold shutil_move, os_rename. rewrite Hr. simpl.
  destruct (fs_is_dir m cwd dst && _); [done|]. destruct (_ && _); [done|]. by destruct (fs_is_dir m cwd src).
Qed.

(** ** Deleting and writing one entry *)

Lemma unlink_delete m cwd p m' :
  fs_unlink m cwd p = inr m' ->
  exists k d mode, fs_resolve m cwd p = inr k /\ m !! k = Some (IFile d mode) /\ m' = delete k m.
Proof.
  unfold fs_unlink. destruct (fs_resolve m cwd p) as [|k]; [done|]. simpl.
  destruct (m !! k) as [[d mode|]|] eqn:Hk; intros; simplify_eq; by eauto 10.
Qed.

Lemma write_text_insert m cwd umask p data m' :
  fs_write_text m cwd umask p data = inr m' ->
  exists k i, fs_resolve m cwd p = inr k /\ m' = <[k := i]> m.
Proof.
  rewrite fs_write_text_spec. destruct (fs_resolve m cwd p) as [|k]; [done|].
  destruct (m !! k) as [[]|]; intros; simplify_eq; by eauto.
Qed.

Lemma os_rename_src m cwd src dst m' :
  os_rename m cwd src dst = inr m' -> exists ks, fs_resolve m cwd src = inr ks.
Proof. unfold os_rename. destruct (fs_resolve m cwd src) as [|ks]; [done|by eauto]. Qed.

(** [m'] differs from [m] at most at [k]. *)
Definition only_at (m m' : fs) (k : list string) : Prop := forall j, j <> k -> m' !! j = m !! j.

Lemma only_at_trans m1 m2 m3 k : only_at m1 m2 k -> only_at m2 m3 k -> only_at m1 m3 k.
Proof. intros H1 H2 j Hj. by rewrite H2, H1. Qed.

Section OnlyAt.
Context (m : fs) (cwd : list string).

Ltac only_case p :=
  destruct (fs_resolve m cwd p) as [|k] eqn:Hr; [done|]; apply resolve_lexical in Hr as ->; simpl;
  destruct (m !! _) as [[]|]; intros; simplify_eq; intros j Hj; by rewrite ?lookup_insert_ne by congruence.

(** [open(p, "w")], [f.write] and [chmod] change only the entry at [p]. *)
Lemma open_w_only u p m' : fs_open_w m cwd u p = inr m' -> only_at m m' (lex_key cwd p).
Proof. unfold fs_open_w. only_case p. Qed.

Lemma set_data_only p d m' : fs_set_data m cwd p d = inr m' -> only_at m m' (lex_key cwd p).
Proof. unfold fs_set_data. only_case p. Qed.

Lemma chmod_only p mode m' : fs_chmod m cwd p mode = inr m' -> only_at m m' (lex_key cwd p).
Proof. unfold fs_chmod. only_case p. Qed.
End OnlyAt.

(** [p.parent / s] for a segment [s] other than [p.name] is not above [p]. *)
Lemma join_parent_not_prefix p s :
  segment_ok s = true -> p_parts (path_parent p // s) <> p_parts p -> ~ p_parts (path_parent p // s) `prefix_of` p_parts p.
Proof.
  intros Hs Hne Hp. rewrite join_segment in * by done. unfold path_parent in *.
  destruct (p_parts p) as [|x l] eqn:E; simpl in *; [by apply prefix_nil_inv in Hp|].
  apply Hne, prefix_length_eq; [done|]. rewrite length_app.
  rewrite (app_removelast_last "" (l := x :: l)) at 1 by done. rewrite length_app. simpl. lia.
Qed.

(** [os.rename] of a path that does not exist raises [FileNotFoundError]
    or, when a directory on the way is a file, [NotADirectoryError]. *)
Lemma os_rename_missing m cwd src dst :
  fs_exists m cwd src = false ->
  exists e, os_rename m cwd src dst = inl e /\ exists s, e = FileNotFoundError s \/ e = NotADirectoryError s.
Proof.
  unfold os_rename, fs_exists, fs_lookup. intros Hx.
  destruct (fs_resolve m cwd src) as [e|ks] eqn:Hs; [eexists; split; [done|by eapply fs_resolve_err]|]. simpl.
  destruct (fs_resolve m cwd dst) as [e|kd] eqn:Hd; [eexists; split; [done|by eapply fs_resolve_err]|]. simpl.
  destruct (m !! ks); [done|]. eexists. split; [done|]. eauto.
Qed.

(** ** Writing a file changes no resolution *)

Section FileFrame.
Context (m : fs) (k : list string) (i : inode).
Hypothesis (Hk : m !! k <> Some IDir) (Hi : i <> IDir).

Lemma keeps_dirs_insert_file_back : keeps_dirs (<[k := i]> m) m.
Proof.
  intros j Hj. destruct (decide (k = j)) as [->|Hne]; [rewrite lookup_insert_eq in Hj; congruence|].
  by rewrite lookup_insert_ne in Hj.
Qed.

Lemma resolve_insert_file cwd p kp :
  fs_resolve (<[k := i]> m) cwd p = inr kp <-> fs_resolve m cwd p = inr kp.
Proof.
  split; apply fs_resolve_keeps_dirs; [apply keeps_dirs_insert_file_back | by apply keeps_dirs_insert_file].
Qed.
End FileFrame.
