(* ===== verification/Glob.v ===== *)
(** * [fnmatch] patterns and [Path.glob]

    [sync_appimages] scans [appimages_dir.glob("*.AppImage")] (line 40) and
    [select_appimage] lists [downloads_dir.glob(f"{app_name}*.AppImage")]
    (line 71), where [app_name] is typed by the user, so any pattern
    syntax in it is live.  This file models CPython 3.12:
    - [fnmatch]: [fnmatch.translate] read as the set of names it accepts:
      [*] any text, [?] any character, [[...]] a character class
      ([!] negates; a [-] between two characters is a range, a reversed
      range is empty; a [[] without a closing [\]] is a literal), every
      other character itself; the match is case sensitive and covers the
      whole name;
    - [path_glob]: the pattern is parsed like a path (an absolute pattern
      raises [NotImplementedError], an empty one [ValueError]); each
      segment selects the entries of the directories reached so far whose
      name matches, directories only when more segments follow; [".."]
      goes up; ["**"] selects the directory and all directories below it
      (in the order of [Path.walk]); a segment containing ["**"] with
      other text raises [ValueError].
    The order in which a directory lists its entries is the order of the
    map's keys; the operating system's order is unspecified, and the
    theorems do not depend on it. *)

From S2P Require Import Prelude PyStr PyObj PyPath Fs.

(** ** [fnmatch] *)

Inductive gtok : Type :=
  | GStar
  | GAny
  | GChar (c : ascii)
  | GClass (neg : bool) (items : list (ascii * ascii)).

(** Text up to the first ["]"], and the text after it. *)
Fixpoint scan_to_close (s : string) : option (string * string) :=
  match s with
  | EmptyString => None
  | String c s' =>
      if ascii_dec c "]" then Some (EmptyString, s')
      else match scan_to_close s' with
           | Some (b, r) => Some (String c b, r)
           | None => None
           end
  end.

(** After a ["["]: an optional ["!"], then a body that may start with
    ["]"], up to the next ["]"]. *)
Definition class_start (s : string) : option (bool * string * string) :=
  let '(neg, s1) :=
    match s with
    | String c s' => if ascii_dec c "!" then (true, s') else (false, s)
    | EmptyString => (false, s)
    end in
  match s1 with
  | String c s2 =>
      if ascii_dec c "]" then
        match scan_to_close s2 with
        | Some (b, r) => Some (neg, String c b, r)
        | None => None
        end
      else match scan_to_close s1 with
           | Some (b, r) => Some (neg, b, r)
           | None => None
           end
  | EmptyString => None
  end.

(** The characters and ranges of a class body. *)
Fixpoint class_items (s : string) : list (ascii * ascii) :=
  match s with
  | EmptyString => []
  | String c s1 =>
      match s1 with
      | String m (String d rest) =>
          if ascii_dec m "-" then (c, d) :: class_items rest else (c, c) :: class_items s1
      | _ => (c, c) :: class_items s1
      end
  end.

Fixpoint tokenize (fuel : nat) (s : string) : list gtok :=
  match fuel with
  | 0 => []
  | S f =>
      match s with
      | EmptyString => []
      | String c r =>
          if ascii_dec c "*" then GStar :: tokenize f r
          else if ascii_dec c "?" then GAny :: tokenize f r
          else if ascii_dec c "[" then
            match class_start r with
            | Some (neg, body, rest) => GClass neg (class_items body) :: tokenize f rest
            | None => GChar c :: tokenize f r
            end
          else GChar c :: tokenize f r
      end
  end.

Definition in_items (c : ascii) (items : list (ascii * ascii)) : bool :=
  existsb (fun lh => (nat_of_ascii lh.1 <=? nat_of_ascii c) && (nat_of_ascii c <=? nat_of_ascii lh.2)) items.

Fixpoint gmatch (toks : list gtok) (s : string) : bool :=
  match toks with
  | [] => match s with EmptyString => true | _ => false end
  | GStar :: t =>
      (fix go s :=
         gmatch t s || match s with EmptyString => false | String _ s' => go s' end) s
  | GAny :: t => match s with String _ s' => gmatch t s' | EmptyString => false end
  | GChar c :: t =>
      match s with
      | String c' s' => bool_decide (c = c') && gmatch t s'
      | EmptyString => false
      end
  | GClass neg items :: t =>
      match s with
      | String c' s' => xorb neg (in_items c' items) && gmatch t s'
      | EmptyString => false
      end
  end.

(** [fnmatch.fnmatchcase(name, pat)] *)
Definition fnmatch (pat name : string) : bool := gmatch (tokenize (String.length pat) pat) name.

(** ** [Path.glob] *)

(** The names of the entries of the directory [k]. *)
Definition scandir (m : fs) (k : list string) : list string :=
  omap (fun kv => match kv.1 with
                  | [] => None
                  | _ => if decide (removelast kv.1 = k) then last kv.1 else None
                  end) (map_to_list m).

Definition is_dir_key (m : fs) (k : list string) : bool :=
  match m !! k with Some IDir => true | _ => false end.

(** [parent_path._make_child_relpath(name)] *)
Definition path_child (p : path) (n : string) : path := mkpath (p_root p) (p_parts p ++ [n]).

(** The directories [Path.walk] reports below [(p, k)], in its order: the
    subdirectories of a directory, then the walk of each of them; each
    with its location. *)
Fixpoint walk_dirs (fuel : nat) (m : fs) (p : path) (k : list string) : list (path * list string) :=
  match fuel with
  | 0 => []
  | S f =>
      let subs := filter (fun n => is_dir_key m (k ++ [n]) = true) (scandir m k) in
      map (fun n => (path_child p n, k ++ [n])) subs ++
      flat_map (fun n => walk_dirs f m (path_child p n) (k ++ [n])) subs
  end.

Definition is_double_star (s : string) : bool := String.eqb s "**".

(** [_make_selector] skips the ["**"] segments that follow a ["**"]; the
    selectors below read the pattern with those runs collapsed. *)
Fixpoint collapse_stars (parts : list string) : list string :=
  match parts with
  | [] => []
  | x :: rest =>
      let rest' := collapse_stars rest in
      if is_double_star x then
        match rest' with
        | y :: _ => if is_double_star y then rest' else x :: rest'
        | [] => [x]
        end
      else x :: rest'
  end.

(** The selectors of [pathlib._make_selector], applied from the path [p]
    at location [k] ([_select_from]). *)
Fixpoint select_from (m : fs) (parts : list string) (p : path) (k : list string)
  : exc + list path :=
  match parts with
  | [] => inl IndexError
  | pat :: rest =>
      if String.eqb pat EmptyString then inr [p]
      else if is_double_star pat then
        (* [_RecursiveWildcardSelector], deduplicating when another
           ["**"] follows *)
        rs <-? sum_concat_map (fun qk => match rest with
                                       | [] => inr [qk.1]
                                       | _ => select_from m rest qk.1 qk.2
                                       end)
                              ((p, k) :: walk_dirs (size m) m p k) ;;
        inr (if existsb is_double_star rest then remove_dups rs else rs)
      else if String.eqb pat ".." then
        match rest with
        | [] => inr [path_child p ".."]
        | _ => select_from m rest (path_child p "..") (removelast k)
        end
      else if str_contains "**" pat then inl ValueError
      else
        (* [_WildcardSelector]: directories only when segments follow *)
        let names := filter (fun n => (bool_decide (rest = []) || is_dir_key m (k ++ [n]))
                                      && fnmatch pat n = true) (scandir m k) in
        sum_concat_map (fun n => match rest with
                               | [] => inr [path_child p n]
                               | _ => select_from m rest (path_child p n) (k ++ [n])
                               end) names
  end.

(** [Path.glob(pattern)] from the directory [p]: nothing when [p] is not
    an existing directory. *)
Definition path_glob (m : fs) (cwd : list string) (p : path) (pattern : string)
  : exc + list path :=
  if String.eqb pattern EmptyString then inl ValueError
  else
    let q := path_of_string pattern in
    if negb (String.eqb (p_root q) EmptyString) then inl NotImplementedError
    else
      let parts := p_parts q ++ (if String.eqb (str_drop (String.length pattern - 1) pattern) "/"
                                 then [EmptyString] else []) in
      match fs_resolve m cwd p with
      | inr k => if is_dir_key m k then select_from m (collapse_stars parts) p k else inr []
      | inl _ => inr []
      end.

(** ** Patterns with a literal prefix and suffix *)

(** A character [fnmatch] reads as pattern syntax. *)
Definition glob_meta (c : ascii) : bool :=
  bool_decide (c = "*"%char) || bool_decide (c = "?"%char) || bool_decide (c = "["%char).

(** Text in which [fnmatch] sees no pattern syntax. *)
Definition glob_literal (s : string) : bool := str_forall (fun c => negb (glob_meta c)) s.

Lemma tokenize_literal f s t :
  glob_literal s = true -> String.length s <= f ->
  tokenize f (s +:+ t) = map GChar (list_ascii_of_string s) ++ tokenize (f - String.length s) t.
Proof.
  revert f. induction s as [|c s IH]; intros f Hs Hf.
  - by rewrite string_app_nil_l, Nat.sub_0_r.
  - destruct f as [|f]; [simpl in Hf; lia|]. simpl in Hs, Hf |- *.
    apply andb_true_iff in Hs as [Hc Hs]. unfold glob_meta in Hc.
    repeat (destruct (ascii_dec _ _); [subst; by vm_compute in Hc|]).
    rewrite IH by (done || lia). done.
Qed.

Lemma gmatch_chars s t x :
  gmatch (map GChar (list_ascii_of_string s) ++ t) x = true <->
  exists r, x = s +:+ r /\ gmatch t r = true.
Proof.
  revert x. induction s as [|c s IH]; intros x; simpl.
  - split; [intros H; exists x; by rewrite string_app_nil_l | intros (r & -> & H); by rewrite string_app_nil_l].
  - destruct x as [|c' x]; [split; [done|intros (r & Hr & _); by rewrite string_app_cons in Hr]|].
    rewrite andb_true_iff, bool_decide_eq_true, IH. split.
    + intros [<- (r & -> & Hr)]. exists r. by rewrite string_app_cons.
    + intros (r & Hr & Hm). rewrite string_app_cons in Hr. injection Hr as <- ->. eauto.
Qed.

Lemma gmatch_star t x :
  gmatch (GStar :: t) x = true <-> exists a b, x = a +:+ b /\ gmatch t b = true.
Proof.
  simpl. induction x as [|c x IH].
  - rewrite orb_false_r. split; [intros H; exists EmptyString, EmptyString; done|].
    intros ([|] & b & Hb & Hm); [by rewrite string_app_nil_l in Hb; subst|by rewrite string_app_cons in Hb].
  - rewrite orb_true_iff, IH. split.
    + intros [H|(a & b & -> & Hm)]; [exists EmptyString, (String c x); done|].
      exists (String c a), b. by rewrite string_app_cons.
    + intros ([|c' a] & b & Hx & Hm); rewrite ?string_app_nil_l, ?string_app_cons in Hx; subst; [by left|].
      injection Hx as <- ->. right. eauto.
Qed.

Lemma gmatch_nil x : gmatch [] x = true <-> x = EmptyString.
Proof. by destruct x. Qed.

Lemma tokenize_literal_all s :
  glob_literal s = true -> tokenize (String.length s) s = map GChar (list_ascii_of_string s).
Proof.
  intros Hs. rewrite <- (string_app_nil_r s) at 2.
  rewrite tokenize_literal by (done || lia). destruct (_ - _); simpl; by rewrite app_nil_r.
Qed.

(** [fnmatch(x, prefix + "*" + suffix)] with literal [prefix] and
    [suffix]: [x] starts with [prefix] and ends with [suffix], the two not
    overlapping. *)
Lemma fnmatch_prefix_star n sfx x :
  glob_literal n = true -> glob_literal sfx = true ->
  fnmatch (n +:+ String "*" sfx) x = true <-> exists mid, x = n +:+ mid +:+ sfx.
Proof.
  intros Hn Hs. unfold fnmatch. rewrite string_length_app, tokenize_literal by (done || lia).
  replace (_ - _) with (S (String.length sfx)) by (simpl; lia). simpl.
  rewrite tokenize_literal_all, gmatch_chars by done. setoid_rewrite gmatch_star.
  setoid_rewrite <- (app_nil_r (map GChar _)). setoid_rewrite gmatch_chars.
  setoid_rewrite gmatch_nil. split.
  - intros (r & -> & a & b & -> & c & -> & ->). exists a. by rewrite string_app_nil_r.
  - intros (mid & ->). exists (mid +:+ sfx). split; [done|]. exists mid, sfx. split; [done|].
    exists EmptyString. by rewrite string_app_nil_r.
Qed.

(** ** [Path.glob] with a one-segment pattern *)

(** A text without ["/"], other than [""] and ["."], is one segment. *)
Lemma path_of_string_segment s :
  s <> EmptyString -> s <> "." -> no_char slash s = true -> path_of_string s = mkpath EmptyString [s].
Proof.
  intros H1 H2 Hs. unfold path_of_string. rewrite split_root_relative by done.
  unfold path_segments. rewrite str_split_no_sep by done. by rewrite filter_cons_True, filter_nil.
Qed.

Lemma last_char_not_slash s :
  no_char slash s = true -> String.eqb (str_drop (String.length s - 1) s) "/" = false.
Proof.
  intros Hs. apply String.eqb_neq. intros Hd.
  pose proof (str_drop_str_forall _ (String.length s - 1) s Hs) as H. rewrite Hd in H. by vm_compute in H.
Qed.

Section OneSegment.
Context (pat : string).
Hypothesis (Hne : pat <> EmptyString) (Hdot : pat <> ".") (Hdotdot : pat <> "..").
Hypothesis (Hslash : no_char slash pat = true) (Hstars : str_contains "**" pat = false).

Lemma not_double_star : is_double_star pat = false.
Proof. apply String.eqb_neq. intros ->. by vm_compute in Hstars. Qed.

Lemma select_from_one m p k :
  select_from m [pat] p k = inr (map (path_child p) (filter (fun n => fnmatch pat n = true) (scandir m k))).
Proof.
  simpl. rewrite (proj2 (String.eqb_neq _ _) Hne), not_double_star, (proj2 (String.eqb_neq _ _) Hdotdot), Hstars.
  by rewrite sum_concat_map_single.
Qed.

(** [Path.glob] with a pattern of one segment (no ["/"], no ["**"]) from
    [p]: the entries of the directory [p] whose names match, in the
    directory's order, as children of [p]; nothing when [p] is not a
    directory. *)
Lemma path_glob_one_segment m cwd p :
  path_glob m cwd p pat =
  match fs_resolve m cwd p with
  | inr k => if is_dir_key m k
             then inr (map (path_child p) (filter (fun n => fnmatch pat n = true) (scandir m k)))
             else inr []
  | inl _ => inr []
  end.
Proof.
  unfold path_glob. rewrite (proj2 (String.eqb_neq _ _) Hne), path_of_string_segment by done. simpl.
  rewrite last_char_not_slash by done. simpl. rewrite not_double_star.
  destruct (fs_resolve m cwd p) as [|k]; [done|]. destruct (is_dir_key m k); [|done].
  apply select_from_one.
Qed.
End OneSegment.

(** ** The patterns of [sync_appimages] and [select_appimage] *)

Lemma glob_literal_star_head c s : glob_literal (String c s) = true -> c <> "*"%char /\ glob_literal s = true.
Proof.
  simpl. intros [Hc Hs]%andb_true_iff. split; [|done]. intros ->. by vm_compute in Hc.
Qed.

Lemma str_contains_literal s : glob_literal s = true -> str_contains "**" s = false.
Proof.
  induction s as [|c s IH]; [done|]. intros [Hc Hs]%glob_literal_star_head.
  cbn [str_contains String.prefix]. rewrite IH by done. by destruct (ascii_dec "*" c).
Qed.

Lemma str_contains_literal_star n sfx :
  glob_literal n = true -> glob_literal sfx = true ->
  str_contains "**" (n +:+ String "*" sfx) = false.
Proof.
  intros Hn Hs. induction n as [|c n IH].
  - rewrite string_app_nil_l. cbn [str_contains String.prefix]. rewrite str_contains_literal by done.
    destruct sfx as [|c sfx]; [done|]. apply glob_literal_star_head in Hs as [Hc _].
    cbn [String.prefix]. by destruct (ascii_dec "*" c).
  - apply glob_literal_star_head in Hn as [Hc Hn]. rewrite string_app_cons.
    cbn [str_contains String.prefix]. rewrite IH by done. by destruct (ascii_dec "*" c).
Qed.

Lemma appimage_pattern_segment n :
  no_char slash n = true ->
  let pat := n +:+ "*.AppImage" in
  pat <> EmptyString /\ pat <> "." /\ pat <> ".." /\ no_char slash pat = true.
Proof.
  intros Hn pat. assert (Hl : 10 <= String.length pat) by (unfold pat; rewrite string_length_app; simpl; lia).
  split_and!; try (intros Hp; rewrite Hp in Hl; simpl in Hl; lia).
  unfold pat. by rewrite no_char_app, Hn.
Qed.

(** [Path.glob(f"{n}*.AppImage")], the scan of [select_appimage]
    (and of [sync_appimages] for [n = ""]), with [n] free of pattern
    syntax and of ["/"]: from a directory it lists exactly the entries
    whose names start with [n] and end with [".AppImage"], in the
    directory's order, as children of the path searched; from a path that
    is not a directory it lists nothing. *)
Theorem glob_appimage_pattern m cwd p n :
  glob_literal n = true -> no_char slash n = true ->
  exists names, path_glob m cwd p (n +:+ "*.AppImage") = inr (map (path_child p) names) /\
    match fs_resolve m cwd p with
    | inr k =>
        if is_dir_key m k
        then names `sublist_of` scandir m k /\
             forall x, x ∈ names <-> x ∈ scandir m k /\ exists mid, x = n +:+ mid +:+ ".AppImage"
        else names = []
    | inl _ => names = []
    end.
Proof.
  intros Hlit Hn. destruct (appimage_pattern_segment n Hn) as (H1 & H2 & H3 & H4).
  rewrite path_glob_one_segment by (done || by apply str_contains_literal_star).
  destruct (fs_resolve m cwd p) as [|k]; [by exists []|]. destruct (is_dir_key m k); [|by exists []].
  eexists. split; [done|]. split; [apply sublist_filter|]. intros x.
  rewrite list_elem_of_filter, fnmatch_prefix_star by done. tauto.
Qed.
