(* ===== verification/Io.v ===== *)
(** * The world the script runs in, and its primitive effects

    A run of the script sees a [world]: the file system, the environment
    ([HOME], the working directory, [PATH], the umask), the lines still to
    be read from standard input, and what has been written to standard
    output.  [io A] is the state-and-exception monad of [Prelude] on the
    world with the exceptions of [PyObj]: a statement that raises keeps
    the effects made before it, as in Python.

    The primitives are [print] (the text and a newline), [input] (the
    prompt, then a line; [EOFError] at the end of input),
    [get_user_input] (lines 25-30 of [src/app.py]), [Path.home()], and
    the file-system primitives of [Fs] and [Glob] read or applied on the
    world's file system. *)

From S2P Require Import Prelude PyStr PyObj PyPath Fs Glob.

Record env : Type := mkenv {
  e_home : string;             (** [os.environ["HOME"]] *)
  e_cwd : list string;         (** the working directory, resolved *)
  e_path : option string;      (** [os.environ.get("PATH")] *)
  e_umask : Z
}.

Record world : Type := mkworld {
  w_fs : fs;
  w_env : env;
  w_stdin : list string;       (** the lines not yet read, without newlines *)
  w_stdout : list string       (** the text written, in order *)
}.

Definition with_fs (w : world) (m : fs) : world :=
  mkworld m (w_env w) (w_stdin w) (w_stdout w).
Definition with_stdin (w : world) (l : list string) : world :=
  mkworld (w_fs w) (w_env w) l (w_stdout w).
Definition write_out (w : world) (s : string) : world :=
  mkworld (w_fs w) (w_env w) (w_stdin w) (w_stdout w ++ [s]).

Definition w_cwd (w : world) : list string := e_cwd (w_env w).

Abbreviation io := (stm world exc).

(** A query of the world that may raise. *)
Definition io_query {A} (f : world -> exc + A) : io A :=
  fun w => match f w with inl e => (Raise e, w) | inr a => (Ok a, w) end.

(** An update of the file system that may raise; on an exception the file
    system is unchanged. *)
Definition io_update (f : world -> exc + fs) : io unit :=
  fun w => match f w with inl e => (Raise e, w) | inr m => (Ok tt, with_fs w m) end.

Definition io_lift {A} (r : exc + A) : io A := io_query (fun _ => r).

(** ** Standard streams *)

(** The newline character. *)
Definition nl : string := String "010" EmptyString.

(** [print(s)] *)
Definition py_print (s : string) : io unit :=
  fun w => (Ok tt, write_out w (s +:+ nl)).

(** [input(prompt)] *)
Definition py_input (prompt : string) : io string :=
  fun w =>
    let w1 := write_out w prompt in
    match w_stdin w1 with
    | [] => (Raise EOFError, w1)
    | l :: rest => (Ok l, with_stdin w1 rest)
    end.

(** [get_user_input(prompt, default)] (lines 25-30): the prompt shows the
    default when there is one; an empty answer gives the default. *)
Definition get_user_input_prompt (prompt default : string) : string :=
  if String.eqb default EmptyString then prompt +:+ ": "
  else prompt +:+ " [" +:+ default +:+ "]: ".

Definition get_user_input (prompt default : string) : io string :=
  s <- py_input (get_user_input_prompt prompt default) ;;
  ret (if String.eqb s EmptyString then default else s).

(** ** The environment *)

(** [Path.home()]: [os.path.expanduser("~")] strips the trailing slashes
    of [HOME] and gives ["/"] when nothing is left. *)
Definition expand_home (h : string) : string :=
  match rstrip_by (fun c => bool_decide (c = slash)) h with
  | EmptyString => "/"
  | s => s
  end.

Definition path_home : io path :=
  io_query (fun w => inr (path_of_string (expand_home (e_home (w_env w))))).

(** ** The file system *)

Definition path_exists (p : path) : io bool :=
  io_query (fun w => inr (fs_exists (w_fs w) (w_cwd w) p)).

Definition path_unlink (p : path) : io unit :=
  io_update (fun w => fs_unlink (w_fs w) (w_cwd w) p).

(** [p.open("w")]: truncates or creates. *)
Definition path_open_w (p : path) : io unit :=
  io_update (fun w => fs_open_w (w_fs w) (w_cwd w) (e_umask (w_env w)) p).

(** [f.write(data)] on the file [p] just opened. *)
Definition file_write (p : path) (data : string) : io unit :=
  io_update (fun w => fs_set_data (w_fs w) (w_cwd w) p data).

(** [with open(p, "w") as f: f.write(data)] *)
Definition write_text (p : path) (data : string) : io unit :=
  path_open_w p ;; file_write p data.

Definition read_text (p : path) : io string :=
  io_query (fun w => fs_read_text (w_fs w) (w_cwd w) p).

Definition path_chmod (p : path) (mode : Z) : io unit :=
  io_update (fun w => fs_chmod (w_fs w) (w_cwd w) p mode).

Definition path_mkdir_io (p : path) (parents exist_ok : bool) : io unit :=
  io_update (fun w => path_mkdir (w_fs w) (w_cwd w) p parents exist_ok).

Definition path_rename (src dst : path) : io unit :=
  io_update (fun w => os_rename (w_fs w) (w_cwd w) src dst).

Definition shutil_move_io (src dst : path) : io unit :=
  io_update (fun w => shutil_move (w_fs w) (w_cwd w) src dst).

Definition shutil_which (cmd : string) : io (option string) :=
  io_query (fun w => inr (which (w_fs w) (w_cwd w) (e_path (w_env w)) cmd)).

Definition path_glob_io (p : path) (pattern : string) : io (list path) :=
  io_query (fun w => path_glob (w_fs w) (w_cwd w) p pattern).

(** ** Running the primitives *)

Lemma io_update_run f w :
  io_update f w = match f w with inl e => (Raise e, w) | inr m => (Ok tt, with_fs w m) end.
Proof. reflexivity. Qed.

Lemma with_fs_env w m : w_env (with_fs w m) = w_env w.
Proof. reflexivity. Qed.

Lemma with_fs_fs w m : w_fs (with_fs w m) = m.
Proof. reflexivity. Qed.

Lemma with_fs_twice w m1 m2 : with_fs (with_fs w m1) m2 = with_fs w m2.
Proof. reflexivity. Qed.

#[export] Hint Rewrite with_fs_env with_fs_fs with_fs_twice io_update_run : io_rw.

(** Opening for writing and writing the data is one update of the file
    system: the write cannot fail once the open succeeded. *)
Lemma write_text_update p data w :
  write_text p data w =
  io_update (fun w => fs_write_text (w_fs w) (w_cwd w) (e_umask (w_env w)) p data) w.
Proof.
  unfold write_text, st_bind, path_open_w, file_write, w_cwd.
  rewrite !io_update_run, fs_write_text_spec. unfold fs_open_w, fs_set_data.
  destruct (fs_resolve _ _ p) as [e|k] eqn:Hr; [done|]. simpl.
  destruct (w_fs w !! k) as [[d mode|]|] eqn:Hk; [| done |]; simpl;
    rewrite io_update_run; cbn [w_fs with_fs w_env];
    (rewrite (fs_resolve_keeps_dirs (w_fs w) _ _ p k); [| apply keeps_dirs_insert_file; congruence | done]);
    simpl; by rewrite lookup_insert_eq, insert_insert_eq.
Qed.

Lemma io_query_ok {A} (f : world -> exc + A) w a w' :
  io_query f w = (Ok a, w') -> f w = inr a /\ w' = w.
Proof. unfold io_query. destruct (f w); by intros [= -> ->]. Qed.

Lemma io_lift_ok {A} (r : exc + A) w a w' :
  io_lift r w = (Ok a, w') -> r = inr a /\ w' = w.
Proof. unfold io_lift, io_query. destruct r; by intros [= -> ->]. Qed.

Lemma io_update_ok f w u w' :
  io_update f w = (Ok u, w') -> exists m, f w = inr m /\ w' = with_fs w m.
Proof. unfold io_update. destruct (f w); intros [= <- <-]; eauto. Qed.

Lemma py_print_run s w : py_print s w = (Ok tt, write_out w (s +:+ nl)).
Proof. reflexivity. Qed.

Lemma py_print_ok s w u w' : py_print s w = (Ok u, w') -> w' = write_out w (s +:+ nl).
Proof. by intros [= _ <-]. Qed.

Lemma write_out_fs w s : w_fs (write_out w s) = w_fs w.
Proof. reflexivity. Qed.

Lemma write_out_env w s : w_env (write_out w s) = w_env w.
Proof. reflexivity. Qed.

#[export] Hint Rewrite write_out_fs write_out_env : io_rw.

(** [st_inv], and the primitives' own inversions: a query leaves the world
    as it is, an update replaces the file system, a print appends. *)
Ltac io_inv_step :=
  first [ st_inv_step
        | match goal with
          | H : io_query _ _ = (Ok _, _) |- _ => apply io_query_ok in H; destruct H as [H ->]
          | H : io_lift _ _ = (Ok _, _) |- _ => apply io_lift_ok in H; destruct H as [H ->]
          | H : io_update _ _ = (Ok _, _) |- _ =>
              let m := fresh "m" in apply io_update_ok in H; destruct H as (m & H & ->)
          | H : py_print _ _ = (Ok _, _) |- _ => apply py_print_ok in H; subst
          end ].

Ltac io_inv := repeat io_inv_step.

(** ** What a program leaves unchanged

    [preserves f m]: every run of [m] ends in a world with the same [f]
    as the world it started from.  No program changes the environment
    ([keeps_env]); the queries and the streams leave the file system as
    it is ([keeps_fs]). *)

Definition preserves {T A} (f : world -> T) (m : io A) : Prop :=
  forall w o w', m w = (o, w') -> f w' = f w.

Abbreviation keeps_env := (preserves w_env).
Abbreviation keeps_fs := (preserves w_fs).

Lemma preserves_use {T A} (f : world -> T) (m : io A) w o w' :
  preserves f m -> m w = (o, w') -> f w' = f w.
Proof. intros Hm. apply Hm. Qed.

Section Preserves.
Context {T : Type} (f : world -> T).

Lemma preserves_bind {A B} (m : io A) (k : A -> io B) :
  preserves f m -> (forall a, preserves f (k a)) -> preserves f (st_bind m k).
Proof.
  intros Hm Hk w o w'. unfold st_bind. destruct (m w) as [[a|e] w1] eqn:H1.
  - intros H2. rewrite (Hk a _ _ _ H2). by apply (Hm _ _ _ H1).
  - intros [= _ <-]. by apply (Hm _ _ _ H1).
Qed.

Lemma preserves_ret {A} (a : A) : preserves f (st_ret a).
Proof. by intros w o w' [= _ <-]. Qed.

Lemma preserves_raise {A} e : preserves f (@st_raise world exc A e).
Proof. by intros w o w' [= _ <-]. Qed.

Lemma preserves_query {A} (q : world -> exc + A) : preserves f (io_query q).
Proof. intros w o w'. unfold io_query. by destruct (q w); intros [= _ <-]. Qed.

Lemma preserves_lift {A} (r : exc + A) : preserves f (io_lift r).
Proof. apply preserves_query. Qed.

Lemma preserves_foldl {A B} (g : A -> B -> io A) a l :
  (forall a x, preserves f (g a x)) -> preserves f (st_foldl g a l).
Proof.
  intros Hg. revert a. induction l as [|x l IH]; intros a0; simpl;
    [apply preserves_ret | by apply preserves_bind].
Qed.

Lemma preserves_iter {A} (g : A -> io unit) l :
  (forall x, preserves f (g x)) -> preserves f (st_iter g l).
Proof. intros Hg. induction l; simpl; [apply preserves_ret | by apply preserves_bind]. Qed.
End Preserves.

Lemma keeps_env_update u : keeps_env (io_update u).
Proof. intros w o w'. unfold io_update. by destruct (u w); intros [= _ <-]. Qed.

Lemma preserves_print_env s : keeps_env (py_print s).
Proof. by intros w o w' [= _ <-]. Qed.

Lemma preserves_print_fs s : keeps_fs (py_print s).
Proof. by intros w o w' [= _ <-]. Qed.

Lemma preserves_input_env s : keeps_env (py_input s).
Proof. intros w o w'. unfold py_input. simpl. by destruct (w_stdin w); intros [= _ <-]. Qed.

Lemma preserves_input_fs s : keeps_fs (py_input s).
Proof. intros w o w'. unfold py_input. simpl. by destruct (w_stdin w); intros [= _ <-]. Qed.

#[export] Hint Resolve preserves_bind preserves_ret preserves_raise preserves_query preserves_lift
  preserves_foldl preserves_iter keeps_env_update preserves_print_env preserves_print_fs
  preserves_input_env preserves_input_fs : appimg.

(** Prove [preserves f] of a program by its syntax. *)
Ltac preserves_solve :=
  repeat match goal with
  | |- preserves _ (st_bind _ _) => apply preserves_bind; [|intros ?]
  | |- preserves _ (if ?b then _ else _) => destruct b
  | |- preserves _ (match ?x with _ => _ end) => destruct x
  | |- preserves _ (let _ := _ in _) => cbv zeta
  | |- preserves _ _ => solve [eauto with appimg]
  | |- preserves _ ?m => progress (unfold m)
  end.

#[export] Hint Extern 2 (preserves _ _) =>
  progress unfold path_home, path_exists, path_unlink, path_open_w, file_write, write_text,
    read_text, path_chmod, path_mkdir_io, path_rename, shutil_move_io, shutil_which,
    path_glob_io : appimg.

Lemma keeps_env_get_user_input p d : keeps_env (get_user_input p d).
Proof. unfold get_user_input. preserves_solve. Qed.

Lemma keeps_fs_get_user_input p d : keeps_fs (get_user_input p d).
Proof. unfold get_user_input. preserves_solve. Qed.

#[export] Hint Resolve keeps_env_get_user_input keeps_fs_get_user_input : appimg.

(** Replace every remaining step [m s = (Ok a, s')] of a run by the
    equation of the environments it keeps. *)
Ltac env_inv :=
  repeat match goal with
  | H : ?m ?s = (?o, ?s') |- _ =>
      is_var s';
      let E := fresh "Henv" in
      assert (E : w_env s' = w_env s) by (apply (preserves_use w_env m s o s'); [preserves_solve | exact H]);
      clear H
  end.

(** Rewrite the environment of every intermediate world of a run into the
    environment of its first world [w], with the equations of [env_inv]. *)
Ltac env_norm w :=
  repeat match goal with
  | H : context [w_env ?s] |- _ =>
      assert_fails (constr_eq s w);
      match type of H with @eq env _ _ => fail 1 | _ => idtac end;
      replace (w_env s) with (w_env w) in H by congruence
  end.
