(* ===== verification/Config.v ===== *)
(** * The registry file: [load_config] and [save_config]

    [CONFIG_FILE] is [Path.home() / ".appimage_installer_config.json"]
    (line 10).  [load_config] (lines 13-17) reads and decodes it when it
    exists and returns an empty dict otherwise; [save_config] (lines
    20-22) encodes the registry with [json.dump(indent=2)] and overwrites
    the file.

    The two functions depend on JSON only through the interface
    [JsonCodec]: an encoder, a decoder, and the law that decoding an
    encoded value gives it back.  The theorems of this file are proved
    against the interface; [Json] provides the instance [json_codec]
    ([dumps], [loads], [loads_dumps]). *)

From S2P Require Import Prelude PyDict PyStr PyObj Json PyPath Fs Glob Io.

Class JsonCodec : Type := {
  jc_dumps : pyval -> string;
  jc_loads : string -> option pyval;
  jc_roundtrip : forall v, pyval_wf v -> jc_loads (jc_dumps v) = Some v;
  jc_loads_wf : forall s v, jc_loads s = Some v -> pyval_wf v
}.

#[export] Instance json_codec : JsonCodec := {|
  jc_dumps := dumps;
  jc_loads := loads;
  jc_roundtrip := loads_dumps;
  jc_loads_wf := loads_wf
|}.

Section Config.
Context `{JsonCodec}.

(** [CONFIG_FILE], computed from [HOME] at start-up. *)
Definition config_path (e : env) : path :=
  path_of_string (expand_home (e_home e)) // ".appimage_installer_config.json".

Definition config_file : io path := io_query (fun w => inr (config_path (w_env w))).

(** [load_config()] *)
Definition load_config : io pyval :=
  cf <- config_file ;;
  b <- path_exists cf ;;
  if b then
    s <- read_text cf ;;
    io_lift (match jc_loads s with Some v => inr v | None => inl JSONDecodeError end)
  else ret (PDict []).

(** [save_config(config)] *)
Definition save_config (config : pyval) : io unit :=
  cf <- config_file ;;
  write_text cf (jc_dumps config).
End Config.

(** The registry a world holds: what [load_config] returns there. *)
Definition registry `{JsonCodec} (w : world) : outcome exc pyval := fst (load_config w).

Section ConfigLaws.
Context `{JsonCodec}.

Lemma config_file_run w : config_file w = (Ok (config_path (w_env w)), w).
Proof. reflexivity. Qed.

(** [load_config] only reads. *)
Lemma load_config_run w : load_config w = (registry w, w).
Proof.
  unfold registry, load_config, st_bind, path_exists, read_text, io_lift, io_query. simpl.
  destruct (fs_exists _ _ _); simpl; [|done].
  destruct (fs_read_text _ _ _); simpl; [done|]. by destruct (jc_loads _).
Qed.

(** The registry depends on the file system and the environment only. *)
Lemma registry_same w1 w2 :
  w_fs w1 = w_fs w2 -> w_env w1 = w_env w2 -> registry w1 = registry w2.
Proof.
  destruct w1, w2; simpl. intros -> ->.
  unfold registry, load_config, st_bind, path_exists, read_text, io_lift, io_query, w_cwd. simpl.
  destruct (fs_exists _ _ _); simpl; [|done].
  destruct (fs_read_text _ _ _); simpl; [done|]. by destruct (jc_loads _).
Qed.

Lemma registry_write_out w s : registry (write_out w s) = registry w.
Proof. by apply registry_same. Qed.

Lemma registry_with_stdin w l : registry (with_stdin w l) = registry w.
Proof. by apply registry_same. Qed.

(** What [json.load] returns has unique keys in every dict. *)
Lemma registry_wf w v : registry w = Ok v -> pyval_wf v.
Proof.
  unfold registry, load_config, st_bind, path_exists, read_text, io_lift, io_query. simpl.
  destruct (fs_exists _ _ _); simpl; [|intros [= <-]; apply pyval_wf_dict; split; constructor].
  destruct (fs_read_text _ _ _); simpl; [done|].
  destruct (jc_loads _) eqn:Hl; simpl; [intros [= <-]|done]. by eapply jc_loads_wf.
Qed.

(** Without a registry file the registry is empty. *)
Lemma registry_missing w :
  fs_exists (w_fs w) (w_cwd w) (config_path (w_env w)) = false -> registry w = Ok (PDict []).
Proof. intros He. unfold registry, load_config, st_bind, path_exists, io_query. simpl. by rewrite He. Qed.

(** [load_config] raises only the errors of reading and decoding the
    file, never [SystemExit]. *)
Lemma registry_not_exit w e : registry w = Raise e -> forall z, e <> SystemExit z.
Proof.
  unfold registry, load_config, st_bind, path_exists, read_text, io_lift, io_query. simpl.
  destruct (fs_exists _ _ _); simpl; [|done].
  unfold fs_read_text. destruct (fs_resolve _ _ _) as [e'|k] eqn:Hr; simpl.
  - intros [= <-] z. apply fs_resolve_err in Hr as (s & [-> | ->]); done.
  - destruct (w_fs w !! k) as [[d ?|]|]; simpl; [destruct (jc_loads d); simpl|..]; intros [= <-]; discriminate.
Qed.

(** After [save_config(config)], the registry is [config]. *)
Lemma registry_after_save v w w' :
  pyval_wf v -> save_config v w = (Ok tt, w') -> registry w' = Ok v.
Proof.
  intros Hwf. unfold save_config. rewrite (st_bind_ok _ _ _ _ _ (config_file_run w)).
  rewrite write_text_update, io_update_run.
  destruct (fs_write_text _ _ _ _ _) as [e|m'] eqn:Hw; intros [= <-].
  destruct (fs_read_after_write _ _ _ _ _ _ Hw) as [Hr He].
  unfold registry, load_config, st_bind, path_exists, read_text, io_lift, io_query. simpl.
  unfold w_cwd in *. simpl. rewrite He. simpl. rewrite Hr. simpl. by rewrite jc_roundtrip.
Qed.

(** C5: what [save_config] wrote, [load_config] reads back, for any JSON
    codec whose decoder inverts its encoder. *)
Theorem save_load_config v w w' :
  pyval_wf v -> save_config v w = (Ok tt, w') -> load_config w' = (Ok v, w').
Proof. intros Hwf Hs. rewrite load_config_run. by rewrite (registry_after_save v w w'). Qed.
End ConfigLaws.

#[export] Hint Rewrite @registry_write_out @registry_with_stdin : io_rw.

Lemma keeps_env_load_config `{JsonCodec} : keeps_env load_config.
Proof. unfold load_config, config_file. preserves_solve. Qed.

Lemma keeps_env_save_config `{JsonCodec} c : keeps_env (save_config c).
Proof. unfold save_config, config_file. preserves_solve. Qed.

#[export] Hint Resolve keeps_env_load_config keeps_env_save_config : appimg.
