(* ===== verification/Commands.v ===== *)
(** * The sub-commands of [src/app.py]

    One definition per function of the script, each statement in order:
    [sync_appimages] (lines 33-66), [select_appimage] (69-96),
    [check_command_exists] (99-100), [get_unique_command] (103-110),
    [create_desktop_file] (113-130), [add_appimage] (133-193),
    [remove_appimage] (196-229), [list_appimages] (232-248) and
    [edit_command] (251-281).  The registry is the [pyval] that
    [load_config] returned; it is threaded through as a value, which is
    what the in-place mutations of the script amount to (no other
    reference to it, or to one of its records, is ever read).

    The two [while True] loops are written with fuel:
    - [choose_loop] (lines 89-96) reads one line per round, so the number
      of lines left on standard input, plus one, is enough fuel: with no
      line left the next round raises [EOFError];
    - [unique_loop] (lines 107-109) tries [base1], [base2], ...: every
      name it skips is an executable file of the file system, and these
      files are distinct, so the size of the file system, plus one, is
      enough fuel. *)

From S2P Require Import Prelude PyDict PyStr PyObj Json PyPath Fs Glob Io Config.

(** ** The directories, under [Path.home()] *)

Definition appimages_dir : io path := h <- path_home ;; ret (h // ".appimages").
Definition bin_dir : io path := h <- path_home ;; ret (h // ".local" // "bin").
Definition desktop_dir : io path :=
  h <- path_home ;; ret (h // ".local" // "share" // "applications").

(** The directories of an environment. *)
Definition home_path (e : env) : path := path_of_string (expand_home (e_home e)).
Definition bin_path (e : env) : path := home_path e // ".local" // "bin".
Definition desktop_path (e : env) : path := home_path e // ".local" // "share" // "applications".
Definition downloads_dir : io path := h <- path_home ;; ret (h // "Downloads").

Definition appimages_path (e : env) : path := home_path e // ".appimages".
Definition downloads_path (e : env) : path := home_path e // "Downloads".

Lemma dirs_run w :
  appimages_dir w = (Ok (appimages_path (w_env w)), w) /\
  bin_dir w = (Ok (bin_path (w_env w)), w) /\
  desktop_dir w = (Ok (desktop_path (w_env w)), w) /\
  downloads_dir w = (Ok (downloads_path (w_env w)), w).
Proof. done. Qed.

(** A registry record, with its keys in the order the script writes them. *)
Definition app_record (app_name appimage_path desktop_file launcher_path original_path : string)
  : pyval :=
  PDict [("app_name", PStr app_name); ("appimage_path", PStr appimage_path);
         ("desktop_file", PStr desktop_file); ("launcher_path", PStr launcher_path);
         ("original_path", PStr original_path)].

(** ** [sync_appimages] *)

(** [command = app_name.lower().replace(" ", "-")] *)
Definition command_of_name (app_name : string) : string := py_replace (py_lower app_name) " " "-".

(** The body of the [for] loop (lines 41-63) on one bundle. *)
Definition sync_entry (bd dd : path) (config : pyval) (appimage : path) : io pyval :=
  let app_name := path_stem appimage in
  let command := command_of_name app_name in
  let launcher_path := bd // command in
  b1 <- path_exists launcher_path ;;
  if negb b1 then ret config else
  let desktop_file := dd // (app_name +:+ ".desktop") in
  b2 <- path_exists desktop_file ;;
  if negb b2 then ret config else
  present <- io_lift (py_in command config) ;;
  if present then ret config else
  config' <- io_lift (py_setitem config command
                        (app_record app_name (path_str appimage) (path_str desktop_file)
                                    (path_str launcher_path) "Unknown")) ;;
  py_print ("Added " +:+ app_name +:+ " to config") ;;
  ret config'.

Definition sync_appimages : io unit :=
  config <- load_config ;;
  ad <- appimages_dir ;;
  bd <- bin_dir ;;
  dd <- desktop_dir ;;
  imgs <- path_glob_io ad "*.AppImage" ;;
  config' <- st_foldl (sync_entry bd dd) config imgs ;;
  save_config config' ;;
  py_print "Sync completed".

(** ** [select_appimage] *)

(** The [while True] loop of lines 89-96; fuel [0] is never reached with
    the fuel [select_appimage] gives ([choose_loop_enough_fuel]). *)
Fixpoint choose_loop (fuel : nat) (app_images : list path) : io string :=
  match fuel with
  | 0 => st_raise EOFError
  | S f =>
      s <- get_user_input "Enter the number of your choice" "" ;;
      match py_int s with
      | None => py_print "Please enter a valid number." ;; choose_loop f app_images
      | Some choice =>
          if (1 <=? choice)%Z && (choice <=? Z.of_nat (List.length app_images))%Z
          then ret (path_str (nth (Z.to_nat choice - 1) app_images (mkpath "" [])))
          else py_print "Invalid choice. Please try again." ;; choose_loop f app_images
      end
  end.

Definition stdin_fuel : io nat := fun w => (Ok (S (List.length (w_stdin w))), w).

(** [print(f"{i}. {app.name}")] for each bundle, numbered from [i]. *)
Fixpoint print_numbered (i : Z) (l : list path) : io unit :=
  match l with
  | [] => ret tt
  | app :: l' => py_print (py_str_int i +:+ ". " +:+ path_name app) ;; print_numbered (i + 1)%Z l'
  end.

Definition select_appimage (app_name : string) : io (option string) :=
  dl <- downloads_dir ;;
  app_images <- path_glob_io dl (app_name +:+ "*.AppImage") ;;
  match app_images with
  | [] =>
      py_print ("No AppImage files matching '" +:+ app_name +:+
                "*.AppImage' found in Downloads folder.") ;;
      ret None
  | [img] =>
      confirm <- get_user_input ("Is this the app you want to add? " +:+ path_name img +:+ " (Y/n)") "Y" ;;
      ret (if String.eqb (py_lower confirm) "n" then None else Some (path_str img))
  | _ =>
      py_print "Multiple AppImage files found. Please select one:" ;;
      print_numbered 1 app_images ;;
      fuel <- stdin_fuel ;;
      s <- choose_loop fuel app_images ;;
      ret (Some s)
  end.

(** ** Commands on [PATH] *)

(** [check_command_exists(command)] *)
Definition check_command_exists (command : string) : io bool :=
  r <- shutil_which command ;; ret (bool_decide (is_Some r)).

(** [f"{base_command}{counter}"] *)
Definition counter_command (base : string) (counter : nat) : string :=
  base +:+ py_str_int (Z.of_nat counter).

(** The [while] loop of lines 107-109, from [counter]. *)
Fixpoint unique_loop (fuel : nat) (base : string) (counter : nat) : io string :=
  match fuel with
  | 0 => ret (counter_command base counter)
  | S f =>
      b <- check_command_exists (counter_command base counter) ;;
      if b then unique_loop f base (S counter) else ret (counter_command base counter)
  end.

Definition fs_fuel : io nat := fun w => (Ok (S (size (w_fs w))), w).

(** [get_unique_command(base_command)] *)
Definition get_unique_command (base : string) : io string :=
  b <- check_command_exists base ;;
  if negb b then ret base
  else fuel <- fs_fuel ;; unique_loop fuel base 1.

(** ** [create_desktop_file] *)

(** The text of the desktop entry (lines 122-128). *)
Definition desktop_entry (app_name exec_path icon : string) : string :=
  "[Desktop Entry]" +:+ nl +:+ "Name=" +:+ app_name +:+ nl +:+ "Exec=" +:+ exec_path +:+ nl +:+
  "Icon=" +:+ icon +:+ nl +:+ "Type=Application" +:+ nl +:+ "Categories=Utility;" +:+ nl.

(** [icon_path or 'application-x-executable'] *)
Definition icon_or_default (icon_path : option string) : string :=
  match icon_path with
  | Some s => if String.eqb s EmptyString then "application-x-executable" else s
  | None => "application-x-executable"
  end.

Definition create_desktop_file (app_name exec_path : string) (icon_path : option string) : io unit :=
  dd <- desktop_dir ;;
  path_mkdir_io dd true true ;;
  let desktop_file := dd // (app_name +:+ ".desktop") in
  path_open_w desktop_file ;;
  file_write desktop_file (desktop_entry app_name exec_path (icon_or_default icon_path)) ;;
  py_print ("Desktop file created: " +:+ path_str desktop_file).

(** ** [add_appimage] *)

(** The launcher [add] writes (lines 175-177). *)
Definition add_launcher_text (appimage : string) : string :=
  "#!/bin/bash" +:+ nl +:+ "nohup " +:+ appimage +:+ " " +:+ String dquote "$@" +:+
  String dquote " >/dev/null 2>&1 &" +:+ nl.

(** [if not x] for an optional argument. *)
Definition opt_truthy (o : option string) : bool :=
  match o with Some s => negb (String.eqb s EmptyString) | None => false end.

(** An argument, or what the user types when it is missing. *)
Definition arg_or_ask (o : option string) (prompt : string) : io string :=
  if opt_truthy o then ret (default EmptyString o) else get_user_input prompt EmptyString.

(** [str(x)] of an optional string. *)
Definition py_str_opt (o : option string) : string := default "None" o.

(** Lines 149-157: the command finally used. *)
Definition resolve_command (app_command : string) : io string :=
  b <- check_command_exists app_command ;;
  if negb b then ret app_command
  else
    found <- shutil_which app_command ;;
    py_print ("Command '" +:+ app_command +:+ "' is already in use by " +:+ py_str_opt found) ;;
    choice <- get_user_input "Enter a new command or type 'force' to replace it" EmptyString ;;
    if String.eqb (py_lower choice) "force" then
      py_print "Warning: Replacing existing command." ;; ret app_command
    else get_unique_command choice.

Record add_args : Type := mk_add_args {
  add_app_name : option string;
  add_app_command : option string;
  add_icon : option string
}.

Definition add_appimage (args : add_args) : io unit :=
  config <- load_config ;;
  app_name <- arg_or_ask (add_app_name args) "Enter the name of the AppImage file (without extension)" ;;
  selected <- select_appimage app_name ;;
  if negb (opt_truthy selected) then
    py_print "No AppImage selected. Exiting." ;; st_raise (SystemExit 1)
  else
  let appimage_path := default EmptyString selected in
  app_command0 <- arg_or_ask (add_app_command args) "Enter the command to launch the app" ;;
  app_command <- resolve_command app_command0 ;;
  ad <- appimages_dir ;;
  path_mkdir_io ad false true ;;
  let new_appimage_path := ad // path_name (path_of_string appimage_path) in
  shutil_move_io (path_of_string appimage_path) new_appimage_path ;;
  path_chmod new_appimage_path 493 ;;
  dd <- desktop_dir ;;
  create_desktop_file app_name (path_str new_appimage_path) (add_icon args) ;;
  bd <- bin_dir ;;
  path_mkdir_io bd true true ;;
  let launcher_path := bd // app_command in
  path_open_w launcher_path ;;
  file_write launcher_path (add_launcher_text (path_str new_appimage_path)) ;;
  path_chmod launcher_path 493 ;;
  config' <- io_lift (py_setitem config app_command
                        (app_record app_name (path_str new_appimage_path)
                                    (path_str (dd // (app_name +:+ ".desktop")))
                                    (path_str launcher_path) appimage_path)) ;;
  save_config config' ;;
  py_print "AppImage installed successfully!" ;;
  py_print ("You can now launch " +:+ app_name +:+ " by running '" +:+ app_command +:+
            "' or from your applications menu.").

(** ** [remove_appimage] *)

(** [Path(app_info[key])] *)
Definition record_path (app_info : pyval) (key : string) : io path :=
  io_lift (x <-? py_getitem app_info key ;; s <-? py_as_str x ;; inr (path_of_string s)).

(** [if p.exists(): p.unlink(); print(...)] *)
Definition unlink_if_exists (p : path) (msg : string) : io unit :=
  b <- path_exists p ;;
  if b then path_unlink p ;; py_print (msg +:+ path_str p) else ret tt.

Definition remove_appimage (app_command : string) (delete : bool) : io unit :=
  config <- load_config ;;
  present <- io_lift (py_in app_command config) ;;
  if negb present then
    py_print ("No AppImage installation found for command '" +:+ app_command +:+ "'")
  else
  app_info <- io_lift (py_getitem config app_command) ;;
  desktop_file <- record_path app_info "desktop_file" ;;
  unlink_if_exists desktop_file "Removed desktop file: " ;;
  launcher_path <- record_path app_info "launcher_path" ;;
  unlink_if_exists launcher_path "Removed launcher: " ;;
  appimage_path <- record_path app_info "appimage_path" ;;
  b <- path_exists appimage_path ;;
  (if b then
     if delete then
       path_unlink appimage_path ;;
       py_print ("Deleted AppImage: " +:+ path_str appimage_path)
     else
       dl <- downloads_dir ;;
       shutil_move_io (path_of_string (path_str appimage_path)) dl ;;
       py_print ("Moved AppImage back to: " +:+ path_str (dl // path_name appimage_path))
   else ret tt) ;;
  config' <- io_lift (py_delitem config app_command) ;;
  save_config config' ;;
  py_print ("Successfully removed AppImage installation for '" +:+ app_command +:+ "'").

(** ** [list_appimages] *)

Definition list_appimages (verbose : bool) : io unit :=
  config <- load_config ;;
  if negb (py_truthy config) then py_print "No AppImage installations found"
  else if verbose then
    items <- io_lift (py_items config) ;;
    st_iter (fun kv => py_print (kv.1 +:+ ": " +:+ py_str kv.2)) items
  else
    items <- io_lift (py_items config) ;;
    st_iter (fun kv => n <- io_lift (py_getitem kv.2 "app_name") ;;
                       py_print (kv.1 +:+ ": " +:+ py_str n)) items ;;
    py_print "List of all installed AppImages".

(** ** [edit_command] *)

(** The launcher [edit] writes (lines 267-269): the indentation of the
    source is part of the text. *)
Definition edit_launcher_text (appimage : string) : string :=
  "#!/bin/bash" +:+ nl +:+ spaces 16 +:+ "exec " +:+ appimage +:+ " " +:+ String dquote "$@" +:+
  String dquote nl +:+ spaces 12.

Definition edit_command (old_command new_command : string) : io unit :=
  config <- load_config ;;
  present <- io_lift (py_in old_command config) ;;
  if negb present then
    py_print ("No AppImage installation found for command '" +:+ old_command +:+ "'")
  else
  app_info <- io_lift (py_getitem config old_command) ;;
  old_launcher_path <- record_path app_info "launcher_path" ;;
  let new_launcher_path := path_parent old_launcher_path // new_command in
  path_rename old_launcher_path new_launcher_path ;;
  path_open_w new_launcher_path ;;
  appimage <- io_lift (py_getitem app_info "appimage_path") ;;
  file_write new_launcher_path (edit_launcher_text (py_str appimage)) ;;
  path_chmod new_launcher_path 493 ;;
  config1 <- io_lift (py_setitem config new_command app_info) ;;
  info <- io_lift (py_getitem config1 new_command) ;;
  info' <- io_lift (py_setitem info "launcher_path" (PStr (path_str new_launcher_path))) ;;
  config2 <- io_lift (py_setitem config1 new_command info') ;;
  config3 <- io_lift (py_delitem config2 old_command) ;;
  save_config config3 ;;
  py_print ("Successfully renamed command from '" +:+ old_command +:+ "' to '" +:+
            new_command +:+ "'").

(** ** No sub-command changes the environment *)

#[export] Hint Extern 2 (preserves _ _) =>
  progress unfold appimages_dir, bin_dir, desktop_dir, downloads_dir,
    check_command_exists, record_path : appimg.

Lemma keeps_env_stdin_fuel : keeps_env stdin_fuel.
Proof. by intros ??? [= _ <-]. Qed.
Lemma keeps_env_fs_fuel : keeps_env fs_fuel.
Proof. by intros ??? [= _ <-]. Qed.
#[export] Hint Resolve keeps_env_stdin_fuel keeps_env_fs_fuel : appimg.

Lemma keeps_env_sync_entry bd dd c x : keeps_env (sync_entry bd dd c x).
Proof. unfold sync_entry. preserves_solve. Qed.
#[export] Hint Resolve keeps_env_sync_entry : appimg.

Lemma keeps_env_choose_loop f l : keeps_env (choose_loop f l).
Proof. revert l. induction f; intros l; simpl; preserves_solve. Qed.

Lemma keeps_env_print_numbered i l : keeps_env (print_numbered i l).
Proof. revert i. induction l; intros i; simpl; preserves_solve. Qed.

Lemma keeps_env_unique_loop f b c : keeps_env (unique_loop f b c).
Proof. revert c. induction f; intros c; simpl; preserves_solve. Qed.
#[export] Hint Resolve keeps_env_choose_loop keeps_env_print_numbered keeps_env_unique_loop : appimg.

Lemma keeps_env_get_unique_command b : keeps_env (get_unique_command b).
Proof. unfold get_unique_command. preserves_solve. Qed.
#[export] Hint Resolve keeps_env_get_unique_command : appimg.

Lemma keeps_env_arg_or_ask o p : keeps_env (arg_or_ask o p).
Proof. unfold arg_or_ask. preserves_solve. Qed.

Lemma keeps_env_unlink_if_exists p m : keeps_env (unlink_if_exists p m).
Proof. unfold unlink_if_exists. preserves_solve. Qed.
#[export] Hint Resolve keeps_env_arg_or_ask keeps_env_unlink_if_exists : appimg.

Lemma keeps_env_select_appimage n : keeps_env (select_appimage n).
Proof. unfold select_appimage. preserves_solve. Qed.

Lemma keeps_env_resolve_command c : keeps_env (resolve_command c).
Proof. unfold resolve_command. preserves_solve. Qed.

Lemma keeps_env_create_desktop_file n e i : keeps_env (create_desktop_file n e i).
Proof. unfold create_desktop_file. preserves_solve. Qed.
#[export] Hint Resolve keeps_env_select_appimage keeps_env_resolve_command
  keeps_env_create_desktop_file : appimg.

(** Every sub-command leaves [HOME], the working directory, [PATH] and the
    umask as they were. *)
Lemma keeps_env_commands :
  keeps_env sync_appimages /\
  (forall a, keeps_env (add_appimage a)) /\
  (forall c d, keeps_env (remove_appimage c d)) /\
  (forall v, keeps_env (list_appimages v)) /\
  (forall o n, keeps_env (edit_command o n)).
Proof.
  split_and!; intros;
    unfold sync_appimages, add_appimage, remove_appimage, list_appimages, edit_command;
    preserves_solve.
Qed.

(** ** Runs that change no file *)

(** C25: [list] changes no file, whatever its outcome (an exception
    included). *)
Theorem list_appimages_read_only verbose : keeps_fs (list_appimages verbose).
Proof. unfold list_appimages, load_config, config_file. preserves_solve. Qed.

(** C26: [rm c] of a command that is not registered only prints a message:
    the file system and the registry are unchanged. *)
Theorem remove_appimage_missing c del w v :
  registry w = Ok v -> py_in c v = inr false ->
  remove_appimage c del w =
  (Ok tt, write_out w ("No AppImage installation found for command '" +:+ c +:+ "'" +:+ nl)).
Proof.
  intros Hreg Hin. unfold remove_appimage.
  unfold st_bind at 1. rewrite load_config_run, Hreg.
  unfold st_bind, io_lift, io_query. rewrite Hin. simpl. by rewrite !string_app_assoc.
Qed.
