(* ===== verification/Main.v ===== *)
(** * [main]: dispatch on the parsed command line, and the exit status

    [cli] is what [parser.parse_args()] returns for the five
    sub-commands (lines 284-322), and [main] dispatches on it (lines
    324-333); [Argv] models [parse_args] itself and proves that the
    command line of a [cli] parses back to it.  The exit status of the process is
    [0] when [main] returns, the code of a [SystemExit], and [1] for any
    other exception (the interpreter prints the traceback). *)

From S2P Require Import Prelude PyDict PyStr PyObj Json PyPath Fs Glob Io Config Commands.

Inductive cli : Type :=
  | CliAdd (app_name app_command icon : option string)
  | CliRm (app_command : string) (delete : bool)
  | CliEdit (old_command new_command : string)
  | CliSync
  | CliList (verbose : bool).

Definition main (args : cli) : io unit :=
  match args with
  | CliAdd n c i => add_appimage (mk_add_args n c i)
  | CliRm c d => remove_appimage c d
  | CliEdit o n => edit_command o n
  | CliSync => sync_appimages
  | CliList v => list_appimages v
  end.

Definition exit_status (o : outcome exc unit) : Z :=
  match o with
  | Ok _ => 0
  | Raise (SystemExit n) => n
  | Raise _ => 1
  end.

(** A run of the script: the exit status and the final world. *)
Definition run (args : cli) (w : world) : Z * world :=
  let '(o, w') := main args w in (exit_status o, w').

(** [select_appimage] with no match prints why and selects nothing. *)
Lemma select_appimage_none n w :
  path_glob (w_fs w) (w_cwd w) (downloads_path (w_env w)) (n +:+ "*.AppImage") = inr [] ->
  select_appimage n w = (Ok None, write_out w (("No AppImage files matching '" +:+ n +:+
                          "*.AppImage' found in Downloads folder.") +:+ nl)).
Proof.
  intros Hg. unfold select_appimage. rewrite (st_bind_ok _ _ _ _ _ (proj2 (proj2 (proj2 (dirs_run w))))).
  unfold st_bind, path_glob_io, io_query. by rewrite Hg.
Qed.

Lemma arg_or_ask_given n p w : n <> EmptyString -> arg_or_ask (Some n) p w = (Ok n, w).
Proof. intros Hn%String.eqb_neq. unfold arg_or_ask, opt_truthy. simpl. by rewrite Hn. Qed.

(** [select_appimage] with exactly one match, answered [n] or [N],
    selects nothing. *)
Lemma select_appimage_declined n img l rest w :
  path_glob (w_fs w) (w_cwd w) (downloads_path (w_env w)) (n +:+ "*.AppImage") = inr [img] ->
  w_stdin w = l :: rest -> String.eqb (py_lower l) "n" = true ->
  exists w', select_appimage n w = (Ok None, w') /\ w_fs w' = w_fs w.
Proof.
  intros Hg Hi Hl. unfold select_appimage. rewrite (st_bind_ok _ _ _ _ _ (proj2 (proj2 (proj2 (dirs_run w))))).
  unfold st_bind, path_glob_io, io_query. rewrite Hg.
  unfold get_user_input, py_input, st_bind. cbn [w_stdin write_out]. rewrite Hi.
  destruct (String.eqb l EmptyString) eqn:He; [by apply String.eqb_eq in He as ->|].
  unfold st_ret. rewrite Hl. by eexists.
Qed.

(** When [select_appimage] selects nothing, [add] prints why and exits
    with status 1 (lines 137-139); an unreadable registry ends it before. *)
Lemma add_select_none n c i w w' :
  n <> EmptyString -> select_appimage n w = (Ok None, w') -> w_fs w' = w_fs w ->
  (run (CliAdd (Some n) c i) w).1 = 1%Z /\ w_fs (run (CliAdd (Some n) c i) w).2 = w_fs w.
Proof.
  intros Hn Hs Hf. unfold run, main, add_appimage. destruct (registry w) as [v|e] eqn:Hr.
  - rewrite (st_bind_ok _ _ _ _ _ (eq_trans (load_config_run w) (f_equal (fun o => (o, w)) Hr))).
    rewrite (st_bind_ok _ _ _ _ _ (arg_or_ask_given n _ w Hn)). simpl.
    by rewrite (st_bind_ok _ _ _ _ _ Hs).
  - rewrite (st_bind_exc _ _ _ _ _ (eq_trans (load_config_run w) (f_equal (fun o => (o, w)) Hr))).
    destruct e; try done. by edestruct (registry_not_exit w _ Hr).
Qed.

(** C19: [add NAME] exits with status 1 and leaves every file as it
    was when nothing is selected (lines 132-139): [Downloads] holds no
    [NAME*.AppImage], or it holds exactly one and the answer to [Is this
    the app you want to add?] is [n] or [N].  Nothing is moved, written
    or registered. *)
Theorem add_nothing_selected_exits n c i w :
  n <> EmptyString ->
  (path_glob (w_fs w) (w_cwd w) (downloads_path (w_env w)) (n +:+ "*.AppImage") = inr [] \/
   exists img l rest, path_glob (w_fs w) (w_cwd w) (downloads_path (w_env w)) (n +:+ "*.AppImage") = inr [img] /\
     w_stdin w = l :: rest /\ String.eqb (py_lower l) "n" = true) ->
  (run (CliAdd (Some n) c i) w).1 = 1%Z /\ w_fs (run (CliAdd (Some n) c i) w).2 = w_fs w.
Proof.
  intros Hn [Hg|(img & l & rest & Hg & Hi & Hl)].
  - exact (add_select_none n c i w _ Hn (select_appimage_none n w Hg) eq_refl).
  - destruct (select_appimage_declined n img l rest w Hg Hi Hl) as (w' & Hs & Hf).
    exact (add_select_none n c i w w' Hn Hs Hf).
Qed.
