(* ===== verification/Argv.v ===== *)
(** * [argparse]: the command line the script accepts

    Lines 285-321 build an [ArgumentParser] with a required sub-command
    ([dest="command"]) and five sub-parsers; line 322 parses [sys.argv[1:]]
    with it.  This file models that parser as the data the [add_argument]
    calls give ([top_actions], [sub_parsers]), and the algorithm of
    CPython 3.12's [argparse] that [parse_args] runs on it:
    [_parse_optional] and [_get_option_tuples] classify each argument,
    [_match_arguments_partial] matches the positionals against the
    pattern of classes, and [_parse_known_args] alternates
    [consume_positionals] and [consume_optional].  The release modelled is
    3.12 before the fix of bpo-15112 (3.12.7), as Ubuntu 24.04 ships it
    (3.12.3).  A usage error is [SystemExit 2] and [--help] is
    [SystemExit 0]; the texts printed with them are not modelled.

    [main_ns] is lines 324-333 on the namespace [parse_args] returns,
    and [script] is the whole process: parse, then dispatch.

    The theorems: the command line of a [cli] parses back to it
    ([script_refines_main]); every namespace names a sub-command
    ([parse_args_command], by the invariant sections [ParseInv] and
    [ParseResult]); an unknown sub-command exits with status 2
    ([unknown_command_exits]); [-h] first exits with status 0 whatever
    follows ([help_exits]); the parse loop ends within its fuel
    ([consume_loop_enough]); [match_groups] is [re.match] on the nargs
    patterns ([match_groups_re], against the backtracking matcher
    [re_groups]); and an option between [add]'s positionals is an error
    in this release ([add_option_between_positionals]). *)

From S2P Require Import Prelude PyDict PyStr PyObj Json PyPath Fs Glob Io Config Commands Main.

(** ** The parser as the code builds it *)

(** The kinds of argument the script declares: the automatic [-h], an
    option storing its argument, a [store_true] flag, a positional with
    [nargs=None] or [nargs="?"], and the sub-parsers action with its
    [required] flag. *)
Inductive kind : Type :=
  | KHelp
  | KStore
  | KStoreTrue
  | KPos (optional : bool)
  | KParser (required : bool).

Record action : Type := mkaction {
  a_dest : string;
  a_opts : list string;
  a_kind : kind
}.

Definition help_action : action := mkaction "help" ["-h"; "--help"] KHelp.

(** Lines 289-294. *)
Definition add_actions : list action :=
  [help_action; mkaction "app_name" [] (KPos true); mkaction "app_command" [] (KPos true);
   mkaction "icon" ["-i"; "--icon"] KStore].

(** Lines 297-304. *)
Definition rm_actions : list action :=
  [help_action; mkaction "app_command" [] (KPos false); mkaction "delete" ["-d"; "--delete"] KStoreTrue].

(** Lines 307-311. *)
Definition edit_actions : list action :=
  [help_action; mkaction "old_command" [] (KPos false); mkaction "new_command" [] (KPos false)].

(** Lines 314-320. *)
Definition sync_actions : list action := [help_action].

Definition list_actions : list action :=
  [help_action; mkaction "verbose" ["-v"; "--verbose"] KStoreTrue].

Definition sub_parsers : list (string * list action) :=
  [("add", add_actions); ("rm", rm_actions); ("edit", edit_actions);
   ("sync", sync_actions); ("list", list_actions)].

(** Lines 285-286. *)
Definition command_action : action := mkaction "command" [] (KParser true).

Definition top_actions : list action := [help_action; command_action].

(** [parser._option_string_actions], in insertion order. *)
Definition option_string_actions (acts : list action) : list (string * action) :=
  List.concat (map (fun a => map (fun o => (o, a)) (a_opts a)) acts).

Fixpoint lookup_option (m : list (string * action)) (o : string) : option action :=
  match m with
  | [] => None
  | (o', a) :: m' => if String.eqb o' o then Some a else lookup_option m' o
  end.

(** ** Strings *)

(** [s.split('=', 1)] when [s] holds a ['=']. *)
Fixpoint split_eq (s : string) : option (string * string) :=
  match s with
  | EmptyString => None
  | String c s' =>
      if Ascii.eqb c "=" then Some (EmptyString, s')
      else option_map (fun p => (String c p.1, p.2)) (split_eq s')
  end.

Fixpoint str_contains (c : ascii) (s : string) : bool :=
  match s with EmptyString => false | String c' s' => Ascii.eqb c' c || str_contains c s' end.

(** The end of a match of [$]: the end of the string or a final newline. *)
Definition at_end (s : string) : bool :=
  match s with EmptyString => true | String c EmptyString => Ascii.eqb c "010" | _ => false end.

(** [\d*$] *)
Fixpoint digits_end (s : string) : bool :=
  at_end s || match s with String c s' => py_isdigit c && digits_end s' | _ => false end.

(** [\d+$] *)
Definition digits1_end (s : string) : bool :=
  match s with String c s' => py_isdigit c && digits_end s' | _ => false end.

(** [\d*\.\d+$] *)
Fixpoint digits_dot_end (s : string) : bool :=
  match s with
  | String c s' => (Ascii.eqb c "." && digits1_end s') || (py_isdigit c && digits_dot_end s')
  | EmptyString => false
  end.

(** [_negative_number_matcher = re.compile(r'^-\d+$|^-\d*\.\d+$')] *)
Definition negative_number (s : string) : bool :=
  match s with String c s' => Ascii.eqb c "-" && (digits1_end s' || digits_dot_end s') | _ => false end.

(** ** Classifying the arguments *)

(** What [_parse_optional] returns for an option: [(None, arg, None)]
    for an option the parser does not know, or the action, the option
    string and the explicit argument. *)
Inductive option_tuple : Type :=
  | OptUnknown (arg : string)
  | OptFound (a : action) (option_string : string) (explicit_arg : option string).

(** [_get_option_tuples]: the abbreviations of a long option, split at
    ['='], and a short option with its argument attached. *)
Definition get_option_tuples (m : list (string * action)) (s : string) : list option_tuple :=
  match s with
  | String c0 (String c1 rest) =>
      if negb (Ascii.eqb c0 "-") then [] else
      if Ascii.eqb c1 "-" then
        let '(option_prefix, explicit_arg) :=
          match split_eq s with Some p => (p.1, Some p.2) | None => (s, None) end in
        omap (fun p => if String.prefix option_prefix p.1 then Some (OptFound p.2 p.1 explicit_arg) else None) m
      else
        let short_option_prefix := String c0 (String c1 EmptyString) in
        omap (fun p => if String.eqb p.1 short_option_prefix then Some (OptFound p.2 p.1 (Some rest))
                       else if String.prefix s p.1 then Some (OptFound p.2 p.1 None) else None) m
  | _ => []
  end.

Definition has_negative_number_optionals (m : list (string * action)) : bool :=
  existsb (fun p => negative_number p.1) m.

(** [_parse_optional]: [inr None] for a positional, [inr (Some t)] for an
    option, and the usage error of an ambiguous abbreviation. *)
Definition parse_optional (m : list (string * action)) (s : string) : exc + option option_tuple :=
  match s with
  | EmptyString => inr None
  | String c rest =>
      if negb (Ascii.eqb c "-") then inr None else
      match lookup_option m s with
      | Some a => inr (Some (OptFound a s None))
      | None =>
          if String.eqb rest EmptyString then inr None else
          match match split_eq s with
                | Some p => option_map (fun a => OptFound a p.1 (Some p.2)) (lookup_option m p.1)
                | None => None
                end with
          | Some t => inr (Some t)
          | None =>
              match get_option_tuples m s with
              | [t] => inr (Some t)
              | _ :: _ :: _ => inl (SystemExit 2)
              | [] =>
                  if negative_number s && negb (has_negative_number_optionals m) then inr None
                  else if str_contains " " s then inr None
                  else inr (Some (OptUnknown s))
              end
          end
      end
  end.

(** The classes of [arg_strings_pattern]: ['A'], ['-'] for the first
    ['--'], and ['O'] with what [_parse_optional] found. *)
Inductive arg_class : Type :=
  | ArgPos
  | ArgSep
  | ArgOpt (t : option_tuple).

(** [arg_string == '--'] *)
Definition is_sep (s : string) : bool := String.eqb s "--".

Fixpoint classify_args (m : list (string * action)) (args : list string) : exc + list arg_class :=
  match args with
  | [] => inr []
  | s :: rest =>
      if is_sep s then inr (ArgSep :: map (fun _ => ArgPos) rest)
      else t <-? parse_optional m s ;;
           cls <-? classify_args m rest ;;
           inr (match t with Some t => ArgOpt t | None => ArgPos end :: cls)
  end.

Inductive pat : Type := PA | PO | PD.

Definition pat_of (c : arg_class) : pat :=
  match c with ArgPos => PA | ArgSep => PD | ArgOpt _ => PO end.

(** ** [_match_arguments_partial] *)

(** The patterns [_get_nargs_pattern] gives a positional:
    [-*A-*], [-*A?-*] and [-*A[-AO]*], each one group. *)
Inductive nargs_pattern : Type := NOne | NOptional | NParser.

Definition nargs_of (a : action) : nargs_pattern :=
  match a_kind a with KPos true => NOptional | KParser _ => NParser | _ => NOne end.

Fixpoint lead_dashes (p : list pat) : nat :=
  match p with PD :: p' => S (lead_dashes p') | _ => 0 end.

(** The lengths a group can match at the head of [p], in the order the
    backtracking of [re.match] tries them: greedy quantifiers first take
    all they can. *)
Definition group_candidates (g : nargs_pattern) (p : list pat) : list nat :=
  let a := lead_dashes p in
  let has_a := match nth_error p a with Some PA => true | _ => false end in
  let with_a := if has_a then map (fun k => S a + k) (rev (seq 0 (S (lead_dashes (drop (S a) p))))) else [] in
  match g with
  | NOne => with_a
  | NOptional => with_a ++ rev (seq 0 (S a))
  | NParser => if has_a then rev (seq (S a) (List.length p - a)) else []
  end.

(** [re.match] of the concatenated groups: the group lengths of the
    first match. *)
Fixpoint match_groups (gs : list nargs_pattern) (p : list pat) : option (list nat) :=
  match gs with
  | [] => Some []
  | g :: gs' => find_first (fun n => option_map (cons n) (match_groups gs' (drop n p))) (group_candidates g p)
  end.

Definition match_arguments_partial (gs : list nargs_pattern) (p : list pat) : list nat :=
  default [] (find_first (fun i => match_groups (take i gs) p) (rev (seq 1 (List.length gs)))).

(** ** The namespace and the state of one parse *)

(** The values [argparse] stores: [None], a string, a flag, and the list
    [_get_values] builds when the strings of an argument are not one
    string once the first ['--'] is removed. *)
Inductive nsval : Type :=
  | VNone
  | VStr (s : string)
  | VBool (b : bool)
  | VList (l : list string).

Definition namespace : Type := dict string nsval.

Definition ns_get (ns : namespace) (k : string) : nsval := default VNone (dict_get ns k).

(** The locals of [_parse_known_args]: the namespace, [extras], the
    positionals not yet consumed, and the dests of [seen_actions]. *)
Record pstate : Type := mkpstate {
  ps_ns : namespace;
  ps_extras : list string;
  ps_positionals : list action;
  ps_seen : list string
}.

Definition set_attr (k : string) (v : nsval) (st : pstate) : pstate :=
  mkpstate (dict_setitem (ps_ns st) k v) (ps_extras st) (ps_positionals st) (ps_seen st).

Definition add_extras (l : list string) (st : pstate) : pstate :=
  mkpstate (ps_ns st) (ps_extras st ++ l) (ps_positionals st) (ps_seen st).

Definition set_positionals (l : list action) (st : pstate) : pstate :=
  mkpstate (ps_ns st) (ps_extras st) l (ps_seen st).

Definition mark_seen (a : action) (st : pstate) : pstate :=
  mkpstate (ps_ns st) (ps_extras st) (ps_positionals st) (a_dest a :: ps_seen st).

(** [for key, value in vars(subnamespace).items(): setattr(namespace, key, value)] *)
Definition set_attrs (sub : namespace) (st : pstate) : pstate :=
  mkpstate (fold_left (fun ns kv => dict_setitem ns kv.1 kv.2) sub (ps_ns st))
           (ps_extras st) (ps_positionals st) (ps_seen st).

(** [arg_strings.remove('--')], ignoring the [ValueError]. *)
Fixpoint remove_sep (l : list string) : list string :=
  match l with
  | [] => []
  | x :: l' => if is_sep x then l' else x :: remove_sep l'
  end.

(** [_get_values] for a positional or an option with one argument. *)
Definition get_values (a : action) (args : list string) : nsval :=
  match a_kind a, remove_sep args with
  | KPos true, [] => VNone
  | _, [x] => VStr x
  | _, l => VList l
  end.

Section Parse.
(** The parse of one parser: the sub-parser a [KParser] action runs,
    the option strings, the classes and the arguments. *)
Context (sub_parse : string -> list string -> exc + (namespace * list string)).
Context (m : list (string * action)) (cls : list arg_class) (strs : list string).

(** [take_action]: the action is seen, then called; [-h] prints the
    help and exits with 0; the sub-parsers action checks the choice,
    parses the rest with the sub-parser and copies its namespace. *)
Definition take_action (a : action) (args : list string) (st : pstate) : exc + pstate :=
  let st := mark_seen a st in
  match a_kind a with
  | KHelp => inl (SystemExit 0)
  | KStoreTrue => inr (set_attr (a_dest a) (VBool true) st)
  | KParser _ =>
      match args with
      | parser_name :: rest =>
          r <-? sub_parse parser_name rest ;;
          inr (add_extras r.2 (set_attrs r.1 (set_attr (a_dest a) (VStr parser_name) st)))
      | [] => inl (SystemExit 2)
      end
  | _ => inr (set_attr (a_dest a) (get_values a args) st)
  end.

Fixpoint take_all (l : list (action * list string)) (st : pstate) : exc + pstate :=
  match l with
  | [] => inr st
  | (a, args) :: l' => st' <-? take_action a args st ;; take_all l' st'
  end.

Definition takes_one (a : action) : bool := match a_kind a with KStore => true | _ => false end.

(** [consume_optional] with no explicit argument: an option storing a
    value takes the next argument, which must be an ['A']. *)
Definition no_explicit (i : nat) (a : action) (acc : list (action * list string))
    : exc + (list (action * list string) * nat) :=
  if takes_one a then
    match drop (S i) (map pat_of cls), drop (S i) strs with
    | PA :: _, s :: _ => inr (acc ++ [(a, [s])], S (S i))
    | _, _ => inl (SystemExit 2)
    end
  else inr (acc ++ [(a, [])], S i).

(** [consume_optional] with an explicit argument: an option storing a
    value takes it; a flag given as [-xyz] is [-x] followed by [-yz]. *)
Fixpoint explicit_tuples (i : nat) (a : action) (option_string e : string)
    (acc : list (action * list string)) {struct e} : exc + (list (action * list string) * nat) :=
  if takes_one a then inr (acc ++ [(a, [e])], S i)
  else
    match option_string, e with
    | String c0 (String c1 _), String e0 e' =>
        if negb (Ascii.eqb c1 "-") then
          let option_string' := String c0 (String e0 EmptyString) in
          match lookup_option m option_string' with
          | Some a' =>
              match e' with
              | EmptyString => no_explicit i a' (acc ++ [(a, [])])
              | _ => explicit_tuples i a' option_string' e' (acc ++ [(a, [])])
              end
          | None => inl (SystemExit 2)
          end
        else inl (SystemExit 2)
    | _, _ => inl (SystemExit 2)
    end.

Definition consume_optional (i : nat) (st : pstate) : exc + (nat * pstate) :=
  match nth_error cls i with
  | Some (ArgOpt (OptUnknown s)) => inr (S i, add_extras [s] st)
  | Some (ArgOpt (OptFound a o e)) =>
      r <-? match e with Some e => explicit_tuples i a o e [] | None => no_explicit i a [] end ;;
      st' <-? take_all r.1 st ;;
      inr (r.2, st')
  | _ => inl (SystemExit 2)
  end.

Fixpoint take_positionals (acts : list action) (counts : list nat) (i : nat) (st : pstate)
    : exc + (nat * pstate) :=
  match acts, counts with
  | a :: acts', n :: counts' =>
      st' <-? take_action a (take n (drop i strs)) st ;; take_positionals acts' counts' (i + n) st'
  | _, _ => inr (i, st)
  end.

(** [consume_positionals]: match as many positionals as possible. *)
Definition consume_positionals (i : nat) (st : pstate) : exc + (nat * pstate) :=
  let counts := match_arguments_partial (map nargs_of (ps_positionals st)) (drop i (map pat_of cls)) in
  r <-? take_positionals (ps_positionals st) counts i st ;;
  inr (r.1, set_positionals (drop (List.length counts) (ps_positionals st)) r.2).

Fixpoint first_option (l : list arg_class) : option nat :=
  match l with
  | [] => None
  | ArgOpt _ :: _ => Some 0
  | _ :: l' => option_map S (first_option l')
  end.

(** The first option index at or after [i]: the loop runs while there
    is one ([start_index <= max_option_string_index]). *)
Definition next_option (i : nat) : option nat := option_map (Nat.add i) (first_option (drop i cls)).

(** The [while] loop of [_parse_known_args]; [fuel] bounds its rounds. *)
Fixpoint consume_loop (fuel : nat) (i : nat) (st : pstate) : exc + (nat * pstate) :=
  match fuel with
  | O => inr (i, st)
  | S fuel =>
      match next_option i with
      | None => inr (i, st)
      | Some nx =>
          if Nat.eqb i nx then r <-? consume_optional nx st ;; consume_loop fuel r.1 r.2
          else
            r <-? consume_positionals i st ;;
            if i <? r.1 then consume_loop fuel r.1 r.2
            else r' <-? consume_optional nx (add_extras (take (nx - r.1) (drop r.1 strs)) r.2) ;;
                 consume_loop fuel r'.1 r'.2
      end
  end.
End Parse.

Definition is_positional (a : action) : bool := match a_opts a with [] => true | _ => false end.

Definition required (a : action) : bool :=
  match a_kind a with KPos false => true | KParser r => r | _ => false end.

(** The defaults set before parsing; [-h] has [dest=SUPPRESS]. *)
Definition defaults (acts : list action) : namespace :=
  fold_left (fun ns a => match a_kind a with
                         | KHelp => ns
                         | KStoreTrue => dict_setitem ns (a_dest a) (VBool false)
                         | _ => dict_setitem ns (a_dest a) VNone
                         end) acts [].

(** [_parse_known_args] once the arguments are classified. *)
Definition parse_classified (sub_parse : string -> list string -> exc + (namespace * list string))
    (acts : list action) (args : list string) (cls : list arg_class) : exc + (namespace * list string) :=
  let m := option_string_actions acts in
  let st0 := mkpstate (defaults acts) [] (List.filter is_positional acts) [] in
  r <-? consume_loop sub_parse m cls args (S (List.length args)) 0 st0 ;;
  r' <-? consume_positionals sub_parse cls args r.1 r.2 ;;
  let st := add_extras (drop r'.1 args) r'.2 in
  if existsb (fun a => required a && negb (existsb (String.eqb (a_dest a)) (ps_seen st))) acts
  then inl (SystemExit 2)
  else inr (ps_ns st, ps_extras st).

(** [parse_known_args]: the namespace and the extras. *)
Definition parse_known_args (sub_parse : string -> list string -> exc + (namespace * list string))
    (acts : list action) (args : list string) : exc + (namespace * list string) :=
  cls <-? classify_args (option_string_actions acts) args ;;
  parse_classified sub_parse acts args cls.

(** The sub-parsers action: an unknown name is an [invalid choice]. *)
Definition parse_sub (parser_name : string) (rest : list string) : exc + (namespace * list string) :=
  match dict_get sub_parsers parser_name with
  | Some acts => parse_known_args (fun _ _ => inl (SystemExit 2)) acts rest
  | None => inl (SystemExit 2)
  end.

(** Line 322: [parser.parse_args()], an error when extras remain. *)
Definition parse_args (argv : list string) : exc + namespace :=
  r <-? parse_known_args parse_sub top_actions argv ;;
  match r.2 with [] => inr r.1 | _ => inl (SystemExit 2) end.

(** ** Lines 324-333: the dispatch on the namespace *)

(** [args.app_name], [args.app_command] and [args.icon] of [add]: [None]
    or a string, or the empty list [--icon=--] gives, which the code
    treats as [None]: it is falsy for [if not args.app_name] and
    [icon_path or 'application-x-executable']. *)
Definition opt_arg (v : nsval) : option string := match v with VStr s => Some s | _ => None end.

(** [if args.delete] and [if args.verbose]. *)
Definition flag_arg (v : nsval) : bool := match v with VBool b => b | _ => false end.

(** [args.command == name] *)
Definition is_command (v : nsval) (name : string) : bool :=
  match v with VStr s => String.eqb s name | _ => false end.

(** Lines 252-262 when [args.new_command] is the list [edit x -- --]
    gives: [old_launcher_path.parent / []] raises [TypeError] before the
    rename. *)
Definition edit_command_list (old_command : string) : io unit :=
  config <- load_config ;;
  present <- io_lift (py_in old_command config) ;;
  if negb present then
    py_print ("No AppImage installation found for command '" +:+ old_command +:+ "'")
  else
  app_info <- io_lift (py_getitem config old_command) ;;
  _ <- record_path app_info "launcher_path" ;;
  st_raise TypeError.

Definition main_ns (ns : namespace) : io unit :=
  let command := ns_get ns "command" in
  if is_command command "add" then
    add_appimage (mk_add_args (opt_arg (ns_get ns "app_name")) (opt_arg (ns_get ns "app_command"))
                              (opt_arg (ns_get ns "icon")))
  else if is_command command "rm" then
    match ns_get ns "app_command" with
    | VStr c => remove_appimage c (flag_arg (ns_get ns "delete"))
    | _ => _ <- load_config ;; st_raise TypeError
    end
  else if is_command command "edit" then
    match ns_get ns "old_command", ns_get ns "new_command" with
    | VStr o, VStr n => edit_command o n
    | VStr o, _ => edit_command_list o
    | _, _ => _ <- load_config ;; st_raise TypeError
    end
  else if is_command command "sync" then sync_appimages
  else if is_command command "list" then list_appimages (flag_arg (ns_get ns "verbose"))
  else ret tt.

(** The process: [main()] from the command line [sys.argv[1:]]. *)
Definition script (argv : list string) : io unit :=
  ns <- io_lift (parse_args argv) ;; main_ns ns.

Definition run_argv (argv : list string) (w : world) : Z * world :=
  let '(o, w') := script argv w in (exit_status o, w').

(** ** The command line of a [cli] *)

Definition opt_list (o : option string) : list string := match o with Some s => [s] | None => [] end.

(** An argument [argparse] reads as a positional whatever the parser:
    it does not start with ['-']. *)
Definition arg_plain (s : string) : bool :=
  match s with String c _ => negb (Ascii.eqb c "-") | EmptyString => true end.

(** The command line that asks for [c]. *)
Definition argv_of (c : cli) : list string :=
  match c with
  | CliAdd n cmd i => "add" :: opt_list n ++ opt_list cmd ++ match i with Some p => ["-i"; p] | None => [] end
  | CliRm cmd d => "rm" :: cmd :: (if d then ["-d"] else [])
  | CliEdit o n => ["edit"; o; n]
  | CliSync => ["sync"]
  | CliList v => "list" :: (if v then ["-v"] else [])
  end.

(** The [cli]s a command line can ask for, with arguments that read as
    positionals: [add] takes its command only after a name. *)
Definition cli_plain (c : cli) : bool :=
  match c with
  | CliAdd n cmd i => forallb arg_plain (opt_list n ++ opt_list cmd ++ opt_list i) &&
                      match n, cmd with None, Some _ => false | _, _ => true end
  | CliRm cmd _ => arg_plain cmd
  | CliEdit o n => arg_plain o && arg_plain n
  | CliSync | CliList _ => true
  end.

(** ** The command line of a [cli] is parsed back to it *)

Lemma plain_not_sep s : arg_plain s = true -> is_sep s = false.
Proof. destruct s as [|c s]; [done|]. unfold is_sep. simpl. by destruct (c =? "-")%char. Qed.

Lemma parse_optional_plain m s : arg_plain s = true -> parse_optional m s = inr None.
Proof. destruct s as [|c s]; [done|]. simpl. by intros ->. Qed.

Lemma classify_args_cons_known m s rest t :
  is_sep s = false -> parse_optional m s = inr t ->
  classify_args m (s :: rest) =
    (cls <-? classify_args m rest ;; inr (match t with Some t => ArgOpt t | None => ArgPos end :: cls)).
Proof. intros Hs Ht. simpl. by rewrite Hs, Ht. Qed.

Lemma classify_args_cons_plain m s rest :
  arg_plain s = true -> classify_args m (s :: rest) = (cls <-? classify_args m rest ;; inr (ArgPos :: cls)).
Proof. intros H. exact (classify_args_cons_known m s rest None (plain_not_sep s H) (parse_optional_plain m s H)). Qed.

(** ** The top parser hands the rest to the sub-parser *)

(** The top parser knows only [-h] and [--help]: no argument is an
    ambiguous abbreviation there. *)
Lemma get_option_tuples_top s : List.length (get_option_tuples (option_string_actions top_actions) s) <= 1.
Proof.
  destruct s as [|c0 [|c1 t]]; [simpl; lia|simpl; lia|].
  unfold get_option_tuples, option_string_actions, top_actions, help_action.
  destruct (Ascii.eqb_spec c0 "-") as [->|]; [|simpl; lia]. cbn -[String.eqb String.prefix].
  destruct (Ascii.eqb c1 "-") eqn:E1.
  - apply Ascii.eqb_eq in E1 as ->. cbn -[String.eqb String.prefix].
    assert (Hh : forall x, String.prefix (String "-" (String "-" x)) "-h" = false) by reflexivity.
    destruct (split_eq t) as [[a b]|]; cbn -[String.eqb String.prefix]; rewrite Hh;
      destruct (String.prefix _ _); simpl; lia.
  - assert (H2 : String.eqb "--help" (String "-" (String c1 "")) = false).
    { apply String.eqb_neq. intros Heq. apply (f_equal String.length) in Heq. simpl in Heq. lia. }
    assert (H3 : String.prefix (String "-" (String c1 t)) "--help" = false).
    { simpl. destruct (ascii_dec c1 "-") as [->|]; [done|]. destruct (ascii_dec "-" "-"); [|done].
      done. }
    rewrite H2, H3. case_match; simpl; lia.
Qed.

Lemma parse_optional_top s : exists t, parse_optional (option_string_actions top_actions) s = inr t.
Proof.
  pose proof (get_option_tuples_top s) as Hl. unfold parse_optional.
  repeat case_match; simplify_eq/=; eauto; lia.
Qed.

Lemma classify_top args :
  exists cls, classify_args (option_string_actions top_actions) args = inr cls /\ List.length cls = List.length args.
Proof.
  induction args as [|s rest IH]; [by exists []|]. simpl. destruct (is_sep s).
  - eexists; split; [reflexivity|]. simpl. by rewrite length_map.
  - destruct (parse_optional_top s) as [t ->], IH as [cls [-> Hl]]. simpl.
    eexists; split; [reflexivity|]. simpl. lia.
Qed.

Lemma rev_seq_S a n : rev (seq a (S n)) = a + n :: rev (seq a n).
Proof. by rewrite seq_S, rev_app_distr. Qed.

(** The sub-parsers pattern [-*A[-AO]*] takes every argument from the
    first ['A'] on. *)
Lemma match_parser p : match_arguments_partial [NParser] (PA :: p) = [S (List.length p)].
Proof.
  unfold match_arguments_partial. simpl. unfold group_candidates. simpl.
  destruct (List.length p) as [|n]; [reflexivity|]. rewrite rev_seq_S. reflexivity.
Qed.

Lemma consume_top name rest cls st :
  ps_positionals st = [command_action] -> List.length cls = List.length rest ->
  consume_positionals parse_sub (ArgPos :: cls) (name :: rest) 0 st =
    (r <-? take_action parse_sub command_action (name :: rest) st ;; inr (S (List.length rest), set_positionals [] r)).
Proof.
  intros Hp Hl. unfold consume_positionals. rewrite Hp.
  change (map nargs_of [command_action]) with [NParser].
  change (drop 0 (map pat_of (ArgPos :: cls))) with (PA :: map pat_of cls).
  rewrite match_parser, length_map, Hl. simpl.
  rewrite firstn_all2 by (simpl; lia).
  destruct (take_action _ _ _ _); reflexivity.
Qed.

Lemma consume_loop_done sub m cls strs fuel i st :
  next_option cls i = None -> consume_loop sub m cls strs fuel i st = inr (i, st).
Proof. intros H. destruct fuel; simpl; [done|]. by rewrite H. Qed.

Lemma consume_positionals_none sub cls strs i st :
  ps_positionals st = [] -> consume_positionals sub cls strs i st = inr (i, st).
Proof. destruct st as [ns ex ps seen]. simpl. intros ->. reflexivity. Qed.

Lemma parse_args_cons name rest :
  arg_plain name = true ->
  parse_args (name :: rest) =
    (r <-? parse_sub name rest ;;
     match r.2 with
     | [] => inr (fold_left (fun ns kv => dict_setitem ns kv.1 kv.2) r.1 [("command", VStr name)])
     | _ => inl (SystemExit 2)
     end).
Proof.
  intros Hn. destruct (classify_top rest) as [cls [Hc Hl]].
  unfold parse_args, parse_known_args.
  rewrite (classify_args_cons_plain _ name rest Hn), Hc, !sum_bind_inr.
  unfold parse_classified.
  change (defaults top_actions) with [("command", VNone)].
  change (List.filter is_positional top_actions) with [command_action].
  assert (Hnext : next_option (ArgPos :: cls) (S (List.length rest)) = None).
  { unfold next_option. simpl. rewrite drop_ge by lia. reflexivity. }
  cbn [consume_loop]. unfold next_option at 1. simpl drop. cbn [first_option].
  destruct (first_option cls) as [k|]; cbn [option_map Nat.add Nat.eqb]; rewrite ?sum_bind_inr; cbn [fst snd];
    rewrite consume_top by (done || lia); unfold take_action; cbn [a_kind command_action];
    destruct (parse_sub name rest) as [e|[ns ex]]; try reflexivity; rewrite !sum_bind_inr; cbn [fst snd].
  1: rewrite consume_loop_done by exact Hnext; cbn [Nat.ltb Nat.leb]; rewrite sum_bind_inr.
  all: cbn [fst snd]; try (rewrite consume_positionals_none by reflexivity; rewrite sum_bind_inr; cbn [fst snd]).
  all: rewrite drop_ge by (simpl; lia); simpl; rewrite app_nil_r; by destruct ex.
Qed.
(** Classify the head of an argument list: a variable by its
    hypothesis [arg_plain s = true], a literal by computation. *)
Ltac classify_step :=
  match goal with
  | |- context [classify_args ?m (?s :: ?rest)] =>
      first [ is_var s; rewrite (classify_args_cons_plain m s rest) by assumption
            | rewrite (classify_args_cons_known m s rest _ eq_refl eq_refl) ]
  | |- context [classify_args ?m []] => change (classify_args m []) with (@inr exc (list arg_class) [])
  end.

Lemma parse_known_args_eq sub acts args :
  parse_known_args sub acts args =
    (cls <-? classify_args (option_string_actions acts) args ;; parse_classified sub acts args cls).
Proof. reflexivity. Qed.

Lemma parse_sub_eq name rest :
  parse_sub name rest =
    match dict_get sub_parsers name with
    | Some acts => parse_known_args (fun _ _ => inl (SystemExit 2)) acts rest
    | None => inl (SystemExit 2)
    end.
Proof. reflexivity. Qed.

(** Evaluate a parse whose arguments are literals or plain variables.
    The parser is entered only where it is applied to arguments, and the
    classification is rewritten first, so the evaluation never branches
    on a variable. *)
Ltac argv_cbv := cbv -[parse_known_args parse_sub is_sep parse_optional classify_args].

Ltac argv_eval :=
  repeat progress (
    argv_cbv;
    repeat match goal with |- context [parse_sub ?a ?b] => rewrite (parse_sub_eq a b); argv_cbv end;
    repeat match goal with |- context [parse_known_args ?f ?a ?b] => rewrite (parse_known_args_eq f a b) end;
    repeat classify_step;
    repeat match goal with |- context [is_sep ?s] => is_var s; rewrite (plain_not_sep s) by assumption end).

(** The command line of a [cli] parses to a namespace on which [main]
    does what it does on the [cli]. *)
Lemma parse_argv_of c :
  cli_plain c = true -> exists ns, parse_args (argv_of c) = inr ns /\ main_ns ns = main c.
Proof.
  intros Hc. destruct c as [n cmd i|cmd d|o n| |v]; simpl in Hc;
    [destruct n as [n|], cmd as [cmd|], i as [p|]; simpl in Hc| destruct d | | | destruct v];
    repeat match goal with H : _ && _ = true |- _ => apply andb_true_iff in H as [? H] end;
    try discriminate;
    (eexists; split; [cbn [argv_of opt_list app]; rewrite parse_args_cons by done; argv_eval; reflexivity | reflexivity]).
Qed.

(** A usage error or [--help] ends the process before [main] runs. *)
Lemma script_parse_exit argv c w : parse_args argv = inl (SystemExit c) -> run_argv argv w = (c, w).
Proof. intros Hp. unfold run_argv, script, st_bind, io_lift, io_query. by rewrite Hp. Qed.

(** C11: for every [cli] whose arguments read as positionals (they do not
    start with ['-']), the process run on the command line that asks for
    it ([add NAME COMMAND -i ICON], [rm COMMAND -d], ...) is [main] on
    that [cli]: [argparse] as lines 285-322 configure it parses the line
    back to the same arguments, with the same outcome and the same world. *)
Theorem script_refines_main c w : cli_plain c = true -> script (argv_of c) w = main c w.
Proof.
  intros Hc. destruct (parse_argv_of c Hc) as (ns & Hp & Hm).
  unfold script, st_bind, io_lift, io_query. rewrite Hp. by rewrite Hm.
Qed.

(** C13: a first argument that reads as a positional but is none of the
    five sub-commands is an [invalid choice]: the process exits with
    status 2 and the world is unchanged, whatever follows it. *)
Theorem unknown_command_exits name rest w :
  arg_plain name = true -> name ∉ dict_keys sub_parsers -> run_argv (name :: rest) w = (2%Z, w).
Proof.
  intros Hn Hk. apply script_parse_exit. rewrite parse_args_cons, parse_sub_eq by done.
  by rewrite (proj2 (dict_get_None_keys _ _) Hk).
Qed.

(** C27: [-h] or [--help] as the first argument, or an abbreviation
    [--h], [--he], [--hel] of [--help], ends the process with status 0
    whatever follows it, before the configuration is read or any file is
    touched: the top parser classifies every argument, then consumes its
    options from the left, and the help action exits at once (it prints
    the help text, which the model does not render). *)
Theorem help_exits s rest w :
  In s ["-h"; "--h"; "--he"; "--hel"; "--help"] ->
  (run_argv (s :: rest) w).1 = 0%Z /\ w_fs (run_argv (s :: rest) w).2 = w_fs w /\
  w_stdin (run_argv (s :: rest) w).2 = w_stdin w.
Proof.
  intros Hs. enough (Hp : parse_args (s :: rest) = inl (SystemExit 0)) by (by rewrite (script_parse_exit _ _ w Hp)).
  destruct (classify_top rest) as [cls [Hc _]].
  assert (Ht : exists o, is_sep s = false /\
            parse_optional (option_string_actions top_actions) s = inr (Some (OptFound help_action o None))).
  { repeat destruct Hs as [<-|Hs]; [..|done]; eexists; split; reflexivity. }
  destruct Ht as [o [Hsep Ht]].
  unfold parse_args, parse_known_args.
  rewrite (classify_args_cons_known _ s rest _ Hsep Ht), Hc, !sum_bind_inr.
  reflexivity.
Qed.

(** ** The parse keeps an invariant of its state *)

Lemma in_omap {A B} (f : A -> option B) l y : In y (omap f l) -> exists x, In x l /\ f x = Some y.
Proof.
  induction l as [|x l IH]; simpl; [done|]. destruct (f x) eqn:E; simpl.
  - intros [->|H]; [eauto|]. destruct (IH H) as (x' & ? & ?). eauto.
  - intros H. destruct (IH H) as (x' & ? & ?). eauto.
Qed.

Lemma lookup_option_in m o a : lookup_option m o = Some a -> exists o', In (o', a) m.
Proof.
  induction m as [|[o' a'] m IH]; simpl; [done|].
  destruct (String.eqb o' o); [intros [= ->]; eauto|]. intros H. destruct (IH H). eauto.
Qed.

(** What an option class names is an action of the parser. *)
Definition class_ok (m : list (string * action)) (c : arg_class) : Prop :=
  match c with ArgOpt (OptFound a _ _) => exists o, In (o, a) m | _ => True end.

Lemma get_option_tuples_ok m s t : In t (get_option_tuples m s) -> class_ok m (ArgOpt t).
Proof.
  unfold get_option_tuples. destruct s as [|c0 [|c1 rest]]; [done|done|].
  destruct (negb _); [done|]. destruct (Ascii.eqb c1 "-").
  - destruct (split_eq (String c0 (String c1 rest))) as [[p1 p2]|]; simpl;
    intros (x & Hx & Hf)%in_omap; (destruct (String.prefix _ _); [|done]); injection Hf as <-; destruct x; simpl; eauto.
  - intros (x & Hx & Hf)%in_omap. destruct x as [o a]; simpl in Hf.
    destruct (String.eqb _ _); [injection Hf as <-; simpl; eauto|].
    destruct (String.prefix _ _); [injection Hf as <-; simpl; eauto|done].
Qed.

Lemma parse_optional_ok m s t : parse_optional m s = inr (Some t) -> class_ok m (ArgOpt t).
Proof.
  unfold parse_optional. destruct s as [|c rest]; [done|].
  destruct (negb _); [done|]. destruct (lookup_option m _) as [a|] eqn:Hl.
  { intros [= <-]. simpl. by apply lookup_option_in in Hl. }
  destruct (String.eqb rest _); [done|].
  destruct (split_eq _) as [[o e]|] eqn:Hs; cbv beta iota delta [fst snd option_map].
  - destruct (lookup_option m o) as [a|] eqn:Hl'; cbv beta iota.
    { intros [= <-]. simpl. by apply lookup_option_in in Hl'. }
    destruct (get_option_tuples m (String c rest)) as [|t1 [|t2 l]] eqn:Ht; try done.
    + repeat case_match; intros ?; simplify_eq; done.
    + intros [= <-]. apply get_option_tuples_ok with (s := String c rest). rewrite Ht. by left.
  - destruct (get_option_tuples m (String c rest)) as [|t1 [|t2 l]] eqn:Ht; try done.
    + repeat case_match; intros ?; simplify_eq; done.
    + intros [= <-]. apply get_option_tuples_ok with (s := String c rest). rewrite Ht. by left.
Qed.

Lemma classify_args_ok m args cls : classify_args m args = inr cls -> forall c, In c cls -> class_ok m c.
Proof.
  revert cls. induction args as [|s rest IH]; simpl; intros cls.
  { intros [= <-]. done. }
  destruct (is_sep s).
  { intros [= <-] c [<-|(? & <- & _)%in_map_iff]; done. }
  destruct (parse_optional m s) as [|t] eqn:Hp; [done|]. simpl.
  destruct (classify_args m rest) as [|cls'] eqn:Hr; [done|]. simpl. intros [= <-] c [<-|Hc].
  - destruct t as [t|]; [|done]. by apply (parse_optional_ok m s).
  - exact (IH cls' eq_refl c Hc).
Qed.

Lemma take_action_positionals sub a args st st' :
  take_action sub a args st = inr st' -> ps_positionals st' = ps_positionals st.
Proof.
  unfold take_action. repeat case_match; intros ?; simplify_eq; try reflexivity.
  destruct (sub _ _); simplify_eq/=. reflexivity.
Qed.

Lemma in_drop {A} n (l : list A) x : In x (drop n l) -> In x l.
Proof. intros H. rewrite <- (take_drop n l), in_app_iff. by right. Qed.

Lemma in_snoc {A} (l : list A) x y : In y (l ++ [x]) -> In y l \/ y = x.
Proof. rewrite in_app_iff. simpl. intuition. Qed.

Section ParseInv.
(** An invariant of the parse state that every action the parser may
    take keeps, and that [extras] and the positionals do not affect. *)
Context (sub_parse : string -> list string -> exc + (namespace * list string)).
Context (m : list (string * action)) (cls : list arg_class) (strs : list string).
Context (Act : action -> Prop) (Inv : pstate -> Prop).
Hypothesis Hm : forall o a, In (o, a) m -> Act a.
Hypothesis Hcls : forall c, In c cls -> class_ok m c.
Hypothesis Htake : forall a args st st', Act a -> Inv st -> take_action sub_parse a args st = inr st' -> Inv st'.
Hypothesis Hextras : forall l st, Inv st -> Inv (add_extras l st).
Hypothesis Hsetpos : forall l st, Inv st -> Inv (set_positionals l st).

Definition inv_state (st : pstate) : Prop := Inv st /\ forall a, In a (ps_positionals st) -> Act a.

Lemma take_action_inv a args st st' :
  Act a -> inv_state st -> take_action sub_parse a args st = inr st' -> inv_state st'.
Proof.
  intros Ha [Hi Hp] Ht. split; [by eapply Htake|]. rewrite (take_action_positionals _ _ _ _ _ Ht). exact Hp.
Qed.

Lemma take_all_inv l st st' :
  (forall x, In x l -> Act x.1) -> inv_state st -> take_all sub_parse l st = inr st' -> inv_state st'.
Proof.
  revert st. induction l as [|[a args] l IH]; simpl; intros st Hl Hst; [by intros [= <-]|].
  destruct (take_action _ _ _ _) as [|st1] eqn:E; [done|]. simpl. apply IH; [eauto|].
  eapply take_action_inv; [apply (Hl (a, args)); by left|exact Hst|exact E].
Qed.

Lemma no_explicit_acts i a acc r :
  Act a -> (forall x, In x acc -> Act x.1) -> no_explicit cls strs i a acc = inr r -> forall x, In x r.1 -> Act x.1.
Proof.
  intros Ha Hacc. unfold no_explicit. repeat case_match; intros ?; simplify_eq; simpl;
    intros x [Hx| ->]%in_snoc; auto.
Qed.

Lemma explicit_tuples_acts i a o e acc r :
  Act a -> (forall x, In x acc -> Act x.1) -> explicit_tuples m cls strs i a o e acc = inr r ->
  forall x, In x r.1 -> Act x.1.
Proof.
  revert a o acc. induction e as [|e0 e' IH]; intros a o acc Ha Hacc; simpl.
  { destruct (takes_one a); [|by destruct o as [|? [|]]]. intros [= <-] x [Hx| ->]%in_snoc; auto. }
  destruct (takes_one a). { intros [= <-] x [Hx| ->]%in_snoc; auto. }
  destruct o as [|c0 [|c1 o']]; try done. destruct (negb _); [|done].
  destruct (lookup_option m _) as [a'|] eqn:Hl; [|done].
  apply lookup_option_in in Hl as [o'' Hl]. apply Hm in Hl.
  assert (Hacc' : forall x, In x (acc ++ [(a, [])]) -> Act x.1) by (intros x [Hx| ->]%in_snoc; auto).
  destruct e' as [|e1 e'']; [apply no_explicit_acts|apply IH]; auto.
Qed.

Lemma consume_optional_inv i st r :
  inv_state st -> consume_optional sub_parse m cls strs i st = inr r -> inv_state r.2.
Proof.
  unfold consume_optional. destruct (nth_error cls i) as [[| |[s|a o e]]|] eqn:Hn; try done.
  - intros Hst [= <-]. split; [apply Hextras, Hst|apply Hst].
  - intros Hst. assert (Ha : Act a).
    { destruct (Hcls _ (nth_error_In _ _ Hn)) as [o' Ho]. eauto. }
    destruct (match e with Some e => _ | None => _ end) as [|[l k]] eqn:He; [done|]. simpl.
    destruct (take_all _ _ _) as [|st'] eqn:Ht; [done|]. intros [= <-]. simpl.
    eapply take_all_inv; [|exact Hst|exact Ht].
    destruct e as [s|]; intros x Hx.
    + refine (explicit_tuples_acts i a o s [] (l, k) Ha _ He x Hx). done.
    + refine (no_explicit_acts i a [] (l, k) Ha _ He x Hx). done.
Qed.

Lemma take_positionals_inv acts counts i st r :
  (forall a, In a acts -> Act a) -> inv_state st ->
  take_positionals sub_parse strs acts counts i st = inr r -> inv_state r.2.
Proof.
  revert counts i st. induction acts as [|a acts IH]; intros [|n counts] i st Hacts Hst; simpl;
    try (intros [= <-]; exact Hst).
  destruct (take_action _ _ _ _) as [|st1] eqn:E; [done|]. simpl.
  apply IH; [auto with datatypes|]. eapply take_action_inv; [apply Hacts; by left|exact Hst|exact E].
Qed.

Lemma consume_positionals_inv i st r :
  inv_state st -> consume_positionals sub_parse cls strs i st = inr r -> inv_state r.2.
Proof.
  intros Hst. unfold consume_positionals.
  destruct (take_positionals _ _ _ _ _ _) as [|r1] eqn:E; [done|]. intros [= <-]. simpl.
  pose proof (take_positionals_inv _ _ _ _ _ (proj2 Hst) Hst E) as [Hi Hp].
  split; [by apply Hsetpos|]. simpl. intros a Ha%in_drop. apply Hst, Ha.
Qed.

Lemma consume_loop_inv fuel i st r :
  inv_state st -> consume_loop sub_parse m cls strs fuel i st = inr r -> inv_state r.2.
Proof.
  revert i st. induction fuel as [|fuel IH]; intros i st Hst; simpl; [by intros [= <-]|].
  destruct (next_option cls i) as [nx|]; [|by intros [= <-]].
  destruct (Nat.eqb i nx).
  - destruct (consume_optional _ _ _ _ _ _) as [|r1] eqn:E; [done|]. simpl.
    apply IH. exact (consume_optional_inv _ _ _ Hst E).
  - destruct (consume_positionals _ _ _ _ _) as [|r1] eqn:E; [done|]. simpl.
    pose proof (consume_positionals_inv _ _ _ Hst E) as Hr1.
    destruct (i <? r1.1); [by apply IH|].
    destruct (consume_optional _ _ _ _ _ _) as [|r2] eqn:E2; [done|]. simpl. apply IH.
    refine (consume_optional_inv _ _ _ _ E2). split; [apply Hextras, Hr1|apply Hr1].
Qed.
End ParseInv.

Lemma option_string_actions_in acts o a : In (o, a) (option_string_actions acts) -> In a acts.
Proof.
  unfold option_string_actions. intros (l & Hl & Ho)%in_concat.
  apply in_map_iff in Hl as (a' & <- & Ha'). apply in_map_iff in Ho as (o' & [= _ <-] & _). exact Ha'.
Qed.

Section ParseResult.
(** What holds of the state at the end of a parse, when every action of
    the parser keeps an invariant that the initial state has. *)
Context (sub_parse : string -> list string -> exc + (namespace * list string)).
Context (acts : list action) (args : list string) (cls : list arg_class) (Inv : pstate -> Prop).
Hypothesis Hcls : forall c, In c cls -> class_ok (option_string_actions acts) c.
Hypothesis Htake : forall a args st st', In a acts -> Inv st -> take_action sub_parse a args st = inr st' -> Inv st'.
Hypothesis Hextras : forall l st, Inv st -> Inv (add_extras l st).
Hypothesis Hsetpos : forall l st, Inv st -> Inv (set_positionals l st).
Hypothesis Hinit : Inv (mkpstate (defaults acts) [] (List.filter is_positional acts) []).

Lemma parse_classified_inv ns ex :
  parse_classified sub_parse acts args cls = inr (ns, ex) ->
  exists st, Inv st /\ ns = ps_ns st /\ ex = ps_extras st /\
             forall a, In a acts -> required a = true -> In (a_dest a) (ps_seen st).
Proof.
  assert (Hm : forall o a, In (o, a) (option_string_actions acts) -> In a acts) by apply option_string_actions_in.
  assert (H0 : inv_state (fun a => In a acts) Inv (mkpstate (defaults acts) [] (List.filter is_positional acts) [])).
  { split; [exact Hinit|]. simpl. intros a (? & _)%filter_In. done. }
  unfold parse_classified.
  destruct (consume_loop _ _ _ _ _ _ _) as [|r] eqn:E1; [done|]. simpl.
  pose proof (consume_loop_inv _ _ _ _ _ _ Hm Hcls Htake Hextras Hsetpos _ _ _ _ H0 E1) as Hr.
  destruct (consume_positionals _ _ _ _ _) as [|r'] eqn:E2; [done|]. simpl.
  pose proof (consume_positionals_inv _ _ _ _ _ Htake Hsetpos _ _ _ Hr E2) as [Hr' _].
  destruct (existsb _ acts) eqn:Hreq; [done|]. intros [= <- <-].
  eexists; split; [by apply Hextras|]. split; [done|]. split; [done|].
  intros a Ha Hra. destruct (existsb (String.eqb (a_dest a)) (ps_seen (add_extras (drop r'.1 args) r'.2))) eqn:Hs.
  - apply existsb_exists in Hs as (x & Hx & ->%String.eqb_eq). exact Hx.
  - exfalso. assert (existsb (fun a => required a && negb (existsb (String.eqb (a_dest a))
                       (ps_seen (add_extras (drop r'.1 args) r'.2)))) acts = true) as Ht.
    { apply existsb_exists. exists a. by rewrite Hra, Hs. }
    simpl in Ht, Hreq. congruence.
Qed.
End ParseResult.

(** ** Every namespace [parse_args] returns names a sub-command *)

Definition keys_in (acts : list action) (st : pstate) : Prop :=
  forall k, dict_get (ps_ns st) k <> None -> In k (map a_dest acts).

Lemma defaults_keys acts k : dict_get (defaults acts) k <> None -> In k (map a_dest acts).
Proof.
  unfold defaults. cut (forall ns, dict_get (fold_left (fun ns a => match a_kind a with
          | KHelp => ns | KStoreTrue => dict_setitem ns (a_dest a) (VBool false)
          | _ => dict_setitem ns (a_dest a) VNone end) acts ns) k <> None ->
          dict_get ns k <> None \/ In k (map a_dest acts)).
  { intros H Hk. destruct (H [] Hk) as [[]|]; done. }
  induction acts as [|a acts IH]; simpl; [auto|]. intros ns [Hk|Hk]%IH; [|auto].
  destruct (a_kind a); try (left; exact Hk); rewrite dict_get_setitem in Hk;
    case_decide; subst; auto.
Qed.

Lemma take_action_keys acts a args st st' :
  In a acts -> keys_in acts st -> take_action (fun _ _ => inl (SystemExit 2)) a args st = inr st' -> keys_in acts st'.
Proof.
  intros Ha Hk. unfold take_action. destruct (a_kind a); [by intros ?| | | |by destruct args];
    (intros [= <-] k; simpl; rewrite dict_get_setitem; case_decide; subst; [intros _; by apply in_map|apply Hk]).
Qed.

(** A sub-parser sets only the dests of its own actions. *)
Lemma parse_sub_keys name rest sns ex :
  parse_sub name rest = inr (sns, ex) ->
  exists acts, dict_get sub_parsers name = Some acts /\ forall k, dict_get sns k <> None -> In k (map a_dest acts).
Proof.
  rewrite parse_sub_eq. destruct (dict_get sub_parsers name) as [acts|]; [|done].
  unfold parse_known_args. destruct (classify_args _ rest) as [|cls] eqn:Hc; [done|]. simpl. intros Hp.
  exists acts. split; [done|].
  destruct (parse_classified_inv _ acts rest cls (keys_in acts) (classify_args_ok _ _ _ Hc)
              (take_action_keys acts) (fun _ _ H => H) (fun _ _ H => H) (defaults_keys acts) _ _ Hp)
    as (st & Hst & -> & _). exact Hst.
Qed.

Lemma sub_parsers_no_command name acts : dict_get sub_parsers name = Some acts -> ~ In "command" (map a_dest acts).
Proof. unfold sub_parsers. simpl. repeat case_decide; intros [= <-]; simpl; intuition discriminate. Qed.

Lemma fold_setitem_get (l : namespace) ns k :
  dict_get l k = None -> dict_get (fold_left (fun ns kv => dict_setitem ns kv.1 kv.2) l ns) k = dict_get ns k.
Proof.
  revert ns. induction l as [|[k' v] l IH]; simpl; [done|]. intros ns H.
  case_decide; [done|]. rewrite IH by done. by rewrite dict_get_setitem_ne.
Qed.

Definition command_ok (st : pstate) : Prop :=
  In "command" (ps_seen st) ->
  exists name acts, dict_get sub_parsers name = Some acts /\ dict_get (ps_ns st) "command" = Some (VStr name).

Lemma take_action_command a args st st' :
  In a top_actions -> command_ok st -> take_action parse_sub a args st = inr st' -> command_ok st'.
Proof.
  intros [<-|[<-|[]]] Hst; [done|]. unfold take_action. simpl.
  destruct args as [|name rest]; [done|].
  destruct (parse_sub name rest) as [|[sns ex]] eqn:Hp; [done|]. intros [= <-] _. simpl.
  destruct (parse_sub_keys _ _ _ _ Hp) as (acts & Hacts & Hk).
  exists name, acts. split; [done|]. rewrite fold_setitem_get.
  - apply dict_get_setitem_eq.
  - destruct (dict_get sns "command") eqn:E; [|done]. exfalso.
    apply (sub_parsers_no_command _ _ Hacts), Hk. by rewrite E.
Qed.

(** C12: whatever the command line, a namespace [parse_args] returns has
    [command] set to one of the five sub-commands: [required=True] (line
    286) makes [main]'s [if/elif] chain (lines 324-333) always dispatch. *)
Theorem parse_args_command argv ns :
  parse_args argv = inr ns -> exists name acts, dict_get sub_parsers name = Some acts /\ ns_get ns "command" = VStr name.
Proof.
  unfold parse_args, parse_known_args.
  destruct (classify_args _ argv) as [|cls] eqn:Hc; [done|]. simpl.
  destruct (parse_classified _ _ _ _) as [|[ns' ex]] eqn:Hp; [done|]. simpl.
  destruct ex; [|done]. intros [= <-].
  destruct (parse_classified_inv _ top_actions argv cls command_ok (classify_args_ok _ _ _ Hc)
              take_action_command (fun _ _ H => H) (fun _ _ H => H) (fun H => match H with end) _ _ Hp)
    as (st & Hst & -> & _ & Hreq).
  destruct (Hst (Hreq command_action (or_intror (or_introl eq_refl)) eq_refl)) as (name & acts & Ha & Hn).
  exists name, acts. unfold ns_get. by rewrite Hn.
Qed.

(** ** The loop of [_parse_known_args] ends *)

Lemma no_explicit_index cls strs i a acc r : no_explicit cls strs i a acc = inr r -> i < r.2.
Proof. unfold no_explicit. repeat case_match; intros ?; simplify_eq/=; lia. Qed.

Lemma explicit_tuples_index m cls strs i a o e acc r : explicit_tuples m cls strs i a o e acc = inr r -> i < r.2.
Proof.
  revert a o acc. induction e as [|e0 e IH]; intros a o acc; cbn [explicit_tuples];
    (destruct (takes_one a); [intros [= <-]; simpl; lia|]); destruct o as [|c0 [|c1 o]]; try done.
  destruct (negb _); [|done]. destruct (lookup_option _ _) as [a'|]; [|done].
  destruct e; [apply no_explicit_index|apply IH].
Qed.

(** [consume_optional] moves past the option. *)
Lemma consume_optional_index sub m cls strs i st r : consume_optional sub m cls strs i st = inr r -> i < r.1.
Proof.
  unfold consume_optional. destruct (nth_error cls i) as [[| |[s|a o e]]|]; try done.
  - intros [= <-]. simpl. lia.
  - destruct (match e with Some e => _ | None => _ end) as [|[l k]] eqn:E; [done|]. simpl.
    destruct (take_all _ _ _); [done|]. intros [= <-]. simpl.
    destruct e; [exact (explicit_tuples_index _ _ _ _ _ _ _ _ _ E)|exact (no_explicit_index _ _ _ _ _ _ E)].
Qed.

Lemma take_positionals_index sub strs acts counts i st r :
  take_positionals sub strs acts counts i st = inr r -> i <= r.1.
Proof.
  revert counts i st. induction acts as [|a acts IH]; intros [|n counts] i st; simpl;
    try (intros [= <-]; simpl; lia).
  destruct (take_action _ _ _ _); [done|]. simpl. intros H%IH. lia.
Qed.

Lemma consume_positionals_index sub cls strs i st r : consume_positionals sub cls strs i st = inr r -> i <= r.1.
Proof.
  unfold consume_positionals. destruct (take_positionals _ _ _ _ _ _) as [|r1] eqn:E; [done|].
  intros [= <-]. simpl. exact (take_positionals_index _ _ _ _ _ _ _ E).
Qed.

Lemma next_option_ge cls i nx : next_option cls i = Some nx -> i <= nx.
Proof. unfold next_option. destruct (first_option _); intros [= <-]. lia. Qed.

Lemma next_option_end cls i : List.length cls <= i -> next_option cls i = None.
Proof. intros H. unfold next_option. by rewrite drop_ge. Qed.

Lemma consume_loop_unfold sub m cls strs fuel i st :
  consume_loop sub m cls strs (S fuel) i st =
    match next_option cls i with
    | None => inr (i, st)
    | Some nx =>
        if Nat.eqb i nx then r <-? consume_optional sub m cls strs nx st ;; consume_loop sub m cls strs fuel r.1 r.2
        else
          r <-? consume_positionals sub cls strs i st ;;
          if i <? r.1 then consume_loop sub m cls strs fuel r.1 r.2
          else r' <-? consume_optional sub m cls strs nx (add_extras (take (nx - r.1) (drop r.1 strs)) r.2) ;;
               consume_loop sub m cls strs fuel r'.1 r'.2
    end.
Proof. reflexivity. Qed.

Lemma consume_loop_S sub m cls strs fuel i st :
  List.length cls < fuel + i ->
  consume_loop sub m cls strs (S fuel) i st = consume_loop sub m cls strs fuel i st.
Proof.
  revert i st. induction fuel as [|fuel IH]; intros i st Hl.
  { simpl. by rewrite next_option_end by lia. }
  rewrite (consume_loop_unfold _ _ _ _ (S fuel)), (consume_loop_unfold _ _ _ _ fuel).
  destruct (next_option cls i) as [nx|] eqn:En; [|done]. pose proof (next_option_ge _ _ _ En).
  destruct (Nat.eqb i nx).
  - destruct (consume_optional _ _ _ _ _ _) as [|r] eqn:E; [done|]. simpl.
    pose proof (consume_optional_index _ _ _ _ _ _ _ E). apply IH. lia.
  - destruct (consume_positionals _ _ _ _ _) as [|r] eqn:E; [done|]. simpl.
    pose proof (consume_positionals_index _ _ _ _ _ _ E).
    destruct (i <? r.1) eqn:Hlt; [apply Nat.ltb_lt in Hlt; apply IH; lia|].
    destruct (consume_optional _ _ _ _ _ _) as [|r'] eqn:E'; [done|]. simpl.
    pose proof (consume_optional_index _ _ _ _ _ _ _ E'). apply IH. lia.
Qed.

Lemma classify_args_length m args cls : classify_args m args = inr cls -> List.length cls = List.length args.
Proof.
  revert cls. induction args as [|s rest IH]; simpl; intros cls; [by intros [= <-]|].
  destruct (is_sep s); [intros [= <-]; simpl; by rewrite length_map|].
  destruct (parse_optional m s); [done|]. simpl.
  destruct (classify_args m rest) as [|cls'] eqn:E; [done|]. simpl. intros [= <-]. simpl. by rewrite (IH cls').
Qed.

(** the [while] loop of [_parse_known_args] ends within the fuel
    [parse_classified] gives it, one round per argument and one more:
    every round moves past at least one argument, and the loop stops once
    no option is left, so more fuel gives the same parse. *)
Theorem consume_loop_enough sub m args cls n st :
  classify_args m args = inr cls ->
  consume_loop sub m cls args (S (List.length args) + n) 0 st = consume_loop sub m cls args (S (List.length args)) 0 st.
Proof.
  intros Hc%classify_args_length. induction n as [|n IH]; [by rewrite Nat.add_0_r|].
  rewrite Nat.add_succ_r, consume_loop_S by lia. exact IH.
Qed.

(** ** [re.match] on the nargs patterns, as a backtracking matcher *)

Definition is_dash (x : pat) : bool := match x with PD => true | _ => false end.
Definition is_arg (x : pat) : bool := match x with PA => true | _ => false end.
Definition any_pat (x : pat) : bool := true.

(** The atoms of the patterns: [c*], [c] and [c?] for a class [c]. *)
Inductive atom : Type := Star (c : pat -> bool) | One (c : pat -> bool) | Opt (c : pat -> bool).

Definition orelse {R} (x : option R) (y : unit -> option R) : option R :=
  match x with Some r => Some r | None => y tt end.

(** A greedy star: take one more and continue, else stop here. *)
Fixpoint star_match {R} (c : pat -> bool) (p : list pat) (k : nat -> option R) : option R :=
  match p with
  | x :: p' => if c x then orelse (star_match c p' (fun n => k (S n))) (fun _ => k 0) else k 0
  | [] => k 0
  end.

Definition atom_match {R} (a : atom) (p : list pat) (k : nat -> option R) : option R :=
  match a with
  | Star c => star_match c p k
  | One c => match p with x :: _ => if c x then k 1 else None | [] => None end
  | Opt c => match p with x :: _ => if c x then orelse (k 1) (fun _ => k 0) else k 0 | [] => k 0 end
  end.

Fixpoint atoms_match {R} (l : list atom) (p : list pat) (k : nat -> option R) : option R :=
  match l with
  | [] => k 0
  | a :: l' => atom_match a p (fun n => atoms_match l' (drop n p) (fun m => k (n + m)))
  end.

Definition nargs_atoms (g : nargs_pattern) : list atom :=
  match g with
  | NOne => [Star is_dash; One is_arg; Star is_dash]
  | NOptional => [Star is_dash; Opt is_arg; Star is_dash]
  | NParser => [Star is_dash; One is_arg; Star any_pat]
  end.

(** [re.match] of the concatenated groups: the lengths of the groups in
    the first match the backtracking finds. *)
Fixpoint re_groups (gs : list (list atom)) (p : list pat) : option (list nat) :=
  match gs with
  | [] => Some []
  | g :: gs' => atoms_match g p (fun n => option_map (cons n) (re_groups gs' (drop n p)))
  end.

Lemma find_first_app {A B} (f : A -> option B) l1 l2 :
  find_first f (l1 ++ l2) = orelse (find_first f l1) (fun _ => find_first f l2).
Proof. induction l1 as [|x l1 IH]; simpl; [done|]. destruct (f x); [done|]. exact IH. Qed.

Lemma find_first_map {A B C} (f : B -> option C) (g : A -> B) l :
  find_first f (map g l) = find_first (fun x => f (g x)) l.
Proof. induction l as [|x l IH]; simpl; [done|]. by rewrite IH. Qed.

Lemma find_first_single {A B} (f : A -> option B) x : find_first f [x] = f x.
Proof. simpl. by destruct (f x). Qed.

Lemma rev_seq_0 n : rev (seq 0 (S n)) = map S (rev (seq 0 n)) ++ [0].
Proof. simpl. by rewrite <- seq_shift, map_rev. Qed.

Lemma star_dash {R} p (k : nat -> option R) :
  star_match is_dash p k = find_first k (rev (seq 0 (S (lead_dashes p)))).
Proof.
  revert k. induction p as [|x p IH]; intros k.
  { simpl. by destruct (k 0). }
  destruct x; cbn [star_match lead_dashes is_dash]; try by (simpl; destruct (k 0)).
  rewrite IH, (rev_seq_0 (S (lead_dashes p))), find_first_app, find_first_map, find_first_single. reflexivity.
Qed.

Lemma star_any {R} p (k : nat -> option R) :
  star_match any_pat p k = find_first k (rev (seq 0 (S (List.length p)))).
Proof.
  revert k. induction p as [|x p IH]; intros k.
  { simpl. by destruct (k 0). }
  cbn [star_match any_pat List.length]. rewrite IH, (rev_seq_0 (S (List.length p))), find_first_app, find_first_map, find_first_single.
  reflexivity.
Qed.

Lemma find_first_ext {A B} (f g : A -> option B) l : (forall x, In x l -> f x = g x) -> find_first f l = find_first g l.
Proof.
  induction l as [|x l IH]; simpl; intros H; [done|].
  rewrite (H x (or_introl eq_refl)), IH by auto. reflexivity.
Qed.

Lemma find_first_none {A B} (f : A -> option B) l : (forall x, In x l -> f x = None) -> find_first f l = None.
Proof. induction l as [|x l IH]; simpl; intros H; [done|]. rewrite (H x (or_introl eq_refl)). auto. Qed.

Lemma orelse_none_r {R} (x : option R) : orelse x (fun _ => None) = x.
Proof. by destruct x. Qed.

Lemma drop_dashes p n : n < lead_dashes p -> drop n p = PD :: drop (S n) p.
Proof.
  revert p. induction n as [|n IH]; intros [|[| |] p]; simpl; try lia; [done|]. intros H. apply IH. lia.
Qed.

Lemma lead_dashes_drop p n : n <= lead_dashes p -> lead_dashes (drop n p) = lead_dashes p - n.
Proof.
  revert p. induction n as [|n IH]; intros [|[| |] p]; simpl; try lia. intros H. apply IH. lia.
Qed.

Lemma nth_error_dashes p : nth_error p (lead_dashes p) = hd_error (drop (lead_dashes p) p).
Proof. induction p as [|[| |] p IH]; simpl; auto. Qed.

Lemma seq_add a n : map (Nat.add a) (seq 0 n) = seq a n.
Proof.
  revert a. induction n as [|n IH]; intros a; [done|]. simpl. rewrite Nat.add_0_r. f_equal.
  rewrite <- (IH (S a)), <- seq_shift, map_map. apply map_ext. intros. lia.
Qed.

Lemma drop_lead_S p : drop (S (lead_dashes p)) p = drop 1 (drop (lead_dashes p) p).
Proof. by rewrite drop_drop, Nat.add_1_r. Qed.

(** The groups that need an ['A'] cannot start before the last leading
    ['-']. *)
Lemma first_at_lead {R} p (f : nat -> option R) :
  (forall n, n < lead_dashes p -> f n = None) ->
  find_first f (rev (seq 0 (S (lead_dashes p)))) = orelse (f (lead_dashes p)) (fun _ => None).
Proof.
  intros H. rewrite rev_seq_S. simpl. destruct (f _); [done|].
  apply find_first_none. intros n Hn%in_rev%in_seq. apply H. lia.
Qed.

Lemma group_none {R} p (k : nat -> option R) :
  atoms_match (nargs_atoms NOne) p k = find_first k (group_candidates NOne p).
Proof.
  cbn [nargs_atoms atoms_match atom_match]. rewrite star_dash, first_at_lead.
  2: { intros n Hn. by rewrite drop_dashes. }
  unfold group_candidates. rewrite nth_error_dashes, drop_lead_S.
  destruct (drop (lead_dashes p) p) as [|[| |] q]; cbn [hd_error]; try reflexivity.
  cbn [is_arg]. rewrite orelse_none_r, star_dash, find_first_map.
  apply find_first_ext. intros. f_equal. lia.
Qed.

Lemma group_parser {R} p (k : nat -> option R) :
  atoms_match (nargs_atoms NParser) p k = find_first k (group_candidates NParser p).
Proof.
  cbn [nargs_atoms atoms_match atom_match]. rewrite star_dash, first_at_lead.
  2: { intros n Hn. by rewrite drop_dashes. }
  unfold group_candidates. rewrite nth_error_dashes.
  pose proof (length_drop p (lead_dashes p)) as Hl.
  destruct (drop (lead_dashes p) p) as [|[| |] q]; cbn [hd_error]; try reflexivity.
  cbn [is_arg]. rewrite orelse_none_r, star_any. simpl in Hl. rewrite <- Hl.
  rewrite <- (seq_add (S (lead_dashes p))), <- map_rev, find_first_map. cbn [drop List.length].
  apply find_first_ext. intros. f_equal. lia.
Qed.

Lemma find_first_cons {A B} (f : A -> option B) x l : find_first f (x :: l) = orelse (f x) (fun _ => find_first f l).
Proof. reflexivity. Qed.

Section Prefixes.
(** [F n] searches a list of which [F (S n)] searches a prefix: the
    first success over [F j], [F (j-1)], ..., [F 0] is that of [F 0]. *)
Context {R : Type} (F f g : nat -> option R) (d : nat).
Hypothesis Hf : forall n, n < d -> f n = F n.
Hypothesis HF : forall n, n < d -> F n = orelse (F (S n)) (fun _ => g n).

Lemma chain_search j : j <= d -> orelse (F j) (fun _ => find_first f (rev (seq 0 j))) = F 0.
Proof.
  induction j as [|j IH]; intros Hj; [simpl; by destruct (F 0)|].
  rewrite rev_seq_S, find_first_cons, Hf by lia. simpl Nat.add.
  rewrite <- IH by lia. rewrite (HF j) by lia. by destruct (F (S j)).
Qed.
End Prefixes.

Lemma lead_dashes_rest p : lead_dashes (drop (lead_dashes p) p) = 0.
Proof. rewrite lead_dashes_drop by lia. lia. Qed.

Lemma group_optional {R} p (k : nat -> option R) :
  atoms_match (nargs_atoms NOptional) p k = find_first k (group_candidates NOptional p).
Proof.
  set (F := fun n => find_first k (map (Nat.add n) (rev (seq 0 (S (lead_dashes p - n)))))).
  cbn [nargs_atoms atoms_match atom_match]. rewrite star_dash, rev_seq_S, find_first_cons. simpl Nat.add.
  rewrite (find_first_ext _ F).
  2: { intros n Hn%in_rev%in_seq. rewrite drop_dashes by lia. cbn [is_arg drop].
       rewrite star_dash. cbn [lead_dashes]. rewrite lead_dashes_drop by lia.
       replace (S (lead_dashes p - S n)) with (lead_dashes p - n) by lia. unfold F. rewrite find_first_map.
       apply find_first_ext. intros. f_equal. lia. }
  assert (HFd : F (lead_dashes p) = k (lead_dashes p)).
  { unfold F. rewrite Nat.sub_diag. simpl. rewrite Nat.add_0_r. by destruct (k _). }
  assert (HF : forall n, n < lead_dashes p -> F n = orelse (F (S n)) (fun _ => k n)).
  { intros n Hn. unfold F. replace (lead_dashes p - n) with (S (lead_dashes p - S n)) by lia.
    rewrite rev_seq_0, map_app, find_first_app, map_map.
    assert (E : find_first k (map (fun x => n + S x) (rev (seq 0 (S (lead_dashes p - S n))))) =
                find_first k (map (Nat.add (S n)) (rev (seq 0 (S (lead_dashes p - S n)))))).
    { rewrite !find_first_map. apply find_first_ext. intros. f_equal. lia. }
    rewrite E. destruct (find_first k (map (Nat.add (S n)) _)); [done|]. cbn. rewrite Nat.add_0_r. by destruct (k n). }
  pose proof (chain_search F F k (lead_dashes p) (fun _ _ => eq_refl) HF (lead_dashes p) (le_n _)) as Hc.
  assert (HF0 : F 0 = find_first k (rev (seq 0 (S (lead_dashes p))))).
  { unfold F. rewrite Nat.sub_0_r, find_first_map. apply find_first_ext. done. }
  unfold group_candidates. rewrite nth_error_dashes, drop_lead_S, find_first_app, <- HF0, <- Hc, HFd.
  pose proof (lead_dashes_rest p) as Hr.
  destruct (drop (lead_dashes p) p) as [|[| |] q]; cbn [hd_error is_arg drop]; try done.
  all: cbn [star_match is_dash find_first orelse]; replace (lead_dashes p + (0 + 0)) with (lead_dashes p) by lia.
  1,3: reflexivity.
  rewrite !drop_0, star_dash, find_first_map.
  rewrite (find_first_ext (fun n => k (lead_dashes p + S (n + 0))) (fun x => k (S (lead_dashes p) + x)))
    by (intros; f_equal; lia).
  destruct (find_first (fun x : nat => k (S (lead_dashes p) + x)) (rev (seq 0 (S (lead_dashes q))))); reflexivity.
Qed.

Lemma group_match {R} g p (k : nat -> option R) :
  atoms_match (nargs_atoms g) p k = find_first k (group_candidates g p).
Proof. destruct g; [apply group_none|apply group_optional|apply group_parser]. Qed.

(** the matcher of the nargs patterns is [re.match]: for every list
    of positionals and every pattern of argument classes, the group
    lengths [match_groups] computes from its candidate lists are those of
    the first match a backtracking matcher of the regular expressions
    [-*A-*], [-*A?-*] and [-*A[-AO]*] finds, greedy quantifiers first
    taking all they can. *)
Theorem match_groups_re gs p : match_groups gs p = re_groups (map nargs_atoms gs) p.
Proof.
  revert p. induction gs as [|g gs IH]; intros p; [done|]. simpl.
  rewrite group_match. apply find_first_ext. intros n _. by rewrite IH.
Qed.

(** ** An option between the positionals of [add] *)

(** C15: in the [argparse] of CPython 3.12 before the fix of bpo-15112,
    [consume_positionals] matches both ['?'] positionals of [add]
    against the arguments before the first option, so
    [add NAME -i ICON COMMAND] (or [--icon]) gives [app_name=NAME],
    [app_command=None] and the extra argument [COMMAND]: whatever the
    three arguments, as long as they do not start with ['-'], the process
    exits with status 2 and changes nothing, although the command line
    has the shape of the spec's [add] usage with the option moved
    forward. *)
Theorem add_option_between_positionals name opt icon cmd w :
  arg_plain name = true -> arg_plain icon = true -> arg_plain cmd = true -> In opt ["-i"; "--icon"] ->
  run_argv ["add"; name; opt; icon; cmd] w = (2%Z, w).
Proof.
  intros Hn Hi Hc Ho. apply script_parse_exit. rewrite parse_args_cons by reflexivity.
  repeat destruct Ho as [<-|Ho]; [..|done]; argv_eval; reflexivity.
Qed.
