(* ===== verification/Invariant.v ===== *)
(** * Every command keeps every invariant of the file system

    [keeps P m]: every run of [m] from a world satisfying [P] ends in a
    world satisfying [P], whatever its outcome.  [FsInvariant Q] is what
    a property [Q] of the file system must promise: every primitive of
    [Io] the script calls keeps it ([chmod] with the script's [0o755],
    [shutil.move] of a source [Path(s)]).  From that interface alone,
    [keeps_main] shows that every sub-command of [main] keeps [Q], by the
    syntax of its definition ([keeps_solve]).  The well-formedness of the
    file system ([fs_wf], file [FsWf]) is the first instance; [Modes]
    gives the second, and [Process] carries both along every sequence of
    runs of the script. *)

From S2P Require Import Prelude PyDict PyStr PyObj Json PyPath Fs FsWf Glob Io Config Commands Main.

Definition keeps {A} (P : world -> Prop) (m : io A) : Prop :=
  forall w o w', P w -> m w = (o, w') -> P w'.

Section Keeps.
Context (P : world -> Prop).

Lemma keeps_bind {A B} (m : io A) (k : A -> io B) :
  keeps P m -> (forall a, keeps P (k a)) -> keeps P (st_bind m k).
Proof.
  intros Hm Hk w o w' Hw. unfold st_bind. destruct (m w) as [[a|e] w1] eqn:H1.
  - apply (Hk a w1). by apply (Hm _ _ _ Hw H1).
  - intros [= _ <-]. by apply (Hm _ _ _ Hw H1).
Qed.

Lemma keeps_ret {A} (a : A) : keeps P (st_ret a).
Proof. by intros w o w' Hw [= _ <-]. Qed.

Lemma keeps_raise {A} e : keeps P (@st_raise world exc A e).
Proof. by intros w o w' Hw [= _ <-]. Qed.

Lemma keeps_query {A} (q : world -> exc + A) : keeps P (io_query q).
Proof. intros w o w' Hw. unfold io_query. by destruct (q w); intros [= _ <-]. Qed.

Lemma keeps_lift {A} (r : exc + A) : keeps P (io_lift r).
Proof. apply keeps_query. Qed.

Lemma keeps_foldl {A B} (g : A -> B -> io A) a l :
  (forall a x, keeps P (g a x)) -> keeps P (st_foldl g a l).
Proof.
  intros Hg. revert a. induction l as [|x l IH]; intros a0; simpl; [apply keeps_ret | by apply keeps_bind].
Qed.

Lemma keeps_iter {A} (g : A -> io unit) l :
  (forall x, keeps P (g x)) -> keeps P (st_iter g l).
Proof. intros Hg. induction l; simpl; [apply keeps_ret | by apply keeps_bind]. Qed.
End Keeps.

(** ** Invariants of the file system

    What an invariant [Q] of the file system promises the commands: each
    primitive the script calls keeps it ([chmod] with the only mode the
    script passes, [0o755], and [shutil.move] with the sources it passes,
    paths [Path(s)]). *)
Class FsInvariant (Q : fs -> Prop) := {
  inv_unlink m cwd p m' : Q m -> fs_unlink m cwd p = inr m' -> Q m';
  inv_open_w m cwd u p m' : Q m -> fs_open_w m cwd u p = inr m' -> Q m';
  inv_set_data m cwd p d m' : Q m -> fs_set_data m cwd p d = inr m' -> Q m';
  inv_chmod_755 m cwd p m' : Q m -> fs_chmod m cwd p 493 = inr m' -> Q m';
  inv_mkdir m cwd p b1 b2 m' : Q m -> path_mkdir m cwd p b1 b2 = inr m' -> Q m';
  inv_rename m cwd s d m' : Q m -> os_rename m cwd s d = inr m' -> Q m';
  inv_move m cwd s d m' : Q m -> shutil_move m cwd (path_of_string s) d = inr m' -> Q m'
}.

(** The world's file system satisfies [Q]. *)
Definition holds (Q : fs -> Prop) (w : world) : Prop := Q (w_fs w).

(** What keeps the file system keeps every property of it. *)
Lemma keeps_holds_fs {A : Type} (Q : fs -> Prop) (m : io A) : keeps_fs m -> keeps (holds Q) m.
Proof. intros Hm w o w' Hw H. unfold holds. by rewrite (preserves_use w_fs m w o w' Hm H). Qed.

Lemma keeps_holds_update (Q : fs -> Prop) (f : world -> exc + fs) :
  (forall w m', Q (w_fs w) -> f w = inr m' -> Q m') -> keeps (holds Q) (io_update f).
Proof. intros Hf w o w' Hw. unfold io_update. destruct (f w) eqn:He; intros [= _ <-]; [done|]. by eapply Hf. Qed.

Section Primitives.
Context (Q : fs -> Prop) `{!FsInvariant Q}.

Lemma keeps_unlink p : keeps (holds Q) (path_unlink p).
Proof. apply keeps_holds_update. intros w m'. apply inv_unlink. Qed.

Lemma keeps_open_w p : keeps (holds Q) (path_open_w p).
Proof. apply keeps_holds_update. intros w m'. apply inv_open_w. Qed.

Lemma keeps_file_write p d : keeps (holds Q) (file_write p d).
Proof. apply keeps_holds_update. intros w m'. apply inv_set_data. Qed.

Lemma keeps_chmod_755 p : keeps (holds Q) (path_chmod p 493).
Proof. apply keeps_holds_update. intros w m'. apply inv_chmod_755. Qed.

Lemma keeps_mkdir p b1 b2 : keeps (holds Q) (path_mkdir_io p b1 b2).
Proof. apply keeps_holds_update. intros w m'. apply inv_mkdir. Qed.

Lemma keeps_rename s d : keeps (holds Q) (path_rename s d).
Proof. apply keeps_holds_update. intros w m'. apply inv_rename. Qed.

Lemma keeps_move_of_string s d : keeps (holds Q) (shutil_move_io (path_of_string s) d).
Proof. apply keeps_holds_update. intros w m'. apply inv_move. Qed.
End Primitives.

#[export] Hint Resolve keeps_ret keeps_raise keeps_query keeps_lift keeps_unlink keeps_open_w
  keeps_file_write keeps_chmod_755 keeps_mkdir keeps_rename keeps_move_of_string : appimg.
#[export] Hint Extern 1 (FsInvariant _) => typeclasses eauto : appimg.

(** Prove [keeps] of a program by its syntax. *)
Ltac keeps_solve :=
  repeat match goal with
  | |- keeps _ (st_bind _ _) => apply keeps_bind; [|intros ?]
  | |- keeps _ (if ?b then _ else _) => destruct b
  | |- keeps _ (match ?x with _ => _ end) => destruct x
  | |- keeps _ (let _ := _ in _) => cbv zeta
  | |- keeps _ _ => solve [eauto with appimg]
  | |- keeps _ _ => apply keeps_holds_fs; solve [preserves_solve]
  | |- keeps _ ?m => progress (unfold m)
  end.

(** ** The loops and queries change no file *)

Lemma keeps_fs_choose_loop f l : keeps_fs (choose_loop f l).
Proof. revert l. induction f; intros l; simpl; preserves_solve. Qed.

Lemma keeps_fs_print_numbered i l : keeps_fs (print_numbered i l).
Proof. revert i. induction l; intros i; simpl; preserves_solve. Qed.

Lemma keeps_fs_unique_loop f b c : keeps_fs (unique_loop f b c).
Proof. revert c. induction f; intros c; simpl; preserves_solve. Qed.

Lemma keeps_fs_stdin_fuel : keeps_fs stdin_fuel.
Proof. by intros ??? [= _ <-]. Qed.

Lemma keeps_fs_fs_fuel : keeps_fs fs_fuel.
Proof. by intros ??? [= _ <-]. Qed.

#[export] Hint Resolve keeps_fs_choose_loop keeps_fs_print_numbered keeps_fs_unique_loop
  keeps_fs_stdin_fuel keeps_fs_fs_fuel : appimg.

Lemma keeps_fs_select_appimage n : keeps_fs (select_appimage n).
Proof. unfold select_appimage. preserves_solve. Qed.

Lemma keeps_fs_resolve_command c : keeps_fs (resolve_command c).
Proof. unfold resolve_command, get_unique_command. preserves_solve. Qed.

Lemma keeps_fs_arg_or_ask o p : keeps_fs (arg_or_ask o p).
Proof. unfold arg_or_ask. preserves_solve. Qed.

Lemma keeps_fs_load_config : keeps_fs load_config.
Proof. unfold load_config, config_file. preserves_solve. Qed.

#[export] Hint Resolve keeps_fs_select_appimage keeps_fs_resolve_command keeps_fs_arg_or_ask : appimg.

(** ** The sub-commands keep every invariant *)

Section Commands.
Context (Q : fs -> Prop) `{!FsInvariant Q}.

Lemma keeps_load_config : keeps (holds Q) load_config.
Proof. apply keeps_holds_fs, keeps_fs_load_config. Qed.

Lemma keeps_save_config c : keeps (holds Q) (save_config c).
Proof. unfold save_config, config_file, write_text. keeps_solve. Qed.

Lemma keeps_create_desktop_file n e i : keeps (holds Q) (create_desktop_file n e i).
Proof. unfold create_desktop_file. keeps_solve. Qed.

Lemma keeps_unlink_if_exists p msg : keeps (holds Q) (unlink_if_exists p msg).
Proof. unfold unlink_if_exists. keeps_solve. Qed.

Lemma keeps_sync_entry bd dd c x : keeps (holds Q) (sync_entry bd dd c x).
Proof. unfold sync_entry. keeps_solve. Qed.
End Commands.

#[export] Hint Resolve keeps_foldl keeps_iter keeps_load_config keeps_save_config keeps_create_desktop_file
  keeps_unlink_if_exists keeps_sync_entry : appimg.

(** Every sub-command, whatever its outcome, keeps every invariant. *)
Lemma keeps_main (Q : fs -> Prop) `{!FsInvariant Q} args : keeps (holds Q) (main args).
Proof.
  destruct args; simpl;
    unfold add_appimage, remove_appimage, edit_command, sync_appimages, list_appimages; keeps_solve.
Qed.

(** ** The file system stays a tree *)

(** The file system is a tree. *)
Definition tree : world -> Prop := holds fs_wf.

#[export] Instance fs_wf_invariant : FsInvariant fs_wf.
Proof.
  split.
  - intros m cwd p m' Hm. by apply unlink_wf.
  - intros m cwd u p m' Hm. by apply open_w_wf.
  - intros m cwd p d m' Hm. by apply set_data_wf.
  - intros m cwd p m' Hm. by apply chmod_wf.
  - apply path_mkdir_wf.
  - apply os_rename_wf.
  - intros m cwd s d m' Hm. apply shutil_move_wf, path_of_string_wf; done.
Qed.
