(* ===== verification/Modes.v ===== *)
(** * File modes stay permission bits

    The script gives files their modes in two places: [open(p, "w")]
    creates a file with mode [0o666 & ~umask] ([fs_open_w], the umask of
    the environment being any integer), and [Path.chmod(0o755)] after
    writing a bundle or a launcher ([path_chmod]).  [os.rename],
    [shutil.move] and [copytree] keep the modes of what they move.  This
    file shows that every mode the file system holds stays a value of
    the nine permission bits, [0 <= mode < 2^9], and that a file [open]
    creates has no execute bit, so it becomes a command [shutil.which]
    finds only by the [chmod] that follows. *)

From S2P Require Import Prelude PyDict PyStr PyObj Json PyPath Fs FsWf Glob Io Config Commands Main Invariant.

Local Open Scope Z_scope.

(** A file's mode is nine permission bits. *)
Definition mode_ok (i : inode) : Prop :=
  match i with IFile _ mode => 0 <= mode < 2 ^ 9 | IDir => True end.

Definition modes_ok (m : fs) : Prop := map_Forall (fun _ => mode_ok) m.

(** [0o666 & ~umask] is nine bits without an execute bit ([0o111]),
    whatever the umask. *)
Lemma new_file_mode u : 0 <= Z.land 438 (Z.lnot u) < 2 ^ 9 /\ Z.land (Z.land 438 (Z.lnot u)) 73 = 0.
Proof.
  split.
  - assert (E : Z.land 438 (Z.lnot u) = Z.land (Z.land 438 (Z.lnot u)) (Z.ones 9))
      by (rewrite <- Z.land_assoc, (Z.land_comm _ (Z.ones 9)), Z.land_assoc; reflexivity).
    rewrite E, Z.land_ones by lia. apply Z.mod_pos_bound. reflexivity.
  - rewrite (Z.land_comm 438), <- Z.land_assoc. change (Z.land 438 73) with 0. apply Z.land_0_r.
Qed.

Lemma modes_insert m k i : modes_ok m -> mode_ok i -> modes_ok (<[k := i]> m).
Proof. intros Hm Hi. by apply map_Forall_insert_2. Qed.

Lemma modes_delete m k : modes_ok m -> modes_ok (delete k m).
Proof. apply map_Forall_delete. Qed.

(** Rekeying moves the inodes, modes included, unchanged. *)
Lemma modes_rekey M f : modes_ok M -> modes_ok (rekey M f).
Proof.
  intros HM j y Hj. apply elem_of_list_to_map_2 in Hj.
  apply rekey_elem in Hj as (k & _ & Hk). exact (HM k y Hk).
Qed.

Lemma modes_move_tree m ks kd : modes_ok m -> modes_ok (move_tree m ks kd).
Proof. intros Hm. rewrite move_tree_rekey. by apply modes_rekey, modes_delete. Qed.

#[local] Hint Resolve modes_insert modes_delete modes_move_tree : core.

Section Prims.
Context (m : fs) (Hm : modes_ok m) (cwd : list string).

(** Resolve [p] and look at what is there. *)
Ltac mode_case p :=
  let k := fresh "k" in let Hk := fresh "Hk" in
  destruct (fs_resolve m cwd p) as [|k]; [done|]; simpl;
  destruct (m !! k) as [[? ?|]|] eqn:Hk; intros; simplify_eq;
  try (apply modes_insert; [done|]); first [done | exact (Hm _ _ Hk) | auto].

Lemma unlink_modes p m' : fs_unlink m cwd p = inr m' -> modes_ok m'.
Proof. unfold fs_unlink. mode_case p. Qed.

Lemma open_w_modes u p m' : fs_open_w m cwd u p = inr m' -> modes_ok m'.
Proof. unfold fs_open_w. mode_case p. apply new_file_mode. Qed.

Lemma set_data_modes p d m' : fs_set_data m cwd p d = inr m' -> modes_ok m'.
Proof. unfold fs_set_data. mode_case p. Qed.

Lemma chmod_modes p mode m' : 0 <= mode < 2 ^ 9 -> fs_chmod m cwd p mode = inr m' -> modes_ok m'.
Proof. intros Hb. unfold fs_chmod. mode_case p. Qed.

Lemma os_mkdir_modes p m' : os_mkdir m cwd p = inr m' -> modes_ok m'.
Proof. unfold os_mkdir. mode_case p. Qed.
End Prims.

Lemma path_mkdir_go_modes n m cwd p parents exist_ok m' :
  modes_ok m -> path_mkdir_go n m cwd p parents exist_ok = inr m' -> modes_ok m'.
Proof.
  revert m p parents exist_ok m'. induction n as [|n IH]; intros m p parents exist_ok m' Hm; simpl;
    (destruct (os_mkdir m cwd p) as [e|m1] eqn:Ho; [|intros [= <-]; by eapply os_mkdir_modes]);
    destruct e; try (destruct (_ && _); [by intros [= <-]|done]);
    destruct (_ || _); try done.
  destruct (path_mkdir_go n m cwd (path_parent p) true true) as [|m1] eqn:H1; [done|]. simpl.
  apply IH. exact (IH _ _ _ _ _ Hm H1).
Qed.

Lemma os_rename_modes m cwd src dst m' : modes_ok m -> os_rename m cwd src dst = inr m' -> modes_ok m'.
Proof.
  intros Hm. unfold os_rename.
  destruct (fs_resolve m cwd src) as [|ks]; [done|]. simpl.
  destruct (fs_resolve m cwd dst) as [|kd]; [done|]. simpl.
  destruct (m !! ks) as [[d mode|]|] eqn:Hk; [| |done]; repeat case_decide; try done;
    repeat case_match; intros; simplify_eq; try (apply modes_insert; [auto|exact (Hm _ _ Hk)]); auto.
Qed.

(** [shutil.move]: a rename, or [makedirs] and the tree moved. *)
Lemma shutil_move_modes m cwd src dst m' : modes_ok m -> shutil_move m cwd src dst = inr m' -> modes_ok m'.
Proof.
  intros Hm. unfold shutil_move.
  destruct (_ && _); [by apply os_rename_modes|]. destruct (_ && _); [done|].
  destruct (os_rename m cwd src _) as [e|m1] eqn:Hren; [|intros [= <-]; by eapply os_rename_modes].
  destruct (fs_is_dir m cwd src); [|done].
  destruct (fs_resolve m cwd src) as [|ks]; [done|]. simpl. case_bool_decide; [done|].
  destruct (os_makedirs m cwd _) as [|m1] eqn:Hmk; [done|]. simpl.
  destruct (fs_resolve m1 cwd _) as [|kd]; [done|]. intros [= <-].
  apply modes_move_tree. exact (path_mkdir_go_modes _ _ _ _ _ _ _ Hm Hmk).
Qed.

(** The modes invariant is kept by every primitive the script calls. *)
#[export] Instance modes_invariant : FsInvariant modes_ok.
Proof.
  split.
  - intros m cwd p m' Hm. by apply unlink_modes.
  - intros m cwd u p m' Hm. by apply open_w_modes.
  - intros m cwd p d m' Hm. by apply set_data_modes.
  - intros m cwd p m' Hm. apply chmod_modes; [done|lia].
  - intros m cwd p b1 b2 m' Hm. by apply path_mkdir_go_modes.
  - apply os_rename_modes.
  - intros m cwd s d m'. apply shutil_move_modes.
Qed.

#[export] Instance mode_ok_dec i : Decision (mode_ok i).
Proof. destruct i; simpl; apply _. Defined.
