(* ===== verification/Process.v ===== *)
(** * The script run again and again

    The process is [run_argv] ([Argv]): [parser.parse_args()] on the
    command line, then [main] on the namespace (lines 322-337).  A user
    runs it any number of times; from one run to the next the files,
    the registry [~/.appimages.json] included, persist, while the
    command line, the lines typed, the environment ([HOME], [PATH], the
    umask) and the terminal's output so far are whatever they are.
    [invoke w w'] is one such run, [rtc invoke] any sequence of them.

    [keeps_main_ns] extends [keeps_main] of [Invariant] to every
    namespace [parse_args] can produce, the branches [main] reaches only
    through a malformed namespace ([edit x -- --], [rm --]) included, so
    every invariant of the file system that the primitives keep holds in
    every world a sequence of runs reaches: the tree ([FsWf]) and the
    modes ([Modes]). *)

From S2P Require Import Prelude PyDict PyStr PyObj Json PyPath Fs FsWf Glob Io Config Commands Main Argv Invariant Modes.

(** One run of the script on the command line [argv], in the file
    system the previous run left, under the environment [e] and with the
    lines [inp] to read. *)
Inductive invoke : world -> world -> Prop :=
  | invoke_run argv e inp w : invoke w (run_argv argv (mkworld (w_fs w) e inp (w_stdout w))).2.

Section Session.
Context (Q : fs -> Prop) `{!FsInvariant Q}.

Lemma keeps_edit_command_list o : keeps (holds Q) (edit_command_list o).
Proof. unfold edit_command_list. keeps_solve. Qed.

Lemma keeps_main_ns ns : keeps (holds Q) (main_ns ns).
Proof.
  unfold main_ns.
  repeat match goal with
  | |- keeps _ (if ?b then _ else _) => destruct b
  | |- keeps _ (match ?x with _ => _ end) => destruct x
  end;
  first [ apply keeps_edit_command_list
        | exact (keeps_main Q (CliAdd _ _ _)) | exact (keeps_main Q (CliRm _ _))
        | exact (keeps_main Q (CliEdit _ _)) | exact (keeps_main Q CliSync)
        | exact (keeps_main Q (CliList _)) | keeps_solve ].
Qed.

Lemma keeps_script argv : keeps (holds Q) (script argv).
Proof. unfold script. apply keeps_bind; [apply keeps_lift|apply keeps_main_ns]. Qed.

Lemma run_argv_holds argv w : holds Q w -> holds Q (run_argv argv w).2.
Proof.
  intros Hw. unfold run_argv. destruct (script argv w) as [o w'] eqn:H. exact (keeps_script argv w o w' Hw H).
Qed.

Lemma invoke_holds w w' : invoke w w' -> holds Q w -> holds Q w'.
Proof. intros [argv e inp w0] Hw. by apply run_argv_holds. Qed.

Lemma session_holds w w' : rtc invoke w w' -> holds Q w -> holds Q w'.
Proof. induction 1; eauto using invoke_holds. Qed.
End Session.

(** every world a sequence of runs of the script reaches has a
    well-formed file system (the root a directory, every entry in a
    directory) if the first one had: whatever the command lines, usage
    errors and malformed namespaces included, the lines typed, the
    environments, and however each run ends. *)
Theorem session_keeps_tree w w' : tree w -> rtc invoke w w' -> tree w'.
Proof. intros Hw Hs. exact (session_holds fs_wf w w' Hs Hw). Qed.

(** every world a sequence of runs reaches has every file mode
    within the nine permission bits [0 <= mode < 2^9] if the first one
    had, whatever integer the umask of each run is: [open] creates files
    with [0o666 & ~umask], [chmod] sets [0o755], and moves keep modes. *)
Theorem session_keeps_modes w w' : modes_ok (w_fs w) -> rtc invoke w w' -> modes_ok (w_fs w').
Proof. intros Hw Hs. exact (session_holds modes_ok w w' Hs Hw). Qed.
