(* ===== verification/Registry.v ===== *)
(** * The registry: what each sub-command does to it

    The registry is the dict stored in the JSON file.  Its abstract view
    is a finite map from commands to records ([to_gmap]); the contract of
    the sub-commands on it is:
    - [rm c] deletes [c];
    - [edit old new] moves the record of [old] to [new], with its
      [launcher_path] updated;
    - [add] maps the chosen command to the new record;
    - [sync] only adds commands that were missing;
    - [list] changes nothing.
    The theorems below show that a run that finishes normally stores the
    registry the contract describes, on the ordered dict itself and on the
    abstract map, and where the code departs from the contract
    ([edit c c]). *)

From S2P Require Import Prelude PyDict PyStr PyObj Json PyPath Fs Glob Io Config Commands Main.

(** ** The contract, on the map the registry denotes *)

Abbreviation areg := (gmap string pyval).

(** [rm c] *)
Definition reg_remove (r : areg) (c : string) : areg := delete c r.

(** [add]: the chosen command gets the new record. *)
Definition reg_assign (r : areg) (c : string) (rec : pyval) : areg := <[c := rec]> r.

(** [edit old new]: the record moves from [old] to [new]. *)
Definition reg_rename (r : areg) (old new : string) (rec : pyval) : areg := <[new := rec]> (delete old r).

(** [sync]: [r'] extends [r], and what it adds are records rebuilt from
    disk, with [original_path] ["Unknown"]. *)
Definition reg_sync_extends (r r' : areg) : Prop :=
  r ⊆ r' /\
  forall k v, r !! k = None -> r' !! k = Some v -> exists n a df lp, v = app_record n a df lp "Unknown".

(** Split a successful run into the results of its steps. *)
Ltac run_inv :=
  repeat first [ io_inv_step
               | match goal with
                 | H : load_config _ = (Ok _, _) |- _ => rewrite load_config_run in H; injection H as ? <-
                 | u : unit |- _ => destruct u
                 | H : appimages_dir _ = (Ok _, _) |- _ => rewrite (proj1 (dirs_run _)) in H; injection H as <- <-
                 | H : bin_dir _ = (Ok _, _) |- _ => rewrite (proj1 (proj2 (dirs_run _))) in H; injection H as <- <-
                 | H : desktop_dir _ = (Ok _, _) |- _ => rewrite (proj1 (proj2 (proj2 (dirs_run _)))) in H; injection H as <- <-
                 | H : downloads_dir _ = (Ok _, _) |- _ => rewrite (proj2 (proj2 (proj2 (dirs_run _)))) in H; injection H as <- <-
                 | H : st_raise _ _ = (Ok _, _) |- _ => discriminate H
                 end ].

Lemma py_delitem_ok v k v' :
  py_delitem v k = inr v' -> exists d, v = PDict d /\ dict_contains d k = true /\ v' = PDict (dict_remove d k).
Proof.
  destruct v; simpl; try done. unfold dict_delitem. destruct (dict_contains d k) eqn:Hc; [|done].
  intros [= <-]. eauto.
Qed.

Lemma pyval_wf_remove d k : pyval_wf (PDict d) -> pyval_wf (PDict (dict_remove d k)).
Proof.
  rewrite !pyval_wf_dict. intros [Hwf Hv]. split; [by apply dict_remove_wf | by apply dict_remove_values].
Qed.

(** C1: a successful [rm c] of a registered [c] stores the registry
    without [c]: the dict with that entry removed, i.e. the map with [c]
    deleted. *)
Theorem remove_appimage_registry c del w w' d :
  registry w = Ok (PDict d) -> dict_contains d c = true ->
  remove_appimage c del w = (Ok tt, w') ->
  registry w' = Ok (PDict (dict_remove d c)) /\
  to_gmap (dict_remove d c) = reg_remove (to_gmap d) c.
Proof.
  intros Hreg Hc Hrun. pose proof (registry_wf _ _ Hreg) as Hwf.
  unfold remove_appimage in Hrun. run_inv. rewrite Hreg in *. simplify_eq.
  simpl in *. simplify_eq. rewrite Hc in Hrun. simpl in Hrun. run_inv.
  unfold dict_delitem in *. rewrite Hc in *. simplify_eq.
  rewrite registry_write_out. split.
  - eapply registry_after_save; [by apply pyval_wf_remove | done].
  - unfold reg_remove. apply dict_remove_refines. by apply pyval_wf_dict in Hwf as [? _].
Qed.

(** ** The dynamic operations that succeeded *)

Lemma py_getitem_ok v k x :
  py_getitem v k = inr x -> exists d, v = PDict d /\ dict_get d k = Some x.
Proof. destruct v; simpl; try done. destruct (dict_get d k) eqn:?; intros [= <-]; eauto. Qed.

Lemma py_setitem_ok v k x v' :
  py_setitem v k x = inr v' -> exists d, v = PDict d /\ v' = PDict (dict_setitem d k x).
Proof. destruct v; simpl; try done. intros [= <-]. eauto. Qed.

Lemma py_in_dict d k b : py_in k (PDict d) = inr b -> b = dict_contains d k.
Proof. by intros [= <-]. Qed.

Lemma record_path_ok v key w p w' :
  record_path v key w = (Ok p, w') ->
  w' = w /\ exists d s, v = PDict d /\ dict_get d key = Some (PStr s) /\ p = path_of_string s.
Proof.
  unfold record_path. intros H. apply io_lift_ok in H as [H ->]. split; [done|].
  destruct (py_getitem v key) as [|x] eqn:Hg; [done|]. simpl in H.
  apply py_getitem_ok in Hg as (d & -> & Hd). destruct x; simpl in H; try done.
  injection H as <-. eauto.
Qed.

Lemma pyval_wf_setitem d k x :
  pyval_wf (PDict d) -> pyval_wf x -> pyval_wf (PDict (dict_setitem d k x)).
Proof.
  rewrite !pyval_wf_dict. intros [Hwf Hv] Hx. split; [by apply dict_setitem_wf | by apply dict_setitem_values].
Qed.

Lemma pyval_wf_get d k x : pyval_wf (PDict d) -> dict_get d k = Some x -> pyval_wf x.
Proof. rewrite pyval_wf_dict. intros [_ Hv]. by apply dict_get_values. Qed.

#[export] Hint Resolve pyval_wf_setitem pyval_wf_remove : appimg.

(** Invert the dynamic operations on dicts that succeeded. *)
Ltac dyn_inv :=
  repeat match goal with
  | H : py_setitem (PDict _) _ _ = inr _ |- _ => apply py_setitem_ok in H as (? & [= <-] & ->)
  | H : py_getitem (PDict _) _ = inr _ |- _ => apply py_getitem_ok in H as (? & [= <-] & ?)
  | H : dict_get (dict_setitem _ ?k _) ?k = _ |- _ => rewrite dict_get_setitem_eq in H; simplify_eq
  end.

(** ** [edit] *)

(** The record [edit] stores: the old one with its new launcher. *)
Definition edited_record (r : dict string pyval) (lp new_command : string) : pyval :=
  PDict (dict_setitem r "launcher_path"
           (PStr (path_str (path_parent (path_of_string lp) // new_command)))).

Lemma edit_command_saved old new w w' d info :
  registry w = Ok (PDict d) -> dict_get d old = Some info ->
  edit_command old new w = (Ok tt, w') ->
  exists r lp, info = PDict r /\ dict_get r "launcher_path" = Some (PStr lp) /\
    registry w' = Ok (PDict (dict_remove (dict_setitem d new (edited_record r lp new)) old)).
Proof.
  intros Hreg Hget Hrun.
  assert (Hc : dict_contains d old = true) by (unfold dict_contains; by rewrite Hget).
  unfold edit_command in Hrun. run_inv. rewrite Hreg in *. simplify_eq.
  simpl in *. simplify_eq. rewrite Hc in Hrun. simpl in Hrun. run_inv.
  rewrite Hget in *. simplify_eq.
  match goal with H : record_path _ _ _ = _ |- _ => apply record_path_ok in H as [-> (r & lp & -> & Hlp & ->)] end.
  dyn_inv. rewrite dict_setitem_twice in *.
  exists r, lp. split_and!; [done..|]. rewrite registry_write_out.
  apply py_delitem_ok in Hrun11 as (? & [= <-] & _ & ->).
  eapply registry_after_save; [|done].
  pose proof (registry_wf _ _ Hreg) as Hwf.
  apply pyval_wf_remove, pyval_wf_setitem; [done|].
  pose proof (pyval_wf_get _ _ _ Hwf Hget) as Hr. by apply pyval_wf_setitem.
Qed.

(** C2: [edit old new] with [new <> old] renames: the registry maps [new]
    to the old record with its [launcher_path] moved next to the old
    launcher, and no longer has [old]. *)
Theorem edit_command_renames old new w w' d info :
  old <> new ->
  registry w = Ok (PDict d) -> dict_get d old = Some info ->
  edit_command old new w = (Ok tt, w') ->
  exists r lp d', info = PDict r /\ dict_get r "launcher_path" = Some (PStr lp) /\
    registry w' = Ok (PDict d') /\
    to_gmap d' = reg_rename (to_gmap d) old new (edited_record r lp new).
Proof.
  intros Hne Hreg Hget Hrun.
  destruct (edit_command_saved old new w w' d info Hreg Hget Hrun) as (r & lp & -> & Hlp & Hw').
  exists r, lp. eexists. split_and!; [done..|].
  pose proof (registry_wf _ _ Hreg) as [Hwf _]%pyval_wf_dict.
  rewrite dict_remove_refines by by apply dict_setitem_wf.
  rewrite dict_setitem_refines. unfold reg_rename. by apply delete_insert_ne.
Qed.

(** C24: [edit c c] finishes normally and loses the record: the launcher
    is rewritten in place, [config[c]] is assigned and then deleted, so
    the stored registry no longer has [c]. *)
Theorem edit_same_command_loses_record c w w' d info :
  registry w = Ok (PDict d) -> dict_get d c = Some info ->
  edit_command c c w = (Ok tt, w') ->
  registry w' = Ok (PDict (dict_remove d c)) /\ dict_contains (dict_remove d c) c = false /\
  to_gmap (dict_remove d c) = reg_remove (to_gmap d) c.
Proof.
  intros Hreg Hget Hrun.
  destruct (edit_command_saved c c w w' d info Hreg Hget Hrun) as (r & lp & -> & Hlp & Hw').
  rewrite dict_remove_setitem in Hw'. pose proof (registry_wf _ _ Hreg) as [Hwf _]%pyval_wf_dict.
  split_and!; [done | | by apply dict_remove_refines].
  unfold dict_contains. rewrite dict_get_remove by done. by rewrite decide_True.
Qed.

(** ** [sync] *)

(** Take the branch of an [if] that a successful run went through. *)
Ltac run_case :=
  match goal with
  | H : (if ?b then _ else _) _ = (Ok _, _) |- _ => destruct b eqn:?; simpl in H
  end.

(** The registry [c] extends [d]: every entry of [d] is kept, and every
    other entry is a record built by [sync] (its [original_path] is
    ["Unknown"]). *)
Definition sync_grows (d : dict string pyval) (c : pyval) : Prop :=
  exists d', c = PDict d' /\ pyval_wf c /\ to_gmap d ⊆ to_gmap d' /\
    forall k v, dict_get d k = None -> dict_get d' k = Some v ->
      exists n a df lp, v = app_record n a df lp "Unknown".

Lemma app_record_wf n a df lp o : pyval_wf (app_record n a df lp o).
Proof. apply pyval_wf_dict. split; [|repeat constructor]. vm_compute. repeat constructor; set_solver. Qed.

Lemma sync_entry_grows d bd dd c x s c' s' :
  sync_grows d c -> sync_entry bd dd c x s = (Ok c', s') -> sync_grows d c'.
Proof.
  intros (d1 & -> & Hwf & Hsub & Hnew) Hrun. unfold sync_entry in Hrun.
  run_inv; repeat (run_case; run_inv); try (eexists; by eauto).
  simpl in *. simplify_eq. dyn_inv.
  match goal with H : dict_contains _ _ = false |- _ => rename H into Hc end.
  eexists. split_and!; [done | by apply pyval_wf_setitem, app_record_wf | |].
  - rewrite dict_setitem_refines. apply insert_subseteq_r; [|done].
    apply (lookup_weaken_None _ (to_gmap d1)); [|done].
    rewrite lookup_to_gmap. unfold dict_contains in Hc. by destruct (dict_get d1 _).
  - intros k v Hk. rewrite dict_get_setitem. case_decide; [intros [= <-]; eauto | by apply Hnew].
Qed.

(** C4: [sync] never changes or removes an entry: the stored registry
    extends the old one, and every entry it adds is a record it built
    with [original_path] ["Unknown"]. *)
Theorem sync_appimages_only_adds w w' d :
  registry w = Ok (PDict d) -> sync_appimages w = (Ok tt, w') ->
  exists d', registry w' = Ok (PDict d') /\ reg_sync_extends (to_gmap d) (to_gmap d').
Proof.
  intros Hreg Hrun. unfold sync_appimages in Hrun. run_inv. rewrite Hreg in *. simplify_eq.
  match goal with H : st_foldl _ _ _ _ = _ |- _ =>
    apply (st_foldl_inv (sync_grows d)) in H as (d' & -> & Hwf & Hsub & Hnew) end.
  - exists d'. split; [rewrite registry_write_out; by eapply registry_after_save|].
    split; [done|]. intros k v. rewrite !lookup_to_gmap. apply Hnew.
  - intros ??????. by apply sync_entry_grows.
  - exists d. split_and!; [done | by eapply registry_wf | done | by intros ?? ->].
Qed.

(** ** [add] *)

(** C3: a successful [add] stores the old registry with one command
    assigned: a record whose [launcher_path] is that command in
    [~/.local/bin] and whose [desktop_file] is the entry named after the
    application; an existing record of that command is replaced. *)
Theorem add_appimage_registry args w w' d :
  registry w = Ok (PDict d) -> add_appimage args w = (Ok tt, w') ->
  exists cmd name newp orig,
    let r := app_record name newp (path_str (desktop_path (w_env w) // (name +:+ ".desktop")))
                        (path_str (bin_path (w_env w) // cmd)) orig in
    registry w' = Ok (PDict (dict_setitem d cmd r)) /\
    to_gmap (dict_setitem d cmd r) = reg_assign (to_gmap d) cmd r.
Proof.
  intros Hreg Hrun. pose proof (registry_wf _ _ Hreg) as Hwf.
  unfold add_appimage in Hrun. run_inv. rewrite Hreg in *. simplify_eq.
  repeat (run_case; run_inv). simplify_eq.
  match goal with H : save_config _ _ = _ |- _ =>
    apply registry_after_save in H; [|by apply pyval_wf_setitem, app_record_wf] end.
  env_inv. env_norm w.
  eexists _, _, _, _. rewrite !registry_write_out. split; [eassumption | apply dict_setitem_refines].
Qed.
