(* ===== verification/PostState.v ===== *)
(** * What the commands leave on disk and print

    The post-states of the specification's testable properties (its
    section 8): after a successful [add] the launcher, the desktop entry
    and the bundle it recorded exist, and the launcher has mode [0o755]
    ([file_mode], kept by [save_config]: [keeps_modes]); after a
    successful [rm] without [-d] the bundle is in [~/Downloads] and no
    longer where it was; after
    a successful [edit old new] the launcher has the new name and the old
    one is gone; [list] prints one line per registered command.  And two
    error paths: [rm] skips the files that are missing, and [edit] of a
    command whose launcher is missing raises before touching anything.

    [on_disk w p] is [p.exists()] in the world [w].  [growing m]: every
    run of [m] grows the file system ([FsPost.grows]) and keeps the
    environment; a path that exists keeps existing across such a run
    ([exists_step]).  A proof splits the run into its steps ([st_inv],
    [steps_inv]), finds the step that creates the path, and carries the
    existence forward step by step ([exists_forward]); the error paths
    are run forward ([enter_record]). *)

From S2P Require Import Prelude PyDict PyStr PyObj Json PyPath Fs FsWf FsPost Glob Io Config Commands Main Invariant Registry.

(** [p.exists()] in the world [w]. *)
Definition on_disk (w : world) (p : path) : bool := fs_exists (w_fs w) (w_cwd w) p.

Definition grows_w (w w' : world) : Prop := grows (w_fs w) (w_fs w') /\ w_env w' = w_env w.

Definition growing {A} (m : io A) : Prop := forall w o w', m w = (o, w') -> grows_w w w'.

Lemma grows_w_refl w : grows_w w w.
Proof. split; [apply grows_refl|done]. Qed.

Lemma grows_w_trans w1 w2 w3 : grows_w w1 w2 -> grows_w w2 w3 -> grows_w w1 w3.
Proof. intros [G1 E1] [G2 E2]. split; [by eapply grows_trans|congruence]. Qed.

Lemma growing_bind {A B} (m : io A) (k : A -> io B) :
  growing m -> (forall a, growing (k a)) -> growing (st_bind m k).
Proof.
  intros Hm Hk w o w'. unfold st_bind. destruct (m w) as [[a|e] w1] eqn:H1.
  - intros H2. eapply grows_w_trans; [exact (Hm _ _ _ H1)|exact (Hk a _ _ _ H2)].
  - intros [= _ <-]. exact (Hm _ _ _ H1).
Qed.

Lemma growing_ret {A} (a : A) : growing (st_ret a).
Proof. intros w o w' [= _ <-]. apply grows_w_refl. Qed.

Lemma growing_raise {A} e : growing (@st_raise world exc A e).
Proof. intros w o w' [= _ <-]. apply grows_w_refl. Qed.

(** A program that keeps the file system and the environment grows. *)
Lemma growing_keeps {A} (m : io A) : keeps_fs m -> keeps_env m -> growing m.
Proof.
  intros Hf He w o w' H. split; [|exact (preserves_use _ _ _ _ _ He H)].
  rewrite (preserves_use _ _ _ _ _ Hf H). apply grows_refl.
Qed.

Lemma growing_update (f : world -> exc + fs) :
  (forall w m', f w = inr m' -> grows (w_fs w) m') -> growing (io_update f).
Proof.
  intros Hf w o w'. unfold io_update. destruct (f w) eqn:He; intros [= _ <-]; [apply grows_w_refl|].
  split; [by apply Hf|done].
Qed.

Lemma growing_open_w p : growing (path_open_w p).
Proof. apply growing_update. intros w m'. apply open_w_grows. Qed.

Lemma growing_file_write p d : growing (file_write p d).
Proof. apply growing_update. intros w m'. apply set_data_grows. Qed.

Lemma growing_chmod p mode : growing (path_chmod p mode).
Proof. apply growing_update. intros w m'. apply chmod_grows. Qed.

Lemma growing_mkdir p b1 b2 : growing (path_mkdir_io p b1 b2).
Proof. apply growing_update. intros w m'. apply path_mkdir_grows. Qed.

#[export] Hint Resolve growing_ret growing_raise growing_open_w growing_file_write growing_chmod
  growing_mkdir : appimg.

(** Prove [growing] of a program by its syntax. *)
Ltac growing_solve :=
  repeat match goal with
  | |- growing (st_bind _ _) => apply growing_bind; [|intros ?]
  | |- growing (if ?b then _ else _) => destruct b
  | |- growing (match ?x with _ => _ end) => destruct x
  | |- growing (let _ := _ in _) => cbv zeta
  | |- growing _ => solve [eauto with appimg]
  | |- growing _ => apply growing_keeps; solve [preserves_solve]
  | |- growing ?m => progress (unfold m)
  end.

Lemma growing_save_config c : growing (save_config c).
Proof. unfold save_config, config_file, write_text. growing_solve. Qed.

Lemma growing_create_desktop_file n e i : growing (create_desktop_file n e i).
Proof. unfold create_desktop_file. growing_solve. Qed.

#[export] Hint Resolve growing_save_config growing_create_desktop_file : appimg.

(** A path that exists keeps existing across a growing step. *)
Lemma exists_step {A} (m : io A) w o w' p :
  growing m -> m w = (o, w') -> fs_exists (w_fs w) (w_cwd w) p = true ->
  fs_exists (w_fs w') (w_cwd w') p = true.
Proof.
  intros Hm H E. destruct (Hm _ _ _ H) as [G Henv]. unfold w_cwd. rewrite Henv.
  by apply (exists_grows (w_fs w)).
Qed.

(** Carry every existence fact forward through the steps of a run. *)
Ltac exists_forward :=
  repeat match goal with
  | E : fs_exists (w_fs ?s) (w_cwd ?s) ?p = true, H : ?m ?s = (_, ?s') |- _ =>
      let E' := fresh "E" in
      assert (E' : fs_exists (w_fs s') (w_cwd s') p = true)
        by (eapply (exists_step m s _ s' p); [growing_solve | exact H | exact E]);
      clear E
  end.

Lemma open_w_run_exists p s s' : path_open_w p s = (Ok tt, s') -> fs_exists (w_fs s') (w_cwd s') p = true.
Proof.
  unfold path_open_w, io_update. destruct (fs_open_w _ _ _ _) as [|m'] eqn:Hm; [done|].
  intros [= <-]. exact (open_w_exists _ _ _ _ _ Hm).
Qed.



(** [create_desktop_file] that succeeds leaves the desktop entry. *)
Lemma create_desktop_file_exists n e i s s' :
  create_desktop_file n e i s = (Ok tt, s') ->
  fs_exists (w_fs s') (w_cwd s') (desktop_path (w_env s) // (n +:+ ".desktop")) = true.
Proof.
  unfold create_desktop_file. intros H. st_inv.
  rewrite (proj1 (proj2 (proj2 (dirs_run _)))) in Hrun; injection Hrun as <- <-.
  repeat match goal with u : unit |- _ => destruct u end.
  match goal with H : path_open_w _ _ = _ |- _ => pose proof (open_w_run_exists _ _ _ H) end.
  exists_forward. env_inv. env_norm s. done.
Qed.

(** Split a run into its steps, the directory queries evaluated. *)
Ltac steps_inv :=
  repeat first [ st_inv_step
               | match goal with
                 | u : unit |- _ => destruct u
                 | H : bin_dir _ = (Ok _, _) |- _ => rewrite (proj1 (proj2 (dirs_run _))) in H; injection H as <- <-
                 | H : desktop_dir _ = (Ok _, _) |- _ => rewrite (proj1 (proj2 (proj2 (dirs_run _)))) in H; injection H as <- <-
                 | H : appimages_dir _ = (Ok _, _) |- _ => rewrite (proj1 (dirs_run _)) in H; injection H as <- <-
                 | H : downloads_dir _ = (Ok _, _) |- _ => rewrite (proj2 (proj2 (proj2 (dirs_run _)))) in H; injection H as <- <-
                 | H : load_config _ = (Ok _, _) |- _ => rewrite load_config_run in H; injection H as ? <-
                 | H : st_raise _ _ = (Ok _, _) |- _ => discriminate H
                 | H : io_lift _ _ = (Ok _, _) |- _ => apply io_lift_ok in H; destruct H as [H ->]
                 | H : record_path _ _ _ = (Ok _, _) |- _ => unfold record_path in H
                 | H : path_exists _ _ = (Ok _, _) |- _ =>
                     unfold path_exists in H; apply io_query_ok in H; destruct H as [H ->]
                 | H : create_desktop_file ?n _ _ ?s = (Ok tt, ?s') |- _ =>
                     assert_fails (assert (fs_exists (w_fs s') (w_cwd s')
                                    (desktop_path (w_env s) // (n +:+ ".desktop")) = true) by assumption);
                     pose proof (create_desktop_file_exists _ _ _ s s' H)
                 | H : path_open_w ?p ?s = (Ok tt, ?s') |- _ =>
                     assert_fails (assert (fs_exists (w_fs s') (w_cwd s') p = true) by assumption);
                     pose proof (open_w_run_exists p s s' H)
                 end ].

(** [shutil.move] into a plain destination that succeeds leaves something
    there. *)
Lemma shutil_move_run_exists src dst s s' :
  fs_wf (w_fs s) -> path_wf src = true -> path_name src <> ".." -> plain_path dst ->
  shutil_move_io src dst s = (Ok tt, s') -> fs_exists (w_fs s') (w_cwd s') dst = true.
Proof.
  intros Hwf Hsrc Hn Hdst. unfold shutil_move_io, io_update.
  destruct (shutil_move _ _ _ _) as [|m'] eqn:Hm; [done|]. intros [= <-].
  destruct (shutil_move_src _ _ _ _ _ Hm) as [ks Hks]. apply exists_plain; [by eapply shutil_move_wf|done|].
  rewrite <- (lex_key_plain (w_cwd s) dst) by done. by eapply shutil_move_dst_stays.
Qed.

Lemma keeps_tree_step {A} (m : io A) s o s' : keeps tree m -> m s = (o, s') -> fs_wf (w_fs s) -> fs_wf (w_fs s').
Proof. intros Hm H Hw. exact (Hm s o s' Hw H). Qed.

(** Carry the well-formedness of the file system forward through the
    steps of a run, keeping it at every intermediate world. *)
Ltac wf_forward :=
  repeat match goal with
  | W : fs_wf (w_fs ?s), H : ?m ?s = (_, ?s') |- _ =>
      assert_fails (assert (fs_wf (w_fs s')) by assumption);
      let W' := fresh "W" in
      assert (W' : fs_wf (w_fs s')) by (eapply (keeps_tree_step m s _ s'); [keeps_solve | exact H | exact W])
  end.

(** Derive, and keep, the equation of the environments of every step. *)
Ltac env_keep :=
  repeat match goal with
  | H : ?m ?s = (?o, ?s') |- _ =>
      assert_fails (assert (w_env s' = w_env s) by assumption);
      let E := fresh "Henv" in
      assert (E : w_env s' = w_env s) by (apply (preserves_use w_env m s o s'); [preserves_solve | exact H])
  end.

(** C7: after a successful [add], the launcher, the desktop entry and
    the bundle it recorded exist on disk, and the registry holds the
    record of those three paths under the chosen command (the
    specification's "for all successful add calls ... the bundle file,
    launcher, and desktop entry all exist on disk").  The bundle's
    clause needs the home directory to be an absolute path without
    [".."] and the selected bundle's name not to be [".."]; the
    launcher's and the desktop entry's need nothing. *)
Theorem add_appimage_installs args w w' d :
  fs_wf (w_fs w) -> plain_path (home_path (w_env w)) ->
  registry w = Ok (PDict d) -> add_appimage args w = (Ok tt, w') ->
  exists cmd name orig,
    let e := w_env w in
    let bundle := appimages_path e // path_name (path_of_string orig) in
    let desk := desktop_path e // (name +:+ ".desktop") in
    let launcher := bin_path e // cmd in
    registry w' = Ok (PDict (dict_setitem d cmd
                      (app_record name (path_str bundle) (path_str desk) (path_str launcher) orig))) /\
    on_disk w' launcher = true /\
    on_disk w' desk = true /\
    (path_name (path_of_string orig) <> ".." -> on_disk w' bundle = true).
Proof.
  intros Hwf Hhome Hreg Hrun. pose proof (registry_wf _ _ Hreg) as Hwfd. unfold on_disk.
  unfold add_appimage in Hrun. steps_inv. rewrite Hreg in *. simplify_eq.
  repeat (run_case; steps_inv). wf_forward. env_keep. env_norm w.
  exists a2, a0, (default "" a1). cbv zeta.
  assert (Hb : path_name (path_of_string (default "" a1)) <> ".." ->
    fs_exists (w_fs w') (w_cwd w') (appimages_path (w_env w) // path_name (path_of_string (default "" a1))) = true).
  { intros Hdd. match goal with H : shutil_move_io ?src ?dst ?s = (Ok tt, ?s') |- _ =>
      pose proof (shutil_move_run_exists src dst s s') as Hmv; apply Hmv in H; clear Hmv end;
      [exists_forward; done|assumption|apply path_of_string_wf|done|].
    apply plain_join; [apply plain_join; [done|reflexivity|discriminate]| |done].
    apply path_name_no_slash, path_of_string_wf. }
  exists_forward.
  match goal with H : inr _ = inr _ |- _ => injection H as <- end.
  match goal with H : save_config _ _ = _ |- _ =>
    apply registry_after_save in H; [|by apply pyval_wf_setitem, app_record_wf] end.
  repeat match goal with H : py_print _ _ = (Ok _, _) |- _ => apply py_print_ok in H; subst end.
  rewrite !registry_write_out. split_and!; [done| | |exact Hb]; by rewrite <- ?write_out_fs.
Qed.

(** ** The launcher [add] writes is executable *)

(** The mode of the file [p] names in [w], if it names a file. *)
Definition file_mode (w : world) (p : path) : option Z :=
  match fs_resolve (w_fs w) (w_cwd w) p with
  | inr k => match w_fs w !! k with Some (IFile _ mode) => Some mode | _ => None end
  | inl _ => None
  end.

(** [m'] keeps the directories of [m], and every file of [m] is a file
    of [m'] with the same mode. *)
Definition keeps_modes (m m' : fs) : Prop :=
  keeps_dirs m m' /\ forall j d mode, m !! j = Some (IFile d mode) -> exists d', m' !! j = Some (IFile d' mode).

Lemma keeps_modes_trans m1 m2 m3 : keeps_modes m1 m2 -> keeps_modes m2 m3 -> keeps_modes m1 m3.
Proof.
  intros [D1 F1] [D2 F2]. split; [intros j Hj; by apply D2, D1|].
  intros j d mode Hj. destruct (F1 _ _ _ Hj) as [d1 Hj1]. exact (F2 _ _ _ Hj1).
Qed.

Lemma keeps_modes_insert m k i :
  m !! k <> Some IDir -> i <> IDir -> (forall d mode, m !! k = Some (IFile d mode) -> exists d', i = IFile d' mode) ->
  keeps_modes m (<[k := i]> m).
Proof.
  intros Hk Hi Hf. split; [by apply keeps_dirs_insert_file|].
  intros j d mode Hj. destruct (decide (k = j)) as [<-|Hne].
  - destruct (Hf _ _ Hj) as [d' ->]. exists d'. by rewrite lookup_insert_eq.
  - exists d. by rewrite lookup_insert_ne.
Qed.

Lemma file_mode_keeps w w' p mode :
  w_env w' = w_env w -> keeps_modes (w_fs w) (w_fs w') -> file_mode w p = Some mode -> file_mode w' p = Some mode.
Proof.
  unfold file_mode, w_cwd. intros -> [D F].
  destruct (fs_resolve (w_fs w) _ p) as [|k] eqn:Hr; [done|]. rewrite (fs_resolve_keeps_dirs _ _ _ _ _ D Hr).
  destruct (w_fs w !! k) as [[d md|]|] eqn:Hk; [intros [= <-]|done|done].
  destruct (F _ _ _ Hk) as [d' ->]. done.
Qed.

(** Replacing an entry that is not a directory by a file changes no
    resolution. *)
Lemma resolve_file_insert m k i cwd p kp :
  fs_resolve m cwd p = inr kp -> m !! k <> Some IDir -> i <> IDir -> fs_resolve (<[k := i]> m) cwd p = inr kp.
Proof. intros Hr Hk Hi. by apply (resolve_insert_file m k i Hk Hi). Qed.

(** Writing a file keeps every mode: [open('w')] truncates an existing
    file without changing its mode. *)
Lemma write_text_keeps_modes m cwd u p data m' : fs_write_text m cwd u p data = inr m' -> keeps_modes m m'.
Proof.
  unfold fs_write_text, fs_open_w, fs_set_data.
  destruct (fs_resolve m cwd p) as [|k] eqn:Hr; [done|]. simpl.
  destruct (m !! k) as [[d0 md0|]|] eqn:Hk; simpl; [|done|];
    (erewrite resolve_file_insert; [|exact Hr|by rewrite Hk|discriminate]); simpl;
     rewrite lookup_insert_eq; intros [= <-]; rewrite insert_insert_eq;
     (apply keeps_modes_insert; [by rewrite Hk|discriminate|intros ? ?; rewrite Hk; intros [= <- <-]; by eexists]).
Qed.

(** [save_config] keeps every mode, whatever its outcome. *)
Lemma save_config_keeps_modes c s o s' :
  save_config c s = (o, s') -> w_env s' = w_env s /\ keeps_modes (w_fs s) (w_fs s').
Proof.
  unfold save_config. rewrite (st_bind_ok _ _ _ _ _ (config_file_run s)), write_text_update, io_update_run.
  destruct (fs_write_text _ _ _ _ _) as [e|m'] eqn:Hw; intros [= <- <-];
    [split; [done|split; [intros ? ?; done|eauto]]|].
  split; [done|]. exact (write_text_keeps_modes _ _ _ _ _ _ Hw).
Qed.

(** [f.write] and then [chmod] on the same path leave a file of that mode. *)
Lemma write_chmod_mode p data mode s s1 s2 :
  file_write p data s = (Ok tt, s1) -> path_chmod p mode s1 = (Ok tt, s2) -> file_mode s2 p = Some mode.
Proof.
  unfold file_write, path_chmod. intros H1 H2. io_inv. unfold file_mode, w_cwd in *. simpl in *.
  unfold fs_set_data, fs_chmod in *.
  destruct (fs_resolve (w_fs s) _ p) as [|k] eqn:Hr; [done|]. simpl in *.
  destruct (w_fs s !! k) as [[d0 md0|]|] eqn:Hk; [|done|done]. injection H1 as <-.
  assert (Hr1 : fs_resolve (<[k := IFile data md0]> (w_fs s)) (e_cwd (w_env s)) p = inr k)
    by (apply resolve_file_insert; [exact Hr|by rewrite Hk|discriminate]).
  rewrite Hr1 in H2. simpl in H2. rewrite lookup_insert_eq in H2. injection H2 as <-.
  rewrite (resolve_file_insert _ k _ _ p k Hr1) by (rewrite ?lookup_insert_eq; discriminate).
  by rewrite lookup_insert_eq.
Qed.

(** C14: after a successful [add], the launcher the new record names,
    [~/.local/bin/<cmd>], is a file with mode [0o755], whatever the
    umask: line 178 sets it after the launcher is written, and
    [save_config] only rewrites the registry, keeping every mode (even
    when the registry file is the launcher, the case of
    [add_command_escapes_bin]). *)
Theorem add_launcher_executable args w w' d :
  registry w = Ok (PDict d) -> add_appimage args w = (Ok tt, w') ->
  exists cmd rec, registry w' = Ok (PDict (dict_setitem d cmd rec)) /\
    py_getitem rec "launcher_path" = inr (PStr (path_str (bin_path (w_env w) // cmd))) /\
    file_mode w' (bin_path (w_env w) // cmd) = Some 493%Z.
Proof.
  intros Hreg Hrun. pose proof (registry_wf _ _ Hreg) as Hwfd.
  unfold add_appimage in Hrun. steps_inv. rewrite Hreg in *. simplify_eq.
  repeat (run_case; steps_inv). env_keep. env_norm w.
  match goal with H : inr _ = inr _ |- _ => injection H as <- end.
  match goal with
  | H1 : file_write ?p _ _ = (Ok tt, _), H2 : path_chmod ?p 493 _ = (Ok tt, _) |- _ =>
      pose proof (write_chmod_mode _ _ _ _ _ _ H1 H2) as Hm
  end.
  match goal with H : save_config _ _ = _ |- _ =>
    destruct (save_config_keeps_modes _ _ _ _ H) as [He Hk];
    apply registry_after_save in H; [|by apply pyval_wf_setitem, app_record_wf] end.
  repeat match goal with H : py_print _ _ = (Ok _, _) |- _ => apply py_print_ok in H; subst end.
  eexists _, _. rewrite !registry_write_out. split_and!; [done|reflexivity|].
  exact (file_mode_keeps _ _ _ _ He Hk Hm).
Qed.

(** ** [rm] *)

(** [unlink_if_exists p] changes at most the location of [p]. *)
Lemma unlink_if_exists_run p msg s s' :
  unlink_if_exists p msg s = (Ok tt, s') ->
  w_env s' = w_env s /\ keeps_dirs (w_fs s) (w_fs s') /\
  forall j, j <> lex_key (w_cwd s) p -> w_fs s' !! j = w_fs s !! j.
Proof.
  unfold unlink_if_exists, path_exists, path_unlink. intros H. io_inv.
  destruct a; cbn iota in H; io_inv; [|simpl in H; injection H as <-; split_and!; [done|apply keeps_dirs_refl|done]].
  match goal with Hu : fs_unlink _ _ _ = inr _ |- _ => apply unlink_delete in Hu as (k & d & mode & Hr & Hk & ->) end.
  split_and!; [done|by eapply keeps_dirs_delete_file|]. intros j Hj. simpl. rewrite lookup_delete_ne; [done|].
  intros ->. apply Hj. by eapply resolve_lexical.
Qed.

(** [save_config] changes at most the location of the registry file. *)
Lemma save_config_run c s s' :
  save_config c s = (Ok tt, s') ->
  w_env s' = w_env s /\ forall j, j <> lex_key (w_cwd s) (config_path (w_env s)) -> w_fs s' !! j = w_fs s !! j.
Proof.
  unfold save_config. intros H. rewrite (st_bind_ok _ _ _ _ _ (config_file_run s)), write_text_update in H.
  apply io_update_ok in H as (m & Hm & ->). apply write_text_insert in Hm as (k & i & Hr & ->).
  split; [done|]. intros j Hj. simpl. rewrite lookup_insert_ne; [done|].
  intros ->. apply Hj. by eapply resolve_lexical.
Qed.

Lemma fs_is_dir_keeps m m' cwd p : keeps_dirs m m' -> fs_is_dir m cwd p = true -> fs_is_dir m' cwd p = true.
Proof.
  intros D (k & Hr & Hk)%fs_is_dir_key. unfold fs_is_dir, fs_lookup.
  by rewrite (fs_resolve_keeps_dirs m m' cwd p k D Hr), (D k Hk).
Qed.

Lemma fs_exists_resolve m cwd p : fs_exists m cwd p = true -> exists k, fs_resolve m cwd p = inr k.
Proof. unfold fs_exists, fs_lookup. destruct (fs_resolve m cwd p); [done|eauto]. Qed.

(** The run has found [c] in the registry [d], where [Hc] says what it
    holds: [c in config] is true and [config[c]] is that record. *)
Ltac registry_found Hc :=
  match goal with H : py_in _ _ = inr _ |- _ => cbn in H; unfold dict_contains in H; rewrite Hc in H; injection H as <- end;
  match goal with H : _ = (Ok _, _) |- _ => change (negb true) with false in H; cbv iota in H end; steps_inv;
  match goal with H : py_getitem (PDict _) _ = inr _ |- _ => cbn in H; rewrite Hc in H; injection H as <- end.

(** [shutil.move(B, D)] into the directory [D] of a bundle [B] that
    exists: the bundle is then at [D / B.name] and no longer at [B]. *)
Lemma shutil_move_into_run B D s s' :
  fs_wf (w_fs s) -> plain_path B -> plain_path D -> plain_path (D // path_name B) ->
  fs_is_dir (w_fs s) (w_cwd s) D = true -> fs_exists (w_fs s) (w_cwd s) B = true ->
  p_parts B <> p_parts D -> ~ p_parts (D // path_name B) `prefix_of` p_parts B ->
  shutil_move_io B D s = (Ok tt, s') ->
  fs_exists (w_fs s') (w_cwd s') (D // path_name B) = true /\ w_fs s' !! p_parts B = None.
Proof.
  intros Hwf HB HD Hdst Hdir Hex Hne Hnp Hrun. assert (HBw : path_wf B = true) by apply HB.
  unfold shutil_move_io in Hrun. apply io_update_ok in Hrun as (m' & Hm & ->). simpl.
  destruct (fs_exists_resolve _ _ _ Hex) as [ks Hks]. pose proof (resolve_lexical _ _ _ _ Hks) as Hk.
  rewrite lex_key_plain in Hk by done. subst ks.
  destruct (shutil_move_into_dir (w_fs s) (w_cwd s) B D m' (p_parts B) Hwf HBw (plain_name B HB) Hks Hm)
    as [Hin Hout]; rewrite ?lex_key_plain by done; try done.
  split; [|done]. apply exists_plain; [exact (shutil_move_wf _ _ _ _ _ Hwf HBw Hm)|done|].
  by rewrite <- (lex_key_plain (w_cwd s)).
Qed.

(** C8: [rm c] without [-d] that succeeds moves the bundle back: it now
    exists in [~/Downloads] under its name and no longer at the path the
    record gave, and the registry has lost [c] (the specification's
    "[remove] ... (when delete-flag unset) the bundle file now exists in
    the downloads directory instead of the managed directory").  The
    hypotheses are what the findings show the property needs:
    [~/Downloads] is a directory (else the bundle becomes a file called
    [~/Downloads]), the bundle exists and is neither the desktop entry,
    nor the launcher, nor the registry file, nor [~/Downloads] or below
    its destination there; the paths are absolute without [".."]. *)
Theorem remove_appimage_moves_back c w w' d rec sd sl sa :
  let e := w_env w in let cwd := w_cwd w in
  let B := path_of_string sa in
  let dst := downloads_path e // path_name B in
  fs_wf (w_fs w) -> plain_path (home_path e) -> plain_path B ->
  fs_is_dir (w_fs w) cwd (downloads_path e) = true -> fs_exists (w_fs w) cwd B = true ->
  registry w = Ok (PDict d) -> dict_get d c = Some rec ->
  py_getitem rec "desktop_file" = inr (PStr sd) -> py_getitem rec "launcher_path" = inr (PStr sl) ->
  py_getitem rec "appimage_path" = inr (PStr sa) ->
  lex_key cwd (path_of_string sd) <> p_parts B -> lex_key cwd (path_of_string sl) <> p_parts B ->
  p_parts B <> p_parts (downloads_path e) -> ~ p_parts dst `prefix_of` p_parts B ->
  p_parts (config_path e) <> p_parts B ->
  remove_appimage c false w = (Ok tt, w') ->
  on_disk w' dst = true /\ on_disk w' B = false /\
  registry w' = Ok (PDict (dict_remove d c)).
Proof.
  intros e cwd B dst Hwf Hhome HB Hdl HBex Hreg Hc Hsd Hsl Hsa Hnd Hnl Hndl Hnp Hncf Hrun.
  subst e cwd B dst. unfold on_disk.
  pose proof (registry_wf _ _ Hreg) as Hwfd.
  unfold remove_appimage in Hrun. steps_inv. rewrite Hreg in *. simplify_eq.
  registry_found Hc.
  repeat match goal with H : sum_bind (py_getitem rec _) _ = inr _ |- _ =>
    rewrite ?Hsd, ?Hsl, ?Hsa in H; cbn in H; injection H as <- end.
  injection Hrun6 as <-. wf_forward. env_keep.
  apply unlink_if_exists_run in Hrun2 as (_ & Hk1 & Hl1).
  apply unlink_if_exists_run in Hrun4 as (_ & Hk3 & Hl3).
  unfold w_cwd in *. env_norm w.
  assert (HB3 : w_fs s3 !! p_parts (path_of_string sa) = w_fs w !! p_parts (path_of_string sa)) by (rewrite Hl3, Hl1; [done|congruence|congruence]).
  rewrite Henv, Henv0, Henv1, Henv2, Henv3.
  set (B := path_of_string sa) in *. set (cwd := e_cwd (w_env w)) in *. set (e := w_env w) in *.
  assert (HB3ex : fs_exists (w_fs s3) cwd B = true)
    by (apply exists_plain; [done|done|]; rewrite HB3; by apply (exists_plain (w_fs w) cwd B)).
  rewrite HB3ex in Hrun7. steps_inv.
  assert (HBw : path_wf B = true) by apply HB.
  pose proof (plain_join _ "Downloads" Hhome eq_refl ltac:(done)) as Hdlp. fold (downloads_path e) in Hdlp.
  pose proof (plain_join _ _ Hdlp (path_name_no_slash B HBw) (plain_name B HB)) as Hdstp.
  pose proof (plain_join _ ".appimage_installer_config.json" Hhome eq_refl ltac:(done)) as Hcfp. fold (config_path e) in Hcfp.
  rewrite Henv2, Henv3, (path_of_string_str B HBw) in Hrun1.
  destruct (shutil_move_into_run B (downloads_path e) s3 s0 W0 HB Hdlp Hdstp) as [E0 Hout];
    [unfold w_cwd; rewrite Henv2, Henv3..|exact Hndl|exact Hnp|exact Hrun1|].
  { by apply (fs_is_dir_keeps (w_fs s1)), (fs_is_dir_keeps (w_fs w)). }
  { exact HB3ex. }
  exists_forward. change (plain_path (config_path e)) in Hcfp.
  split; [unfold w_cwd in E; by rewrite Henv, Henv0, Henv1, Henv2, Henv3 in E|].
  assert (Ha7 : a7 = PDict (dict_remove d c))
    by (unfold py_delitem, dict_delitem, dict_contains in Hrun8; rewrite Hc in Hrun8; by injection Hrun8 as <-).
  subst a7. apply py_print_ok in Hrun7 as ->. apply py_print_ok in Hrun as ->.
  rewrite registry_write_out, write_out_fs. split.
  - destruct (fs_exists (w_fs s8) cwd B) eqn:Ex; [exfalso|done].
    apply exists_plain in Ex as [x Hx]; [|done|done].
    apply save_config_run in Hrun9 as (_ & Hl9). rewrite Hl9, write_out_fs, Hout in Hx; [done|].
    unfold w_cwd. rewrite Henv1, Henv2, Henv3, lex_key_plain by done. congruence.
  - eapply registry_after_save; [by apply pyval_wf_remove|exact Hrun9].
Qed.

(** C9: a successful [edit old new] renames the launcher: the file
    [Path(launcher_path).parent / new] exists afterwards and the recorded
    launcher no longer does (the specification's "after [edit] the
    launcher has the new name"), when the recorded path is absolute
    without [".."], [new] is a proper name, and neither the new launcher
    nor the registry file is the old launcher. *)
Theorem edit_command_moves_launcher old new w w' d rec sl :
  let L := path_of_string sl in let L' := path_parent L // new in
  fs_wf (w_fs w) -> plain_path L -> segment_ok new = true -> new <> ".." ->
  registry w = Ok (PDict d) -> dict_get d old = Some rec -> py_getitem rec "launcher_path" = inr (PStr sl) ->
  p_parts L' <> p_parts L -> lex_key (w_cwd w) (config_path (w_env w)) <> p_parts L ->
  edit_command old new w = (Ok tt, w') ->
  on_disk w' L' = true /\ on_disk w' L = false.
Proof.
  intros L L' Hwf HL Hseg Hdd Hreg Hc Hsl Hne Hncf Hrun. subst L L'. unfold on_disk.
  unfold edit_command in Hrun. steps_inv. rewrite Hreg in *. simplify_eq.
  registry_found Hc.
  match goal with H : sum_bind (py_getitem rec _) _ = inr _ |- _ => rewrite Hsl in H; cbn in H; injection H as <- end.
  wf_forward. env_keep.
  set (L := path_of_string sl) in *. set (L' := path_parent L // new) in *.
  assert (HL' : plain_path L').
  { apply plain_join; [by apply plain_parent | by apply andb_prop in Hseg as [_ ?] | done]. }
  split; [by exists_forward|].
  match goal with H : path_rename _ _ _ = _ |- _ => unfold path_rename in H; apply io_update_ok in H as (m1 & Hm1 & ->) end.
  destruct (os_rename_src _ _ _ _ _ Hm1) as [ks Hks].
  pose proof (resolve_lexical _ _ _ _ Hks) as Hk. rewrite lex_key_plain in Hk by done. subst ks.
  destruct (os_rename_post _ _ _ _ _ _ Hwf Hks Hm1) as [_ [[_ E]|(_ & _ & _ & Hgone & _)]];
    rewrite lex_key_plain in * by done; [congruence|].
  specialize (Hgone (p_parts L) ltac:(done) (join_parent_not_prefix _ _ Hseg Hne)).
  unfold path_open_w, file_write, path_chmod in *.
  repeat match goal with H : io_update _ _ = (Ok _, _) |- _ => apply io_update_ok in H as (? & ?Hm & ->) end.
  repeat match goal with
  | H : fs_open_w _ _ _ _ = inr _ |- _ => apply open_w_only in H
  | H : fs_set_data _ _ _ _ = inr _ |- _ => apply set_data_only in H
  | H : fs_chmod _ _ _ _ = inr _ |- _ => apply chmod_only in H
  end.
  match goal with H : save_config _ _ = _ |- _ => apply save_config_run in H as [Hce Hsave] end.
  match goal with H : py_print _ _ = _ |- _ => apply py_print_ok in H as -> end.
  rewrite write_out_fs. destruct (fs_exists _ _ L) eqn:Ex; [exfalso|done].
  apply exists_plain in Ex as [i Hx]; [|done|done]. rewrite lex_key_plain in * by done.
  rewrite Hsave in Hx; [|match goal with |- _ <> lex_key (w_cwd ?s) _ =>
    assert (Hs : w_env s = w_env w) by congruence; unfold w_cwd in *; rewrite Hs; congruence end].
  cbn [w_fs with_fs] in *. unfold only_at in *.
  repeat match goal with H : forall j, j <> p_parts L' -> _ |- _ => rewrite H in Hx by congruence; clear H end.
  congruence.
Qed.

(** [load_config()] when the registry reads as [v]. *)
Lemma load_config_ok w v : registry w = v -> load_config w = (v, w).
Proof. intros <-. apply load_config_run. Qed.

Lemma getitem_run d c rec w : dict_get d c = Some rec -> io_lift (py_getitem (PDict d) c) w = (Ok rec, w).
Proof. intros Hc. cbn. by rewrite Hc. Qed.

Lemma record_path_str v key s w :
  py_getitem v key = inr (PStr s) -> record_path v key w = (Ok (path_of_string s), w).
Proof. intros H. unfold record_path, io_lift, io_query. by rewrite H. Qed.

(** Run the common start of [rm] and [edit] forward, from a registry
    [d] ([Hreg]) in which the command is [rec] ([Hc]): load, [c in
    config], [config[c]]. *)
Ltac enter_record w Hreg Hc :=
  rewrite (st_bind_ok _ _ _ _ _ (load_config_ok w _ Hreg));
  cbn [io_lift io_query st_bind py_in]; unfold dict_contains; rewrite Hc; cbn [negb];
  rewrite (st_bind_ok _ _ _ _ _ (getitem_run _ _ _ w Hc)).

(** C21: [edit old new] when the recorded launcher does not exist fails
    loudly and changes nothing: [old_launcher_path.rename(...)] raises
    [FileNotFoundError] (or [NotADirectoryError]), before any file or the
    registry is touched (the specification's "fails loudly
    (unrecoverable exception) if the old command's launcher file does not
    exist"). *)
Theorem edit_command_missing_launcher old new w d rec sl :
  registry w = Ok (PDict d) -> dict_get d old = Some rec -> py_getitem rec "launcher_path" = inr (PStr sl) ->
  on_disk w (path_of_string sl) = false ->
  exists e, edit_command old new w = (Raise e, w) /\ exists s, e = FileNotFoundError s \/ e = NotADirectoryError s.
Proof.
  intros Hreg Hc Hsl Hx. destruct (os_rename_missing _ _ _ (path_parent (path_of_string sl) // new) Hx) as (e & He & Hk).
  exists e. split; [|done]. unfold edit_command.
  enter_record w Hreg Hc. rewrite (st_bind_ok _ _ _ _ _ (record_path_str _ _ _ w Hsl)).
  apply st_bind_exc. unfold path_rename, io_update. by rewrite He.
Qed.

(** ** What [list] prints *)

(** [app_info['app_name']] as [list] prints it. *)
Definition record_name (v : pyval) : string :=
  match py_getitem v "app_name" with inr n => py_str n | inl _ => EmptyString end.

(** The line [f"{command}: {app_info['app_name']}"]. *)
Definition list_line (kv : string * pyval) : string := kv.1 +:+ ": " +:+ record_name kv.2.

Lemma list_iter_run d w :
  Forall (fun kv => exists n, py_getitem kv.2 "app_name" = inr n) d ->
  exists w', st_iter (fun kv => n <- io_lift (py_getitem kv.2 "app_name") ;; py_print (kv.1 +:+ ": " +:+ py_str n)) d w
               = (Ok tt, w') /\
    w_fs w' = w_fs w /\ w_env w' = w_env w /\ w_stdout w' = w_stdout w ++ map (fun kv => list_line kv +:+ nl) d.
Proof.
  revert w. induction d as [|[c v] d IH]; intros w Hd; simpl; [exists w; by rewrite app_nil_r|].
  apply Forall_cons in Hd as [[n Hn] Hd]. simpl in Hn.
  assert (Hx : (n <- io_lift (py_getitem v "app_name") ;; py_print (c +:+ ": " +:+ py_str n)) w =
               (Ok tt, write_out w ((c +:+ ": " +:+ py_str n) +:+ nl)))
    by (unfold st_bind, io_lift, io_query; rewrite Hn; reflexivity).
  rewrite (st_bind_ok _ _ _ _ _ Hx).
  destruct (IH (write_out w ((c +:+ ": " +:+ py_str n) +:+ nl)) Hd) as (w' & Hrun & Hf & He & Ho).
  exists w'. split_and!; [done|done|done|]. rewrite Ho. simpl.
  rewrite <- app_assoc. simpl. unfold list_line, record_name. simpl. by rewrite Hn.
Qed.

(** C22: [list] without [-v] on a non-empty registry whose records have
    an [app_name] prints one line [command: app_name] per registered
    command, in the registry's order, then "List of all installed
    AppImages", and changes no file. *)
Theorem list_appimages_prints w d :
  registry w = Ok (PDict d) -> d <> [] -> Forall (fun kv => exists n, py_getitem kv.2 "app_name" = inr n) d ->
  exists w', list_appimages false w = (Ok tt, w') /\ w_fs w' = w_fs w /\
    w_stdout w' = w_stdout w ++ map (fun kv => list_line kv +:+ nl) d ++ ["List of all installed AppImages" +:+ nl].
Proof.
  intros Hreg Hne Hd. destruct (list_iter_run d w Hd) as (w1 & Hrun & Hf & _ & Ho).
  exists (write_out w1 ("List of all installed AppImages" +:+ nl)). unfold list_appimages.
  rewrite (st_bind_ok _ _ _ _ _ (load_config_ok w _ Hreg)).
  cbn [py_truthy]. rewrite bool_decide_false by done. cbn [negb].
  rewrite (st_bind_ok _ _ _ _ _ (eq_refl : io_lift (py_items (PDict d)) w = (Ok d, w))), (st_bind_ok _ _ _ _ _ Hrun).
  split_and!; [reflexivity|by rewrite write_out_fs|]. simpl. by rewrite Ho, <- app_assoc.
Qed.

(** ** [rm] skips the files that are missing *)

(** A registry with an entry was read from a file. *)
Lemma registry_file w d :
  registry w = Ok (PDict d) -> d <> [] ->
  exists k s mode, fs_resolve (w_fs w) (w_cwd w) (config_path (w_env w)) = inr k /\ w_fs w !! k = Some (IFile s mode).
Proof.
  intros H Hd. revert H. unfold registry, load_config, st_bind, path_exists, read_text, io_lift, io_query. simpl.
  unfold w_cwd. destruct (fs_exists _ _ _); simpl; [|by intros [= <-]].
  unfold fs_read_text. destruct (fs_resolve (w_fs w) (e_cwd (w_env w)) (config_path (w_env w))) as [|k] eqn:Hr;
    simpl; [done|].
  destruct (w_fs w !! k) as [[s mode|]|] eqn:Hk; simpl; [intros _; by exists k, s, mode|done|done].
Qed.

(** [save_config] succeeds where the registry file is a file. *)
Lemma save_config_ok v w d :
  registry w = Ok (PDict d) -> d <> [] -> exists w', save_config v w = (Ok tt, w').
Proof.
  intros Hreg Hd. destruct (registry_file w d Hreg Hd) as (k & s & mode & Hr & Hk).
  unfold save_config. rewrite (st_bind_ok _ _ _ _ _ (config_file_run w)), write_text_update, io_update_run.
  rewrite fs_write_text_spec, Hr, Hk. by eexists.
Qed.

Lemma unlink_if_exists_missing p msg w : on_disk w p = false -> unlink_if_exists p msg w = (Ok tt, w).
Proof. intros H. unfold unlink_if_exists, st_bind, path_exists, io_query. unfold on_disk in H. by rewrite H. Qed.

(** C23: [rm c] succeeds when none of the three files of the record
    exists: the missing desktop entry and launcher are skipped, the
    missing bundle is neither deleted nor moved, and the registry loses
    [c] (the specification's "missing files are silently skipped, not an
    error"). *)
Theorem remove_appimage_missing_files c del w d rec sd sl sa :
  registry w = Ok (PDict d) -> dict_get d c = Some rec ->
  py_getitem rec "desktop_file" = inr (PStr sd) -> py_getitem rec "launcher_path" = inr (PStr sl) ->
  py_getitem rec "appimage_path" = inr (PStr sa) ->
  on_disk w (path_of_string sd) = false -> on_disk w (path_of_string sl) = false ->
  on_disk w (path_of_string sa) = false ->
  exists w', remove_appimage c del w = (Ok tt, w') /\ registry w' = Ok (PDict (dict_remove d c)).
Proof.
  intros Hreg Hc Hsd Hsl Hsa Hd Hl Ha. pose proof (registry_wf _ _ Hreg) as Hwf.
  assert (Hne : d <> []) by (intros ->; discriminate Hc).
  destruct (save_config_ok (PDict (dict_remove d c)) w d Hreg Hne) as [w1 Hsave].
  exists (write_out w1 (("Successfully removed AppImage installation for '" +:+ c +:+ "'") +:+ nl)).
  unfold remove_appimage. enter_record w Hreg Hc. rewrite (st_bind_ok _ _ _ _ _ (record_path_str _ _ _ w Hsd)).
  rewrite (st_bind_ok _ _ _ _ _ (unlink_if_exists_missing _ _ w Hd)), (st_bind_ok _ _ _ _ _ (record_path_str _ _ _ w Hsl)).
  rewrite (st_bind_ok _ _ _ _ _ (unlink_if_exists_missing _ _ w Hl)), (st_bind_ok _ _ _ _ _ (record_path_str _ _ _ w Hsa)).
  assert (He : path_exists (path_of_string sa) w = (Ok false, w)) by (unfold path_exists, io_query; by rewrite <- Ha).
  rewrite (st_bind_ok _ _ _ _ _ He). cbv iota.
  rewrite (st_bind_ok _ _ _ _ _ (eq_refl : st_ret tt w = (Ok tt, w))).
  assert (Hdel : io_lift (py_delitem (PDict d) c) w = (Ok (PDict (dict_remove d c)), w))
    by (cbn; unfold dict_delitem, dict_contains; by rewrite Hc).
  rewrite (st_bind_ok _ _ _ _ _ Hdel), (st_bind_ok _ _ _ _ _ Hsave). split; [reflexivity|].
  rewrite registry_write_out. eapply registry_after_save; [by apply pyval_wf_remove|exact Hsave].
Qed.
