(* ===== verification/Sync.v ===== *)
(** * [sync] is idempotent

    The specification's property "[sync] is idempotent: running it twice
    in a row with no file-system changes between runs produces no
    additional registry entries on the second run".  The first run adds
    every command whose launcher and desktop entry exist and that is not
    registered yet ([synced]); the only file it writes is the registry
    file, which is neither a bundle in [~/.appimages], nor a launcher,
    nor a desktop entry, so the second run scans the same bundles, sees
    the same launchers and desktop entries, finds each command
    registered, and saves the registry unchanged.

    The frame of a write ([Frame]): writing a file at [k] changes neither
    the resolution of any path (no directory appears or disappears) nor
    the existence of a path that does not name [k], nor the listing of a
    directory [k] is not in. *)

From S2P Require Import Prelude PyDict PyStr PyObj Json PyPath Fs FsWf FsPost Glob Io Config Commands Main Invariant Registry PostState.

(** ** The frame of writing a file *)

Section Frame.
Context (m : fs) (k : list string) (i : inode).
Hypothesis (Hk : m !! k <> Some IDir) (Hi : i <> IDir).

Lemma exists_insert_file cwd p : lex_key cwd p <> k -> fs_exists (<[k := i]> m) cwd p = fs_exists m cwd p.
Proof.
  intros Hne. unfold fs_exists, fs_lookup.
  destruct (fs_resolve m cwd p) as [e|kp] eqn:Hr.
  - destruct (fs_resolve (<[k := i]> m) cwd p) as [|kp] eqn:Hr'; [done|].
    apply (resolve_insert_file m k i Hk Hi) in Hr'. congruence.
  - rewrite (proj2 (resolve_insert_file m k i Hk Hi cwd p kp) Hr). apply resolve_lexical in Hr as ->.
    by rewrite lookup_insert_ne.
Qed.

(** A directory [k] is not in lists what it listed. *)
Lemma scandir_insert_file j x : removelast k <> j -> x ∈ scandir (<[k := i]> m) j -> x ∈ scandir m j.
Proof.
  intros Hj. unfold scandir. rewrite !list_elem_of_omap. intros ([k' y] & Hin & Hx).
  apply elem_of_map_to_list in Hin. simpl in Hx. destruct (decide (k = k')) as [->|Hne].
  - destruct k' as [|a k']; [done|]. case_decide; [done|]. done.
  - exists (k', y). rewrite lookup_insert_ne in Hin by done. split; [by apply elem_of_map_to_list|done].
Qed.
End Frame.

(** ** One round of the loop of [sync_appimages] *)

(** The bundle [x] has its launcher and its desktop entry, as the round
    for [x] tests them (lines 43-52). *)
Definition entry_ready (m : fs) (cwd : list string) (bd dd x : path) : bool :=
  fs_exists m cwd (bd // command_of_name (path_stem x)) &&
  fs_exists m cwd (dd // (path_stem x +:+ ".desktop")).

(** The round for [x] changes no file; it keeps every command, adds
    [x]'s when [x] is ready, and changes nothing when [x]'s command is
    registered or [x] is not ready. *)
Lemma sync_entry_dict bd dd d x s c' s' :
  sync_entry bd dd (PDict d) x s = (Ok c', s') ->
  w_fs s' = w_fs s /\ w_env s' = w_env s /\ exists d', c' = PDict d' /\
  (forall j, dict_contains d j = true -> dict_contains d' j = true) /\
  (entry_ready (w_fs s) (w_cwd s) bd dd x = true -> dict_contains d' (command_of_name (path_stem x)) = true) /\
  ((entry_ready (w_fs s) (w_cwd s) bd dd x = true -> dict_contains d (command_of_name (path_stem x)) = true) -> d' = d).
Proof.
  unfold sync_entry, entry_ready. intros Hrun. steps_inv; repeat (run_case; steps_inv); run_inv;
    repeat match goal with H : inr _ = inr _ |- _ => injection H as H end; subst;
    (split; [done|]); (split; [done|]); (eexists; split; [reflexivity|]).
  all: repeat match goal with H : negb ?b = _ |- _ => destruct b; simpl in H; try discriminate H; clear H end.
  all: split_and!; simpl; intros; try done.
  - apply dict_contains_setitem. by right.
  - apply dict_contains_setitem. by left.
  - match goal with H : true = true -> _ |- _ => specialize (H eq_refl) end. congruence.
Qed.

(** ** The loop *)

Section Loop.
Context (bd dd : path).

(** The first run: the loop keeps every command and registers the
    command of every bundle it visits that is ready. *)
Lemma sync_fold_covers l : forall d s c s',
  st_foldl (sync_entry bd dd) (PDict d) l s = (Ok c, s') ->
  w_fs s' = w_fs s /\ w_env s' = w_env s /\ exists d', c = PDict d' /\
  (forall j, dict_contains d j = true -> dict_contains d' j = true) /\
  (forall x, x ∈ l -> entry_ready (w_fs s) (w_cwd s) bd dd x = true ->
     dict_contains d' (command_of_name (path_stem x)) = true).
Proof.
  induction l as [|x l IH]; intros d s c s' Hrun; simpl in Hrun.
  - injection Hrun as <- <-. split_and!; [done|done|]. exists d. split_and!; [done|done|]. by intros ? ?%elem_of_nil.
  - apply st_bind_ok_inv in Hrun as (c1 & s1 & H1 & H2).
    apply sync_entry_dict in H1 as (Hf1 & He1 & d1 & -> & Hm1 & Hx1 & _).
    apply IH in H2 as (Hf2 & He2 & d2 & -> & Hm2 & Hx2).
    unfold w_cwd in *. rewrite Hf1, He1 in Hx2. split_and!; [congruence|congruence|].
    exists d2. split_and!; [done|by auto|]. intros y [->|Hy]%elem_of_cons; [by auto|by apply Hx2].
Qed.

(** The second run: when every bundle it visits that is ready has its
    command registered, the loop returns the registry unchanged. *)
Lemma sync_fold_unchanged l : forall d s c s',
  (forall x, x ∈ l -> entry_ready (w_fs s) (w_cwd s) bd dd x = true ->
     dict_contains d (command_of_name (path_stem x)) = true) ->
  st_foldl (sync_entry bd dd) (PDict d) l s = (Ok c, s') -> c = PDict d.
Proof.
  induction l as [|x l IH]; intros d s c s' Hl Hrun; simpl in Hrun; [by injection Hrun as <- _|].
  apply st_bind_ok_inv in Hrun as (c1 & s1 & H1 & H2).
  apply sync_entry_dict in H1 as (Hf1 & He1 & d1 & -> & _ & _ & Hsame).
  rewrite Hsame in H2 by (apply Hl; by left). apply (IH d s1 c s'); [|done].
  unfold w_cwd. rewrite Hf1, He1. intros y Hy. apply Hl. by right.
Qed.
End Loop.

(** ** The registry file is none of the files [sync] looks at *)

Section Keys.
Context (e : env) (Hhome : plain_path (home_path e)).
Let H := p_parts (home_path e).

Lemma parts_join_segment p s : segment_ok s = true -> p_parts (p // s) = p_parts p ++ [s].
Proof. intros Hs. by rewrite join_segment. Qed.

Lemma config_parts : p_parts (config_path e) = H ++ [".appimage_installer_config.json"].
Proof. change (config_path e) with (home_path e // ".appimage_installer_config.json"). by rewrite parts_join_segment. Qed.

(** A step from a directory under [~/.local] stays under [~/.local]. *)
Lemma step_local t c : t <> [] -> exists u, step (H ++ ".local" :: t) c = H ++ ".local" :: u.
Proof.
  intros Ht. unfold step. case_match; [by eexists|]. case_match.
  - rewrite removelast_app by done. simpl. destruct t; [done|]. by eexists.
  - rewrite <- app_assoc. by eexists.
Qed.

(** [bd / c] and [dd / s] for a name without ["/"] are not the registry file. *)
Lemma local_not_config cwd b t c :
  plain_path b -> p_parts b = H ++ ".local" :: t -> t <> [] -> no_char slash c = true ->
  lex_key cwd (b // c) <> p_parts (config_path e).
Proof.
  intros Hb Hp Ht Hc. rewrite config_parts.
  assert (Hu : exists u, lex_key cwd (b // c) = H ++ ".local" :: u).
  { destruct (lex_key_join cwd b c Hc) as [E|E]; rewrite E, (lex_key_plain cwd b Hb), Hp;
      [by eexists|by apply step_local]. }
  destruct Hu as [u ->]. by intros [= Hl]%app_inv_head.
Qed.

Lemma bin_not_config cwd c : no_char slash c = true -> lex_key cwd (bin_path e // c) <> p_parts (config_path e).
Proof.
  apply (local_not_config cwd _ ["bin"]); [|unfold bin_path; by rewrite !parts_join_segment, <- app_assoc|done].
  apply plain_join; [apply plain_join|..]; done.
Qed.

Lemma desktop_not_config cwd c : no_char slash c = true -> lex_key cwd (desktop_path e // c) <> p_parts (config_path e).
Proof.
  apply (local_not_config cwd _ ["share"; "applications"]); [|unfold desktop_path; by rewrite !parts_join_segment, <- !app_assoc|done].
  apply plain_join; [apply plain_join; [apply plain_join|..]|..]; done.
Qed.

(** The registry file is not in [~/.appimages]. *)
Lemma config_not_in_appimages : removelast (p_parts (config_path e)) <> p_parts (appimages_path e).
Proof.
  rewrite config_parts, removelast_app by done. unfold appimages_path. rewrite parts_join_segment by done.
  simpl. rewrite app_nil_r. intros Hl. apply (f_equal (@List.length string)) in Hl.
  rewrite length_app in Hl. unfold H in Hl. simpl in Hl. lia.
Qed.
End Keys.

(** ** The names [sync] derives from a bundle's name *)

Lemma stem_child_no_slash p n :
  no_char slash n = true -> no_char slash (path_stem (path_child p n)) = true.
Proof.
  intros Hn. unfold path_stem, path_name, path_child. simpl. rewrite last_snoc. simpl.
  destruct (suffix_start n); [by apply str_forall_substring|done].
Qed.

(** The command and the desktop-entry name have no ["/"] when the
    bundle's name has none. *)
Lemma derived_no_slash p n :
  no_char slash n = true ->
  no_char slash (command_of_name (path_stem (path_child p n))) = true /\
  no_char slash (path_stem (path_child p n) +:+ ".desktop") = true.
Proof.
  intros Hn%(stem_child_no_slash p). split.
  - apply str_forall_py_replace; [by apply py_lower_no_char|done].
  - by rewrite no_char_app, Hn.
Qed.

(** ** [save_config] writes one file *)

Lemma save_config_write c s s' :
  save_config c s = (Ok tt, s') ->
  w_env s' = w_env s /\ exists i, i <> IDir /\
  w_fs s !! lex_key (w_cwd s) (config_path (w_env s)) <> Some IDir /\
  w_fs s' = <[lex_key (w_cwd s) (config_path (w_env s)) := i]> (w_fs s).
Proof.
  unfold save_config. intros Hs. rewrite (st_bind_ok _ _ _ _ _ (config_file_run s)), write_text_update in Hs.
  apply io_update_ok in Hs as (m & Hm & ->). rewrite fs_write_text_spec in Hm.
  destruct (fs_resolve _ _ _) as [|k] eqn:Hr; [done|]. apply resolve_lexical in Hr as <-.
  split; [done|]. destruct (w_fs s !! k) as [[]|] eqn:Hk; simplify_eq; (eexists; split_and!; [|congruence|reflexivity]; discriminate).
Qed.

(** ** The scan of [~/.appimages] after the write *)

(** What [Path.glob("*.AppImage")] lists after a file is written outside
    the directory, it listed before, as a child of that directory. *)
Lemma glob_insert_file m k i cwd p l l' x :
  m !! k <> Some IDir -> i <> IDir -> lex_key cwd p <> k -> removelast k <> lex_key cwd p ->
  path_glob m cwd p "*.AppImage" = inr l -> path_glob (<[k := i]> m) cwd p "*.AppImage" = inr l' ->
  x ∈ l' -> exists n, x = path_child p n /\ n ∈ scandir m (lex_key cwd p) /\ x ∈ l.
Proof.
  intros Hk Hi Hp Hrl. rewrite !(path_glob_one_segment "*.AppImage") by (done || reflexivity).
  destruct (fs_resolve m cwd p) as [e|kp] eqn:Hr.
  - destruct (fs_resolve (<[k := i]> m) cwd p) as [|kp] eqn:Hr'.
    + intros _ [= <-] ?%elem_of_nil. done.
    + apply resolve_insert_file in Hr'; [congruence|done|done].
  - rewrite (proj2 (resolve_insert_file m k i Hk Hi cwd p kp) Hr). pose proof (resolve_lexical _ _ _ _ Hr) as ->.
    unfold is_dir_key. rewrite lookup_insert_ne by congruence.
    destruct (m !! lex_key cwd p) as [[d mode|]|]; [by intros _ [= <-] ?%elem_of_nil| |by intros _ [= <-] ?%elem_of_nil].
    intros [= <-] [= <-] Hx. apply list_elem_of_In, in_map_iff in Hx as (n & <- & Hn%list_elem_of_In).
    apply list_elem_of_filter in Hn as [Hm Hn]. apply (scandir_insert_file m k i Hk _ n Hrl) in Hn.
    exists n. split_and!; [done|done|]. apply list_elem_of_In, in_map_iff. exists n. split; [done|].
    apply list_elem_of_In, list_elem_of_filter. by split.
Qed.

(** ** Idempotence *)

(** No name in the directory [dir] has a ["/"]. *)
Definition names_ok (m : fs) (dir : path) : Prop :=
  Forall (fun n => no_char slash n = true) (scandir m (p_parts dir)).

(** The second scan: each bundle it lists was listed by the first, and
    is ready as it was. *)
Lemma rescan e (Hhome : plain_path (home_path e)) m cwd i l l' x :
  Forall (fun n => no_char slash n = true) (scandir m (p_parts (appimages_path e))) ->
  m !! p_parts (config_path e) <> Some IDir -> i <> IDir ->
  path_glob m cwd (appimages_path e) "*.AppImage" = inr l ->
  path_glob (<[p_parts (config_path e) := i]> m) cwd (appimages_path e) "*.AppImage" = inr l' -> x ∈ l' ->
  x ∈ l /\ entry_ready (<[p_parts (config_path e) := i]> m) cwd (bin_path e) (desktop_path e) x =
           entry_ready m cwd (bin_path e) (desktop_path e) x.
Proof.
  intros Hnames Hk Hi Hg1 Hg2 Hx. assert (Had : plain_path (appimages_path e)) by (apply plain_join; done).
  destruct (glob_insert_file m _ i cwd (appimages_path e) l l' x Hk Hi)
    as (n & -> & Hn & Hx1); rewrite ?(lex_key_plain _ _ Had); try done.
  - rewrite config_parts. unfold appimages_path. rewrite parts_join_segment by done. by intros ?%app_inv_head.
  - by apply config_not_in_appimages.
  - rewrite Forall_forall in Hnames. rewrite (lex_key_plain _ _ Had) in Hn. apply Hnames in Hn.
    destruct (derived_no_slash (appimages_path e) n Hn) as [Hc Hd]. split; [done|].
    unfold entry_ready. by rewrite !exists_insert_file by (done || by apply bin_not_config || by apply desktop_not_config).
Qed.


(** C10: [sync] is idempotent: when two runs of [sync] follow each other
    with no other change to the file system, the second stores exactly
    the registry the first stored.  Hypotheses: the registry loads as a
    dict, the home directory is absolute without [".."], and no name in
    [~/.appimages] has a ["/"] (no Linux file name has one). *)
Theorem sync_appimages_idempotent w w1 w2 d :
  plain_path (home_path (w_env w)) -> registry w = Ok (PDict d) ->
  names_ok (w_fs w) (appimages_path (w_env w)) ->
  sync_appimages w = (Ok tt, w1) -> sync_appimages w1 = (Ok tt, w2) ->
  registry w2 = registry w1.
Proof.
  intros Hhome Hreg Hnames Hrun1 Hrun2.
  unfold sync_appimages in Hrun1. run_inv. rewrite Hreg in *. simplify_eq.
  unfold sync_appimages in Hrun2. run_inv.
  set (e := w_env w) in *. set (cwd := w_cwd w) in *.
  (* The first run: scan, loop, save. *)
  unfold path_glob_io in *. apply io_query_ok in Hrun5 as [Hg1 ->].
  pose proof Hrun6 as Hwf. apply (st_foldl_inv (sync_grows d)) in Hwf as (d1' & Hd1' & Hwf & _).
  2: { intros ??????. by apply sync_entry_grows. }
  2: { exists d. split_and!; [done | by eapply registry_wf | done | by intros ?? ->]. }
  apply sync_fold_covers in Hrun6 as (Hf4 & He4 & d1 & -> & _ & Hcov).
  injection Hd1' as <-.
  pose proof Hrun7 as Hreg1. apply registry_after_save in Hreg1; [|done].
  apply save_config_write in Hrun7 as (He5 & i & Hi & Hk & Hf5).
  rewrite registry_write_out, Hreg1 in H. injection H as <-.
  (* The second run sees the same bundles, launchers and desktop entries. *)
  assert (Hcfg : plain_path (config_path e)) by (apply plain_join; done).
  rewrite He4, Hf4 in Hk, Hf5. unfold w_cwd in Hk, Hf5. rewrite He4 in Hk, Hf5. fold e cwd in Hk, Hf5.
  rewrite (lex_key_plain _ (config_path e) Hcfg) in Hk, Hf5.
  apply io_query_ok in Hrun4 as [Hg2 ->]. rewrite write_out_fs, Hf5 in Hg2. unfold w_cwd in Hg2.
  rewrite write_out_env, He5, He4 in Hg2. fold e cwd in Hg2.
  apply sync_fold_unchanged in Hrun8.
  - subst. rewrite !registry_write_out, Hreg1. eapply registry_after_save; [done|exact Hrun9].
  - intros x Hx. assert (Hs5 : w_env s5 = e) by (rewrite He5, He4; reflexivity).
    unfold w_cwd. rewrite write_out_fs, write_out_env, Hf5, Hs5.
    destruct (rescan e Hhome (w_fs w) (e_cwd e) i a3 a5 x Hnames Hk Hi Hg1 Hg2 Hx) as [Hx1 ->]. by apply Hcov.
Qed.
