(* ===== verification/RmError.v ===== *)
(** * [rm] that fails keeps the registry

    [remove_appimage] (lines 196-229) deletes the desktop entry, deletes
    the launcher, deletes or moves back the bundle, and only then
    removes the record and saves the registry.  So a run that raises,
    at any of its file operations, ends before [save_config] has written
    anything, and the registry still records the command, even when the
    desktop entry and the launcher are already gone (the run
    [remove_conflict_keeps_record] of [Scenarios] is one).

    The proof is a frame argument: the files the run touches are not the
    registry file nor a directory above it ([agrees_above]), and the
    registry a world holds depends only on those entries
    ([registry_agrees]). *)

From S2P Require Import Prelude PyDict PyStr PyObj Json PyPath Fs FsWf FsPost Glob Io Config Commands Main Invariant Registry PostState Sync.

(** ** The entries above a key *)

Section Above.
Context (kc : list string).

(** [m'] has what [m] has at [kc] and at every directory above it. *)
Definition agrees_above (m m' : fs) : Prop := forall j, j `prefix_of` kc -> m' !! j = m !! j.

(** [kc] and every directory above it are entries of [m]. *)
Definition present_above (m : fs) : Prop := forall j, j `prefix_of` kc -> is_Some (m !! j).

Lemma agrees_above_refl m : agrees_above m m.
Proof. done. Qed.

Lemma agrees_above_trans m1 m2 m3 : agrees_above m1 m2 -> agrees_above m2 m3 -> agrees_above m1 m3.
Proof. intros H1 H2 j Hj. by rewrite H2, H1. Qed.

Lemma present_above_agrees m m' : present_above m -> agrees_above m m' -> present_above m'.
Proof. intros Hp Ha j Hj. rewrite Ha by done. by apply Hp. Qed.

(** Deleting a file that is not above [kc]. *)
Lemma unlink_agrees m cwd p m' :
  ~ lex_key cwd p `prefix_of` kc -> fs_unlink m cwd p = inr m' -> agrees_above m m'.
Proof.
  intros Hp (k & d & mode & Hr & Hk & ->)%unlink_delete. apply resolve_lexical in Hr as ->.
  intros j Hj. rewrite lookup_delete_ne; [done|]. intros Heq. subst j. by apply Hp.
Qed.

(** [shutil.move] from and to places that are not above [kc]. *)
Lemma move_agrees m cwd src dst m' :
  fs_wf m -> present_above m -> path_wf src = true -> path_name src <> ".." ->
  ~ lex_key cwd src `prefix_of` kc -> ~ lex_key cwd dst `prefix_of` kc ->
  ~ lex_key cwd (dst // path_name src) `prefix_of` kc ->
  shutil_move m cwd src dst = inr m' -> agrees_above m m'.
Proof.
  intros Hwf Hpres Hsrc Hn Hs Hd Hdn Hmv. destruct (shutil_move_src _ _ _ _ _ Hmv) as [ks Hks].
  pose proof (resolve_lexical _ _ _ _ Hks) as ->.
  destruct (shutil_move_post _ _ _ _ _ _ Hwf Hsrc Hn Hks Hmv) as [_ [[-> _]|(_ & _ & _ & _ & Hmoved)]]; [done|].
  intros j Hj. destruct (Hpres j Hj) as [i Hi]. rewrite Hi. apply Hmoved; [| |exact Hi].
  - intros Hp. apply Hs. by etrans.
  - intros Hp. destruct (fs_is_dir m cwd dst); [apply Hdn|apply Hd]; by etrans.
Qed.
End Above.

(** ** The registry depends on the entries above the registry file *)

Lemma walk_agrees m m' cur comps err :
  Forall (fun c => c <> "." /\ c <> "..") comps ->
  (forall j, j `prefix_of` cur ++ comps -> m' !! j = m !! j) -> walk m' cur comps err = walk m cur comps err.
Proof.
  revert cur. induction comps as [|c [|c' rest] IH]; intros cur Hc Hj; [done|done|].
  apply Forall_cons in Hc as [[H1 H2] Hc]. cbn [walk]. rewrite step_plain by done.
  rewrite Hj by (exists (c' :: rest); by rewrite <- app_assoc).
  destruct (m !! (cur ++ [c])) as [[]|]; [done| |done].
  apply IH; [done|]. intros j Hp. apply Hj. by rewrite <- app_assoc in Hp.
Qed.

Lemma resolve_agrees m m' cwd p :
  plain_path p -> agrees_above (p_parts p) m m' -> fs_resolve m' cwd p = fs_resolve m cwd p.
Proof.
  intros Hp Ha. pose proof (plain_parts p Hp) as Hc. destruct Hp as (Hr & _ & _). unfold fs_resolve.
  destruct (p_root p); [done|]. rewrite Ha by apply prefix_nil.
  destruct (m !! []) as [[]|]; [done| |done]. by apply walk_agrees.
Qed.

(** What [load_config] returns, from the two reads it makes. *)
Lemma registry_reads w :
  registry w =
    if fs_exists (w_fs w) (w_cwd w) (config_path (w_env w)) then
      match fs_read_text (w_fs w) (w_cwd w) (config_path (w_env w)) with
      | inl e => Raise e
      | inr s => match jc_loads s with Some v => Ok v | None => Raise JSONDecodeError end
      end
    else Ok (PDict []).
Proof.
  unfold registry, load_config, st_bind, path_exists, read_text, io_lift, io_query. simpl.
  destruct (fs_exists _ _ _); simpl; [|done].
  destruct (fs_read_text _ _ _) as [|s]; simpl; [done|]. by destruct (loads s).
Qed.

Lemma lookup_agrees m m' cwd p :
  plain_path p -> agrees_above (p_parts p) m m' ->
  fs_resolve m' cwd p = fs_resolve m cwd p /\
  forall k, fs_resolve m cwd p = inr k -> m' !! k = m !! k.
Proof.
  intros Hp Ha. split; [by apply resolve_agrees|].
  intros k Hr. rewrite (resolve_lexical _ _ _ _ Hr), (lex_key_plain _ _ Hp). by apply Ha.
Qed.

(** The registry of [w'] is that of [w] when the environment is the same
    and the registry file and the directories above it are. *)
Lemma registry_agrees w w' :
  plain_path (config_path (w_env w)) -> w_env w' = w_env w ->
  agrees_above (p_parts (config_path (w_env w))) (w_fs w) (w_fs w') -> registry w' = registry w.
Proof.
  intros Hp He Ha. rewrite !registry_reads. unfold w_cwd. rewrite He.
  destruct (lookup_agrees _ _ (e_cwd (w_env w)) _ Hp Ha) as [Hr Hk].
  unfold fs_exists, fs_lookup, fs_read_text. rewrite Hr.
  destruct (fs_resolve (w_fs w) _ _) as [|k] eqn:Hres; [done|]. rewrite !sum_bind_inr. by rewrite (Hk k eq_refl).
Qed.

(** ** The steps of [rm] keep the frame of the registry *)

Section RmSteps.
Context (e : env) (Hhome : plain_path (home_path e)).

(** [~/Downloads] and what lies in it are not above the registry file. *)
Lemma downloads_not_above cwd n :
  no_char slash n = true -> n <> ".." ->
  ~ lex_key cwd (downloads_path e) `prefix_of` p_parts (config_path e) /\
  ~ lex_key cwd (downloads_path e // n) `prefix_of` p_parts (config_path e).
Proof.
  intros Hn Hdd. assert (Hd : plain_path (downloads_path e)) by (apply plain_join; done).
  assert (Hl : lex_key cwd (downloads_path e) = p_parts (home_path e) ++ ["Downloads"]).
  { rewrite (lex_key_plain _ _ Hd). unfold downloads_path. by rewrite parts_join_segment. }
  assert (Hnot : forall u, ~ (p_parts (home_path e) ++ "Downloads" :: u) `prefix_of` p_parts (config_path e)).
  { intros u [r Hr]. rewrite (config_parts e), <- app_assoc in Hr. by apply app_inv_head in Hr. }
  split; [rewrite Hl; apply Hnot|].
  destruct (lex_key_join cwd (downloads_path e) n Hn) as [->| ->]; rewrite Hl; [apply Hnot|].
  unfold step. destruct (String.eqb n ".") ; [apply Hnot|].
  rewrite (proj2 (String.eqb_neq _ _) Hdd), <- app_assoc. apply Hnot.
Qed.

Context (w0 : world) (Hpres : present_above (p_parts (config_path e)) (w_fs w0)).

(** What every world of a failing [rm] keeps: the environment, a tree,
    and the registry file with the directories above it. *)
Definition rm_frame (w : world) : Prop :=
  w_env w = e /\ fs_wf (w_fs w) /\ agrees_above (p_parts (config_path e)) (w_fs w0) (w_fs w).

Lemma frame_same w w1 : w_fs w1 = w_fs w -> w_env w1 = w_env w -> rm_frame w -> rm_frame w1.
Proof. intros Hf He' (He & Hwf & Ha). unfold rm_frame. by rewrite Hf, He'. Qed.

Lemma frame_unlink p w o w1 :
  ~ lex_key (e_cwd e) p `prefix_of` p_parts (config_path e) ->
  rm_frame w -> path_unlink p w = (o, w1) -> rm_frame w1.
Proof.
  intros Hp (He & Hwf & Ha) H. unfold path_unlink, io_update in H.
  destruct (fs_unlink _ _ _) as [|m'] eqn:Hu; injection H as <- <-; [done|].
  unfold w_cwd in Hu. rewrite He in Hu. split_and!; [done|by eapply unlink_wf|].
  eapply agrees_above_trans; [exact Ha|]. by eapply unlink_agrees.
Qed.

Lemma frame_unlink_if_exists p msg w o w1 :
  ~ lex_key (e_cwd e) p `prefix_of` p_parts (config_path e) ->
  rm_frame w -> unlink_if_exists p msg w = (o, w1) -> rm_frame w1.
Proof.
  intros Hp Hw H. unfold unlink_if_exists, st_bind, path_exists, io_query in H.
  destruct (fs_exists _ _ _); [|by injection H as <- <-].
  destruct (path_unlink p w) as [[]  w2] eqn:Hu; [|by injection H as <- <-; eapply frame_unlink].
  injection H as <- <-. apply (frame_same w2); [done|done|]. by eapply frame_unlink.
Qed.

Lemma frame_move src w o w1 :
  path_wf src = true -> path_name src <> ".." ->
  ~ lex_key (e_cwd e) src `prefix_of` p_parts (config_path e) ->
  rm_frame w -> shutil_move_io src (downloads_path e) w = (o, w1) -> rm_frame w1.
Proof.
  intros Hs Hn Hk (He & Hwf & Ha) H. unfold shutil_move_io, io_update in H.
  destruct (shutil_move _ _ _ _) as [|m'] eqn:Hm; injection H as <- <-; [done|].
  unfold w_cwd in Hm. rewrite He in Hm.
  destruct (downloads_not_above (e_cwd e) (path_name src) (path_name_no_slash src Hs) Hn) as [Hd1 Hd2].
  split_and!; [done|by eapply shutil_move_wf|].
  eapply agrees_above_trans; [exact Ha|].
  eapply move_agrees; [exact Hwf|by eapply present_above_agrees|exact Hs|exact Hn|exact Hk|exact Hd1|exact Hd2|exact Hm].
Qed.

Lemma frame_print s w o w1 : rm_frame w -> py_print s w = (o, w1) -> o = Ok tt /\ rm_frame w1.
Proof. intros F [= <- <-]. split; [done|]. by apply (frame_same w). Qed.

Lemma frame_query {A} (f : world -> exc + A) w o w1 : rm_frame w -> io_query f w = (o, w1) -> rm_frame w1.
Proof. intros F. unfold io_query. destruct (f w); by intros [= _ <-]. Qed.

(** [save_config] that raises writes nothing. *)
Lemma save_config_raise c w e' w1 : save_config c w = (Raise e', w1) -> w1 = w.
Proof.
  unfold save_config. rewrite (st_bind_ok _ _ _ _ _ (config_file_run w)), write_text_update, io_update_run.
  destruct (fs_write_text _ _ _ _ _); by intros [= _ <-].
Qed.
End RmSteps.

(** The registry file and the directories above it exist in a tree
    where the file does. *)
Lemma present_of_entry m k i : fs_wf m -> m !! k = Some i -> present_above k m.
Proof.
  intros Hwf Hk j [r ->]. destruct r as [|x r]; [rewrite app_nil_r in Hk; by eexists|].
  rewrite (ancestor_dir m j (x :: r) i Hwf Hk); [by eexists|done].
Qed.

Lemma config_plain e : plain_path (home_path e) -> plain_path (config_path e).
Proof. intros Hh. apply plain_join; [done|reflexivity|discriminate]. Qed.

(** The registry of a world in the frame of [w] is that of [w]. *)
Lemma frame_registry w w' :
  plain_path (home_path (w_env w)) -> rm_frame (w_env w) w w' -> registry w' = registry w.
Proof. intros Hh (He & _ & Ha). by apply registry_agrees; [apply config_plain|..]. Qed.

(** C20: a run of [rm c] that raises leaves the registry as it was: the
    record is removed and the registry saved (lines 226-227) only after
    every file operation succeeded.  So when [shutil.move] raises
    because [~/Downloads] already holds a file of the bundle's name, or
    the bundle cannot be deleted, [c] stays registered although its
    desktop entry and launcher may already be deleted.  The paths of
    the record must not be the registry file or a directory above it,
    and the bundle's name not [".."]. *)
Theorem remove_error_keeps_registry c del w w' err d rec sd sl sa :
  fs_wf (w_fs w) -> plain_path (home_path (w_env w)) ->
  registry w = Ok (PDict d) -> dict_get d c = Some rec ->
  py_getitem rec "desktop_file" = inr (PStr sd) -> py_getitem rec "launcher_path" = inr (PStr sl) ->
  py_getitem rec "appimage_path" = inr (PStr sa) ->
  Forall (fun s => ~ lex_key (w_cwd w) (path_of_string s) `prefix_of` p_parts (config_path (w_env w))) [sd; sl; sa] ->
  path_name (path_of_string sa) <> ".." ->
  remove_appimage c del w = (Raise err, w') -> registry w' = Ok (PDict d).
Proof.
  intros Hwf Hh Hreg Hc Hsd Hsl Hsa Hk Hn Hrun.
  rewrite <- Hreg. apply (frame_registry w w' Hh).
  apply Forall_cons in Hk as [Kd Hk]. apply Forall_cons in Hk as [Kl Hk]. apply Forall_cons in Hk as [Ka _].
  unfold w_cwd in *.
  assert (Hpres : present_above (p_parts (config_path (w_env w))) (w_fs w)).
  { destruct (registry_file w d Hreg ltac:(by intros ->)) as (k & s & mode & Hr & Hkf).
    rewrite (resolve_lexical _ _ _ _ Hr), (lex_key_plain _ _ (config_plain _ Hh)) in Hkf.
    exact (present_of_entry _ _ _ Hwf Hkf). }
  assert (F0 : rm_frame (w_env w) w w) by (split_and!; [done|done|apply agrees_above_refl]).
  unfold remove_appimage in Hrun.
  rewrite (st_bind_ok _ _ _ _ _ (load_config_ok w _ Hreg)) in Hrun.
  cbn [io_lift io_query st_bind py_in] in Hrun. unfold dict_contains in Hrun. rewrite Hc in Hrun.
  cbn [negb] in Hrun. rewrite (st_bind_ok _ _ _ _ _ (getitem_run _ _ _ w Hc)) in Hrun.
  rewrite (st_bind_ok _ _ _ _ _ (record_path_str _ _ _ w Hsd)) in Hrun.
  apply st_bind_raise_inv in Hrun as [H1|(u1 & w1 & H1 & Hrun)]; [exact (frame_unlink_if_exists _ w _ _ _ _ _ Kd F0 H1)|].
  pose proof (frame_unlink_if_exists _ w _ _ _ _ _ Kd F0 H1) as F1.
  rewrite (st_bind_ok _ _ _ _ _ (record_path_str _ _ _ w1 Hsl)) in Hrun.
  apply st_bind_raise_inv in Hrun as [H2|(u2 & w2 & H2 & Hrun)]; [exact (frame_unlink_if_exists _ w _ _ _ _ _ Kl F1 H2)|].
  pose proof (frame_unlink_if_exists _ w _ _ _ _ _ Kl F1 H2) as F2.
  rewrite (st_bind_ok _ _ _ _ _ (record_path_str _ _ _ w2 Hsa)) in Hrun.
  apply st_bind_raise_inv in Hrun as [H3|(b & w3 & H3 & Hrun)]; [by unfold path_exists, io_query in H3|].
  pose proof (frame_query _ _ _ _ _ _ F2 H3) as F3.
  (* the bundle: deleted, moved back, or missing *)
  assert (Fb : forall o w4,
    (if b then
       if del then path_unlink (path_of_string sa) ;; py_print ("Deleted AppImage: " +:+ path_str (path_of_string sa))
       else dl <- downloads_dir ;; shutil_move_io (path_of_string (path_str (path_of_string sa))) dl ;;
            py_print ("Moved AppImage back to: " +:+ path_str (dl // path_name (path_of_string sa)))
     else ret tt) w3 = (o, w4) -> rm_frame (w_env w) w w4).
  { intros o w4 H. destruct b; [destruct del|by injection H as _ <-].
    - unfold st_bind in H. destruct (path_unlink _ w3) as [o1 w5] eqn:Hu.
      pose proof (frame_unlink _ w _ _ _ _ Ka F3 Hu) as F5.
      destruct o1; [exact (proj2 (frame_print _ _ _ _ _ _ F5 H))|by injection H as _ <-].
    - rewrite (st_bind_ok _ _ _ _ _ (proj2 (proj2 (proj2 (dirs_run w3))))) in H.
      destruct F3 as [He3 F3']. rewrite He3 in H.
      rewrite path_of_string_str in H by apply path_of_string_wf.
      unfold st_bind in H. destruct (shutil_move_io _ _ w3) as [o1 w5] eqn:Hm.
      pose proof (frame_move _ Hh w Hpres (path_of_string sa) w3 _ _ (path_of_string_wf sa) Hn Ka (conj He3 F3') Hm) as F5.
      destruct o1; [exact (proj2 (frame_print _ _ _ _ _ _ F5 H))|by injection H as _ <-]. }
  apply st_bind_raise_inv in Hrun as [H4|(u4 & w4 & H4 & Hrun)]; [exact (Fb _ _ H4)|].
  pose proof (Fb _ _ H4) as F4.
  apply st_bind_raise_inv in Hrun as [H5|(c' & w5 & H5 & Hrun)]; [exact (frame_query _ _ _ _ _ _ F4 H5)|].
  pose proof (frame_query _ _ _ _ _ _ F4 H5) as F5.
  apply st_bind_raise_inv in Hrun as [H6|(u6 & w6 & H6 & Hrun)]; [by rewrite (save_config_raise _ _ _ _ H6)|].
  by injection Hrun.
Qed.
