(* ===== verification/Loops.v ===== *)
(** * The two [while] loops of the script terminate and answer

    [choose_loop] (lines 89-96 of [select_appimage]) and [unique_loop]
    (lines 107-109 of [get_unique_command]) are written with fuel.  This
    file shows that the fuel the script's model gives them is enough:
    with more fuel the result is the same, so the model computes what the
    unbounded Python loop computes, and the theorems say what that result
    is.  [choose_loop_answers] is the loop's progress: the first valid
    number on the input ends it. *)

From S2P Require Import Prelude PyDict PyStr PyObj Json PyPath Fs Glob Io Config Commands.

(** ** [choose_loop] *)

(** The rounds the loop may take on [w]: one per line left on standard
    input, and the round that finds no line; [select_appimage] gives the
    loop this fuel ([stdin_fuel_run]). *)
Definition rounds_bound (w : world) : nat := S (List.length (w_stdin w)).

Lemma stdin_fuel_run w : stdin_fuel w = (Ok (rounds_bound w), w).
Proof. reflexivity. Qed.

Definition choose_prompt : string := get_user_input_prompt "Enter the number of your choice" "".

(** One round of the loop: read a line (or raise [EOFError]), then return
    the chosen bundle or print a message and go round again. *)
Lemma choose_loop_step f imgs w :
  choose_loop (S f) imgs w =
  match w_stdin w with
  | [] => (Raise EOFError, write_out w choose_prompt)
  | l :: rest =>
      let w1 := with_stdin (write_out w choose_prompt) rest in
      match py_int (if String.eqb l "" then "" else l) with
      | None => choose_loop f imgs (write_out w1 ("Please enter a valid number." +:+ nl))
      | Some choice =>
          if (1 <=? choice)%Z && (choice <=? Z.of_nat (List.length imgs))%Z
          then (Ok (path_str (nth (Z.to_nat choice - 1) imgs (mkpath "" []))), w1)
          else choose_loop f imgs (write_out w1 ("Invalid choice. Please try again." +:+ nl))
      end
  end.
Proof.
  simpl. unfold st_bind at 1, get_user_input, st_bind, py_input. simpl.
  destruct (w_stdin w); [done|]. simpl. destruct (py_int _); [|done].
  by destruct (_ && _).
Qed.

Lemma stdin_write_out w s : w_stdin (write_out w s) = w_stdin w.
Proof. done. Qed.

Lemma stdin_with_stdin w l : w_stdin (with_stdin w l) = l.
Proof. done. Qed.

#[export] Hint Rewrite stdin_write_out stdin_with_stdin : io_rw.

(** C16: the loop needs no more rounds than there are lines left on
    standard input, plus one: any more fuel gives the same run. *)
Theorem choose_loop_enough_fuel f imgs w :
  rounds_bound w <= f -> choose_loop f imgs w = choose_loop (rounds_bound w) imgs w.
Proof.
  unfold rounds_bound. revert w. induction f as [|f IH]; intros w Hf; [lia|].
  rewrite !choose_loop_step. destruct (w_stdin w) as [|l rest] eqn:Hin; [done|].
  simpl in Hf. cbv zeta.
  destruct (py_int _) as [z|]; [destruct (_ && _); [done|]|];
    (rewrite IH; autorewrite with io_rw; [done | lia]).
Qed.

(** The number an input line selects, when it is a valid answer: it
    parses with [int(...)] and [1 <= choice <= len(app_images)]. *)
Definition valid_choice (imgs : list path) (l : string) : option Z :=
  match py_int (if String.eqb l "" then "" else l) with
  | Some z => if (1 <=? z)%Z && (z <=? Z.of_nat (List.length imgs))%Z then Some z else None
  | None => None
  end.

Lemma choose_loop_answers_fuel imgs l rest z bad : forall f w,
  w_stdin w = bad ++ l :: rest -> Forall (fun b => valid_choice imgs b = None) bad ->
  valid_choice imgs l = Some z -> List.length bad < f ->
  exists w', choose_loop f imgs w = (Ok (path_str (nth (Z.to_nat z - 1) imgs (mkpath "" []))), w') /\
             w_stdin w' = rest.
Proof.
  induction bad as [|b bad IH]; intros [|f] w Hin Hbad Hl Hf; simpl in Hf; try lia;
    rewrite choose_loop_step, Hin; cbn [app]; cbv zeta.
  - unfold valid_choice in Hl. destruct (py_int _); [|done].
    destruct (_ && _); [injection Hl as ->; eexists; split; [reflexivity|reflexivity]|done].
  - apply Forall_cons in Hbad as [Hb Hbad]. unfold valid_choice in Hb.
    destruct (py_int _); [destruct (_ && _); [done|]|]; apply IH; autorewrite with io_rw; done || lia.
Qed.

(** C18: the loop answers: when the lines left on standard input are some
    invalid answers, then a valid one [l], the loop of [select_appimage],
    with the fuel it is given, returns the bundle [l] selects and has
    read exactly up to [l]. *)
Theorem choose_loop_answers imgs w bad l rest z :
  w_stdin w = bad ++ l :: rest -> Forall (fun b => valid_choice imgs b = None) bad ->
  valid_choice imgs l = Some z ->
  exists w', choose_loop (rounds_bound w) imgs w =
               (Ok (path_str (nth (Z.to_nat z - 1) imgs (mkpath "" []))), w') /\ w_stdin w' = rest.
Proof.
  intros Hin Hbad Hl. apply (choose_loop_answers_fuel imgs l rest z bad); try done.
  unfold rounds_bound. rewrite Hin, length_app. simpl. lia.
Qed.

(** A round on an invalid answer reads it and goes round again. *)
Lemma choose_loop_invalid f imgs w l rest :
  w_stdin w = l :: rest -> valid_choice imgs l = None ->
  exists w1, w_stdin w1 = rest /\ choose_loop (S f) imgs w = choose_loop f imgs w1.
Proof.
  intros Hin Hv. rewrite choose_loop_step, Hin. cbv zeta. unfold valid_choice in Hv.
  destruct (py_int _); [destruct (_ && _); [done|]|]; (eexists; split; [|reflexivity]; reflexivity).
Qed.

(** A round on a valid answer ends the loop with the bundle it selects. *)
Lemma choose_loop_valid f imgs w l rest z :
  w_stdin w = l :: rest -> valid_choice imgs l = Some z ->
  exists w1, w_stdin w1 = rest /\
    choose_loop (S f) imgs w = (Ok (path_str (nth (Z.to_nat z - 1) imgs (mkpath "" []))), w1).
Proof.
  intros Hin Hv. rewrite choose_loop_step, Hin. cbv zeta. unfold valid_choice in Hv.
  destruct (py_int _); [destruct (_ && _); [injection Hv as ->|done]|done]. by eexists; split; [|reflexivity].
Qed.

(** C17: what the loop returns is explained by the lines it read: when
    it returns [s], the lines it consumed are some invalid answers and
    then one valid answer [l], and [s] is the bundle listed under the
    number [l] gives; when it raises, the exception is [EOFError] and
    every line it consumed was an invalid answer.  With [choose_loop_answers]
    this is the exact behaviour of the [while True] loop of lines 89-96. *)
Theorem choose_loop_result f imgs w :
  match choose_loop f imgs w with
  | (Ok s, w') =>
      exists bad l z, w_stdin w = bad ++ l :: w_stdin w' /\
        Forall (fun b => valid_choice imgs b = None) bad /\ valid_choice imgs l = Some z /\
        s = path_str (nth (Z.to_nat z - 1) imgs (mkpath "" []))
  | (Raise e, w') =>
      e = EOFError /\ exists bad, w_stdin w = bad ++ w_stdin w' /\ Forall (fun b => valid_choice imgs b = None) bad
  end.
Proof.
  revert w. induction f as [|f IH]; intros w; [split; [done|by exists []]|].
  destruct (w_stdin w) as [|l rest] eqn:Hin.
  { rewrite choose_loop_step, Hin. split; [done|by exists []]. }
  destruct (valid_choice imgs l) as [z|] eqn:Hv.
  - destruct (choose_loop_valid f imgs w l rest z Hin Hv) as (w1 & H1 & ->). exists [], l, z. by rewrite H1.
  - destruct (choose_loop_invalid f imgs w l rest Hin Hv) as (w1 & H1 & ->).
    specialize (IH w1). destruct (choose_loop f imgs w1) as [[s|e] w'].
    + destruct IH as (bad & l' & z & Hs & Hbad & Hl & ->).
      exists (l :: bad), l', z. rewrite <- H1, Hs. by split_and!; [|constructor|..].
    + destruct IH as [-> (bad & Hs & Hbad)]. split; [done|].
      exists (l :: bad). rewrite <- H1, Hs. by split; [|constructor].
Qed.

(** ** [unique_loop] *)

Section UniqueLoop.
Context (base : string) (w : world).

(** [shutil.which(c)] finds something in the world [w]. *)
Definition taken (c : string) : Prop := is_Some (which (w_fs w) (w_cwd w) (e_path (w_env w)) c).

#[local] Instance taken_dec c : Decision (taken c).
Proof. unfold taken. apply _. Defined.

Lemma check_command_exists_run c : check_command_exists c w = (Ok (bool_decide (taken c)), w).
Proof. reflexivity. Qed.

(** The loop from [counter] with [fuel] rounds: it stops at the first free
    name, or runs out of fuel after trying [fuel] taken names. *)
Lemma unique_loop_run fuel counter :
  exists c, unique_loop fuel base counter w = (Ok c, w) /\
   ((exists i, counter <= i < counter + fuel /\ c = counter_command base i /\ ~ taken c /\
       forall j, counter <= j < i -> taken (counter_command base j)) \/
    (c = counter_command base (counter + fuel) /\
       forall j, counter <= j < counter + fuel -> taken (counter_command base j))).
Proof.
  revert counter. induction fuel as [|f IH]; intros counter; simpl.
  - eexists. split; [done|]. right. rewrite Nat.add_0_r. split; [done|lia].
  - unfold st_bind at 1. rewrite check_command_exists_run.
    case_bool_decide as Ht.
    + destruct (IH (S counter)) as (c & Hrun & Hc). exists c. split; [done|].
      destruct Hc as [(i & Hi & -> & Hf & Hj)|[-> Hj]].
      * left. exists i. split_and!; [lia..|done|done|]. intros j ?.
        destruct (decide (j = counter)) as [->|]; [done|]. apply Hj. lia.
      * right. rewrite Nat.add_succ_r. split; [done|]. intros j ?.
        destruct (decide (j = counter)) as [->|]; [done|]. apply Hj. lia.
    + eexists. split; [done|]. left. exists counter. split_and!; [lia..|done|done|intros; lia].
Qed.

(** The name of the file that makes [base<i>] taken. *)
Definition cmd_name (i : nat) : string := (os_path_split base).2 +:+ py_str_int (Z.of_nat i).

Lemma counter_command_name i : (os_path_split (counter_command base i)).2 = cmd_name i.
Proof.
  unfold counter_command, cmd_name. rewrite os_path_split_app; [done|].
  destruct (py_str_int_nat_digits i) as (c & t & -> & Hd).
  eapply str_forall_impl; [|exact Hd]. intros x Hx. apply negb_true_iff, bool_decide_eq_false.
  intros ->. by vm_compute in Hx.
Qed.
Lemma string_app_inj_l (s t1 t2 : string) : s +:+ t1 = s +:+ t2 -> t1 = t2.
Proof. induction s as [|c s IH]; [done|]. rewrite !string_app_cons. intros [= ?]. auto. Qed.

Lemma cmd_name_inj i j : cmd_name i = cmd_name j -> i = j.
Proof. unfold cmd_name, py_str_int. intros H%string_app_inj_l%(inj pretty). lia. Qed.

(** A name that ends with a digit is neither empty, nor ["."] nor [".."]. *)
Lemma cmd_name_proper i : cmd_name i <> EmptyString /\ cmd_name i <> "." /\ cmd_name i <> "..".
Proof.
  unfold cmd_name. destruct (py_str_int_nat_digits i) as (c & t & -> & Hd).
  simpl in Hd. apply andb_true_iff in Hd as [Hc _].
  destruct (os_path_split base).2 as [|x [|y [|z u]]]; rewrite ?string_app_nil_l, ?string_app_cons;
    split_and!; intros [=]; subst; try done; by vm_compute in Hc.
Qed.

Lemma taken_key i :
  taken (counter_command base i) -> exists k, k ∈ dom (w_fs w) /\ last k = Some (cmd_name i).
Proof.
  intros [fn Hw]. destruct (cmd_name_proper i) as (H1 & H2 & H3).
  edestruct which_found as (k & d & mode & Hk & Hl); [exact Hw | rewrite counter_command_name; done..|].
  exists k. split; [by apply elem_of_dom_2 in Hk|]. by rewrite counter_command_name in Hl.
Qed.

(** Pigeonhole: [n] taken names [base1] ... [base<n>] are [n] distinct
    entries of the file system. *)
Lemma taken_bound n :
  (forall j, 1 <= j < 1 + n -> taken (counter_command base j)) -> n <= size (w_fs w).
Proof.
  intros Ht.
  assert (Hks : exists ks, NoDup ks /\ List.length ks = n /\
            forall k, k ∈ ks -> k ∈ dom (w_fs w) /\ exists j, 1 <= j < 1 + n /\ last k = Some (cmd_name j)).
  { clear -Ht. induction n as [|n IH].
    - exists []. split_and!; [constructor|done|set_solver].
    - destruct IH as (ks & Hnd & Hlen & Hks); [intros j ?; apply Ht; lia|].
      destruct (taken_key (S n)) as (k & Hk & Hl); [apply Ht; lia|].
      exists (k :: ks). split_and!.
      + constructor; [|done]. intros (_ & j & Hj & Hl')%Hks. rewrite Hl in Hl'.
        injection Hl' as Heq%cmd_name_inj. lia.
      + simpl. lia.
      + intros k' [->|Hk']%elem_of_cons.
        * split; [done|]. exists (S n). split; [lia|done].
        * destruct (Hks k' Hk') as (? & j & ? & ?). split; [done|]. exists j. split; [lia|done]. }
  destruct Hks as (ks & Hnd & <- & Hks). rewrite <- size_dom, <- (size_list_to_set (C:=gset _) ks) by done.
  apply subseteq_size. intros k. rewrite elem_of_list_to_set. intros ?%Hks. tauto.
Qed.
End UniqueLoop.

(** C6: [get_unique_command(base)] returns, without touching the world,
    the first name of [base], [base1], [base2], ... that [shutil.which]
    does not find: the loop always stops (the fuel, the size of the file
    system plus one, is never exhausted). *)
Theorem get_unique_command_spec base w :
  exists c, get_unique_command base w = (Ok c, w) /\ ~ taken w c /\
    ((c = base) \/
     (taken w base /\ exists i, 1 <= i /\ c = counter_command base i /\
        forall j, 1 <= j < i -> taken w (counter_command base j))).
Proof.
  unfold get_unique_command, st_bind at 1. rewrite check_command_exists_run.
  case_bool_decide as Hb; simpl.
  - destruct (unique_loop_run base w (S (size (w_fs w))) 1) as (c & Hrun & Hc).
    exists c. split; [done|].
    destruct Hc as [(i & Hi & -> & Hf & Hj)|[-> Hj]].
    + split; [done|]. right. split; [done|]. exists i. split_and!; [lia|done|done].
    + exfalso. pose proof (taken_bound base w (S (size (w_fs w))) Hj). lia.
  - exists base. split_and!; [done..|by left].
Qed.
