(* ===== verification/Scenarios.v ===== *)
(** * Runs of the script on a concrete machine

    A user [u] with [HOME=/home/u], the working directory [/home/u],
    [PATH=/usr/bin:/home/u/.local/bin] and umask [022]; [/usr/bin/ls] is
    installed and [~/Downloads] holds [Foo-1.2.AppImage].  The runs below
    are computed by the model ([vm_compute]); they instantiate the
    general theorems (the [_witness] lemmas) and show the behaviours the
    findings of the development are about. *)

From S2P Require Import Prelude PyDict PyStr PyObj Json PyPath Fs FsWf FsPost Glob Io Config Commands Main Invariant Modes Registry PostState Sync Loops Argv Process RmError.

Definition fs0 : fs :=
  list_to_map [([], IDir); (["home"], IDir); (["home"; "u"], IDir);
               (["home"; "u"; "Downloads"], IDir);
               (["home"; "u"; "Downloads"; "Foo-1.2.AppImage"], IFile "ELF" 420);
               (["usr"], IDir); (["usr"; "bin"], IDir); (["usr"; "bin"; "ls"], IFile "" 493)].

Definition env0 : env := mkenv "/home/u" ["home"; "u"] (Some "/usr/bin:/home/u/.local/bin") 18.

(** The world before a run, with the lines the user will type. *)
Definition world0 (stdin : list string) : world := mkworld fs0 env0 stdin [].

(** The world after a run of [m]. *)
Definition after {A} (m : io A) (w : world) : world := snd (m w).

(** [appimage add Foo foo], confirming the only match with an empty line. *)
Definition w_added : world := after (main (CliAdd (Some "Foo") (Some "foo") None)) (world0 [""]).

Definition foo_record : pyval :=
  app_record "Foo" "/home/u/.appimages/Foo-1.2.AppImage"
             "/home/u/.local/share/applications/Foo.desktop" "/home/u/.local/bin/foo"
             "/home/u/Downloads/Foo-1.2.AppImage".

(** The spec's scenario: [add Foo foo] with [Foo-1.2.AppImage] in
    [~/Downloads] registers [foo], moves the bundle into [~/.appimages]
    with mode 755, and writes the [nohup] launcher [~/.local/bin/foo]. *)
Theorem add_foo_scenario :
  registry w_added = Ok (PDict [("foo", foo_record)]) /\
  fs_read_text (w_fs w_added) [] (path_of_string "/home/u/.local/bin/foo") =
    inr (add_launcher_text "/home/u/.appimages/Foo-1.2.AppImage") /\
  fs_lookup (w_fs w_added) [] (path_of_string "/home/u/.appimages/Foo-1.2.AppImage") =
    Some (IFile "ELF" 493) /\
  fs_exists (w_fs w_added) [] (path_of_string "/home/u/Downloads/Foo-1.2.AppImage") = false.
Proof. vm_compute. repeat split. Qed.

(** ** Findings, on the concrete machine *)

(** an empty answer to "Enter a new command" makes the command the
    empty string: the launcher path is [~/.local/bin] itself and opening it
    raises [IsADirectoryError] after the bundle was moved out of
    [~/Downloads] and the desktop entry written; the registry gets no
    record (exit status 1). *)
Theorem add_empty_command_partial_install :
  let r := main (CliAdd (Some "Foo") (Some "ls") None) (world0 [""; ""]) in
  r.1 = Raise (IsADirectoryError "/home/u/.local/bin") /\
  registry r.2 = Ok (PDict []) /\
  fs_exists (w_fs r.2) [] (path_of_string "/home/u/.appimages/Foo-1.2.AppImage") = true /\
  fs_exists (w_fs r.2) [] (path_of_string "/home/u/Downloads/Foo-1.2.AppImage") = false /\
  fs_exists (w_fs r.2) [] (path_of_string "/home/u/.local/share/applications/Foo.desktop") = true.
Proof. vm_compute. repeat split. Qed.

(** the launch command is not checked to be a name: with
    [../../.appimage_installer_config.json] the launcher path
    [~/.local/bin/../../.appimage_installer_config.json] is the registry
    file itself.  [add] writes the launcher script into it, makes it
    executable, and [save_config] then overwrites it with the registry:
    the run succeeds, the record names the registry file as its
    launcher, no launcher script exists, and the registry file is left
    with mode 0o755. *)
Theorem add_command_escapes_bin :
  let cmd := "../../.appimage_installer_config.json" in
  let r := main (CliAdd (Some "Foo") (Some cmd) None) (world0 [""]) in
  let launcher := "/home/u/.local/bin/" +:+ cmd in
  r.1 = Ok tt /\
  registry r.2 = Ok (PDict [(cmd, app_record "Foo" "/home/u/.appimages/Foo-1.2.AppImage"
                                  "/home/u/.local/share/applications/Foo.desktop" launcher
                                  "/home/u/Downloads/Foo-1.2.AppImage")]) /\
  lex_key [] (path_of_string launcher) = p_parts (config_path env0) /\
  fs_read_text (w_fs r.2) [] (path_of_string launcher) <> inr (add_launcher_text "/home/u/.appimages/Foo-1.2.AppImage") /\
  exists s, fs_lookup (w_fs r.2) [] (config_path env0) = Some (IFile s 493).
Proof. vm_compute. split_and!; [reflexivity..|discriminate|eexists; reflexivity]. Qed.

(** [~/Downloads] holds a new download with the name of the installed
    bundle. *)
Definition w_redownloaded : world :=
  with_fs w_added (<[["home"; "u"; "Downloads"; "Foo-1.2.AppImage"] := IFile "NEW" 420]> (w_fs w_added)).

(** [rm foo] when [~/Downloads] already has a file of the bundle's
    name: [shutil.move] raises after the desktop entry and the launcher
    were deleted, so the registry keeps a record whose launcher and
    desktop entry no longer exist. *)
Theorem remove_conflict_keeps_record :
  let r := main (CliRm "foo" false) w_redownloaded in
  r.1 = Raise (ShutilError "/home/u/Downloads/Foo-1.2.AppImage") /\
  registry r.2 = Ok (PDict [("foo", foo_record)]) /\
  fs_exists (w_fs r.2) [] (path_of_string "/home/u/.local/bin/foo") = false /\
  fs_exists (w_fs r.2) [] (path_of_string "/home/u/.local/share/applications/Foo.desktop") = false.
Proof. vm_compute. repeat split. Qed.

(** [~/Downloads] was removed after the install. *)
Definition w_no_downloads : world := with_fs w_added (delete ["home"; "u"; "Downloads"] (w_fs w_added)).

(** [rm foo] when [~/Downloads] does not exist renames the bundle to a
    file called [~/Downloads], and reports it moved to
    [~/Downloads/Foo-1.2.AppImage], which does not exist. *)
Theorem remove_without_downloads_dir :
  let r := main (CliRm "foo" false) w_no_downloads in
  r.1 = Ok tt /\
  fs_lookup (w_fs r.2) [] (path_of_string "/home/u/Downloads") = Some (IFile "ELF" 493) /\
  fs_exists (w_fs r.2) [] (path_of_string "/home/u/Downloads/Foo-1.2.AppImage") = false /\
  "Moved AppImage back to: /home/u/Downloads/Foo-1.2.AppImage" +:+ nl ∈ w_stdout r.2.
Proof. vm_compute. split_and!; [done..|]. repeat (first [left | right]). Qed.

(** A second bundle is downloaded after [foo] was installed. *)
Definition w_bar (stdin : list string) : world :=
  mkworld (<[["home"; "u"; "Downloads"; "Bar.AppImage"] := IFile "BAR" 420]> (w_fs w_added)) env0 stdin [].

(** [add Bar foo] answered with [force] replaces the record of [foo]:
    the bundle and the desktop entry of the first install stay on disk
    with no record pointing to them, and [foo] now launches [Bar]. *)
Theorem add_force_orphans_previous_install :
  let r := main (CliAdd (Some "Bar") (Some "foo") None) (w_bar [""; "force"]) in
  r.1 = Ok tt /\
  registry r.2 = Ok (PDict [("foo", app_record "Bar" "/home/u/.appimages/Bar.AppImage"
                                     "/home/u/.local/share/applications/Bar.desktop"
                                     "/home/u/.local/bin/foo" "/home/u/Downloads/Bar.AppImage")]) /\
  fs_exists (w_fs r.2) [] (path_of_string "/home/u/.appimages/Foo-1.2.AppImage") = true /\
  fs_exists (w_fs r.2) [] (path_of_string "/home/u/.local/share/applications/Foo.desktop") = true.
Proof. vm_compute. repeat split. Qed.

(** [bar] is installed next to [foo]. *)
Definition w_two : world := after (main (CliAdd (Some "Bar") (Some "bar") None)) (w_bar [""]).

(** [edit foo bar] when [bar] is already registered: [os.rename]
    replaces [bar]'s launcher with [foo]'s, and [config["bar"] = app_info]
    replaces [bar]'s record, so [bar] now launches [Foo] and the bundle
    and desktop entry of [Bar] stay on disk with no record pointing to
    them; the command reports success. *)
Theorem edit_onto_registered_orphans :
  let r := main (CliEdit "foo" "bar") w_two in
  registry w_two = Ok (PDict [("foo", foo_record);
     ("bar", app_record "Bar" "/home/u/.appimages/Bar.AppImage" "/home/u/.local/share/applications/Bar.desktop"
                        "/home/u/.local/bin/bar" "/home/u/Downloads/Bar.AppImage")]) /\
  r.1 = Ok tt /\
  registry r.2 = Ok (PDict [("bar", app_record "Foo" "/home/u/.appimages/Foo-1.2.AppImage"
                                     "/home/u/.local/share/applications/Foo.desktop"
                                     "/home/u/.local/bin/bar" "/home/u/Downloads/Foo-1.2.AppImage")]) /\
  fs_read_text (w_fs r.2) [] (path_of_string "/home/u/.local/bin/bar") =
    inr (edit_launcher_text "/home/u/.appimages/Foo-1.2.AppImage") /\
  fs_exists (w_fs r.2) [] (path_of_string "/home/u/.appimages/Bar.AppImage") = true /\
  fs_exists (w_fs r.2) [] (path_of_string "/home/u/.local/share/applications/Bar.desktop") = true.
Proof. vm_compute. repeat split. Qed.

(** The spec's scenario: [add ls] on a machine with [/usr/bin/ls]; the
    user answers [force], the launcher [~/.local/bin/ls] shadows [ls] and
    a warning is printed. *)
Theorem add_ls_force_scenario :
  let r := main (CliAdd (Some "Foo") (Some "ls") None) (world0 [""; "force"]) in
  r.1 = Ok tt /\
  "Warning: Replacing existing command." +:+ nl ∈ w_stdout r.2 /\
  fs_read_text (w_fs r.2) [] (path_of_string "/home/u/.local/bin/ls") =
    inr (add_launcher_text "/home/u/.appimages/Foo-1.2.AppImage") /\
  dict_keys (match registry r.2 with Ok (PDict d) => d | _ => [] end) = ["ls"].
Proof. vm_compute. split_and!; [done| |done..]. repeat (first [left | right]). Qed.

(** The spec's scenario: [rm foo -d] deletes the bundle, the launcher and
    the desktop entry, and [foo] is no longer registered. *)
Theorem remove_delete_scenario :
  let r := main (CliRm "foo" true) w_added in
  r.1 = Ok tt /\ registry r.2 = Ok (PDict []) /\
  fs_exists (w_fs r.2) [] (path_of_string "/home/u/.appimages/Foo-1.2.AppImage") = false /\
  fs_exists (w_fs r.2) [] (path_of_string "/home/u/.local/bin/foo") = false /\
  fs_exists (w_fs r.2) [] (path_of_string "/home/u/.local/share/applications/Foo.desktop") = false.
Proof. vm_compute. repeat split. Qed.

(** ** The general theorems at this machine *)

Definition d_added : dict string pyval := [("foo", foo_record)].

Lemma registry_added : registry w_added = Ok (PDict d_added).
Proof. vm_compute. reflexivity. Qed.

Lemma remove_appimage_registry_witness :
  registry w_added = Ok (PDict d_added) /\ dict_contains d_added "foo" = true /\
  remove_appimage "foo" false w_added = (Ok tt, after (remove_appimage "foo" false) w_added) /\
  (registry (after (remove_appimage "foo" false) w_added) = Ok (PDict (dict_remove d_added "foo")) /\
   to_gmap (dict_remove d_added "foo") = reg_remove (to_gmap d_added) "foo").
Proof.
  assert (H1 : registry w_added = Ok (PDict d_added)) by (vm_compute; reflexivity).
  assert (H2 : dict_contains d_added "foo" = true) by reflexivity.
  assert (H3 : remove_appimage "foo" false w_added = (Ok tt, after (remove_appimage "foo" false) w_added))
    by (vm_compute; reflexivity).
  refine (conj H1 (conj H2 (conj H3 _))).
  exact (remove_appimage_registry "foo" false _ _ _ H1 H2 H3).
Defined.

Lemma edit_command_renames_witness :
  "foo" <> "bar" /\ registry w_added = Ok (PDict d_added) /\ dict_get d_added "foo" = Some foo_record /\
  edit_command "foo" "bar" w_added = (Ok tt, after (edit_command "foo" "bar") w_added) /\
  exists r lp d', foo_record = PDict r /\ dict_get r "launcher_path" = Some (PStr lp) /\
    registry (after (edit_command "foo" "bar") w_added) = Ok (PDict d') /\
    to_gmap d' = reg_rename (to_gmap d_added) "foo" "bar" (edited_record r lp "bar").
Proof.
  assert (H0 : "foo" <> "bar") by discriminate.
  assert (H1 : registry w_added = Ok (PDict d_added)) by (vm_compute; reflexivity).
  assert (H2 : dict_get d_added "foo" = Some foo_record) by reflexivity.
  assert (H3 : edit_command "foo" "bar" w_added = (Ok tt, after (edit_command "foo" "bar") w_added))
    by (vm_compute; reflexivity).
  refine (conj H0 (conj H1 (conj H2 (conj H3 _)))).
  exact (edit_command_renames "foo" "bar" _ _ _ _ H0 H1 H2 H3).
Defined.

Lemma edit_same_command_loses_record_witness :
  registry w_added = Ok (PDict d_added) /\ dict_get d_added "foo" = Some foo_record /\
  edit_command "foo" "foo" w_added = (Ok tt, after (edit_command "foo" "foo") w_added) /\
  (registry (after (edit_command "foo" "foo") w_added) = Ok (PDict (dict_remove d_added "foo")) /\
   dict_contains (dict_remove d_added "foo") "foo" = false /\
   to_gmap (dict_remove d_added "foo") = reg_remove (to_gmap d_added) "foo").
Proof.
  assert (H1 : registry w_added = Ok (PDict d_added)) by (vm_compute; reflexivity).
  assert (H2 : dict_get d_added "foo" = Some foo_record) by reflexivity.
  assert (H3 : edit_command "foo" "foo" w_added = (Ok tt, after (edit_command "foo" "foo") w_added))
    by (vm_compute; reflexivity).
  refine (conj H1 (conj H2 (conj H3 _))).
  exact (edit_same_command_loses_record "foo" _ _ _ _ H1 H2 H3).
Defined.

Lemma add_appimage_registry_witness :
  let args := mk_add_args (Some "Foo") (Some "foo") None in
  registry (world0 [""]) = Ok (PDict []) /\
  add_appimage args (world0 [""]) = (Ok tt, after (add_appimage args) (world0 [""])) /\
  exists cmd name newp orig,
    let r := app_record name newp (path_str (desktop_path env0 // (name +:+ ".desktop")))
                        (path_str (bin_path env0 // cmd)) orig in
    registry (after (add_appimage args) (world0 [""])) = Ok (PDict (dict_setitem [] cmd r)) /\
    to_gmap (dict_setitem [] cmd r) = reg_assign (to_gmap []) cmd r.
Proof.
  cbv zeta.
  assert (H1 : registry (world0 [""]) = Ok (PDict [])) by (vm_compute; reflexivity).
  assert (H2 : add_appimage (mk_add_args (Some "Foo") (Some "foo") None) (world0 [""]) =
               (Ok tt, after (add_appimage (mk_add_args (Some "Foo") (Some "foo") None)) (world0 [""])))
    by (vm_compute; reflexivity).
  refine (conj H1 (conj H2 _)).
  exact (add_appimage_registry _ _ _ _ H1 H2).
Defined.

(** [Foo-1.2] installed as [foo-1.2], then the registry file lost: [sync]
    finds the installation again. *)
Definition w_unregistered : world :=
  let w := after (main (CliAdd (Some "Foo-1.2") (Some "foo-1.2") None)) (world0 [""]) in
  with_fs w (delete ["home"; "u"; ".appimage_installer_config.json"] (w_fs w)).

Example sync_recovers :
  registry (after sync_appimages w_unregistered) =
  Ok (PDict [("foo-1.2", app_record "Foo-1.2" "/home/u/.appimages/Foo-1.2.AppImage"
                            "/home/u/.local/share/applications/Foo-1.2.desktop"
                            "/home/u/.local/bin/foo-1.2" "Unknown")]).
Proof. vm_compute. reflexivity. Qed.

Lemma sync_appimages_only_adds_witness :
  registry w_unregistered = Ok (PDict []) /\
  sync_appimages w_unregistered = (Ok tt, after sync_appimages w_unregistered) /\
  exists d', registry (after sync_appimages w_unregistered) = Ok (PDict d') /\
    reg_sync_extends (to_gmap (@nil (string * pyval))) (to_gmap d').
Proof.
  assert (H1 : registry w_unregistered = Ok (PDict [])) by (vm_compute; reflexivity).
  assert (H2 : sync_appimages w_unregistered = (Ok tt, after sync_appimages w_unregistered))
    by (vm_compute; reflexivity).
  refine (conj H1 (conj H2 _)). exact (sync_appimages_only_adds _ _ _ H1 H2).
Defined.

Lemma remove_appimage_missing_witness :
  registry w_added = Ok (PDict d_added) /\ py_in "bar" (PDict d_added) = inr false /\
  remove_appimage "bar" false w_added =
  (Ok tt, write_out w_added ("No AppImage installation found for command '" +:+ "bar" +:+ "'" +:+ nl)).
Proof.
  assert (H1 : registry w_added = Ok (PDict d_added)) by (vm_compute; reflexivity).
  assert (H2 : py_in "bar" (PDict d_added) = inr false) by reflexivity.
  refine (conj H1 (conj H2 _)). exact (remove_appimage_missing "bar" false _ _ H1 H2).
Defined.

(** Two bundles match [F]; the user types [x], then [3], then [2]. *)
Definition two_images : list path :=
  [path_of_string "/home/u/Downloads/Foo-1.2.AppImage"; path_of_string "/home/u/Downloads/Foo-2.0.AppImage"].

Lemma choose_loop_enough_fuel_witness :
  rounds_bound (world0 ["x"; "3"; "2"]) <= 10 /\
  choose_loop 10 two_images (world0 ["x"; "3"; "2"]) =
    choose_loop (rounds_bound (world0 ["x"; "3"; "2"])) two_images (world0 ["x"; "3"; "2"]) /\
  fst (choose_loop 4 two_images (world0 ["x"; "3"; "2"])) = Ok "/home/u/Downloads/Foo-2.0.AppImage".
Proof.
  assert (H1 : rounds_bound (world0 ["x"; "3"; "2"]) <= 10) by (unfold rounds_bound; simpl; lia).
  split_and!; [exact H1 | exact (choose_loop_enough_fuel 10 two_images _ H1) | vm_compute; reflexivity].
Defined.

Lemma save_load_config_witness :
  pyval_wf (PDict d_added) /\
  save_config (PDict d_added) (world0 []) = (Ok tt, after (save_config (PDict d_added)) (world0 [])) /\
  load_config (after (save_config (PDict d_added)) (world0 [])) =
    (Ok (PDict d_added), after (save_config (PDict d_added)) (world0 [])).
Proof.
  assert (H1 : pyval_wf (PDict d_added)) by (vm_compute; repeat constructor; set_solver).
  assert (H2 : save_config (PDict d_added) (world0 []) = (Ok tt, after (save_config (PDict d_added)) (world0 [])))
    by (vm_compute; reflexivity).
  split_and!; [exact H1 | exact H2 | exact (save_load_config _ _ _ H1 H2)].
Defined.

(** [add Foo] with the only match declined by [N]. *)
Lemma add_nothing_selected_exits_witness :
  (run (CliAdd (Some "Foo") None None) (world0 ["N"])).1 = 1%Z /\
  w_fs (run (CliAdd (Some "Foo") None None) (world0 ["N"])).2 = w_fs (world0 ["N"]).
Proof.
  apply add_nothing_selected_exits; [discriminate|right].
  exists (path_child (downloads_path env0) "Foo-1.2.AppImage"), "N", [].
  split; [vm_compute; reflexivity|split; reflexivity].
Defined.

Lemma plain_home0 : plain_path (home_path env0).
Proof. split_and!; [discriminate|reflexivity|repeat constructor; discriminate]. Qed.

Lemma add_appimage_installs_witness :
  let args := mk_add_args (Some "Foo") (Some "foo") None in
  let w := world0 [""] in
  let w' := after (add_appimage args) w in
  fs_wf (w_fs w) /\ plain_path (home_path (w_env w)) /\ registry w = Ok (PDict []) /\
  add_appimage args w = (Ok tt, w') /\
  exists cmd name orig,
    let e := w_env w in
    let bundle := appimages_path e // path_name (path_of_string orig) in
    let desk := desktop_path e // (name +:+ ".desktop") in
    let launcher := bin_path e // cmd in
    registry w' = Ok (PDict (dict_setitem [] cmd
                      (app_record name (path_str bundle) (path_str desk) (path_str launcher) orig))) /\
    fs_exists (w_fs w') (w_cwd w') launcher = true /\
    fs_exists (w_fs w') (w_cwd w') desk = true /\
    (path_name (path_of_string orig) <> ".." -> fs_exists (w_fs w') (w_cwd w') bundle = true).
Proof.
  intros args w w'.
  assert (H1 : fs_wf (w_fs w)) by (apply (bool_decide_unpack _); vm_compute; reflexivity).
  assert (H3 : registry w = Ok (PDict [])) by (vm_compute; reflexivity).
  assert (H4 : add_appimage args w = (Ok tt, w')) by (vm_compute; reflexivity).
  exact (conj H1 (conj plain_home0 (conj H3 (conj H4 (add_appimage_installs args w w' [] H1 plain_home0 H3 H4))))).
Defined.

Lemma remove_appimage_moves_back_witness :
  let w' := after (remove_appimage "foo" false) w_added in
  let B := path_of_string "/home/u/.appimages/Foo-1.2.AppImage" in
  fs_exists (w_fs w') (w_cwd w') (downloads_path (w_env w_added) // path_name B) = true /\
  fs_exists (w_fs w') (w_cwd w') B = false /\
  registry w' = Ok (PDict (dict_remove d_added "foo")).
Proof.
  intros w' B.
  refine (remove_appimage_moves_back "foo" w_added w' d_added foo_record
            "/home/u/.local/share/applications/Foo.desktop" "/home/u/.local/bin/foo"
            "/home/u/.appimages/Foo-1.2.AppImage" _ _ _ _ _ registry_added _ _ _ _ _ _ _ _ _ _);
    try unfold plain_path; try (apply (bool_decide_unpack _)); vm_compute; reflexivity.
Defined.

Lemma choose_loop_answers_witness :
  let w := world0 ["x"; "7"; "2"; "rest"] in
  exists w', choose_loop (rounds_bound w) two_images w =
               (Ok (path_str (nth (Z.to_nat 2 - 1) two_images (mkpath "" []))), w') /\ w_stdin w' = ["rest"].
Proof.
  intros w. apply (choose_loop_answers two_images w ["x"; "7"] "2" ["rest"] 2%Z);
    [reflexivity|repeat constructor|reflexivity].
Defined.

Lemma edit_command_moves_launcher_witness :
  let w' := after (edit_command "foo" "bar") w_added in
  fs_exists (w_fs w') (w_cwd w') (path_parent (path_of_string "/home/u/.local/bin/foo") // "bar") = true /\
  fs_exists (w_fs w') (w_cwd w') (path_of_string "/home/u/.local/bin/foo") = false.
Proof.
  intros w'.
  refine (edit_command_moves_launcher "foo" "bar" w_added w' d_added foo_record "/home/u/.local/bin/foo"
            _ _ _ _ registry_added _ _ _ _ _);
    try unfold plain_path; try (apply (bool_decide_unpack _)); vm_compute; reflexivity.
Defined.

(** [sync] twice from the world where [foo-1.2] is installed but not
    registered: the first run registers it, the second changes nothing. *)
Lemma sync_appimages_idempotent_witness :
  let w1 := after sync_appimages w_unregistered in
  let w2 := after sync_appimages w1 in
  registry w2 = registry w1.
Proof.
  intros w1 w2.
  refine (sync_appimages_idempotent w_unregistered w1 w2 [] _ _ _ _ _);
    try unfold plain_path; try (apply (bool_decide_unpack _)); vm_compute; reflexivity.
Defined.

(** [edit foo bar] after [~/.local/bin/foo] was deleted by hand. *)
Lemma edit_command_missing_launcher_witness :
  let w := with_fs w_added (delete ["home"; "u"; ".local"; "bin"; "foo"] (w_fs w_added)) in
  exists e, edit_command "foo" "bar" w = (Raise e, w) /\ exists s, e = FileNotFoundError s \/ e = NotADirectoryError s.
Proof.
  intros w. refine (edit_command_missing_launcher "foo" "bar" w d_added foo_record "/home/u/.local/bin/foo" _ _ _ _);
    vm_compute; reflexivity.
Defined.

Lemma list_appimages_prints_witness :
  exists w', list_appimages false w_added = (Ok tt, w') /\ w_fs w' = w_fs w_added /\
    w_stdout w' = w_stdout w_added ++ map (fun kv => list_line kv +:+ nl) d_added ++
                  ["List of all installed AppImages" +:+ nl].
Proof.
  refine (list_appimages_prints w_added d_added registry_added _ _);
    [discriminate | repeat constructor; eexists; reflexivity].
Defined.

(** [rm foo] after the user deleted the three files of [foo] by hand. *)
Definition w_files_gone : world :=
  with_fs w_added (delete ["home"; "u"; ".local"; "share"; "applications"; "Foo.desktop"]
                    (delete ["home"; "u"; ".local"; "bin"; "foo"]
                      (delete ["home"; "u"; ".appimages"; "Foo-1.2.AppImage"] (w_fs w_added)))).

Lemma remove_appimage_missing_files_witness :
  exists w', remove_appimage "foo" false w_files_gone = (Ok tt, w') /\
             registry w' = Ok (PDict (dict_remove d_added "foo")).
Proof.
  refine (remove_appimage_missing_files "foo" false w_files_gone d_added foo_record
            "/home/u/.local/share/applications/Foo.desktop" "/home/u/.local/bin/foo"
            "/home/u/.appimages/Foo-1.2.AppImage" _ _ _ _ _ _ _ _); vm_compute; reflexivity.
Defined.

(** [rm foo -d] typed on the command line, after [add Foo foo]. *)
Lemma script_refines_main_witness :
  cli_plain (CliRm "foo" true) = true /\
  script (argv_of (CliRm "foo" true)) w_added = main (CliRm "foo" true) w_added.
Proof. split; [reflexivity|]. apply script_refines_main. reflexivity. Defined.

Lemma unknown_command_exits_witness :
  arg_plain "install" = true /\ ("install" ∉ dict_keys sub_parsers) /\
  run_argv ["install"; "Foo"] w_added = (2%Z, w_added).
Proof.
  assert (Hk : "install" ∉ dict_keys sub_parsers) by (apply (bool_decide_unpack _); vm_compute; exact I).
  split; [reflexivity|]. split; [exact Hk|]. apply unknown_command_exits; [reflexivity|exact Hk].
Defined.

Lemma parse_args_command_witness :
  parse_args ["list"; "-v"] = inr [("command", VStr "list"); ("verbose", VBool true)] /\
  exists name acts, dict_get sub_parsers name = Some acts /\
    ns_get [("command", VStr "list"); ("verbose", VBool true)] "command" = VStr name.
Proof. split; [vm_compute; reflexivity|]. apply (parse_args_command ["list"; "-v"]). vm_compute. reflexivity. Defined.

(** [--he], an abbreviation of [--help], before a sub-command. *)
Lemma help_exits_witness :
  (run_argv ["--he"; "rm"; "foo"] (world0 [])).1 = 0%Z /\
  w_fs (run_argv ["--he"; "rm"; "foo"] (world0 [])).2 = w_fs (world0 []) /\
  w_stdin (run_argv ["--he"; "rm"; "foo"] (world0 [])).2 = w_stdin (world0 []).
Proof. apply help_exits. right; right; left; reflexivity. Defined.

(** [add Foo -i icon.png foo]. *)
Lemma add_option_between_positionals_witness :
  run_argv ["add"; "Foo"; "-i"; "icon.png"; "foo"] (world0 []) = (2%Z, world0 []).
Proof. apply add_option_between_positionals; [reflexivity..|left; reflexivity]. Defined.

(** [add Foo foo] under the umask [0o777]: [open] creates the launcher
    with mode 0, and [chmod] makes it [0o755]. *)
Lemma add_launcher_executable_witness :
  let args := mk_add_args (Some "Foo") (Some "foo") None in
  let w := mkworld fs0 (mkenv "/home/u" ["home"; "u"] (Some "/usr/bin:/home/u/.local/bin") 511) [""] [] in
  let w' := after (add_appimage args) w in
  registry w = Ok (PDict []) /\ add_appimage args w = (Ok tt, w') /\
  exists cmd rec, registry w' = Ok (PDict (dict_setitem [] cmd rec)) /\
    py_getitem rec "launcher_path" = inr (PStr (path_str (bin_path (w_env w) // cmd))) /\
    file_mode w' (bin_path (w_env w) // cmd) = Some 493%Z.
Proof.
  intros args w w'.
  assert (H1 : registry w = Ok (PDict [])) by (vm_compute; reflexivity).
  assert (H2 : add_appimage args w = (Ok tt, w')) by (vm_compute; reflexivity).
  exact (conj H1 (conj H2 (add_launcher_executable args w w' [] H1 H2))).
Defined.

(** [rm foo] with a new download of the bundle's name in [~/Downloads]:
    [shutil.move] raises, and [foo] is still registered. *)
Lemma remove_error_keeps_registry_witness :
  let r := remove_appimage "foo" false w_redownloaded in
  r.1 = Raise (ShutilError "/home/u/Downloads/Foo-1.2.AppImage") /\ registry r.2 = Ok (PDict [("foo", foo_record)]).
Proof.
  intros r. assert (Hr : r = (Raise (ShutilError "/home/u/Downloads/Foo-1.2.AppImage"), r.2)) by (vm_compute; reflexivity).
  split; [by rewrite Hr|].
  apply (remove_error_keeps_registry "foo" false w_redownloaded r.2 (ShutilError "/home/u/Downloads/Foo-1.2.AppImage")
           [("foo", foo_record)] foo_record "/home/u/.local/share/applications/Foo.desktop" "/home/u/.local/bin/foo"
           "/home/u/.appimages/Foo-1.2.AppImage").
  - apply (bool_decide_unpack _). vm_compute. reflexivity.
  - exact plain_home0.
  - vm_compute. reflexivity.
  - reflexivity.
  - reflexivity.
  - reflexivity.
  - reflexivity.
  - repeat constructor; apply (bool_decide_unpack _); vm_compute; exact I.
  - vm_compute. discriminate.
  - exact Hr.
Defined.
